(* ===== verification/_CoqProject ===== *)
-Q . S2P
Prelude.v
RustStr.v
Effects.v
Interleave.v
Constants.v
Json.v
Crd.v
Ranges.v
TaintValidation.v
Externals.v
KubeApi.v
Samples.v
Metrics.v
Registry.v
Validation.v
Duration.v
LoopProtection.v
Labels.v
SpotSchedule.v
Status.v
Capi.v
Drain.v
NodeTaints.v
ChildClient.v
Emergency.v
Finalizer.v
Provision.v
Assignment.v
Phases.v
Reconcile.v
Bounded.v
Confinement.v
Footprint.v
Ledger.v
Deletion.v
Lifecycle.v
Safety.v
SpotWatch.v
ChildWatch.v
Isolation.v
Watchers.v
Providers.v
Netlink.v
NetlinkSocket.v
ReclaimAgent.v
Fs.v
KataAgent.v
KataSafety.v
KataProgress.v
Processes.v
Vex.v
VexTools.v
Convergence.v
EndToEnd.v
Reclaim.v
ApiDoc.v
Startup.v
AgentLoop.v
AgentThreads.v
Schemas.v
