(* ===== verification/Prelude.v ===== *)
(** * 5-Spot: a verification of the spot-machine controller

    5-Spot is a Kubernetes controller written in Rust.  A [ScheduledMachine]
    names a cluster, two embedded Cluster API (CAPI) templates and a schedule
    provider; while the provider says so, the controller keeps a CAPI Machine
    in existence, and outside of that it drains the node and removes the
    Machine.  This library translates the controller's decision logic into
    Gallina definitions and proves what makes it correct.  Paths below are
    relative to the root of the repository ([src/] is the crate's source).

    ** The program and its model

    The controller is asynchronous code around an API server it does not own:
    between two requests it computes, and at each request anything may be
    answered and anyone may have changed the cluster.  [Effects] models such
    code as a finite tree ([prog]) of calls ([KubeApi.call_t]: API requests,
    clocks, environment, metrics, the critical sections of the controller's
    mutexes) that branches on the reply.  Everything about an effectful
    function is therefore proved for every reply at every call:
      - [wp p P]: every run ends, with a trace and a result in [P];
      - [calls P p]: every call of every run is in [P];
      - [mon step s p P]: the automaton [step] accepts every run from [s] (the
        ordering contracts);
      - [exec p t r]: [p] can perform the trace [t] and return [r] (the
        hypothesis form, for theorems that relate several runs);
      - [hoare after I s p Q]: in an environment whose state changes as [after]
        says, [I] holds of the state at every call and [Q] at the end; with
        [reaches] (the run stopped inside a call) it speaks of crashes.
    A tree is finite, so every function modelled in it terminates; the loops of
    the code (eviction, validation, deque trimming) are structural recursions
    on the list they walk; [Bounded] bounds the number of calls of a reconcile.
    The agents and the start-up have calls of their own
    ([KataAgent.host_call], [AgentLoop.agent_call], [Startup.start_call],
    [Watchers.watch_call], [Processes.proc_call], [NetlinkSocket.sock_call],
    [VexTools.tool_call]); [embed] runs a program of API calls inside them.
    [KubeApi.ok_handler] is a concrete environment in which a program evaluates
    ([run]); the witnesses use it.

    The controller runs the reconciles of different machines as concurrent
    tasks of one process.  [Interleave] is that: a pool of programs that start,
    make one call or are dropped, in any order, over one shared state, with the
    rely-guarantee rule [pool_run_ok] (a program that keeps to its calls while
    the state vouches for its replies keeps to them in any pool) and an
    executable scheduler ([play]).

    One file per part of the code:
      - [RustStr]: [str] as byte strings, and the functions used on it ([trim],
        [split], [split_once], [parse]); [Json]: [serde_json::Value], its
        accessors, and JSON merge patch (RFC 7386), which the status, label and
        annotation theorems apply to an arbitrary stored object;
      - [Externals]: third-party code as parameters; [KubeApi]: the calls, the
        objects read through them, [ReconcilerError] and [Context];
        [Metrics] and [Registry]: [src/metrics.rs], what is recorded and how
        the families come into being;
      - [Constants], [Labels], [Crd]: [src/constants.rs], [src/labels.rs] and
        the types of [src/crd.rs]; [Ranges]: [parse_day_ranges] and
        [parse_hour_ranges]; [TaintValidation]: [validate_node_taints];
      - [Validation], [Duration], [Status], [Capi], [Drain], [NodeTaints],
        [Emergency], [Finalizer], [Provision], [Assignment]: the sections of
        [src/reconcilers/helpers.rs];
      - [LoopProtection]: [src/loop_protection.rs]; [SpotSchedule]:
        [src/reconcilers/spot_schedule.rs]; [ChildClient]:
        [src/reconcilers/child_client.rs];
      - [Phases] and [Reconcile]: [src/reconcilers/scheduled_machine.rs], from
        the phase handlers to [reconcile_scheduled_machine];
      - around the reconciler: [SpotWatch] and [ChildWatch]
        ([src/reconcilers/spot_schedule_watch.rs], [child_watch.rs]), which
        decide what wakes a reconcile, and [Watchers], the tasks they start;
        [Providers] ([src/providers/]), whose
        published status is what [SpotSchedule] reads; [ReclaimAgent]
        ([src/reclaim_agent.rs] and the decisions of its binary), which reads
        the ConfigMap that [Provision] writes and sets the annotation that
        [Emergency] reads; [Netlink] and [NetlinkSocket]
        ([src/netlink_proc.rs]), the wire format of its process events and the
        socket they come from;
      - the processes: [Startup] ([src/main.rs], [src/health.rs]),
        [AgentLoop] ([src/bin/reclaim_agent.rs]: start-up, configuration
        watcher, both detection loops, around [ReclaimAgent] and [Netlink]),
        [AgentThreads] (its netlink detector again, as the task and the receive
        threads it is, a step relation over their interleavings) and
        [Processes] (the Kata agent's loop, the two providers, the metrics
        endpoint they all serve, and the CRD generator);
      - [ApiDoc] ([src/bin/crddoc.rs]): the text of the API reference;
      - [KataAgent] ([src/kata_config_agent.rs], [src/bin/kata_config_agent.rs]),
        over the paths of [Fs]; it reads the annotation [Provision] writes;
      - [Schemas]: the admission schemas of [src/crd.rs], and what they admit;
      - [Vex] ([src/auto_vex_presence.rs], [src/auto_vex_reachability.rs]) and
        [VexTools], the two command-line tools around it ([src/bin/]).
    Thirteen more files hold no code, only what is proved of the whole:
    [Bounded], [Confinement], [Footprint], [Ledger], [Deletion], [Lifecycle],
    [Safety], [Convergence] and [Isolation] of the reconciler, [EndToEnd] of the
    reconciler and the providers, [Reclaim] of the reconciler and the reclaim
    agent, [KataSafety] and [KataProgress] of the Kata
    agent.

    ** Correspondence

    A definition has the name of the Rust item it translates.  A function that
    awaits returns [M (rresult A)]; [x <-? p ;; k] is [let x = p.await?; k].
    The record of a struct has its fields in the order of the struct; where a
    serialised form matters (status patches, events, server-side applies) it is
    the [_json] definition of the type, with the fields [serde] skips when they
    are absent.  Pieces of a long function that are named apart
    ([Capi.machine_object], [Phases.enrich_status], [ChildClient.cache_insert],
    ...) are contiguous pieces of it.  [DateTime<Utc>] and [Duration] are
    nanoseconds in [Z] where the code compares them so; [u32] and [u64]
    arithmetic that can wrap, saturate or be checked is written out
    ([Assignment.wrap64], [Duration.checked_mul], [Duration.retry_incr],
    [Duration.saturating_mul_u64]).

    Clients are values ([KubeApi.client]): the management client, or one built
    from a kubeconfig; so "which cluster does this call reach" is a property of
    the trace.  The reconciler's other components see the client cache only
    through the class [ChildClient.ChildResolver] and its laws
    ([ResolverLaws]), which [ChildClient.cache_resolver_laws] discharges for
    the implementation; [EndToEnd] sees the providers through
    [EndToEnd.SpotProvider] and its laws, discharged for both.  The mutable
    maps of [Context] (retry counters, recent reclaims, client cache) are
    behind calls; what each critical section does to its map is a pure
    function proved apart ([Duration.retry_incr],
    [LoopProtection.record_emergency_reclaim_event],
    [ChildClient.cache_lookup], [ChildClient.cache_insert]).

    [tokio::time::timeout] ([Finalizer.with_timeout]) may expire while any call
    is in flight: the call has been made, its reply is dropped with the rest of
    the future.

    ** What is proved

      - Lifecycle.  [Lifecycle.reconcile_refines_lifecycle]: every reconcile
        refines the abstract phase machine [Lifecycle.transition].
        [Footprint.reconcile_footprint]: what the given object allows a
        reconcile to do.  [Safety]: leadership and sharding come before any
        effect, creation needs a cause in the same reconcile, the grace period,
        shutdown waiting for it, and the re-entry of an interrupted reclaim.
        [Convergence.machine_converges]: while nobody changes their mind, three
        productive reconciles bring the machine where it is wanted, whatever
        fails in between; [EndToEnd.machine_follows_schedule]: so it does while
        the schedule of its provider stays as it is, until the transition the
        provider has announced.  [Bounded.reconcile_terminates]: each of them returns
        after at most 53 calls and three per pod listed.
        [Ledger.lived_accounted]: over the whole life of a machine, no CAPI
        object is left without the finalizer and the phase that lead to its
        removal, as long as no reconcile reports a failure or works on an older
        copy; and
        [Ledger.lost_write_orphans], [Ledger.stale_copy_orphans]: one lost status
        write, or one reconcile on an older copy, is enough to break that.
        [Deletion.deletion_completes]: however many attempts to delete a machine
        have failed, the first whose calls are answered leaves neither finalizer
        nor objects of a life as in [Ledger].  [Reclaim.match_disables_machine]: a match of the reclaim
        agent takes the machine out of service, whatever the drain does.
      - Confinement.  [Confinement.reconcile_confined]: on the management cluster
        a reconcile writes only the machine and, in its namespace, the objects
        under its name (Node operations apart, which go to the workload cluster
        the machine designates, the management cluster if it names none); [ChildClient.child_resolution_fail_closed]: no
        fall-back to the management cluster on a failure;
        [Isolation.reconciles_isolated]: with any number of reconciles running
        at once over the shared client cache, each still reaches only the
        clusters of the Secret its machine designates.
      - Removal.  [Emergency.emergency_ordering] (which runs the automaton of
        [Drain.drain_node_discipline], the cordon, listing and evictions of one
        node through one client, inside its own),
        [Finalizer.handle_deletion_finalizer],
        [Finalizer.handle_kill_switch_removes_first]: objects go before the
        record of them does; [Capi]: the creation protocol, and removal as its
        inverse.
      - State.  [Status]: a phase write owns its fields and no other, and
        hold-last-state; [NodeTaints]: convergence and ownership of the
        three-way diff; [Provision]: agent labels, ConfigMaps and the Kata
        reference; [ChildClient.cache_is_lru]: the client cache, over any history
        of accesses, gives up the client used longest ago; the rapid-re-reclaim
        deque.
      - Input.  [Ranges], [TaintValidation], [Validation], [Duration]: the
        parsers and validators against declarative grammars; [Assignment]: the
        machines are partitioned over the instances.
      - The interfaces between the processes, each proved from the writer to
        the reader: [Providers.providers_publish_contract] (provider status to
        verdict), [ReclaimAgent.reclaim_handshake] (ConfigMap to agent, and its
        annotation to the reclaim), [Watchers.provider_watcher_wakes_referrers]
        (provider event to the machines whose reconcile reads it),
        [ChildWatch.watchers_follow_cache] (client cache to Node watchers).
        [KataProgress.kata_handshake] (node annotation to Kata agent and back).
        And within them: [Providers.provider_windows] and
        [Providers.next_transition_spec], [Netlink.netlink_frames],
        [NetlinkSocket.subscriber_sound], [Registry.families_register],
        [ReclaimAgent.annotate_node_identity].
      - The processes.  [Startup.startup_gated]: nothing runs before what it
        needs; [AgentLoop.agent_reclaims_on_evidence]: one write at most, for a
        match, on the agent's own node; [AgentThreads.receive_threads_refine]:
        the threads of its netlink detector, abandoned ones included, have no
        effect the sequential loop has not; [Processes.kata_process].
      - The Kata agent, which writes to the host as root.  [KataSafety]: a crash
        at any point leaves a whole file, no restart without new content, no
        write outside the drop-in directory; [KataProgress.kata_converges].
      - Admission.  [Schemas.admitted_spec_is_valid]: what the schemas leave to
        the runtime checks.  The build tools: [VexTools.vex_tools_exact] (one
        document or none, with exactly the statements its inputs allow),
        [Vex.nm_roundtrip].  The API reference against the code:
        [ApiDoc.documented_example_accepted], [ApiDoc.documented_defaults],
        [ApiDoc.documented_fields], [ApiDoc.documented_phases] and
        [ApiDoc.documented_kubeconfig].
    Some theorems state behaviour that differs from a comment or a document of
    the repository, or that the code does not mean to have; their comments say
    what the code does: [Ledger.lost_write_orphans], [Ledger.stale_copy_orphans],
    [NodeTaints.duplicate_taints_never_settle],
    [Isolation.watcher_keeps_old_credentials], [Safety.retries_warn_as_reclaims],
    [Startup.machine_reflector_frozen], [Startup.relist_keeps_deleted],
    [AgentLoop.relist_keeps_armed], [AgentLoop.netlink_never_scans] and
    [AgentThreads.abandoned_thread_survives].

    ** Assumptions and bounds

    [Externals.Externals] holds the third-party functions the code calls
    ([chrono], [serde_json], [toml], [kube]), [Providers.TimeZones] those of
    [chrono_tz] and [ReclaimAgent.TomlConfig] the parser of the agent's
    configuration.  Nothing is assumed of them except: in [Safety.grace_period],
    that an instant of the years 0 to 9999 printed by [to_rfc3339] is read back
    ([ExternalsLaws]; [to_rfc3339] prints as many fractional digits as the
    instant needs; [Externals.toy_externals] satisfies the law); and in
    [ReclaimAgent.reclaim_handshake], that a printed table of TOML is read back
    and that a comment line does not matter ([TomlLaws]; a binary format
    satisfies them).
    The Kata agent takes the JSON reader of its reference
    ([KataAgent.KataRefJson], with the law that a printed reference is read back,
    [KataProgress.KataRefLaws]) and SHA-256 as parameters, the latter without a
    law; the host's file system is the relation [KataSafety.host_after], and a
    crash may stop it in the middle of a call ([KataSafety.host_during]).  The
    matching of patterns in admission schemas is a parameter with the documented
    meaning of the nine regular expressions used ([Schemas.PatternLaws]), and so
    are CEL rules, of which nothing is assumed.  How [warp] matches a path is a
    parameter of [Startup.Health.start_health_server].  The registry of the
    [prometheus] crate accepts a well-formed family under a free name
    ([Registry.PrometheusLaws]), and nothing else is assumed of it.
    [Convergence] assumes of its sequence of reconciles (past leadership, sharding
    and the finalizer, each of the object as stored) that the schedule and
    [spec.enabled] do not change, that the kill switch is off, that no node asks
    to be reclaimed, that nobody else writes the phase, and that the clock does
    not go back before the start of a reconcile; failures of any call are
    allowed, status writes answered with an error being applied or not.  From
    Error, which nothing leaves then, it says only that.  [EndToEnd] puts the statuses of
    a provider in the place of the schedule, and assumes that the time zone has a
    whole number of hours ([Providers.whole_hours]; in others the code, which
    scans whole UTC hours, is late by less than an hour).
    [Ledger] gives each reconcile the object as stored ([Ledger.stale_copy_orphans]
    is why; a reconcile that is cut short, by the end of the process say, counts as
    one that failed), keeps the two provider references of the
    spec constant, and lets a write that is answered with an error be applied or
    not; a CAPI object counts as gone once its deletion was accepted.
    [Deletion.deletion_completes] lets earlier attempts fail in any way, except
    that a finalizer dropped by force over a cleanup that timed out ends the
    account of the objects.  [Reclaim.match_disables_machine] is about a machine
    whose nodes are in the management cluster, and a reconcile whose status
    writes, deletions and two patches are accepted.
    [Isolation] assumes that a resource version identifies the content of a
    Secret, which is what the cache relies on.
    The VEX tools take [serde_json] at their types, and the texts of paths and
    errors, as parameters without a law ([VexTools.VexCodec]).
    Creation is followed into the removal under the hypothesis that the CAPI
    version found at startup has no slash ([Capi.discovered_ok]).
    [LoopProtection.record_emergency_reclaim_event_refines] assumes that the wall
    clock does not step back between reclaims; [ChildClient.cache_is_lru] speaks
    of the instants of the cache's monotone clock.
    [NodeTaints.node_taints_contract] takes the taints of the node, and the desired
    ones, to be unique by key and effect where it speaks of convergence.

    There is fuel in these places: [Assignment.hex_go] has 16, the number of
    hexadecimal digits of a 64-bit word; [RustStr.strip_many] and
    [Vex.split_ws] the length of their string, of which each step removes a byte
    at least; [Providers.scan_hours] and [Startup.discover_loop] have the bound
    of the loops they translate ([PROVIDER_TRANSITION_HORIZON_HOURS] and six
    attempts).  The loops of the reclaim agent and of the watchers never end by
    themselves (the Node watcher does, with its stream), nor does that of the Kata
    agent: [Effects.iterate] runs them for any number of iterations, and what is
    proved holds for each number, of a loop still running as well.

    ** Not modelled

    Logging and tracing, which nothing depends on.  Panics on a poisoned mutex,
    except where the code handles poisoning ([RetryIncr]).  The HTTP layer of
    [kube] and the controller runtime, and what produces the items of a watch
    stream: they are replies.  Reading [/proc]: the files
    read are replies.  Command-line parsing; the HTTP server and the encoder of
    the metrics; the code derived from the types (CustomResource, JsonSchema); the
    module roots ([src/lib.rs] and the [mod.rs] files), which only declare. *)

From stdpp Require Export base gmap strings list fin_maps sorting pretty.
From Stdlib Require Export ZArith Lia String Ascii.

#[global] Open Scope string_scope.
#[global] Open Scope list_scope.
#[global] Arguments String.append !_ _ / : simpl nomatch.

(** ** Results *)

(** Rust's [Result<A, E>]. *)
Inductive result (A E : Type) : Type :=
| Ok (a : A)
| Err (e : E).
Arguments Ok {A E} a.
Arguments Err {A E} e.

Definition is_ok {A E} (r : result A E) : bool :=
  match r with Ok _ => true | Err _ => false end.

Definition result_bind {A B E} (r : result A E) (f : A -> result B E) : result B E :=
  match r with Ok a => f a | Err e => Err e end.

Definition map_err {A E F} (f : E -> F) (r : result A E) : result A F :=
  match r with Ok a => Ok a | Err e => Err (f e) end.

Definition ok_or {A E} (o : option A) (e : E) : result A E :=
  match o with Some a => Ok a | None => Err e end.

Declare Scope result_scope.
Delimit Scope result_scope with result.
Notation "'let?' x ':=' r 'in' k" := (result_bind r (fun x => k))
  (at level 10, x pattern, r at level 100, k at level 200) : result_scope.
#[global] Open Scope result_scope.

Lemma result_bind_Ok {A B E} (r : result A E) (f : A -> result B E) b :
  result_bind r f = Ok b <-> exists a, r = Ok a /\ f a = Ok b.
Proof. destruct r; cbn; split; [eauto | intros (? & [=] & ?); congruence | done | by intros (? & [=] & ?)]. Qed.

Lemma result_bind_Err {A B E} (r : result A E) (f : A -> result B E) e :
  result_bind r f = Err e <-> r = Err e \/ exists a, r = Ok a /\ f a = Err e.
Proof.
  destruct r as [a | e']; cbn; split.
  - eauto.
  - intros [[=] | (? & [=] & ?)]; congruence.
  - intros [= ->]. by left.
  - intros [[= ->] | (? & [=] & ?)]; done.
Qed.

Lemma ok_or_Ok {A E} (o : option A) (e : E) a : ok_or o e = Ok a <-> o = Some a.
Proof. destruct o; cbn; naive_solver. Qed.

Lemma is_ok_true {A E} (r : result A E) : is_ok r = true <-> exists a, r = Ok a.
Proof. destruct r; cbn; split; [eauto | done | done | by intros [? [=]]]. Qed.

(** [Option::unwrap_or_default] and friends at the types the code uses. *)
Definition opt_string (o : option string) : string := default "" o.

(** ** Automation *)

Create HintDb fivespot.
#[export] Hint Resolve result_bind_Ok is_ok_true : fivespot.

(** Split every conjunction, existential and [Ok]/[Err] equation in sight. *)
Ltac break :=
  repeat match goal with
    | H : _ /\ _ |- _ => destruct H
    | H : exists _, _ |- _ => destruct H
    | H : Ok _ = Ok _ |- _ => injection H; clear H; intros; subst
    | H : Err _ = Err _ |- _ => injection H; clear H; intros; subst
    | H : Some _ = Some _ |- _ => injection H; clear H; intros; subst
    | H : Ok _ = Err _ |- _ => discriminate H
    | H : Err _ = Ok _ |- _ => discriminate H
    | H : Some _ = None |- _ => discriminate H
    | H : None = Some _ |- _ => discriminate H
    | H : result_bind _ _ = Ok _ |- _ => apply result_bind_Ok in H
    end.

(** Case analysis on the scrutinee of the innermost [match]/[if] of the goal
    or of a hypothesis. *)
Ltac split_match :=
  match goal with
  | |- context [match ?x with _ => _ end] =>
      lazymatch x with context [match _ with _ => _ end] => fail | _ => destruct x eqn:? end
  end.
Ltac split_match_in H :=
  match type of H with
  | context [match ?x with _ => _ end] =>
      lazymatch x with context [match _ with _ => _ end] => fail | _ => destruct x eqn:? end
  end.

(** ** Lists *)

Lemma Forall_app_2 {A} (P : A -> Prop) l1 l2 : Forall P l1 -> Forall P l2 -> Forall P (l1 ++ l2).
Proof. rewrite Forall_app. done. Qed.
#[export] Hint Resolve Forall_app_2 : fivespot.

(** First element satisfying a boolean test ([Iterator::find]). *)
Definition find_b {A} (f : A -> bool) (l : list A) : option A := List.find f l.

Lemma find_b_None {A} (f : A -> bool) l :
  find_b f l = None <-> forall x, x ∈ l -> f x = false.
Proof.
  unfold find_b. split.
  - intros H x Hx. eapply List.find_none; [done | by apply list_elem_of_In].
  - induction l as [| y l IH]; cbn; [done |]. intros H.
    rewrite (H y) by left. apply IH. intros x Hx. apply H. by right.
Qed.

Lemma find_b_Some {A} (f : A -> bool) l x :
  find_b f l = Some x -> x ∈ l /\ f x = true.
Proof. intros H. apply List.find_some in H. by rewrite list_elem_of_In. Qed.

Lemma elem_of_lfilter {A} (g : A -> bool) (l : list A) x : x ∈ List.filter g l <-> x ∈ l /\ g x = true.
Proof. by rewrite !list_elem_of_In, List.filter_In. Qed.

Lemma NoDup_fmap_lfilter {A B} (f : A -> B) (g : A -> bool) (l : list A) :
  NoDup (f <$> l) -> NoDup (f <$> List.filter g l).
Proof.
  induction l as [| t l IH]; [done |]. cbn [List.filter]. rewrite fmap_cons, NoDup_cons. intros [Hni Hnd].
  destruct (g t); [| by apply IH]. rewrite fmap_cons. apply NoDup_cons. split; [| by apply IH].
  intros (x & Hx & Hin)%list_elem_of_fmap. apply Hni, list_elem_of_fmap. exists x.
  split; [done |]. by apply elem_of_lfilter in Hin as [? _].
Qed.
