(* ===== verification/RustStr.v ===== *)
(** Strings as the Rust code has them: byte sequences, with the functions of
    [str] the crate calls ([trim], [split], [split_once], [parse], ...). *)

From S2P Require Import Prelude.

(** ** Searching *)

Definition starts_with (s p : string) : bool := String.prefix p s.

Fixpoint str_contains (s p : string) : bool :=
  String.prefix p s ||
  match s with
  | EmptyString => false
  | String _ s' => str_contains s' p
  end.

Fixpoint contains_char (c : ascii) (s : string) : bool :=
  match s with
  | EmptyString => false
  | String a s' => if decide (a = c) then true else contains_char c s'
  end.

Fixpoint str_all (f : ascii -> bool) (s : string) : bool :=
  match s with
  | EmptyString => true
  | String a s' => f a && str_all f s'
  end.

Fixpoint str_rev_app (s acc : string) : string :=
  match s with
  | EmptyString => acc
  | String a s' => str_rev_app s' (String a acc)
  end.
Definition str_rev (s : string) : string := str_rev_app s "".

Definition ends_with (s p : string) : bool := String.prefix (str_rev p) (str_rev s).

(** ** Splitting *)

Fixpoint split_char (c : ascii) (s : string) : list string :=
  match s with
  | EmptyString => [""]
  | String a s' =>
      if decide (a = c) then "" :: split_char c s'
      else match split_char c s' with
           | [] => [String a ""]
           | h :: t => String a h :: t
           end
  end.

(** [str::split_once]: around the first occurrence. *)
Fixpoint split_once (c : ascii) (s : string) : option (string * string) :=
  match s with
  | EmptyString => None
  | String a s' =>
      if decide (a = c) then Some ("", s')
      else '(h, t) ← split_once c s'; Some (String a h, t)
  end.

(** [str::rsplit_once]: around the last occurrence; also [rfind] followed by
    the two slices. *)
Fixpoint rsplit_once (c : ascii) (s : string) : option (string * string) :=
  match s with
  | EmptyString => None
  | String a s' =>
      match rsplit_once c s' with
      | Some (h, t) => Some (String a h, t)
      | None => if decide (a = c) then Some ("", s') else None
      end
  end.

(** ** Whitespace *)

Definition bytes (l : list nat) : string := String.string_of_list_ascii (ascii_of_nat <$> l).

(** The UTF-8 encodings of the characters of the Unicode [White_Space] property,
    which [str::trim] removes. *)
Definition white_space : list string :=
  (bytes ∘ (λ b, [b]) <$> [9; 10; 11; 12; 13; 32]) ++
  (bytes <$> [[194; 133]; [194; 160]; [225; 154; 128];
              [226; 128; 128]; [226; 128; 129]; [226; 128; 130]; [226; 128; 131];
              [226; 128; 132]; [226; 128; 133]; [226; 128; 134]; [226; 128; 135];
              [226; 128; 136]; [226; 128; 137]; [226; 128; 138];
              [226; 128; 168]; [226; 128; 169]; [226; 128; 175];
              [226; 129; 159]; [227; 128; 128]]).

Fixpoint strip_prefix (p s : string) : option string :=
  match p, s with
  | EmptyString, _ => Some s
  | String a p', String b s' => if decide (a = b) then strip_prefix p' s' else None
  | String _ _, EmptyString => None
  end.

Fixpoint strip_one (ws : list string) (s : string) : option string :=
  match ws with
  | [] => None
  | w :: ws' => match strip_prefix w s with Some s' => Some s' | None => strip_one ws' s end
  end.

(** Each pass strips at least one byte, so the length is fuel enough. *)
Fixpoint strip_many (fuel : nat) (ws : list string) (s : string) : string :=
  match fuel with
  | O => s
  | S n => match strip_one ws s with Some s' => strip_many n ws s' | None => s end
  end.

Definition trim_start (s : string) : string := strip_many (String.length s) white_space s.
Definition trim_end (s : string) : string :=
  str_rev (strip_many (String.length s) (str_rev <$> white_space) (str_rev s)).
Definition trim (s : string) : string := trim_end (trim_start s).

(** ** Characters *)

Definition byte_of (a : ascii) : Z := Z.of_nat (nat_of_ascii a).
Definition in_range (lo hi : Z) (a : ascii) : bool := bool_decide (lo <= byte_of a <= hi)%Z.
Definition is_ascii_digit : ascii -> bool := in_range 48 57.
Definition is_ascii_alphabetic (a : ascii) : bool := in_range 65 90 a || in_range 97 122 a.
Definition is_ascii_alphanumeric (a : ascii) : bool := is_ascii_digit a || is_ascii_alphabetic a.
Definition is_ascii (s : string) : bool := str_all (in_range 0 127) s.

(** ** Unsigned integer parsing ([u8::from_str], [u32::from_str], [u64::from_str]) *)

Fixpoint parse_digits (max acc : Z) (s : string) : option Z :=
  match s with
  | EmptyString => Some acc
  | String a s' =>
      if is_ascii_digit a then
        let acc' := (acc * 10 + (byte_of a - 48))%Z in
        if bool_decide (acc' <= max)%Z then parse_digits max acc' s' else None
      else None
  end.

Definition parse_uint (max : Z) (s : string) : option Z :=
  let digits := match s with
                | String a rest => if decide (a = "+"%char) then rest else s
                | EmptyString => s
                end in
  match digits with
  | EmptyString => None
  | _ => parse_digits max 0 digits
  end.

Definition U8_MAX : Z := 255.
Definition U32_MAX : Z := 4294967295.
Definition U64_MAX : Z := 18446744073709551615.

(** ** [String::from_utf8_lossy] *)

Definition REPLACEMENT : string := bytes [239; 191; 189].
Definition continuation : ascii -> bool := in_range 128 191.
(** What a leading byte allows next, and how many more follow. *)
Definition utf8_second (b : ascii) : option (Z * Z * nat) :=
  if in_range 194 223 b then Some (128, 191, 0%nat)%Z
  else if in_range 224 224 b then Some (160, 191, 1%nat)%Z
  else if in_range 237 237 b then Some (128, 159, 1%nat)%Z
  else if in_range 225 239 b then Some (128, 191, 1%nat)%Z
  else if in_range 240 240 b then Some (144, 191, 2%nat)%Z
  else if in_range 241 243 b then Some (128, 191, 2%nat)%Z
  else if in_range 244 244 b then Some (128, 143, 2%nat)%Z
  else None.
Fixpoint from_utf8_lossy (s : string) : string :=
  match s with
  | EmptyString => ""
  | String b r =>
      if in_range 0 127 b then String b (from_utf8_lossy r)
      else match utf8_second b with
           | None => REPLACEMENT +:+ from_utf8_lossy r
           | Some (lo, hi, more) =>
               match r with
               | EmptyString => REPLACEMENT
               | String b1 r1 =>
                   if negb (in_range lo hi b1) then REPLACEMENT +:+ from_utf8_lossy r
                   else match more, r1 with
                        | 0, _ => String b (String b1 (from_utf8_lossy r1))
                        | _, EmptyString => REPLACEMENT
                        | 1, String b2 r2 =>
                            if continuation b2 then String b (String b1 (String b2 (from_utf8_lossy r2)))
                            else REPLACEMENT +:+ from_utf8_lossy r1
                        | _, String b2 r2 =>
                            if negb (continuation b2) then REPLACEMENT +:+ from_utf8_lossy r1
                            else match r2 with
                                 | EmptyString => REPLACEMENT
                                 | String b3 r3 =>
                                     if continuation b3 then String b (String b1 (String b2 (String b3 (from_utf8_lossy r3))))
                                     else REPLACEMENT +:+ from_utf8_lossy r2
                                 end
                        end
               end
           end
  end.

(** ** Joining and printing *)

Fixpoint str_join (sep : string) (l : list string) : string :=
  match l with
  | [] => ""
  | [s] => s
  | s :: l' => s +:+ sep +:+ str_join sep l'
  end.

(** ** Lemmas *)

Lemma parse_digits_range max s : forall acc z,
  (0 <= acc <= max)%Z -> parse_digits max acc s = Some z -> (0 <= z <= max)%Z.
Proof.
  induction s as [| a s IH]; cbn; intros acc z Hacc H; [by simplify_eq |].
  repeat split_match_in H; try done.
  rewrite ?bool_decide_eq_true in *. apply IH in H; [done |].
  unfold is_ascii_digit, in_range in *. rewrite bool_decide_eq_true in *. lia.
Qed.

(** A parsed machine integer is in its range. *)
Lemma parse_uint_range max s z :
  (0 <= max)%Z -> parse_uint max s = Some z -> (0 <= z <= max)%Z.
Proof.
  unfold parse_uint. intros Hmax. set (d := match s with "" => s | _ => _ end).
  destruct d eqn:E; [done |]. apply parse_digits_range. lia.
Qed.

Lemma split_char_cons c s : exists h t, split_char c s = h :: t.
Proof.
  induction s as [| a s [h [t IH]]]; cbn; [eauto |].
  case_decide; [eauto |]. rewrite IH. eauto.
Qed.

Lemma rsplit_once_None c s : rsplit_once c s = None <-> contains_char c s = false.
Proof.
  induction s as [| a s IH]; cbn; [done |].
  destruct (rsplit_once c s) as [[] |]; case_decide; naive_solver.
Qed.

(** [rsplit_once] splits around an occurrence of the separator with none after it. *)
Lemma rsplit_once_Some c s h t :
  rsplit_once c s = Some (h, t) -> s = h +:+ String c t /\ contains_char c t = false.
Proof.
  revert h t. induction s as [| a s IH]; cbn; intros h t H; [done |].
  destruct (rsplit_once c s) as [[h' t'] |] eqn:E.
  - simplify_eq. destruct (IH _ _ eq_refl) as [-> ?]. done.
  - case_decide; simplify_eq. split; [done |]. by apply rsplit_once_None.
Qed.

Lemma split_once_Some c s h t :
  split_once c s = Some (h, t) -> s = h +:+ String c t /\ contains_char c h = false.
Proof.
  revert h t. induction s as [| a s IH]; cbn; intros h t H; [done |].
  case_decide as Ha; [by simplify_eq |].
  destruct (split_once c s) as [[h' t'] |]; cbn in H; simplify_eq.
  destruct (IH _ _ eq_refl) as [-> Hc]. cbn. by rewrite decide_False.
Qed.

Lemma str_all_spec f s :
  str_all f s = true <-> Forall (λ a, f a = true) (String.list_ascii_of_string s).
Proof.
  induction s as [| a s IH]; cbn; [naive_solver |].
  rewrite Forall_cons, andb_true_iff, IH. done.
Qed.

Lemma starts_with_spec s p : starts_with s p = true <-> exists t, s = p +:+ t.
Proof.
  unfold starts_with. split.
  - intros H. apply String.prefix_correct in H. revert s H.
    induction p as [| a p IH]; intros s H; [by exists s |].
    destruct s as [| b s]; [done |]. cbn in H. simplify_eq.
    destruct (IH s) as [t ->]; [done |]. by exists t.
  - intros [t ->]. induction p as [| a p IH]; cbn; [by destruct t |].
    destruct (ascii_dec a a) as [? | []]; [exact IH | done].
Qed.

(** ** First and last byte *)

Definition str_first (s : string) : option ascii :=
  match s with EmptyString => None | String a _ => Some a end.

Fixpoint str_last (s : string) : option ascii :=
  match s with
  | EmptyString => None
  | String a s' => match s' with EmptyString => Some a | _ => str_last s' end
  end.

Definition opt_b {A} (f : A -> bool) (o : option A) : bool :=
  match o with Some a => f a | None => false end.

(** All bytes but the last. *)
Fixpoint str_init (s : string) : string :=
  match s with
  | EmptyString => ""
  | String a s' => match s' with EmptyString => "" | _ => String a (str_init s') end
  end.

Definition str_is_empty (s : string) : bool :=
  match s with EmptyString => true | _ => false end.

Lemma str_is_empty_spec s : str_is_empty s = true <-> s = "".
Proof. by destruct s. Qed.

Lemma str_last_Some s : s <> "" -> exists a, str_last s = Some a.
Proof.
  induction s as [| a s IH]; [done |]. intros _. destruct s as [| b s]; [by exists a |].
  apply IH. done.
Qed.

Lemma str_all_init_last f s a :
  str_last s = Some a -> str_all f s = str_all f (str_init s) && f a.
Proof.
  induction s as [| b s IH]; [done |]. intros H. destruct s as [| c s].
  - cbn in *. simplify_eq. by rewrite andb_true_r.
  - change (f b && str_all f (String c s) = f b && str_all f (str_init (String c s)) && f a).
    rewrite <- andb_assoc. f_equal. apply IH. exact H.
Qed.

(** ** Append and reverse *)

Lemma str_app_assoc (a b c : string) : (a +:+ b) +:+ c = a +:+ (b +:+ c).
Proof. induction a as [| x a IH]; cbn; [done |]. by rewrite IH. Qed.
Lemma str_app_nil (a : string) : a +:+ "" = a.
Proof. induction a as [| x a IH]; cbn; [done |]. by rewrite IH. Qed.
Lemma str_length_app (a b : string) : String.length (a +:+ b) = String.length a + String.length b.
Proof. induction a as [| x a IH]; cbn; [done |]. by rewrite IH. Qed.

Lemma str_rev_app_spec s : forall acc, str_rev_app s acc = str_rev s +:+ acc.
Proof.
  unfold str_rev. induction s as [| a s IH]; intros acc; cbn; [done |].
  rewrite IH, (IH (String a "")). by rewrite str_app_assoc.
Qed.
Lemma str_rev_cons a s : str_rev (String a s) = str_rev s +:+ String a "".
Proof. unfold str_rev at 1. cbn. apply str_rev_app_spec. Qed.
Lemma str_rev_distr s t : str_rev (s +:+ t) = str_rev t +:+ str_rev s.
Proof.
  induction s as [| a s IH]; [cbn; by rewrite str_app_nil |].
  change (String a s +:+ t) with (String a (s +:+ t)).
  by rewrite !str_rev_cons, IH, str_app_assoc.
Qed.
Lemma str_rev_involutive s : str_rev (str_rev s) = s.
Proof. induction s as [| a s IH]; [done |]. by rewrite str_rev_cons, str_rev_distr, IH. Qed.

Lemma str_last_snoc m z : str_last (m +:+ String z "") = Some z.
Proof. induction m as [| b m IH]; [done |]. cbn. rewrite IH. by destruct m. Qed.
Lemma str_init_snoc m z : str_init (m +:+ String z "") = m.
Proof. induction m as [| b m IH]; [done |]. cbn. rewrite IH. by destruct m. Qed.
Lemma str_all_app f a b : str_all f (a +:+ b) = str_all f a && str_all f b.
Proof. induction a as [| x a IH]; cbn; [done |]. by rewrite IH, andb_assoc. Qed.
Lemma str_all_mono (f g : ascii -> bool) s :
  (forall a, f a = true -> g a = true) -> str_all f s = true -> str_all g s = true.
Proof. intros H. rewrite !str_all_spec. intros HF. eapply Forall_impl; [exact HF |]. apply H. Qed.

(** ** Trimming leaves visible ASCII ends alone *)

Definition visible (a : ascii) : bool := in_range 33 127 a.

Lemma strip_one_visible ws a s :
  forallb (λ w, opt_b (λ b, negb (visible b)) (str_first w)) ws = true -> visible a = true ->
  strip_one ws (String a s) = None.
Proof.
  intros Hws Ha. induction ws as [| w ws IH]; [done |].
  cbn in Hws. apply andb_true_iff in Hws as [Hw Hws]. cbn. destruct w as [| b w]; [done |]. cbn in *.
  case_decide; [subst; by rewrite Ha in Hw | by apply IH].
Qed.

Lemma trim_start_visible a s : visible a = true -> trim_start (String a s) = String a s.
Proof. intros Ha. unfold trim_start. cbn [String.length strip_many]. by rewrite strip_one_visible. Qed.

Lemma trim_end_visible m z : visible z = true -> trim_end (m +:+ String z "") = m +:+ String z "".
Proof.
  intros Hz. unfold trim_end. rewrite str_rev_distr, str_length_app, Nat.add_comm.
  change (str_rev (String z "")) with (String z ""). cbn [String.length Nat.add strip_many String.append].
  rewrite strip_one_visible; [| by vm_compute | done].
  change (String z (str_rev m)) with (String z "" +:+ str_rev m).
  by rewrite str_rev_distr, str_rev_involutive.
Qed.

Lemma trim_visible a m z :
  visible a = true -> visible z = true ->
  trim (String a m +:+ String z "") = String a m +:+ String z "".
Proof.
  intros Ha Hz. unfold trim. change (String a m +:+ String z "") with (String a (m +:+ String z "")).
  rewrite trim_start_visible by done. by apply (trim_end_visible (String a m)).
Qed.

(** ** Printed integers *)

Lemma pretty_N_char_digit n :
  (n < 10)%N -> is_ascii_digit (pretty_N_char n) = true /\ (byte_of (pretty_N_char n) - 48 = Z.of_N n)%Z.
Proof.
  intros Hn. rewrite <- (N2Nat.id n) in *. assert (Hk : N.to_nat n < 10) by lia. revert Hk.
  generalize (N.to_nat n). intros k Hk. do 10 (destruct k as [| k]; [by split |]). lia.
Qed.

Lemma pretty_N_go_digits x : forall s,
  str_all is_ascii_digit s = true -> str_all is_ascii_digit (pretty_N_go x s) = true.
Proof.
  induction (N.lt_wf_0 x) as [x _ IH]; intros s Hs.
  assert (x = 0 \/ 0 < x)%N as [-> | Hx] by lia; [done |].
  rewrite pretty_N_go_step by done. apply IH; [by apply N.div_lt |]. cbn.
  by destruct (pretty_N_char_digit (x mod 10)) as [-> _]; [apply N.mod_lt |].
Qed.

Lemma parse_pretty_N_go max x : forall s,
  (Z.of_N x <= max)%Z -> parse_digits max 0 (pretty_N_go x s) = parse_digits max (Z.of_N x) s.
Proof.
  induction (N.lt_wf_0 x) as [x _ IH]; intros s Hmax.
  assert (x = 0 \/ 0 < x)%N as [-> | Hx] by lia; [done |].
  rewrite pretty_N_go_step by done.
  assert (x `div` 10 < x)%N by (by apply N.div_lt).
  rewrite IH by lia. cbn [parse_digits].
  destruct (pretty_N_char_digit (x mod 10)) as [-> Hv]; [by apply N.mod_lt |].
  pose proof (N.div_mod x 10 ltac:(done)) as Hdm.
  replace (Z.of_N (x `div` 10) * 10 + (byte_of (pretty_N_char (x mod 10)) - 48))%Z with (Z.of_N x) by lia.
  by rewrite bool_decide_true.
Qed.

Lemma pretty_N_cons (x : N) : exists a s, pretty x = String a s /\ is_ascii_digit a = true.
Proof.
  pose proof (pretty_N_go_digits x "" eq_refl) as Hd. unfold pretty, pretty_N.
  case_decide; [by exists "0"%char, "" |].
  rewrite pretty_N_go_step in * by lia.
  destruct (pretty_N_go (x `div` 10) _) as [| a s] eqn:E.
  - exfalso. assert (Hp : forall y t, t <> "" -> pretty_N_go y t <> "").
    { clear. intros y. induction (N.lt_wf_0 y) as [y _ IH]; intros t Ht.
      assert (y = 0 \/ 0 < y)%N as [-> | Hy] by lia; [done |].
      rewrite pretty_N_go_step by done. apply IH; [by apply N.div_lt | done]. }
    by eapply Hp in E.
  - exists a, s. split; [done |]. cbn in Hd. by apply andb_true_iff in Hd as [? _].
Qed.

Lemma pretty_Z_nonneg (z : Z) : (0 <= z)%Z -> pretty z = pretty (Z.to_N z).
Proof. by destruct z. Qed.

(** A printed unsigned integer is read back, when it fits. *)
Lemma parse_uint_pretty (max z : Z) : (0 <= z <= max)%Z -> parse_uint max (pretty z) = Some z.
Proof.
  intros Hz. rewrite pretty_Z_nonneg by lia.
  destruct (pretty_N_cons (Z.to_N z)) as (a & s & E & Ha).
  assert (Hp : parse_digits max 0 (pretty (Z.to_N z)) = Some z).
  { unfold pretty, pretty_N. case_decide as H0.
    - assert (z = 0%Z) as -> by lia. transitivity (if bool_decide (0 <= max)%Z then Some 0%Z else None); [reflexivity |]. by rewrite bool_decide_true by lia.
    - rewrite parse_pretty_N_go by lia. cbn. f_equal. lia. }
  rewrite E in *. unfold parse_uint. rewrite decide_False; [done |]. intros ->. done.
Qed.

Lemma pretty_Z_digits (z : Z) : (0 <= z)%Z -> str_all is_ascii_digit (pretty z) = true.
Proof.
  intros Hz. rewrite pretty_Z_nonneg by done. unfold pretty, pretty_N.
  case_decide; [done |]. by apply pretty_N_go_digits.
Qed.
