(* ===== verification/Effects.v ===== *)
(** Effectful code as trees of calls.

    The crate is asynchronous Rust around the Kubernetes API: between two calls
    it computes, and at each call it waits for a reply that it does not control.
    A program is therefore a finite tree whose nodes are calls and whose
    branches are the replies.  A theorem about a program quantifies over every
    reply ([wp]), so it holds for every state of the cluster, every failure and
    every interleaving with other actors between two calls. *)

From S2P Require Import Prelude.

Section effects.
Context {E : Type} {R : E -> Type}.

(** One call with the reply it got. *)
Record event : Type := Ev { ev_call : E; ev_reply : R ev_call }.

Inductive prog (A : Type) : Type :=
| Ret (a : A)
| Vis (c : E) (k : R c -> prog A).
Arguments Ret {A} a.
Arguments Vis {A} c k.

Definition call (c : E) : prog (R c) := Vis c Ret.

Fixpoint bind {A B} (p : prog A) (f : A -> prog B) : prog B :=
  match p with
  | Ret a => f a
  | Vis c k => Vis c (λ r, bind (k r) f)
  end.

(** ** Runs *)

(** [exec p t a]: [p] can perform the calls of [t] with the replies of [t] and
    then return [a]. *)
Fixpoint exec {A} (p : prog A) (t : list event) (a : A) : Prop :=
  match p with
  | Ret a' => t = [] /\ a = a'
  | Vis c k => exists r t', t = Ev c r :: t' /\ exec (k r) t' a
  end.

(** [run h s p]: run [p] against the stateful environment [h]. *)
Fixpoint run {S A} (h : forall c, S -> S * R c) (s : S) (p : prog A) : S * list event * A :=
  match p with
  | Ret a => (s, [], a)
  | Vis c k =>
      let '(s1, r) := h c s in
      let '(s2, t, a) := run h s1 (k r) in
      (s2, Ev c r :: t, a)
  end.

(** [wp p Φ]: every run of [p] ends, with a trace and a result that satisfy
    [Φ]. *)
Fixpoint wp {A} (p : prog A) (Φ : list event -> A -> Prop) : Prop :=
  match p with
  | Ret a => Φ [] a
  | Vis c k => forall r, wp (k r) (λ t a, Φ (Ev c r :: t) a)
  end.

(** [calls p P]: every call of every run satisfies [P], whatever the replies. *)
Fixpoint calls {A} (P : E -> Prop) (p : prog A) : Prop :=
  match p with
  | Ret _ => True
  | Vis c k => P c /\ forall r, calls P (k r)
  end.

(** [returns Q p]: every result of [p] satisfies [Q]. *)
Fixpoint returns {A} (Q : A -> Prop) (p : prog A) : Prop :=
  match p with
  | Ret a => Q a
  | Vis c k => forall r, returns Q (k r)
  end.

(** ** Laws *)

Lemma wp_exec {A} (p : prog A) : forall Φ, wp p Φ <-> forall t a, exec p t a -> Φ t a.
Proof.
  induction p as [a | c k IH]; intros Φ; cbn; [naive_solver |]. split.
  - intros H t a (r & t' & -> & He). specialize (H r). rewrite IH in H. eauto.
  - intros H r. apply IH. intros t a He. apply H. eauto.
Qed.

Lemma run_exec {S A} (h : forall c, S -> S * R c) (p : prog A) : forall s,
  exec p (run h s p).1.2 (run h s p).2.
Proof.
  induction p as [a | c k IH]; intros s; cbn; [done |].
  destruct (h c s) as [s1 r]. specialize (IH r s1).
  destruct (run h s1 (k r)) as [[s2 t] a]. eauto.
Qed.

Lemma wp_mono {A} (p : prog A) : forall (Φ Ψ : list event -> A -> Prop),
  (forall t a, Φ t a -> Ψ t a) -> wp p Φ -> wp p Ψ.
Proof. intros Φ Ψ H. rewrite !wp_exec. eauto. Qed.

Lemma wp_bind {A B} (p : prog A) (f : A -> prog B) : forall Φ,
  wp (bind p f) Φ <-> wp p (λ t a, wp (f a) (λ t' b, Φ (t ++ t') b)).
Proof.
  induction p as [a | c k IH]; intros Φ; cbn; [done |].
  split; intros H r; specialize (H r); [by rewrite IH in H | by rewrite IH].
Qed.

Lemma calls_bind {A B} P (p : prog A) (f : A -> prog B) :
  calls P p -> (forall a, calls P (f a)) -> calls P (bind p f).
Proof. intros Hp Hf. induction p as [a | c k IH]; cbn in *; naive_solver. Qed.

(** The bind rule with what the first program is known to return. *)
Lemma calls_bind_ret {A B} P Q (p : prog A) (f : A -> prog B) :
  calls P p -> returns Q p -> (forall a, Q a -> calls P (f a)) -> calls P (bind p f).
Proof. intros Hp Hq Hf. induction p as [a | c k IH]; cbn in *; naive_solver. Qed.

Lemma calls_mono {A} (P P' : E -> Prop) (p : prog A) :
  (forall c, P c -> P' c) -> calls P p -> calls P' p.
Proof. intros H. induction p as [a | c k IH]; cbn; naive_solver. Qed.

Lemma calls_and {A} (P P' : E -> Prop) (p : prog A) : calls P p -> calls P' p -> calls (λ c, P c /\ P' c) p.
Proof. induction p as [a | c k IH]; cbn; [done |]. intros [? Hk] [? Hk']. split; [done |]. intros r. by apply IH. Qed.
Lemma calls_exec {A} P (p : prog A) : forall t a,
  calls P p -> exec p t a -> Forall (λ e, P (ev_call e)) t.
Proof.
  induction p as [a | c k IH]; cbn; intros t a'; [by intros _ [-> _] |].
  intros [Hc Hk] (r & t' & -> & He). constructor; eauto.
Qed.

Lemma calls_call P c : P c -> calls P (call c).
Proof. by repeat constructor. Qed.

Lemma returns_bind {A B} Q (p : prog A) (f : A -> prog B) :
  returns (λ a, returns Q (f a)) p -> returns Q (bind p f).
Proof. induction p as [a | c k IH]; cbn; eauto. Qed.

Lemma returns_mono {A} (Q Q' : A -> Prop) (p : prog A) :
  (forall a, Q a -> Q' a) -> returns Q p -> returns Q' p.
Proof. intros H. induction p as [a | c k IH]; cbn; eauto. Qed.

Lemma returns_answers {A} (p : prog A) : returns (λ a, exists t, exec p t a) p.
Proof.
  induction p as [a | c k IH]; cbn; [by exists [] |]. intros r. eapply returns_mono; [| apply IH].
  intros a (t & Ht). eexists. eauto.
Qed.

Lemma returns_exec {A} Q (p : prog A) : forall t a, returns Q p -> exec p t a -> Q a.
Proof.
  induction p as [a | c k IH]; cbn; intros t a' Hr; [by intros [_ ->] |].
  intros (r & t' & -> & He). eauto.
Qed.

Lemma exec_bind {A B} (p : prog A) (f : A -> prog B) : forall t b,
  exec (bind p f) t b <-> exists t1 a t2, t = t1 ++ t2 /\ exec p t1 a /\ exec (f a) t2 b.
Proof.
  induction p as [a | c k IH]; intros t b; cbn; split.
  - intros H. by exists [], a, t.
  - by intros (t1 & a' & t2 & -> & [-> ->] & Hf).
  - intros (r & t' & -> & He). apply IH in He as (t1 & a & t2 & -> & Hp & Hf).
    exists (Ev c r :: t1), a, t2. eauto 10.
  - intros (t1 & a & t2 & -> & (r & t' & -> & Hp) & Hf).
    exists r, (t' ++ t2). split; [done |]. apply IH. eauto 10.
Qed.

(** ** Monitors

    A monitor is an automaton reading the trace; [mon s p Φ] says that no run
    of [p] from monitor state [s] is rejected, and that the final monitor
    state and the result satisfy [Φ].  It is the Hoare logic used for the
    ordering contracts. *)

Section monitor.
Context {S : Type} (step : S -> event -> option S).

Fixpoint mrun (s : S) (t : list event) : option S :=
  match t with
  | [] => Some s
  | e :: t' => match step s e with Some s' => mrun s' t' | None => None end
  end.

Fixpoint mon {A} (s : S) (p : prog A) (Φ : S -> A -> Prop) : Prop :=
  match p with
  | Ret a => Φ s a
  | Vis c k => forall r, match step s (Ev c r) with
                   | Some s' => mon s' (k r) Φ
                   | None => False
                   end
  end.

Lemma mon_exec {A} (p : prog A) Φ : forall s t a,
  mon s p Φ -> exec p t a -> exists s', mrun s t = Some s' /\ Φ s' a.
Proof.
  induction p as [a | c k IH]; cbn; intros s t a'; [by intros ? [-> ->]; eauto |].
  intros Hm (r & t' & -> & He). specialize (Hm r). cbn.
  destruct (step s (Ev c r)); [by eapply IH | done].
Qed.

Lemma mon_mono {A} (p : prog A) (Φ Ψ : S -> A -> Prop) : forall s,
  (forall s a, Φ s a -> Ψ s a) -> mon s p Φ -> mon s p Ψ.
Proof.
  induction p as [a | c k IH]; cbn; intros s H Hm; [by apply H |].
  intros r. specialize (Hm r). destruct (step s (Ev c r)); [by apply IH | done].
Qed.

Lemma mon_bind {A B} (p : prog A) (f : A -> prog B) Φ : forall s,
  mon s p (λ s' a, mon s' (f a) Φ) -> mon s (bind p f) Φ.
Proof.
  induction p as [a | c k IH]; cbn; intros s Hm; [done |].
  intros r. specialize (Hm r). destruct (step s (Ev c r)); [by apply IH | done].
Qed.

(** Calls the monitor ignores in state [s] leave it in [s]. *)
Lemma mon_stay {A} (p : prog A) P (Q : A -> Prop) (Φ : S -> A -> Prop) s :
  calls P p -> returns Q p ->
  (forall c r, P c -> step s (Ev c r) = Some s) ->
  (forall a, Q a -> Φ s a) -> mon s p Φ.
Proof.
  intros Hp Hq Hs H. induction p as [a | c k IH]; cbn in *; [by apply H |].
  intros r. destruct Hp as [Hc Hk]. rewrite (Hs _ r Hc). apply IH; eauto.
Qed.
End monitor.
End effects.

Arguments event : clear implicits.
Arguments event {E} R.
Arguments prog {E} R A.
Arguments Ret {E R A} a.
Arguments Vis {E R A} c k.
Arguments bind {E R A B} p f.
Arguments call {E R} c.

(** ** Notations *)

Declare Scope prog_scope.
Delimit Scope prog_scope with prog.
Notation "x <- p ;; k" := (bind p (λ x, k%prog))
  (at level 100, p at next level, right associativity) : prog_scope.
Notation "p ;;; k" := (bind p (λ _, k%prog))
  (at level 100, right associativity) : prog_scope.

(** Sequencing through Rust's [?] operator. *)
Definition bind_ok {E} {R : E -> Type} {A B Er} (p : prog R (result A Er))
    (f : A -> prog R (result B Er)) : prog R (result B Er) :=
  bind p (λ r, match r with Ok a => f a | Err e => Ret (Err e) end).
Notation "x <-? p ;; k" := (bind_ok p (λ x, k%prog))
  (at level 100, p at next level, right associativity) : prog_scope.
Notation "p ?;; k" := (bind_ok p (λ _, k%prog))
  (at level 100, right associativity) : prog_scope.
#[global] Open Scope prog_scope.

(** A pure fallible step inside an effectful function. *)
Definition lift {E} {R : E -> Type} {A} (r : A) : prog R A := Ret r.

(** ** Rules for [?] and for pure steps *)

Section rules.
Context {E : Type} {R : E -> Type}.

Lemma exec_Ret {A} (a b : A) t : exec (E:=E) (R:=R) (Ret a) t b <-> t = [] /\ b = a.
Proof. done. Qed.

Lemma exec_call c (t : list (event R)) a : exec (call c) t a <-> t = [Ev c a].
Proof.
  cbn. split; [by intros (r & t' & -> & -> & <-) |]. intros ->. by exists a, [].
Qed.

Lemma exec_lift {A} (r a : A) t : exec (E:=E) (R:=R) (lift r) t a <-> t = [] /\ a = r.
Proof. done. Qed.

Lemma exec_bind_ok {A B Er} (p : prog R (result A Er)) (f : A -> prog R (result B Er)) t r :
  exec (bind_ok p f) t r <->
  (exists e, exec p t (Err e) /\ r = Err e) \/
  (exists t1 a t2, t = t1 ++ t2 /\ exec p t1 (Ok a) /\ exec (f a) t2 r).
Proof.
  unfold bind_ok. rewrite exec_bind. split.
  - intros (t1 & [a | e] & t2 & -> & Hp & Hf); [eauto 10 |].
    destruct Hf as [-> ->]. left. exists e. by rewrite app_nil_r.
  - intros [(e & Hp & ->) | (t1 & a & t2 & -> & Hp & Hf)].
    + exists t, (Err e), []. by rewrite app_nil_r.
    + by exists t1, (Ok a), t2.
Qed.

Lemma calls_bind_ok {A B Er} P (p : prog R (result A Er)) (f : A -> prog R (result B Er)) :
  calls P p -> (forall a, calls P (f a)) -> calls P (bind_ok p f).
Proof. intros Hp Hf. apply calls_bind; [done |]. by intros [a | e]. Qed.

(** After a pure check, its success is known. *)
Lemma calls_bind_lift {A B Er} P (r : result A Er) (f : A -> prog R (result B Er)) :
  (forall a, r = Ok a -> calls P (f a)) -> calls P (bind_ok (lift r) f).
Proof. destruct r; cbn; auto. Qed.

Lemma mon_bind_ok {A B Er S} (step : S -> event R -> option S) (p : prog R (result A Er))
    (f : A -> prog R (result B Er)) Φ s :
  mon step s p (λ s' r, match r with Ok a => mon step s' (f a) Φ | Err e => Φ s' (Err e) end) ->
  mon step s (bind_ok p f) Φ.
Proof. intros Hm. apply mon_bind. eapply mon_mono; [| exact Hm]. by intros s' [a | e]. Qed.

Lemma mon_bind_lift {A B Er S} (step : S -> event R -> option S) (r : result A Er)
    (f : A -> prog R (result B Er)) Φ s :
  (forall a, r = Ok a -> mon step s (f a) Φ) -> (forall e, r = Err e -> Φ s (Err e)) ->
  mon step s (bind_ok (lift r) f) Φ.
Proof. destruct r; cbn; auto. Qed.

Lemma wp_bind_ok {A B Er} (p : prog R (result A Er)) (f : A -> prog R (result B Er)) Φ :
  wp (bind_ok p f) Φ <->
  wp p (λ t r, match r with Ok a => wp (f a) (λ t' b, Φ (t ++ t') b) | Err e => Φ t (Err e) end).
Proof.
  unfold bind_ok. rewrite wp_bind. rewrite !wp_exec. split; intros Hw t [a | e] He.
  - apply (Hw t (Ok a) He).
  - specialize (Hw t (Err e) He). cbn in Hw. by rewrite app_nil_r in Hw.
  - apply (Hw t (Ok a) He).
  - cbn. rewrite app_nil_r. apply (Hw t (Err e) He).
Qed.
End rules.

#[export] Hint Resolve calls_bind_ok calls_bind calls_call : fivespot.

(** Invert a run into the calls it made. *)
Ltac exec_inv_step :=
  match goal with
  | H : exec (bind_ok (lift _) _) _ _ |- _ =>
      apply exec_bind_ok in H as [(? & [-> ?]%exec_lift & ?) | (? & ? & ? & -> & [-> ?]%exec_lift & H)]
  | H : exec (bind_ok _ _) _ _ |- _ =>
      apply exec_bind_ok in H as [(? & H & ?) | (? & ? & ? & -> & ? & H)]
  | H : exec (bind _ _) _ _ |- _ => apply exec_bind in H as (? & ? & ? & -> & ? & H)
  | H : exec (call _) _ _ |- _ => apply exec_call in H; subst
  | H : exec (lift _) _ _ |- _ => apply exec_lift in H as [-> ->]
  | H : exec (Ret _) _ _ |- _ => apply exec_Ret in H as [-> ?]
  end.
Ltac exec_inv := repeat (exec_inv_step; simplify_eq).

(** ** Symbolic execution *)

Section steps.
Context {E : Type} {R : E -> Type}.

(** A monitor that simulates another accepts the programs it accepts. *)
Lemma mon_simulates {A S T} (step : S -> event R -> option S) (step' : T -> event R -> option T) (rel : S -> T -> Prop)
    (p : prog R A) (Ψ : T -> A -> Prop) :
  (forall s d e d', rel s d -> step' d e = Some d' -> exists s', step s e = Some s' /\ rel s' d') ->
  forall s d, rel s d -> mon step' d p Ψ -> mon step s p (λ s a, exists d, rel s d /\ Ψ d a).
Proof.
  intros Hsim. induction p as [a | c k IH]; cbn; intros s d Hr Hm; [by exists d |].
  intros r. specialize (Hm r). destruct (step' d (Ev c r)) as [d' |] eqn:Hd; [| done].
  destruct (Hsim _ _ _ _ Hr Hd) as (s' & -> & Hr'). by eapply IH.
Qed.

Lemma mon_Vis {A S} (step : S -> event R -> option S) s (c : E) (k : R c -> prog R A) Φ :
  (forall r, match step s (Ev c r) with Some s' => mon step s' (k r) Φ | None => False end) ->
  mon step s (Vis c k) Φ.
Proof. done. Qed.
Lemma mon_Ret {A S} (step : S -> event R -> option S) s (a : A) (Φ : S -> A -> Prop) :
  Φ s a -> mon step s (Ret a) Φ.
Proof. done. Qed.
Lemma wp_Vis {A} (c : E) (k : R c -> prog R A) Φ :
  (forall r, wp (k r) (λ t a, Φ (Ev c r :: t) a)) -> wp (Vis c k) Φ.
Proof. done. Qed.
Lemma wp_Ret {A} (a : A) (Φ : list (event R) -> A -> Prop) : Φ [] a -> wp (Ret a) Φ.
Proof. done. Qed.
Lemma calls_Vis {A} (P : E -> Prop) (c : E) (k : R c -> prog R A) :
  P c -> (forall r, calls P (k r)) -> calls P (Vis c k).
Proof. done. Qed.
End steps.

(** ** Partial runs *)

(** [leads p t q]: [p] can perform the calls of [t] and go on as [q]. *)
Fixpoint leads {E} {R : E -> Type} {A} (p : prog R A) (t : list (event R)) (q : prog R A) {struct t} : Prop :=
  match t with
  | [] => q = p
  | e :: t => match p with Ret _ => False | Vis c k => exists r, e = Ev c r /\ leads (k r) t q end
  end.

Lemma leads_trans {E} {R : E -> Type} {A} (p q q' : prog R A) : forall t t', leads p t q -> leads q t' q' -> leads p (t ++ t') q'.
Proof.
  intros t. revert p. induction t as [| e t IH]; cbn [leads app]; intros p t'; [by intros -> |].
  destruct p as [| c k]; [done |]. intros (r & -> & Hl) Hq. exists r. split; [done |]. by apply IH.
Qed.

Lemma leads_exec {E} {R : E -> Type} {A} (p : prog R A) : forall t a, leads p t (Ret a) <-> exec p t a.
Proof.
  induction p as [a' | c k IH]; cbn; intros [| e t] a; cbn.
  - split; [intros Heq; by injection Heq | by intros [_ ->]].
  - split; [done | by intros [[=] _]].
  - split; [intros Heq; discriminate Heq | intros (r & t' & Heq & _); discriminate Heq].
  - split.
    + intros (r & -> & Hl). exists r, t. split; [done |]. by apply IH.
    + intros (r & t' & Heq & He). injection Heq as -> ->. exists r. split; [done |]. by apply IH.
Qed.

(** ** Stateful environments

    [after s e s'] says what an event does to the environment, [reaches p t c]
    that [p] performs [t] and is then in the middle of the call [c].
    [hoare I s p Q]: in every run from [s] whose replies the environment can
    give, [I] holds of the state at each call, and [Q] of the end. *)

Section environment.
Context {E : Type} {R : E -> Type} {S : Type} (after : S -> event R -> S -> Prop).

Fixpoint evolve (s : S) (t : list (event R)) (s' : S) : Prop :=
  match t with
  | [] => s' = s
  | e :: t => exists s1, after s e s1 /\ evolve s1 t s'
  end.

Fixpoint reaches {A} (p : prog R A) (t : list (event R)) (c : E) : Prop :=
  match p with
  | Ret _ => False
  | Vis c' k =>
      match t with
      | [] => c' = c
      | e :: t => exists r, e = Ev c' r /\ reaches (k r) t c
      end
  end.

Fixpoint hoare {A} (I : S -> E -> Prop) (s : S) (p : prog R A) (Q : S -> A -> Prop) : Prop :=
  match p with
  | Ret a => Q s a
  | Vis c k => I s c /\ forall r s', after s (Ev c r) s' -> hoare I s' (k r) Q
  end.

Lemma hoare_exec {A} I (p : prog R A) Q : forall s t a s',
  hoare I s p Q -> exec p t a -> evolve s t s' -> Q s' a.
Proof.
  induction p as [a | c k IH]; cbn; intros s t a' s'; [by intros ? [-> ->] -> |].
  intros [_ Hp] (r & t' & -> & He) (s1 & Hs & Ht). by eapply IH; [apply Hp | |].
Qed.

Lemma hoare_reaches {A} I (p : prog R A) Q : forall s t c s',
  hoare I s p Q -> reaches p t c -> evolve s t s' -> I s' c.
Proof.
  induction p as [a | c k IH]; cbn; intros s t c' s'; [done |].
  intros [Hc Hp]. destruct t as [| e t]; [by intros -> -> |].
  intros (r & -> & He) (s1 & Hs & Ht). by eapply IH; [apply Hp | |].
Qed.

Lemma hoare_mono {A} (I I' : S -> E -> Prop) (p : prog R A) (Q Q' : S -> A -> Prop) : forall s,
  (forall s c, I s c -> I' s c) -> (forall s a, Q s a -> Q' s a) -> hoare I s p Q -> hoare I' s p Q'.
Proof.
  induction p as [a | c k IH]; cbn; intros s HI HQ Hp; [by apply HQ |].
  destruct Hp as [Hc Hp]. split; [by apply HI |]. intros r s' Hs. by apply IH, Hp.
Qed.

Lemma hoare_bind {A B} I (p : prog R A) (f : A -> prog R B) Q : forall s,
  hoare I s p (λ s' a, hoare I s' (f a) Q) -> hoare I s (bind p f) Q.
Proof.
  induction p as [a | c k IH]; cbn; intros s Hp; [done |].
  destruct Hp as [Hc Hp]. split; [done |]. intros r s' Hs. by apply IH, Hp.
Qed.

Lemma hoare_bind_ok {A B Er} I (p : prog R (result A Er)) (f : A -> prog R (result B Er)) Q s :
  hoare I s p (λ s' r, match r with Ok a => hoare I s' (f a) Q | Err e => Q s' (Err e) end) ->
  hoare I s (bind_ok p f) Q.
Proof. intros Hp. apply hoare_bind. eapply hoare_mono; [done | | exact Hp]. by intros s' [a | e]. Qed.

Lemma hoare_Vis {A} I s c (k : R c -> prog R A) Q :
  I s c -> (forall r s', after s (Ev c r) s' -> hoare I s' (k r) Q) -> hoare I s (Vis c k) Q.
Proof. done. Qed.
(** Both of two postconditions; the rules of a larger environment. *)
Lemma hoare_and {A} I I' (p : prog R A) (Q Q' : S -> A -> Prop) : forall s,
  hoare I s p Q -> hoare I' s p Q' -> hoare (λ s c, I s c /\ I' s c) s p (λ s a, Q s a /\ Q' s a).
Proof.
  induction p as [a | c k IH]; cbn; intros s H1 H2; [done |]. destruct H1 as [? H1], H2 as [? H2].
  split; [done |]. intros r s' Ha. by apply IH; [apply H1 | apply H2].
Qed.

Lemma hoare_returns {A} I (p : prog R A) (Q : S -> A -> Prop) (Q' : A -> Prop) : forall s,
  hoare I s p Q -> returns Q' p -> hoare I s p (λ s a, Q s a /\ Q' a).
Proof.
  induction p as [a | c k IH]; cbn; intros s H1 H2; [done |]. destruct H1 as [? H1].
  split; [done |]. intros r s' Ha. apply IH; auto.
Qed.

(** A handler that answers as the environment can. *)
Lemma run_evolve {A} (h : forall c, S -> S * R c) (p : prog R A) :
  (forall c s, after s (Ev c (h c s).2) (h c s).1) ->
  forall s, exec p (run h s p).1.2 (run h s p).2 /\ evolve s (run h s p).1.2 (run h s p).1.1.
Proof.
  intros Hh. induction p as [a | c k IH]; intros s; cbn; [done |].
  pose proof (Hh c s) as Ha. destruct (h c s) as [s1 r]. specialize (IH r s1). cbn in Ha.
  destruct (run h s1 (k r)) as [[s2 t] a]. cbn in *. destruct IH as [He Hv]. split; [by exists r, t | by exists s1].
Qed.
Lemma run_Forall {A} (h : forall c, S -> S * R c) P (p : prog R A) :
  (forall c s, P (Ev c (h c s).2)) -> forall s, Forall P (run h s p).1.2.
Proof.
  intros Hh. induction p as [a | c k IH]; intros s; cbn; [done |].
  pose proof (Hh c s) as Ha. destruct (h c s) as [s1 r]. specialize (IH r s1). cbn in *.
  destruct (run h s1 (k r)) as [[s2 t] a]. by constructor.
Qed.
End environment.

Lemma hoare_sub {E} {R : E -> Type} {S A} (after after' : S -> event R -> S -> Prop) I (p : prog R A) Q : forall s,
  (forall s e s', after' s e s' -> after s e s') -> hoare after I s p Q -> hoare after' I s p Q.
Proof.
  induction p as [a | c k IH]; cbn; intros s Hs Hp; [done |]. destruct Hp as [Hc Hp].
  split; [done |]. intros r s' Ha. by apply IH, Hp, Hs.
Qed.

Lemma hoare_run {E} {R : E -> Type} {S A} (h : forall c, S -> S * R c) I (p : prog R A) Q s :
  hoare (λ s e s', let 'Ev c r := e in h c s = (s', r)) I s p Q -> Q (run h s p).1.1 (run h s p).2.
Proof.
  intros Hp. destruct (run_evolve (λ s e s', let 'Ev c r := e in h c s = (s', r)) h p (λ c s0, surjective_pairing (h c s0)) s) as [He Hv].
  exact (hoare_exec _ _ _ _ _ _ _ _ Hp He Hv).
Qed.

(** ** Restricted replies

    [under good P p Q]: as long as every reply is [good], every call of [p] is in
    [P] and its result in [Q].  It is how a component is judged inside a system
    that vouches for some of the replies. *)

Section restricted.
Context {E : Type} {R : E -> Type} (good : event R -> Prop) (P : E -> Prop).

Definition under {A} (p : prog R A) (Q : A -> Prop) : Prop :=
  hoare (λ (_ : unit) e _, good e) (λ _, P) tt p (λ _, Q).

Lemma under_bind {A B} (p : prog R A) (f : A -> prog R B) Q Q' :
  under p Q -> (forall a, Q a -> under (f a) Q') -> under (bind p f) Q'.
Proof. intros Hp Hf. apply hoare_bind. eapply hoare_mono; [| | exact Hp]; [auto |]. intros []. exact Hf. Qed.

Lemma under_bind_ok {A B Er} (p : prog R (result A Er)) (f : A -> prog R (result B Er)) (Q : result A Er -> Prop) Q' :
  under p Q -> (forall a, Q (Ok a) -> under (f a) Q') -> (forall e, Q (Err e) -> Q' (Err e)) -> under (bind_ok p f) Q'.
Proof. intros Hp Hf He. apply (under_bind p _ Q); [done |]. intros [a | e] Ha; [by apply Hf | by apply He]. Qed.

Lemma under_mono {A} (p : prog R A) (Q Q' : A -> Prop) : (forall a, Q a -> Q' a) -> under p Q -> under p Q'.
Proof. intros HQ Hp. eapply hoare_mono; [| | exact Hp]; auto. Qed.

Lemma under_calls {A} (P' : E -> Prop) (p : prog R A) :
  (forall c, P' c -> P c) -> calls P' p -> under p (λ _, True).
Proof.
  intros HP. unfold under. induction p as [a | c k IH]; cbn; [done |]. intros [Hc Hk].
  split; [by apply HP |]. intros r [] _. by apply IH.
Qed.

Lemma under_returns {A} (Q : A -> Prop) (p : prog R A) : calls P p -> returns Q p -> under p Q.
Proof.
  unfold under. induction p as [a | c k IH]; cbn; [done |]. intros [Hc Hk] Hq.
  split; [done |]. intros r [] _. by apply IH.
Qed.

Lemma under_calls_inv {A} (p : prog R A) Q : (forall e, good e) -> under p Q -> calls P p.
Proof.
  intros Hg. unfold under. induction p as [a | c k IH]; cbn; [done |]. intros [Hc Hk].
  split; [done |]. intros r. by apply IH, (Hk r tt).
Qed.
End restricted.

(** What holds under good replies holds in every environment that gives them. *)
Lemma hoare_under {E} {R : E -> Type} {S A} (after : S -> event R -> S -> Prop) (good : event R -> Prop) P (p : prog R A) Q :
  under good P p Q -> forall s, hoare (λ s e s', after s e s' /\ good e) (λ _, P) s p (λ _, Q).
Proof.
  unfold under. induction p as [a | c k IH]; cbn; [done |]. intros [Hc Hk] s. split; [done |].
  intros r s' [_ Hg]. by apply IH, (Hk r tt).
Qed.

(** ** Loops *)

Section loops.
Context {E : Type} {R : E -> Type}.

(** [n] iterations of a loop; [None] is a loop that has not ended yet. *)
Fixpoint iterate {S A} (n : nat) (body : S -> prog R (S + A)) (s : S) : prog R (option A) :=
  match n with
  | 0 => Ret None
  | S n => bind (body s) (λ r, match r with inl s => iterate n body s | inr a => Ret (Some a) end)
  end.

(** The invariant rule. *)
Lemma hoare_iterate {W S A} (after : W -> event R -> W -> Prop) (I : W -> E -> Prop)
    (body : S -> prog R (S + A)) (Inv : S -> W -> Prop) (Q : W -> option A -> Prop) :
  (forall st w, Inv st w ->
     hoare after I w (body st) (λ w' r, match r with inl st' => Inv st' w' | inr a => Q w' (Some a) end)) ->
  (forall st w, Inv st w -> Q w None) ->
  forall n st w, Inv st w -> hoare after I w (iterate n body st) Q.
Proof.
  intros Hb Hn n. induction n as [| n IH]; intros st w Hi; [by apply (Hn st) |]. cbn [iterate].
  apply hoare_bind. eapply hoare_mono; [done | | by apply Hb]. cbn beta. intros w' [st' | a] Hr; [by apply IH | exact Hr].
Qed.
End loops.

(** ** Translation of the calls of a program *)

Fixpoint embed {E E' : Type} {R : E -> Type} {R' : E' -> Type} {A} (h : forall c, prog R' (R c)) (p : prog R A) : prog R' A :=
  match p with
  | Ret a => Ret a
  | Vis c k => bind (h c) (λ r, embed h (k r))
  end.

(** Bring the program of the goal to a [Ret], a [Vis] or a [match]. *)
Ltac prog_hnf :=
  lazymatch goal with
  | |- mon ?st ?s ?p ?Φ => let p' := eval hnf in p in change (mon st s p' Φ)
  | |- wp ?p ?Φ => let p' := eval hnf in p in change (wp p' Φ)
  | |- calls ?P ?p => let p' := eval hnf in p in change (calls P p')
  end.

(** Compute the monitor's step. *)
Ltac mon_step_hnf :=
  lazymatch goal with
  | |- match ?e with Some s' => @?f s' | None => False end =>
      let e' := eval hnf in e in
      change (match e' with Some s' => f s' | None => False end); cbv beta iota
  | |- _ => idtac
  end.

(** One call of the program of the goal; the reply is introduced. *)
Tactic Notation "pstep" "as" simple_intropattern(r) :=
  prog_hnf; cbv beta;
  first [apply mon_Vis; intros r; mon_step_hnf | apply wp_Vis; intros r; cbv beta
        | apply calls_Vis; [| intros r; cbv beta]].
(** The end of the program. *)
Ltac pret := prog_hnf; first [apply mon_Ret | apply wp_Ret | exact I]; cbv beta iota zeta.
