(* ===== verification/Interleave.v ===== *)
(** Programs that run at the same time against one shared state.

    A controller runs its reconciles as tasks of a multi-threaded runtime: they
    interleave at their calls, each call (an API request, a critical section of
    a mutex) being atomic.  A pool is a list of tagged programs; a step starts
    one, lets one make its next call, or drops one. *)

From S2P Require Import Prelude Effects.

Section pool.
Context {E : Type} {R : E -> Type} {S T A : Type}.
Context (admitted : T -> prog R A -> Prop) (after : S -> event R -> S -> Prop).

Notation pool := (list (T * prog R A)).

Inductive pool_step : S * pool -> list (T * event R) -> S * pool -> Prop :=
| pool_start tag p s ps : admitted tag p -> pool_step (s, ps) [] (s, ps ++ [(tag, p)])
| pool_call i tag c k r s s' ps :
    ps !! i = Some (tag, Vis c k) -> after s (Ev c r) s' ->
    pool_step (s, ps) [(tag, Ev c r)] (s', <[i := (tag, k r)]> ps)
| pool_drop i s ps : pool_step (s, ps) [] (s, delete i ps).

Inductive pool_run : S * pool -> list (T * event R) -> S * pool -> Prop :=
| pool_refl c : pool_run c [] c
| pool_trans c1 t1 c2 t2 c3 : pool_step c1 t1 c2 -> pool_run c2 t2 c3 -> pool_run c1 (t1 ++ t2) c3.

(** Rely and guarantee: each program keeps to [P] as long as the replies are
    [good]; as long as the calls are in [P], the invariant is kept and makes the
    replies [good].  Then both hold of every interleaving. *)
Section rely.
Context (Inv : S -> Prop) (good : event R -> Prop) (P : T -> E -> Prop) (Q : T -> A -> Prop).
Context (Hadm : forall tag p, admitted tag p -> under good (P tag) p (Q tag)).
Context (Hkeep : forall tag s c r s', Inv s -> P tag c -> after s (Ev c r) s' -> good (Ev c r) /\ Inv s').

Definition pool_ok (c : S * pool) : Prop :=
  Inv c.1 /\ Forall (λ tp, under good (P tp.1) tp.2 (Q tp.1)) c.2.
Definition event_ok (te : T * event R) : Prop := P te.1 (ev_call te.2) /\ good te.2.

Lemma pool_step_ok c t c' : pool_step c t c' -> pool_ok c -> pool_ok c' /\ Forall event_ok t.
Proof using Hadm Hkeep.
  destruct 1 as [tag p s ps Ha | i tag c k r s s' ps Hi Ha | i s ps]; intros [HI HF]; unfold pool_ok in *; cbn [fst snd] in *.
  - split; [| done]. split; [done |]. apply Forall_app. split; [done |]. constructor; [by apply Hadm | done].
  - destruct (Forall_lookup_1 _ _ _ _ HF Hi) as [Hc Hk]. cbn [fst snd] in *.
    destruct (Hkeep tag s c r s' HI Hc Ha) as [Hg HI'].
    split; [| by repeat constructor]. split; [done |]. apply Forall_insert; [done |]. exact (Hk r tt Hg).
  - split; [| done]. split; [done |]. by apply Forall_delete.
Qed.

Lemma pool_run_ok c t c' : pool_run c t c' -> pool_ok c -> pool_ok c' /\ Forall event_ok t.
Proof using Hadm Hkeep.
  induction 1 as [c | c1 t1 c2 t2 c3 Hs _ IH]; intros Hc; [done |].
  destruct (pool_step_ok _ _ _ Hs Hc) as [Hc2 Ht1]. destruct (IH Hc2) as [Hc3 Ht2].
  split; [done |]. by apply Forall_app.
Qed.

(** A program that has ended has an answer its judgement vouches for. *)
Lemma pool_answer s ps tag a : pool_ok (s, ps) -> (tag, Ret a) ∈ ps -> Q tag a.
Proof. intros [_ HF] Hin. rewrite Forall_forall in HF. exact (HF _ Hin). Qed.
End rely.

(** ** Schedules *)

(** A schedule: which program makes its next call, and what answers it. *)
Notation turn := (nat * (forall c, S -> S * R c))%type.

Fixpoint play (turns : list turn) (s : S) (ps : pool) : S * pool :=
  match turns with
  | [] => (s, ps)
  | (i, h) :: turns =>
      match ps !! i with
      | Some (tag, Vis c k) => let '(s', r) := h c s in play turns s' (<[i := (tag, k r)]> ps)
      | _ => play turns s ps
      end
  end.

Lemma play_run turns : forall s ps,
  (forall i h c s, (i, h) ∈ turns -> after s (Ev c (h c s).2) (h c s).1) ->
  exists t, pool_run (s, ps) t (play turns s ps).
Proof.
  induction turns as [| [i h] turns IH]; intros s ps Ha; [by exists []; constructor |]. cbn [play].
  assert (Ha' : forall i h c s, (i, h) ∈ turns -> after s (Ev c (h c s).2) (h c s).1) by (intros; eapply Ha; by right).
  destruct (ps !! i) as [[tag [a | c k]] |] eqn:Hi; [by apply IH | | by apply IH].
  pose proof (Ha i h c s ltac:(by left)) as Hc. destruct (h c s) as [s' r]. cbn in Hc.
  destruct (IH s' (<[i := (tag, k r)]> ps) Ha') as [t Ht]. eexists.
  eapply pool_trans; [by eapply pool_call | exact Ht].
Qed.

Lemma pool_run_trans c1 t1 c2 t2 c3 : pool_run c1 t1 c2 -> pool_run c2 t2 c3 -> pool_run c1 (t1 ++ t2) c3.
Proof. induction 1 as [c | c1 t1 c2 t2' c2' Hs _ IH]; [done |]. intros H2. rewrite <- app_assoc. econstructor; [exact Hs | by apply IH]. Qed.

(** Starting programs one after the other. *)
Lemma pool_start_all s ps qs :
  Forall (λ tp, admitted tp.1 tp.2) qs -> pool_run (s, ps) [] (s, ps ++ qs).
Proof.
  intros HF. revert ps. induction HF as [| [tag p] qs Ha _ IH]; intros ps; [rewrite app_nil_r; constructor |].
  eapply (pool_trans _ [] _ []); [by apply pool_start |]. rewrite (cons_middle (tag, p) ps qs). rewrite app_assoc. apply IH.
Qed.
End pool.
