(* ===== verification/Constants.v ===== *)
(** The named constants of [src/constants.rs], one definition per [const]. *)

From S2P Require Import Prelude.

Definition API_GROUP : string := "5spot.finos.org".
Definition API_VERSION : string := "v1beta1".
Definition API_VERSION_FULL : string := "5spot.finos.org/v1beta1".
Definition SPOT_SCHEDULE_API_GROUP : string := "spotschedules.5spot.finos.org".
Definition SPOT_SCHEDULE_API_VERSION : string := "v1alpha1".
Definition HTTP_ALREADY_EXISTS : Z := (409)%Z.
Definition HTTP_NOT_FOUND : Z := (404)%Z.
Definition HTTP_TOO_MANY_REQUESTS : Z := (429)%Z.
Definition KIND_SCHEDULED_MACHINE : string := "ScheduledMachine".
Definition RESOURCE_SCHEDULED_MACHINES : string := "scheduledmachines".
Definition KIND_MACHINE : string := "Machine".
Definition KIND_CONFIG_MAP : string := "ConfigMap".
Definition KIND_SECRET : string := "Secret".
Definition FINALIZER_SCHEDULED_MACHINE : string := "5spot.finos.org/scheduledmachine".
Definition RECLAIM_REQUESTED_ANNOTATION : string := "5spot.finos.org/reclaim-requested".
Definition RECLAIM_REASON_ANNOTATION : string := "5spot.finos.org/reclaim-reason".
Definition RECLAIM_REQUESTED_AT_ANNOTATION : string := "5spot.finos.org/reclaim-requested-at".
Definition RECLAIM_REQUESTED_VALUE : string := "true".
Definition RECLAIM_AGENT_LABEL : string := "5spot.finos.org/reclaim-agent".
Definition RECLAIM_AGENT_LABEL_ENABLED : string := "enabled".
Definition RECLAIM_AGENT_NAMESPACE : string := "5spot-system".
Definition RECLAIM_AGENT_CONFIGMAP_PREFIX : string := "reclaim-agent-".
Definition RECLAIM_CONFIG_DATA_KEY : string := "reclaim.toml".
Definition KATA_CONFIG_LABEL : string := "5spot.finos.org/kata-config".
Definition KATA_CONFIG_LABEL_ENABLED : string := "enabled".
Definition KATA_CONFIG_REF_ANNOTATION : string := "5spot.finos.org/kata-config-ref".
Definition KATA_CONFIG_APPLIED_ANNOTATION : string := "5spot.finos.org/kata-config-applied".
Definition KATA_CONFIG_NAMESPACE : string := "5spot-system".
Definition KATA_CONFIG_DEST_BASE : string := "/etc/k0s/".
Definition KATA_CONFIG_DEST_PATH : string := "/etc/k0s/containerd.d/kata.toml".
Definition REASON_EMERGENCY_RECLAIM : string := "EmergencyReclaim".
Definition REASON_EMERGENCY_RECLAIM_DISABLED_SCHEDULE : string := "EmergencyReclaimDisabledSchedule".
Definition EMERGENCY_DRAIN_TIMEOUT_SECS : Z := (60)%Z.
Definition RAPID_RE_RECLAIM_THRESHOLD : nat := (3)%nat.
Definition RAPID_RE_RECLAIM_WINDOW_SECS : Z := (600)%Z.
Definition RAPID_RE_RECLAIM_MAX_TRACKED : nat := (10)%nat.
Definition REASON_RAPID_RE_RECLAIM : string := "RapidReReclaim".
Definition DEFAULT_REQUEUE_SECS : Z := (300)%Z.
Definition ERROR_REQUEUE_SECS : Z := (30)%Z.
Definition TIMER_REQUEUE_SECS : Z := (60)%Z.
Definition DEFAULT_GRACE_PERIOD_SECS : Z := (300)%Z.
Definition DEFAULT_NODE_DRAIN_TIMEOUT_SECS : Z := (300)%Z.
Definition K8S_API_TIMEOUT_SECS : Z := (30)%Z.
Definition MAX_BACKOFF_SECS : Z := (300)%Z.
Definition MAX_RECONCILE_RETRIES : Z := (10)%Z.
Definition CHILD_NODE_EVENT_CHANNEL_CAP : nat := (1024)%nat.
Definition SPOT_SCHEDULE_EVENT_CHANNEL_CAP : nat := (1024)%nat.
Definition SPOT_SCHEDULE_DISCOVERY_RETRY_SECS : Z := (30)%Z.
Definition CHILD_CLIENT_CACHE_CAP : nat := (256)%nat.
Definition DEFAULT_LEASE_NAME : string := "5spot-leader".
Definition DEFAULT_LEASE_DURATION_SECS : Z := (15)%Z.
Definition DEFAULT_LEASE_RENEW_DEADLINE_SECS : Z := (10)%Z.
Definition DEFAULT_LEASE_RETRY_PERIOD_SECS : Z := (2)%Z.
Definition DEFAULT_LEASE_GRACE_SECS : Z := (DEFAULT_LEASE_DURATION_SECS - DEFAULT_LEASE_RENEW_DEADLINE_SECS)%Z.
Definition DEFAULT_LEASE_NAMESPACE : string := "5spot-system".
Definition CONDITION_TYPE_READY : string := "Ready".
Definition CONDITION_TYPE_SCHEDULED : string := "Scheduled".
Definition CONDITION_TYPE_MACHINE_READY : string := "MachineReady".
Definition CONDITION_TYPE_REFERENCES_VALID : string := "ReferencesValid".
Definition CONDITION_TYPE_NODE_TAINTED : string := "NodeTainted".
Definition CONDITION_TYPE_CHILD_CLUSTER_REACHABLE : string := "ChildClusterReachable".
Definition CONDITION_TYPE_SPOT_SCHEDULE_RESOLVED : string := "SpotScheduleResolved".
Definition CONDITION_STATUS_TRUE : string := "True".
Definition CONDITION_STATUS_FALSE : string := "False".
Definition CONDITION_STATUS_UNKNOWN : string := "Unknown".
Definition REASON_RECONCILE_SUCCEEDED : string := "ReconcileSucceeded".
Definition REASON_RECONCILE_FAILED : string := "ReconcileFailed".
Definition REASON_SCHEDULE_ACTIVE : string := "ScheduleActive".
Definition REASON_SCHEDULE_INACTIVE : string := "ScheduleInactive".
Definition REASON_MACHINE_CREATED : string := "MachineCreated".
Definition REASON_MACHINE_DELETED : string := "MachineDeleted".
Definition REASON_MACHINE_READY : string := "MachineReady".
Definition REASON_KILL_SWITCH : string := "KillSwitchActivated".
Definition REASON_AWAITING_SCHEDULE : string := "AwaitingSchedule".
Definition REASON_GRACE_PERIOD : string := "GracePeriodActive".
Definition REASON_REFERENCES_INVALID : string := "ReferencesInvalid".
Definition REASON_FILE_RESOLUTION_FAILED : string := "FileResolutionFailed".
Definition REASON_SCHEDULE_DISABLED : string := "ScheduleDisabled".
Definition REASON_NODE_DRAINING : string := "NodeDraining".
Definition REASON_NODE_DRAINED : string := "NodeDrained".
Definition REASON_NODE_DRAIN_FAILED : string := "NodeDrainFailed".
Definition REASON_NODE_TAINTS_APPLIED : string := "Applied".
Definition REASON_NODE_NOT_READY : string := "NodeNotReady".
Definition REASON_NODE_TAINT_PATCH_FAILED : string := "PatchFailed".
Definition REASON_NO_NODE_YET : string := "NoNodeYet".
Definition REASON_TAINT_OWNERSHIP_CONFLICT : string := "TaintOwnershipConflict".
Definition REASON_SPOT_SCHEDULE_RESOLVED : string := "Resolved".
Definition REASON_SPOT_SCHEDULE_PROVIDER_CRD_NOT_INSTALLED : string := "ProviderCRDNotInstalled".
Definition REASON_SPOT_SCHEDULE_PROVIDER_NOT_FOUND : string := "ProviderNotFound".
Definition REASON_SPOT_SCHEDULE_STATUS_ACTIVE_MISSING : string := "StatusActiveMissing".
Definition REASON_SPOT_SCHEDULE_PROVIDER_NOT_READY : string := "ProviderNotReady".
Definition PROVIDER_TRANSITION_HORIZON_HOURS : Z := (8 * 24)%Z.
Definition PROVIDER_FALLBACK_REQUEUE_SECS : Z := (6 * 3600)%Z.
Definition PROVIDER_ERROR_REQUEUE_SECS : Z := (30)%Z.
Definition REASON_CAPITAL_MARKETS_SESSION_OPEN : string := "SessionOpen".
Definition REASON_CAPITAL_MARKETS_SESSION_CLOSED : string := "SessionClosed".
Definition REASON_TIME_BASED_WINDOW_OPEN : string := "WindowOpen".
Definition REASON_TIME_BASED_WINDOW_CLOSED : string := "WindowClosed".
Definition NODE_TAINT_FIELD_MANAGER : string := "5spot-controller-node-taints".
Definition APPLIED_TAINTS_ANNOTATION : string := "5spot.finos.org/applied-taints".
Definition DEFAULT_SSH_PORT : Z := (22)%Z.
Definition DEFAULT_PRIORITY : Z := (50)%Z.
Definition MIN_PRIORITY : Z := (0)%Z.
Definition MAX_PRIORITY : Z := (100)%Z.
Definition DEFAULT_TIMEZONE : string := "UTC".
Definition DAYS_IN_WEEK : Z := (7)%Z.
Definition HOURS_IN_DAY : Z := (24)%Z.
Definition MAX_HOUR : Z := (23)%Z.
Definition PHASE_PENDING : string := "Pending".
Definition PHASE_ACTIVE : string := "Active".
Definition PHASE_SHUTTING_DOWN : string := "ShuttingDown".
Definition PHASE_INACTIVE : string := "Inactive".
Definition PHASE_DISABLED : string := "Disabled".
Definition PHASE_TERMINATED : string := "Terminated".
Definition PHASE_ERROR : string := "Error".
Definition PHASE_EMERGENCY_REMOVE : string := "EmergencyRemove".
Definition CAPI_MACHINE_API_GROUP : string := "cluster.x-k8s.io".
Definition CAPI_GROUP : string := "cluster.x-k8s.io".
Definition CAPI_CLUSTER_NAME_LABEL : string := "cluster.x-k8s.io/cluster-name".
Definition SCHEDULED_MACHINE_LABEL : string := "5spot.finos.org/scheduled-machine".
Definition CAPI_RESOURCE_MACHINES : string := "machines".
Definition KIND_NODE : string := "Node".
Definition RESOURCE_NODES : string := "nodes".
Definition KIND_POD : string := "Pod".
Definition RESOURCE_PODS : string := "pods".
Definition POD_EVICTION_GRACE_PERIOD_SECS : Z := (30)%Z.
Definition METRICS_PORT : Z := (8080)%Z.
Definition HEALTH_PORT : Z := (8081)%Z.
Definition METRICS_PATH : string := "/metrics".
Definition HEALTH_PATH : string := "/health".
Definition READINESS_PATH : string := "/ready".
Definition ENV_OPERATOR_INSTANCE_ID : string := "OPERATOR_INSTANCE_ID".
Definition ENV_OPERATOR_INSTANCE_COUNT : string := "OPERATOR_INSTANCE_COUNT".
Definition DEFAULT_INSTANCE_ID : Z := (0)%Z.
Definition DEFAULT_INSTANCE_COUNT : Z := (1)%Z.
Definition FIELD_MANAGER : string := "5spot-controller".
Definition MAX_DURATION_SECS : Z := (86400)%Z.
Definition MAX_TIMEZONE_LEN : nat := (64)%nat.
Definition MAX_CLUSTER_NAME_LEN : nat := (63)%nat.
Definition MAX_KILL_IF_COMMANDS_COUNT : nat := (100)%nat.
Definition MAX_KILL_IF_COMMAND_LEN : nat := (256)%nat.
Definition FINALIZER_CLEANUP_TIMEOUT_SECS : Z := (600)%Z.
Definition RESERVED_LABEL_PREFIXES : list string :=
  ["kubernetes.io/"; "k8s.io/"; "cluster.x-k8s.io/"; "5spot.finos.org/"].
Definition ALLOWED_BOOTSTRAP_API_GROUPS : list string :=
  ["bootstrap.cluster.x-k8s.io"; "k0smotron.io"].
Definition ALLOWED_INFRASTRUCTURE_API_GROUPS : list string :=
  ["infrastructure.cluster.x-k8s.io"; "k0smotron.io"].
Definition RBAC_VERB_CREATE : string := "create".

Definition capi_machine_api_version_full (capi_machine_api_version : string) : string :=
  CAPI_GROUP +:+ "/" +:+ capi_machine_api_version.

(** The lifecycle phases are distinct, and so are the HTTP statuses the code
    branches on. *)
Definition all_phases : list string :=
  [PHASE_PENDING; PHASE_ACTIVE; PHASE_SHUTTING_DOWN; PHASE_INACTIVE; PHASE_DISABLED;
   PHASE_TERMINATED; PHASE_ERROR; PHASE_EMERGENCY_REMOVE].

Lemma all_phases_NoDup : NoDup all_phases.
Proof. by apply (bool_decide_unpack _). Qed.
