(* ===== verification/Json.v ===== *)
(** JSON values as [serde_json::Value] has them, and the accessors the crate
    uses on them. *)

From S2P Require Import Prelude.

Inductive json : Type :=
| JNull
| JBool (b : bool)
| JInt (z : Z)
| JStr (s : string)
| JArr (l : list json)
| JObj (l : list (string * json)).

Definition obj_get (k : string) (l : list (string * json)) : option json :=
  snd <$> find_b (λ kv, bool_decide (kv.1 = k)) l.
#[global] Arguments obj_get : simpl never.

(** [Value::get] with a string key: [None] unless the value is an object. *)
Definition jget (k : string) (v : json) : option json :=
  match v with JObj l => obj_get k l | _ => None end.

Definition as_str (v : json) : option string :=
  match v with JStr s => Some s | _ => None end.
Definition as_bool (v : json) : option bool :=
  match v with JBool b => Some b | _ => None end.
(** [Value::as_i64]: integers outside [i64] are not returned. *)
Definition as_i64 (v : json) : option Z :=
  match v with
  | JInt z => if bool_decide (-9223372036854775808 <= z <= 9223372036854775807)%Z then Some z else None
  | _ => None
  end.
Definition as_array (v : json) : option (list json) :=
  match v with JArr l => Some l | _ => None end.
Definition as_object (v : json) : option (list (string * json)) :=
  match v with JObj l => Some l | _ => None end.

(** Follow a path of object keys. *)
Fixpoint jpath (ks : list string) (v : json) : option json :=
  match ks with
  | [] => Some v
  | k :: ks' => match jget k v with Some v' => jpath ks' v' | None => None end
  end.

(** [value[k] = v] on an object: replace the binding or append one. *)
Fixpoint obj_set (k : string) (v : json) (l : list (string * json)) : list (string * json) :=
  match l with
  | [] => [(k, v)]
  | (k', v') :: l' => if decide (k' = k) then (k, v) :: l' else (k', v') :: obj_set k v l'
  end.
Definition jset (k : string) (v : json) (j : json) : json :=
  match j with JObj l => JObj (obj_set k v l) | _ => j end.

(** A string map as a JSON object. *)
Definition json_of_map (m : gmap string string) : json :=
  JObj ((λ kv, (kv.1, JStr kv.2)) <$> map_to_list m).

(** Optional object fields ([skip_serializing_if = "Option::is_none"]). *)
Definition opt_field {A} (k : string) (f : A -> json) (o : option A) : list (string * json) :=
  match o with Some a => [(k, f a)] | None => [] end.
Definition list_field {A} (k : string) (f : A -> json) (l : list A) : list (string * json) :=
  match l with [] => [] | _ => [(k, JArr (f <$> l))] end.

Lemma obj_get_cons k k' v l :
  obj_get k ((k', v) :: l) = if decide (k' = k) then Some v else obj_get k l.
Proof. unfold obj_get, find_b. cbn. case_bool_decide; case_decide; naive_solver. Qed.

Lemma obj_get_set_eq k v l : obj_get k (obj_set k v l) = Some v.
Proof.
  induction l as [| [k' v'] l IH]; simpl obj_set; [by rewrite obj_get_cons, decide_True |].
  case_decide; rewrite obj_get_cons; [by rewrite decide_True | by rewrite decide_False].
Qed.

Lemma obj_get_set_ne k k' v l : k <> k' -> obj_get k (obj_set k' v l) = obj_get k l.
Proof.
  intros Hne. induction l as [| [k1 v1] l IH]; simpl obj_set; [by rewrite obj_get_cons, decide_False |].
  case_decide; subst; rewrite !obj_get_cons; case_decide; naive_solver.
Qed.

Lemma obj_get_app k l1 l2 :
  obj_get k (l1 ++ l2) = match obj_get k l1 with Some v => Some v | None => obj_get k l2 end.
Proof.
  induction l1 as [| [k' v] l1 IH]; [done |].
  rewrite <- app_comm_cons, !obj_get_cons. by case_decide.
Qed.

Lemma obj_get_json_of_map k m : obj_get k (match json_of_map m with JObj l => l | _ => [] end) = JStr <$> m !! k.
Proof.
  cbn. destruct (m !! k) as [v |] eqn:Hk; cbn.
  - apply elem_of_map_to_list in Hk. pose proof (NoDup_fst_map_to_list m) as Hnd.
    induction (map_to_list m) as [| [k' v'] l IH]; [by apply elem_of_nil in Hk |].
    rewrite fmap_cons, obj_get_cons. cbn in Hnd. apply NoDup_cons in Hnd as [Hni Hnd].
    apply elem_of_cons in Hk as [Hk | Hk]; case_decide as Hd; cbn in Hd; simplify_eq; [done | | by apply IH].
    exfalso. apply Hni. apply list_elem_of_fmap. by exists (k, v).
  - assert (Hni : forall v, (k, v) ∉ map_to_list m).
    { intros v Hv. apply elem_of_map_to_list in Hv. congruence. }
    induction (map_to_list m) as [| [k' v'] l IH]; [done |].
    rewrite fmap_cons, obj_get_cons. cbn. case_decide; subst; [by edestruct Hni; left |].
    apply IH. intros v Hv. eapply Hni. by right.
Qed.

(** ** JSON merge patch (RFC 7386), what the API server does with [Patch::Merge] *)

Definition obj_remove (k : string) (l : list (string * json)) : list (string * json) :=
  filter (λ kv, kv.1 <> k) l.

Definition as_obj (t : json) : list (string * json) := match t with JObj o => o | _ => [] end.

Fixpoint merge_patch (p t : json) : json :=
  match p with
  | JObj l =>
      JObj ((fix go (l acc : list (string * json)) : list (string * json) :=
               match l with
               | [] => acc
               | (k, v) :: l' =>
                   go l' (match v with
                          | JNull => obj_remove k acc
                          | _ => obj_set k (merge_patch v (default JNull (obj_get k acc))) acc
                          end)
               end) l (as_obj t))
  | _ => p
  end.

(** One binding of a patch object. *)
Definition merge_field (acc : list (string * json)) (kv : string * json) : list (string * json) :=
  match kv.2 with
  | JNull => obj_remove kv.1 acc
  | v => obj_set kv.1 (merge_patch v (default JNull (obj_get kv.1 acc))) acc
  end.

Lemma merge_patch_obj l t : merge_patch (JObj l) t = JObj (foldl merge_field (as_obj t) l).
Proof.
  cbn [merge_patch]. f_equal. generalize (as_obj t). induction l as [| [k v] l IH]; intros acc; [done |].
  cbn [foldl]. rewrite <- IH. unfold merge_field. cbn [fst snd]. by destruct v.
Qed.

Lemma obj_get_remove_eq k l : obj_get k (obj_remove k l) = None.
Proof.
  unfold obj_remove. induction l as [| [k' v] l IH]; [done |].
  rewrite filter_cons. case_decide as Hd; [| done].
  rewrite obj_get_cons. cbn in Hd. by rewrite decide_False.
Qed.
Lemma obj_get_remove_ne k k' l : k <> k' -> obj_get k (obj_remove k' l) = obj_get k l.
Proof.
  intros Hne. unfold obj_remove. induction l as [| [k1 v] l IH]; [done |].
  rewrite filter_cons, obj_get_cons. case_decide as Hd; cbn in Hd.
  - rewrite obj_get_cons. by case_decide.
  - rewrite decide_False; [done |]. intros ->. congruence.
Qed.

Lemma obj_get_merge_field_ne k acc kv : k <> kv.1 -> obj_get k (merge_field acc kv) = obj_get k acc.
Proof.
  destruct kv as [k' v]. cbn. intros Hne. unfold merge_field; cbn [fst snd].
  destruct v; first [by apply obj_get_remove_ne | by apply obj_get_set_ne].
Qed.

(** A key the patch does not name keeps its value. *)
Lemma merge_patch_frame k l t :
  k ∉ l.*1 -> jget k (merge_patch (JObj l) t) = obj_get k (as_obj t).
Proof.
  rewrite merge_patch_obj. cbn [jget]. generalize (as_obj t).
  induction l as [| kv l IH]; intros acc Hk; [done |]. cbn [foldl fmap list_fmap] in *.
  apply not_elem_of_cons in Hk as [Hne Hk]. rewrite IH by done. by apply obj_get_merge_field_ne.
Qed.

(** A key the patch names once takes the merge of its values. *)
Lemma merge_patch_get k v l t :
  NoDup l.*1 -> obj_get k l = Some v -> v <> JNull ->
  jget k (merge_patch (JObj l) t) = Some (merge_patch v (default JNull (obj_get k (as_obj t)))).
Proof.
  rewrite merge_patch_obj. cbn [jget]. generalize (as_obj t).
  induction l as [| [k' v'] l IH]; intros acc Hnd Hk Hv; [done |].
  cbn [fmap list_fmap fst] in Hnd. apply NoDup_cons in Hnd as [Hni Hnd].
  rewrite obj_get_cons in Hk. cbn [foldl]. case_decide as Hd.
  - simplify_eq. clear IH. set (x := merge_patch v _).
    assert (Hx : obj_get k (merge_field acc (k, v)) = Some x).
    { unfold merge_field; cbn [fst snd]. destruct v; try done; apply obj_get_set_eq. }
    revert Hx. generalize (merge_field acc (k, v)). clear Hnd.
    induction l as [| kv l IH]; intros acc' Hx; [done |]. cbn [foldl fmap list_fmap] in *.
    apply not_elem_of_cons in Hni as [Hne Hni]. apply IH; [done |].
    by rewrite obj_get_merge_field_ne.
  - rewrite IH by done. f_equal. f_equal. f_equal. by apply obj_get_merge_field_ne.
Qed.

(** A key the patch nulls is removed. *)
Lemma merge_patch_null k l t :
  NoDup l.*1 -> obj_get k l = Some JNull -> jget k (merge_patch (JObj l) t) = None.
Proof.
  rewrite merge_patch_obj. cbn [jget]. generalize (as_obj t).
  induction l as [| [k' v'] l IH]; intros acc Hnd Hk; [done |].
  cbn [fmap list_fmap fst] in Hnd. apply NoDup_cons in Hnd as [Hni Hnd].
  rewrite obj_get_cons in Hk. cbn [foldl]. case_decide as Hd; [| by apply IH].
  simplify_eq. clear IH.
  assert (Hx : obj_get k (merge_field acc (k, JNull)) = None) by apply obj_get_remove_eq.
  revert Hx. generalize (merge_field acc (k, JNull)). clear Hnd.
  induction l as [| kv l IH]; intros acc' Hx; [done |]. cbn [foldl fmap list_fmap] in *.
  apply not_elem_of_cons in Hni as [Hne Hni]. apply IH; [done |].
  by rewrite obj_get_merge_field_ne.
Qed.

(** Reading a field of any value, absent fields as [null]. *)
Definition jread (k : string) (t : json) : json := default JNull (obj_get k (as_obj t)).

(** Patching inside one field. *)
Lemma merge_patch_single k p t :
  p <> JNull -> jget k (merge_patch (JObj [(k, p)]) t) = Some (merge_patch p (jread k t)).
Proof. intros Hp. apply merge_patch_get; [apply NoDup_singleton | | done]. by rewrite obj_get_cons, decide_True. Qed.
Lemma jread_merge_single k p t : p <> JNull -> jread k (merge_patch (JObj [(k, p)]) t) = merge_patch p (jread k t).
Proof.
  intros Hp. pose proof (merge_patch_single k p t Hp) as Hg. rewrite merge_patch_obj in *.
  unfold jread at 1. cbn [as_obj]. cbn [jget] in Hg. by rewrite Hg.
Qed.
Lemma obj_get_merge k l t : obj_get k (as_obj (merge_patch (JObj l) t)) = jget k (merge_patch (JObj l) t).
Proof. by rewrite merge_patch_obj. Qed.
Lemma jread_merge_get k v l t :
  NoDup l.*1 -> obj_get k l = Some v -> v <> JNull ->
  jread k (merge_patch (JObj l) t) = merge_patch v (jread k t).
Proof. intros. unfold jread at 1. by rewrite obj_get_merge, (merge_patch_get k v) by done. Qed.
Lemma jread_merge_frame k l t : k ∉ l.*1 -> jread k (merge_patch (JObj l) t) = jread k t.
Proof. intros. unfold jread at 1. by rewrite obj_get_merge, merge_patch_frame. Qed.

(** Closed key lists without duplicates, by computation. *)
Ltac nodup_keys := cbn; apply (bool_decide_unpack _); by vm_compute.
