(* ===== verification/Crd.v ===== *)
(** The custom resources of [src/crd.rs]: the types, their accessors and the
    values [serde] gives to absent fields. *)

From S2P Require Import Prelude RustStr Constants Json.

(** ** References and taints *)

Record SpotScheduleRef : Type := {
  ssr_api_version : string;
  ssr_kind : string;
  ssr_name : string;
}.

Module SpotScheduleRef.
Definition group (r : SpotScheduleRef) : string :=
  match split_once "/" (ssr_api_version r) with
  | Some (group, _) => group
  | None => ssr_api_version r
  end.

Definition is_spot_schedule_group (r : SpotScheduleRef) : bool :=
  bool_decide (group r = SPOT_SCHEDULE_API_GROUP).
End SpotScheduleRef.

Record KubeconfigSecretRef : Type := { ksr_name : string; ksr_key : string }.

Inductive KataConfigSourceKind : Type := KindConfigMap | KindSecret.

Record KataConfig : Type := {
  kata_kind : KataConfigSourceKind;
  kata_name : string;
  kata_namespace : string;
  kata_key : string;
  kata_restart_service : string;
}.

Inductive TaintEffect : Type := NoSchedule | PreferNoSchedule | NoExecute.

Record NodeTaint : Type := {
  nt_key : string;
  nt_value : option string;
  nt_effect : TaintEffect;
}.

#[export] Instance KataConfigSourceKind_eq_dec : EqDecision KataConfigSourceKind.
Proof. solve_decision. Defined.
#[export] Instance TaintEffect_eq_dec : EqDecision TaintEffect.
Proof. solve_decision. Defined.
#[export] Instance NodeTaint_eq_dec : EqDecision NodeTaint.
Proof. solve_decision. Defined.
#[export] Instance KubeconfigSecretRef_eq_dec : EqDecision KubeconfigSecretRef.
Proof. solve_decision. Defined.
#[export] Instance SpotScheduleRef_eq_dec : EqDecision SpotScheduleRef.
Proof. solve_decision. Defined.

(** The serialized name, which is also what [{:?}] prints. *)
Definition TaintEffect_str (e : TaintEffect) : string :=
  match e with
  | NoSchedule => "NoSchedule"
  | PreferNoSchedule => "PreferNoSchedule"
  | NoExecute => "NoExecute"
  end.

Definition TaintEffect_of_str (s : string) : option TaintEffect :=
  if decide (s = "NoSchedule") then Some NoSchedule
  else if decide (s = "PreferNoSchedule") then Some PreferNoSchedule
  else if decide (s = "NoExecute") then Some NoExecute
  else None.

#[export] Instance TaintEffect_countable : Countable TaintEffect.
Proof.
  refine (inj_countable' (λ e, match e with NoSchedule => 0 | PreferNoSchedule => 1 | NoExecute => 2 end)
            (λ n, match n with 0 => NoSchedule | 1 => PreferNoSchedule | _ => NoExecute end) _).
  by intros [].
Defined.

(** ** Embedded provider resources *)

(** [EmbeddedResource(pub Value)]. *)
Record EmbeddedResource : Type := { inner : json }.

Definition embedded_string_map (value : option json) : gmap string string :=
  match value with
  | Some v =>
      match as_object v with
      | Some obj => list_to_map (omap (λ kv, (kv.1,.) <$> as_str kv.2) obj)
      | None => ∅
      end
  | None => ∅
  end.

Module EmbeddedResource.
Definition api_version (r : EmbeddedResource) : option string := jget "apiVersion" (inner r) ≫= as_str.
Definition kind (r : EmbeddedResource) : option string := jget "kind" (inner r) ≫= as_str.
Definition spec (r : EmbeddedResource) : option json := jget "spec" (inner r).
Definition metadata_namespace (r : EmbeddedResource) : option string :=
  (jget "metadata" (inner r) ≫= jget "namespace") ≫= as_str.
Definition metadata_name (r : EmbeddedResource) : option string :=
  (jget "metadata" (inner r) ≫= jget "name") ≫= as_str.
Definition metadata_labels (r : EmbeddedResource) : gmap string string :=
  embedded_string_map (jget "metadata" (inner r) ≫= jget "labels").
Definition metadata_annotations (r : EmbeddedResource) : gmap string string :=
  embedded_string_map (jget "metadata" (inner r) ≫= jget "annotations").
End EmbeddedResource.

Record MachineTemplateSpec : Type := {
  mt_labels : gmap string string;
  mt_annotations : gmap string string;
}.

(** ** ScheduledMachine *)

Record ScheduledMachineSpec : Type := {
  schedule : SpotScheduleRef;
  enabled : bool;
  cluster_name : string;
  bootstrap_spec : EmbeddedResource;
  infrastructure_spec : EmbeddedResource;
  machine_template : option MachineTemplateSpec;
  priority : Z;
  graceful_shutdown_timeout : string;
  node_drain_timeout : string;
  kill_switch : bool;
  node_taints : list NodeTaint;
  kill_if_commands : option (list string);
  kubeconfig_secret_ref : option KubeconfigSecretRef;
  kata : option KataConfig;
}.

Definition is_enabled (s : ScheduledMachineSpec) : bool := enabled s.

Definition default_priority : Z := 50.
Definition default_graceful_shutdown_timeout : string := "5m".
Definition default_node_drain_timeout : string := "5m".
Definition default_timezone : string := "UTC".
Definition default_enabled : bool := true.
Definition default_kubeconfig_secret_key : string := "value".
Definition default_kata_config_namespace : string := KATA_CONFIG_NAMESPACE.
Definition default_kata_config_key : string := "kata-containers.toml".
Definition default_kata_config_restart_service : string := "k0sworker.service".

Record ObjectReference : Type := {
  or_api_version : string;
  or_kind : string;
  or_name : string;
  or_namespace : option string;
}.

Record NodeRef : Type := {
  nr_api_version : string;
  nr_kind : string;
  nr_name : string;
  nr_uid : option string;
}.

Record Condition : Type := {
  c_type : string;
  c_status : string;
  c_last_transition_time : string;
  c_reason : string;
  c_message : string;
}.

Record SpotScheduleStatus : Type := {
  sss_resolved : bool;
  sss_active : option bool;
  sss_reason : option string;
  sss_message : option string;
  sss_provider_generation : option Z;
  sss_last_transition_time : option string;
}.

#[export] Instance SpotScheduleStatus_eq_dec : EqDecision SpotScheduleStatus.
Proof. solve_decision. Defined.

Record ScheduledMachineStatus : Type := {
  phase : option string;
  message : option string;
  last_scheduled_time : option string;
  machine_ref : option ObjectReference;
  bootstrap_ref : option ObjectReference;
  infrastructure_ref : option ObjectReference;
  node_ref : option NodeRef;
  provider_id : option string;
  conditions : list Condition;
  observed_generation : option Z;
  in_schedule : bool;
  ready : bool;
  next_activation : option string;
  next_cleanup : option string;
  applied_node_taints : list NodeTaint;
  spot_schedule : option SpotScheduleStatus;
}.

(** [ScheduledMachineStatus::default()]. *)
Definition default_status : ScheduledMachineStatus := {|
  phase := None; message := None; last_scheduled_time := None; machine_ref := None;
  bootstrap_ref := None; infrastructure_ref := None; node_ref := None; provider_id := None;
  conditions := []; observed_generation := None; in_schedule := false; ready := false;
  next_activation := None; next_cleanup := None; applied_node_taints := []; spot_schedule := None;
|}.

(** The object metadata the controller reads. *)
Record ObjectMeta : Type := {
  om_name : option string;
  om_namespace : option string;
  om_uid : option string;
  om_generation : option Z;
  om_finalizers : option (list string);
  om_deletion_timestamp : option string;
}.

Record ScheduledMachine : Type := {
  metadata : ObjectMeta;
  spec : ScheduledMachineSpec;
  status : option ScheduledMachineStatus;
}.

(** [ResourceExt]: [name_any] falls back to the empty string (no [generateName]
    here), [namespace] and [uid] are the raw options. *)
Definition name_any (r : ScheduledMachine) : string := opt_string (om_name (metadata r)).
Definition namespace (r : ScheduledMachine) : option string := om_namespace (metadata r).

(** [resource.status.as_ref().and_then(|s| s.phase.as_deref())] *)
Definition sm_phase (r : ScheduledMachine) : option string :=
  match status r with Some s => phase s | None => None end.

(** ** Schedule providers *)

Record TimeBasedSpotScheduleSpec : Type := {
  days_of_week : list string;
  hours_of_day : list string;
  timezone : string;
  tb_enabled : bool;
}.

Record TimeBasedSpotScheduleStatus : Type := {
  tb_active : bool;
  tb_conditions : list Condition;
  tb_observed_generation : option Z;
  tb_last_transition_time : option string;
  tb_next_transition_time : option string;
}.

Record TradingSession : Type := {
  ts_days_of_week : list string;
  ts_hours_of_day : list string;
}.

Record EarlyClose : Type := { ec_date : string; ec_close_hour : Z }.

Record CapitalMarketsScheduleSpec : Type := {
  cm_timezone : string;
  cm_sessions : list TradingSession;
  cm_holidays : list string;
  cm_early_closes : list EarlyClose;
}.

Record CapitalMarketsScheduleStatus : Type := {
  cm_active : bool;
  cm_conditions : list Condition;
  cm_observed_generation : option Z;
  cm_last_transition_time : option string;
  cm_next_transition_time : option string;
}.

(** ** Serialization of the types the controller writes *)

Definition NodeTaint_json (t : NodeTaint) : json :=
  JObj ([("key", JStr (nt_key t))] ++ opt_field "value" JStr (nt_value t) ++
        [("effect", JStr (TaintEffect_str (nt_effect t)))]).

Definition Condition_json (c : Condition) : json :=
  JObj [("type", JStr (c_type c)); ("status", JStr (c_status c));
        ("lastTransitionTime", JStr (c_last_transition_time c));
        ("reason", JStr (c_reason c)); ("message", JStr (c_message c))].

Definition ObjectReference_json (r : ObjectReference) : json :=
  JObj ([("apiVersion", JStr (or_api_version r)); ("kind", JStr (or_kind r));
         ("name", JStr (or_name r))] ++ opt_field "namespace" JStr (or_namespace r)).

Definition NodeRef_json (r : NodeRef) : json :=
  JObj ([("apiVersion", JStr (nr_api_version r)); ("kind", JStr (nr_kind r));
         ("name", JStr (nr_name r))] ++ opt_field "uid" JStr (nr_uid r)).

Definition SpotScheduleStatus_json (s : SpotScheduleStatus) : json :=
  JObj ([("resolved", JBool (sss_resolved s))] ++ opt_field "active" JBool (sss_active s) ++
        opt_field "reason" JStr (sss_reason s) ++ opt_field "message" JStr (sss_message s) ++
        opt_field "providerGeneration" JInt (sss_provider_generation s) ++
        opt_field "lastTransitionTime" JStr (sss_last_transition_time s)).

(** [Condition::new], with the time it reads as an argument. *)
Definition Condition_new (now_rfc3339 condition_type status reason message : string) : Condition := {|
  c_type := condition_type; c_status := status; c_last_transition_time := now_rfc3339;
  c_reason := reason; c_message := message;
|}.

(** ** Laws *)

(** [group] is the part of [apiVersion] before its first ['/']. *)
Lemma group_spec r g v :
  contains_char "/" g = false -> ssr_api_version r = g +:+ "/" +:+ v ->
  SpotScheduleRef.group r = g.
Proof.
  unfold SpotScheduleRef.group. intros Hg ->. revert v.
  assert (H : forall v, split_once "/" (g +:+ "/" +:+ v) = Some (g, v)).
  { intros v. induction g as [| a g IH]; cbn in *; [done |].
    case_decide; [done |]. by rewrite IH. }
  intros v. by rewrite H.
Qed.

Lemma TaintEffect_of_str_str e : TaintEffect_of_str (TaintEffect_str e) = Some e.
Proof. by destruct e. Qed.
