(* ===== verification/Ranges.v ===== *)
(** Day and hour range parsing of [src/crd.rs]: [parse_day_ranges] and
    [parse_hour_ranges], with the abstract meaning of a range on a cyclic
    scale and the proof that the parsers compute it. *)

From S2P Require Import Prelude RustStr Crd.

(** ** The code *)

(** [for x in lo..=hi { result.insert(x); }] *)
Definition insert_range (lo hi : Z) (acc : gset Z) : gset Z :=
  foldl (λ s x, {[ x ]} ∪ s) acc (seqZ lo (hi - lo + 1)).

(** Both parsers insert [start..=end], or, when the range wraps, [start..=max]
    and then [0..=end]. *)
Definition insert_cyclic (max start stop : Z) (acc : gset Z) : gset Z :=
  if bool_decide (start <= stop)%Z then insert_range start stop acc
  else insert_range 0 stop (insert_range start max acc).

(** The two nested loops, [for spec in specs { for part in spec.split(',') ... }],
    leaving early at the first error. *)
Fixpoint parts_loop (body : string -> gset Z -> result (gset Z) string)
    (parts : list string) (acc : gset Z) : result (gset Z) string :=
  match parts with
  | [] => Ok acc
  | part :: rest => let? acc' := body part acc in parts_loop body rest acc'
  end.

Fixpoint specs_loop (body : string -> gset Z -> result (gset Z) string)
    (specs : list string) (acc : gset Z) : result (gset Z) string :=
  match specs with
  | [] => Ok acc
  | spec :: rest =>
      let? acc' := parts_loop body (split_char "," spec) acc in
      specs_loop body rest acc'
  end.

Definition DAY_MAPPING : list (string * Z) :=
  [("mon", 0%Z); ("tue", 1%Z); ("wed", 2%Z); ("thu", 3%Z); ("fri", 4%Z); ("sat", 5%Z); ("sun", 6%Z)].

Definition day_number (name : string) : result Z string :=
  ok_or (snd <$> find_b (λ p, bool_decide (p.1 = name)) DAY_MAPPING) ("Invalid day: " +:+ name).

Definition day_part (raw : string) (acc : gset Z) : result (gset Z) string :=
  let part := trim raw in
  if contains_char "-" part then
    match split_char "-" part with
    | [p0; p1] =>
        let? start_num := day_number (trim p0) in
        let? end_num := day_number (trim p1) in
        Ok (insert_cyclic 6 start_num end_num acc)
    | _ => Err ("Invalid day range: " +:+ part)
    end
  else
    let? day_num := day_number part in
    Ok ({[ day_num ]} ∪ acc).

Definition parse_day_ranges (day_specs : list string) : result (gset Z) string :=
  specs_loop day_part day_specs ∅.

Definition MAX_HOUR : Z := 23.

Definition parse_hour (s err : string) : result Z string :=
  ok_or (parse_uint U8_MAX s) ("Invalid hour: " +:+ err).

Definition hour_part (raw : string) (acc : gset Z) : result (gset Z) string :=
  let part := trim raw in
  if contains_char "-" part && negb (starts_with part "-") then
    match split_char "-" part with
    | [p0; p1] =>
        let? start_hour := parse_hour (trim p0) p0 in
        let? end_hour := parse_hour (trim p1) p1 in
        if bool_decide (start_hour > MAX_HOUR)%Z || bool_decide (end_hour > MAX_HOUR)%Z then
          Err ("Hours must be 0-23, got: " +:+ part)
        else Ok (insert_cyclic MAX_HOUR start_hour end_hour acc)
    | _ => Err ("Invalid hour range: " +:+ part)
    end
  else
    let? hour := parse_hour part part in
    if bool_decide (hour > MAX_HOUR)%Z then Err ("Hour must be 0-23, got: " +:+ pretty hour)
    else Ok ({[ hour ]} ∪ acc).

Definition parse_hour_ranges (hour_specs : list string) : result (gset Z) string :=
  specs_loop hour_part hour_specs ∅.

(** [get_active_weekdays] and [get_active_hours]: the [Option] is always [Some]. *)
Definition get_active_weekdays (s : TimeBasedSpotScheduleSpec) : result (option (gset Z)) string :=
  let? d := parse_day_ranges (days_of_week s) in Ok (Some d).
Definition get_active_hours (s : TimeBasedSpotScheduleSpec) : result (option (gset Z)) string :=
  let? h := parse_hour_ranges (hours_of_day s) in Ok (Some h).

(** ** The abstract meaning *)

(** [x] lies on the way from [a] to [b], going up and wrapping after [max]. *)
Definition cyclic_between (max a b x : Z) : Prop :=
  (0 <= x <= max)%Z /\ ((a <= b)%Z /\ (a <= x <= b)%Z \/ (b < a)%Z /\ ((a <= x)%Z \/ (x <= b)%Z)).

(** What one comma-separated part means, as the endpoints of a cyclic range. *)
Definition day_endpoints (raw : string) : option (Z * Z) :=
  let part := trim raw in
  if contains_char "-" part then
    match split_char "-" part with
    | [p0; p1] =>
        match day_number (trim p0), day_number (trim p1) with
        | Ok a, Ok b => Some (a, b)
        | _, _ => None
        end
    | _ => None
    end
  else match day_number part with Ok a => Some (a, a) | Err _ => None end.

Definition hour_endpoints (raw : string) : option (Z * Z) :=
  let part := trim raw in
  let in_day (h : Z) := bool_decide (h <= MAX_HOUR)%Z in
  if contains_char "-" part && negb (starts_with part "-") then
    match split_char "-" part with
    | [p0; p1] =>
        match parse_uint U8_MAX (trim p0), parse_uint U8_MAX (trim p1) with
        | Some a, Some b => if in_day a && in_day b then Some (a, b) else None
        | _, _ => None
        end
    | _ => None
    end
  else match parse_uint U8_MAX part with
       | Some a => if in_day a then Some (a, a) else None
       | None => None
       end.

(** The comma-separated parts of all the specs, in order. *)
Definition all_parts (specs : list string) : list string := specs ≫= split_char ",".

(** ** Lemmas *)

Lemma elem_of_insert_range lo hi acc x :
  x ∈ insert_range lo hi acc <-> (lo <= x <= hi)%Z \/ x ∈ acc.
Proof.
  unfold insert_range.
  assert (H : forall l (acc : gset Z), x ∈ foldl (λ s x, {[ x ]} ∪ s) acc l <-> x ∈ l \/ x ∈ acc).
  { induction l as [| y l IH]; intros acc'; cbn; [set_solver | rewrite IH; set_solver]. }
  rewrite H, elem_of_seqZ. intuition lia.
Qed.

Lemma elem_of_insert_cyclic max a b acc x :
  (0 <= a <= max)%Z -> (0 <= b <= max)%Z ->
  x ∈ insert_cyclic max a b acc <-> cyclic_between max a b x \/ x ∈ acc.
Proof.
  intros Ha Hb. unfold insert_cyclic, cyclic_between.
  case_bool_decide; rewrite !elem_of_insert_range; intuition lia.
Qed.

Section loops.
Context (body : string -> gset Z -> result (gset Z) string).
Context (endpoints : string -> option (Z * Z)) (max : Z).
Hypothesis body_ok : forall raw acc acc',
  body raw acc = Ok acc' ->
  exists a b, endpoints raw = Some (a, b) /\ (0 <= a <= max)%Z /\ (0 <= b <= max)%Z /\
    forall x, x ∈ acc' <-> cyclic_between max a b x \/ x ∈ acc.
Hypothesis body_err : forall raw acc e, body raw acc = Err e -> endpoints raw = None.

Lemma parts_loop_app l1 l2 acc :
  parts_loop body (l1 ++ l2) acc = result_bind (parts_loop body l1 acc) (parts_loop body l2).
Proof. revert acc. induction l1 as [| p l1 IH]; intros acc; cbn; [done |]. destruct (body p acc); cbn; [apply IH | done]. Qed.

(** The nested loops are one loop over all the parts. *)
Lemma specs_loop_parts specs acc : specs_loop body specs acc = parts_loop body (all_parts specs) acc.
Proof.
  revert acc. induction specs as [| s specs IH]; intros acc; cbn; [done |].
  change (all_parts (s :: specs)) with (split_char "," s ++ all_parts specs).
  rewrite parts_loop_app. destruct (parts_loop body (split_char "," s) acc); [apply IH | done].
Qed.

Lemma parts_loop_ok parts : forall acc acc',
  parts_loop body parts acc = Ok acc' ->
  Forall (λ p, is_Some (endpoints p)) parts /\
  forall x, x ∈ acc' <-> x ∈ acc \/
    exists p a b, p ∈ parts /\ endpoints p = Some (a, b) /\ cyclic_between max a b x.
Proof.
  induction parts as [| p parts IH]; intros acc acc' H; cbn in H.
  - simplify_eq. split; [done |]. set_solver.
  - destruct (body p acc) as [acc1 |] eqn:Hb; [| done]. cbn in H.
    apply body_ok in Hb as (a & b & Hab & _ & _ & Hx).
    destruct (IH _ _ H) as [HF Hacc]. split; [constructor; eauto |].
    intros x. rewrite Hacc, Hx. split.
    + intros [[? | ?] | (q & a' & b' & Hq & ?)]; [right | by left | right].
      * exists p, a, b. set_solver.
      * exists q, a', b'. set_solver.
    + intros [? | (q & a' & b' & Hq & Hab' & ?)]; [by left; right |].
      apply elem_of_cons in Hq as [-> | Hq]; [| right; eauto 10].
      rewrite Hab in Hab'. simplify_eq. by left; left.
Qed.

Lemma parts_loop_err parts : forall acc e,
  parts_loop body parts acc = Err e -> Exists (λ p, endpoints p = None) parts.
Proof.
  induction parts as [| p parts IH]; intros acc e H; cbn in H; [done |].
  destruct (body p acc) eqn:Hb; cbn in H; [right; eauto | left; eauto].
Qed.

(** The parser succeeds exactly on well-formed parts and then computes the
    union of their cyclic ranges. *)
Lemma specs_loop_spec specs :
  match specs_loop body specs ∅ with
  | Ok s => Forall (λ p, is_Some (endpoints p)) (all_parts specs) /\
      forall x, x ∈ s <-> exists p a b, p ∈ all_parts specs /\ endpoints p = Some (a, b) /\
                               cyclic_between max a b x
  | Err _ => Exists (λ p, endpoints p = None) (all_parts specs)
  end.
Proof using body_ok body_err.
  rewrite specs_loop_parts. destruct (parts_loop body (all_parts specs) ∅) eqn:H.
  - apply parts_loop_ok in H as [HF Hx]. split; [done |]. intros x. rewrite Hx. set_solver.
  - by eapply parts_loop_err.
Qed.
End loops.

Lemma day_number_range name d : day_number name = Ok d -> (0 <= d <= 6)%Z.
Proof.
  unfold day_number. destruct (find_b _ DAY_MAPPING) as [[n d'] |] eqn:E; cbn; [| done].
  apply find_b_Some in E as [E _]. intros [= <-]. unfold DAY_MAPPING in E.
  rewrite !elem_of_cons, elem_of_nil in E.
  destruct E as [E | [E | [E | [E | [E | [E | [E | E]]]]]]]; simplify_eq; done.
Qed.

Lemma singleton_cyclic max a (acc : gset Z) x :
  (0 <= a <= max)%Z -> x ∈ {[ a ]} ∪ acc <-> cyclic_between max a a x \/ x ∈ acc.
Proof. intros Ha. rewrite elem_of_union, elem_of_singleton. unfold cyclic_between. intuition lia. Qed.

Lemma day_part_ok raw acc acc' :
  day_part raw acc = Ok acc' ->
  exists a b, day_endpoints raw = Some (a, b) /\ (0 <= a <= 6)%Z /\ (0 <= b <= 6)%Z /\
    forall x, x ∈ acc' <-> cyclic_between 6 a b x \/ x ∈ acc.
Proof.
  unfold day_part, day_endpoints. cbn zeta. destruct (contains_char "-" (trim raw)).
  - destruct (split_char "-" (trim raw)) as [| p0 [| p1 [| ]]]; try done.
    destruct (day_number (trim p0)) as [a |] eqn:Ha; cbn [result_bind]; [| done].
    destruct (day_number (trim p1)) as [b |] eqn:Hb; cbn [result_bind]; [| done].
    apply day_number_range in Ha, Hb. intros [= <-].
    exists a, b. repeat (split; [done |]). intros x. by apply elem_of_insert_cyclic.
  - destruct (day_number (trim raw)) as [a |] eqn:Ha; cbn [result_bind]; [| done].
    apply day_number_range in Ha. intros [= <-].
    exists a, a. repeat (split; [done |]). intros x. by apply singleton_cyclic.
Qed.

Lemma day_part_err raw acc e : day_part raw acc = Err e -> day_endpoints raw = None.
Proof.
  unfold day_part, day_endpoints. cbn zeta. destruct (contains_char "-" (trim raw)).
  - destruct (split_char "-" (trim raw)) as [| p0 [| p1 [| ]]]; try done.
    destruct (day_number (trim p0)); cbn [result_bind]; [| done].
    by destruct (day_number (trim p1)).
  - by destruct (day_number (trim raw)).
Qed.

Lemma parse_hour_spec s e :
  parse_hour s e = match parse_uint U8_MAX s with Some h => Ok h | None => Err ("Invalid hour: " +:+ e) end.
Proof. unfold parse_hour. by destruct (parse_uint U8_MAX s). Qed.

Lemma parse_u8_range s h : parse_uint U8_MAX s = Some h -> (0 <= h)%Z.
Proof. intros H. apply parse_uint_range in H; [lia | done]. Qed.

Lemma hour_part_ok raw acc acc' :
  hour_part raw acc = Ok acc' ->
  exists a b, hour_endpoints raw = Some (a, b) /\ (0 <= a <= 23)%Z /\ (0 <= b <= 23)%Z /\
    forall x, x ∈ acc' <-> cyclic_between 23 a b x \/ x ∈ acc.
Proof.
  unfold hour_part, hour_endpoints, MAX_HOUR. cbn zeta.
  destruct (contains_char "-" (trim raw) && negb (starts_with (trim raw) "-")).
  - destruct (split_char "-" (trim raw)) as [| p0 [| p1 [| ]]]; try done.
    rewrite !parse_hour_spec.
    destruct (parse_uint U8_MAX (trim p0)) as [a |] eqn:Ha; cbn [result_bind]; [| done].
    destruct (parse_uint U8_MAX (trim p1)) as [b |] eqn:Hb; cbn [result_bind]; [| done].
    apply parse_u8_range in Ha, Hb.
    destruct (bool_decide_reflect (a > 23)%Z); cbn; [done |].
    destruct (bool_decide_reflect (b > 23)%Z); cbn; [done |]. intros [= <-].
    rewrite !bool_decide_true by lia. cbn.
    exists a, b. repeat (split; [done || lia |]). intros x. apply elem_of_insert_cyclic; lia.
  - rewrite parse_hour_spec. destruct (parse_uint U8_MAX (trim raw)) as [a |] eqn:Ha; cbn [result_bind]; [| done].
    apply parse_u8_range in Ha.
    destruct (bool_decide_reflect (a > 23)%Z); cbn; [done |]. intros [= <-].
    rewrite bool_decide_true by lia.
    exists a, a. repeat (split; [done || lia |]). intros x. apply singleton_cyclic. lia.
Qed.

Lemma hour_part_err raw acc e : hour_part raw acc = Err e -> hour_endpoints raw = None.
Proof.
  unfold hour_part, hour_endpoints, MAX_HOUR. cbn zeta.
  destruct (contains_char "-" (trim raw) && negb (starts_with (trim raw) "-")).
  - destruct (split_char "-" (trim raw)) as [| p0 [| p1 [| ]]]; try done.
    rewrite !parse_hour_spec.
    destruct (parse_uint U8_MAX (trim p0)) as [a |]; cbn [result_bind]; [| done].
    destruct (parse_uint U8_MAX (trim p1)) as [b |]; cbn [result_bind]; [| done].
    destruct (bool_decide_reflect (a > 23)%Z); cbn; [by rewrite bool_decide_false by lia |].
    destruct (bool_decide_reflect (b > 23)%Z); cbn; [| done].
    by rewrite (bool_decide_false (b <= 23)%Z), andb_false_r by lia.
  - rewrite parse_hour_spec. destruct (parse_uint U8_MAX (trim raw)) as [a |]; cbn [result_bind]; [| done].
    destruct (bool_decide_reflect (a > 23)%Z); cbn; [by rewrite bool_decide_false by lia | done].
Qed.

(** ** Properties *)

(** What a range parser answers for parts with these end points on the scale
    from 0 to [top]. *)
Definition denotes {E} (top : Z) (endpoints : string -> option (Z * Z)) (specs : list string) (r : result (gset Z) E) : Prop :=
  match r with
  | Ok s => Forall (λ p, is_Some (endpoints p)) (all_parts specs) /\
      forall x, x ∈ s <-> exists p a b, p ∈ all_parts specs /\ endpoints p = Some (a, b) /\ cyclic_between top a b x
  | Err _ => Exists (λ p, endpoints p = None) (all_parts specs)
  end.

(** The parsers [parse_day_ranges] and [parse_hour_ranges] accept exactly the specs all
    of whose comma-separated parts are well formed, and then return the union
    of the cyclic ranges the parts denote ([fri-mon] and [22-5] wrap); the
    days are at most 6 and the hours at most 23. *)
Theorem range_parsers_spec specs :
  denotes 6 day_endpoints specs (parse_day_ranges specs) /\ denotes 23 hour_endpoints specs (parse_hour_ranges specs).
Proof.
  split; apply specs_loop_spec; [apply day_part_ok | apply day_part_err | apply hour_part_ok | apply hour_part_err].
Qed.

Example parse_day_ranges_wrap : elements <$> match parse_day_ranges ["fri-mon"] with Ok s => Some s | _ => None end
  = elements <$> Some ({[ 4; 5; 6; 0 ]}%Z : gset Z).
Proof. vm_compute. reflexivity. Qed.
Example parse_hour_ranges_empty : parse_hour_ranges [""] = Err "Invalid hour: ".
Proof. vm_compute. reflexivity. Qed.
