(* ===== verification/TaintValidation.v ===== *)
(** Admission of user-declared node taints ([src/crd.rs], [validate_node_taints]
    and its helpers), with the grammar it decides. *)

From S2P Require Import Prelude RustStr Crd.

(** ** The code *)

Definition TAINT_NAME_MAX_LEN : nat := 63.
Definition TAINT_PREFIX_MAX_LEN : nat := 253.
Definition RESERVED_TAINT_PREFIX_OWN : string := "5spot.finos.org/".
Definition RESERVED_K8S_TAINT_PREFIXES : list string :=
  ["node.kubernetes.io/"; "node-role.kubernetes.io/"; "kubernetes.io/"].

Definition is_qualified_name (s : string) : bool :=
  match s with
  | EmptyString => false
  | String b0 rest =>
      if negb (is_ascii_alphanumeric b0) then false
      else match str_last rest with
           | None => true
           | Some bl =>
               if negb (is_ascii_alphanumeric bl) then false
               else str_all (λ b, is_ascii_alphanumeric b || bool_decide (b = "-"%char) ||
                                  bool_decide (b = "."%char)) (str_init rest)
           end
  end.

Definition dns_label (label : string) : bool :=
  negb (str_is_empty label) &&
  bool_decide (String.length label <= TAINT_NAME_MAX_LEN) &&
  opt_b is_ascii_alphanumeric (str_first label) &&
  opt_b is_ascii_alphanumeric (str_last label) &&
  str_all (λ b, is_ascii_alphanumeric b || bool_decide (b = "-"%char)) label.

Definition is_dns_subdomain (s : string) : bool :=
  if str_is_empty s || bool_decide (TAINT_PREFIX_MAX_LEN < String.length s) then false
  else forallb dns_label (split_char "." s).

Definition validate_taint_value (value : string) : result unit string :=
  if str_is_empty value then Ok tt
  else if bool_decide (TAINT_NAME_MAX_LEN < String.length value) then
    Err ("taint value must be 0..=63 chars: " +:+ value)
  else if negb (is_qualified_name value) then
    Err ("taint value does not match qualified-name pattern: " +:+ value)
  else Ok tt.

Definition validate_taint_key (key : string) : result unit string :=
  if str_is_empty key then Err "taint key must be non-empty"
  else if starts_with key RESERVED_TAINT_PREFIX_OWN then
    Err ("taint key must not use reserved prefix " +:+ RESERVED_TAINT_PREFIX_OWN +:+ ": " +:+ key)
  else match find_b (starts_with key) RESERVED_K8S_TAINT_PREFIXES with
  | Some prefix =>
      Err ("taint key prefix " +:+ prefix +:+
           " is reserved by Kubernetes; use spec.machineTemplate for control-plane role signalling, got: " +:+ key)
  | None =>
      let '(prefix_opt, name) :=
        match split_once "/" key with Some (p, n) => (Some p, n) | None => (None, key) end in
      let? _ :=
        match prefix_opt with
        | Some prefix =>
            if str_is_empty prefix || bool_decide (TAINT_PREFIX_MAX_LEN < String.length prefix) then
              Err ("taint key prefix must be 1..=253 chars: " +:+ key)
            else if negb (is_dns_subdomain prefix) then
              Err ("taint key prefix is not a DNS subdomain: " +:+ key)
            else Ok tt
        | None => Ok tt
        end in
      if str_is_empty name || bool_decide (TAINT_NAME_MAX_LEN < String.length name) then
        Err ("taint key name portion must be 1..=63 chars: " +:+ key)
      else if negb (is_qualified_name name) then
        Err ("taint key does not match qualified-name pattern: " +:+ key)
      else Ok tt
  end.

(** The loop, with the set of [(key, effect)] pairs seen so far. *)
Fixpoint validate_node_taints_loop (seen : gset (string * TaintEffect)) (taints : list NodeTaint) : result unit string :=
  match taints with
  | [] => Ok tt
  | t :: rest =>
      let? _ := validate_taint_key (nt_key t) in
      let? _ := match nt_value t with Some v => validate_taint_value v | None => Ok tt end in
      if bool_decide ((nt_key t, nt_effect t) ∈ seen) then
        Err ("duplicate (key, effect) in spec.nodeTaints: (" +:+ nt_key t +:+ ", " +:+
             TaintEffect_str (nt_effect t) +:+ ")")
      else validate_node_taints_loop ({[ (nt_key t, nt_effect t) ]} ∪ seen) rest
  end.

Definition validate_node_taints (taints : list NodeTaint) : result unit string :=
  validate_node_taints_loop ∅ taints.

(** ** The grammar *)

(** [\[A-Za-z0-9\](\[A-Za-z0-9.-\]*\[A-Za-z0-9\])?] *)
Definition qualified (s : string) : Prop :=
  (exists a, s = String a "" /\ is_ascii_alphanumeric a = true) \/
  (exists a m z, s = String a (m +:+ String z "") /\
     is_ascii_alphanumeric a = true /\ is_ascii_alphanumeric z = true /\
     Forall (λ b, is_ascii_alphanumeric b = true \/ b = "-"%char \/ b = "."%char)
       (String.list_ascii_of_string m)).

Definition subdomain (s : string) : Prop :=
  s <> "" /\ String.length s <= 253 /\ Forall (λ l, dns_label l = true) (split_char "." s).

Definition reserved_taint_prefix (key : string) : Prop :=
  exists p, p ∈ RESERVED_TAINT_PREFIX_OWN :: RESERVED_K8S_TAINT_PREFIXES /\ exists t, key = p +:+ t.

(** An admissible key: an optional DNS-subdomain prefix and a qualified name,
    outside the reserved prefixes. *)
Definition admissible_key (key : string) : Prop :=
  ~ reserved_taint_prefix key /\
  match split_once "/" key with
  | Some (p, n) => subdomain p /\ qualified n /\ String.length n <= 63
  | None => qualified key /\ String.length key <= 63
  end.

Definition admissible_value (v : option string) : Prop :=
  match v with
  | None => True
  | Some s => s = "" \/ qualified s /\ String.length s <= 63
  end.

(** ** Lemmas *)

Lemma str_init_last s a : str_last s = Some a -> s = str_init s +:+ String a "".
Proof.
  induction s as [| b s IH]; [done |]. intros H. destruct s as [| c s]; [cbn in *; congruence |].
  change (String b (String c s) = String b (str_init (String c s) +:+ String a "")).
  f_equal. by apply IH.
Qed.

Lemma str_last_app m z : str_last (m +:+ String z "") = Some z.
Proof. induction m as [| b m IH]; [done |]. cbn. rewrite IH. by destruct m. Qed.

Lemma str_init_app m z : str_init (m +:+ String z "") = m.
Proof. induction m as [| b m IH]; [done |]. cbn. rewrite IH. by destruct m. Qed.

Lemma is_qualified_name_spec s : is_qualified_name s = true <-> qualified s.
Proof.
  unfold qualified. destruct s as [| b0 rest]; cbn [is_qualified_name].
  { split; [done |]. intros [(a & ? & _) | (a & m & z & ? & _)]; done. }
  destruct (is_ascii_alphanumeric b0) eqn:H0; cbn [negb].
  2: { split; [done |]. intros [(a & ? & ?) | (a & m & z & ? & ? & _)]; congruence. }
  destruct (str_last rest) as [bl |] eqn:Hl.
  - pose proof (str_init_last _ _ Hl) as Hr. destruct (is_ascii_alphanumeric bl) eqn:Hb; cbn [negb].
    + rewrite str_all_spec. split.
      * intros Hm. right. exists b0, (str_init rest), bl. rewrite <- Hr. split_and!; try done.
        eapply Forall_impl; [exact Hm |]. cbn. intros x Hx.
        rewrite !orb_true_iff, !bool_decide_eq_true in Hx. tauto.
      * intros [(a & E & _) | (a & m & z & E & _ & _ & Hm)]; injection E as -> ->; [done |].
        rewrite str_init_app. eapply Forall_impl; [exact Hm |]. cbn. intros x Hx.
        rewrite !orb_true_iff, !bool_decide_eq_true. tauto.
    + split; [done |]. intros [(a & E & _) | (a & m & z & E & _ & Hz & _)]; injection E as -> ->; [done |].
      rewrite str_last_app in Hl. congruence.
  - split; [intros _; left | done]. exists b0. split; [| done].
    destruct rest; [done |]. destruct (str_last_Some (String a rest)) as [? E]; congruence.
Qed.

Lemma is_dns_subdomain_spec s : is_dns_subdomain s = true <-> subdomain s.
Proof.
  unfold is_dns_subdomain, subdomain, TAINT_PREFIX_MAX_LEN.
  destruct (str_is_empty s) eqn:He; cbn [orb].
  { apply str_is_empty_spec in He. naive_solver. }
  assert (s <> "") by (intros ->; done).
  case_bool_decide; [split; [done | lia] |].
  rewrite forallb_True, Is_true_true || rewrite List.forallb_forall.
  rewrite Forall_forall. setoid_rewrite list_elem_of_In.
  split; [intros ?; split_and!; auto with lia | tauto].
Qed.

Lemma dns_subdomain_short s : is_dns_subdomain s = true -> String.length s <= 253.
Proof. rewrite is_dns_subdomain_spec. by intros (_ & ? & _). Qed.

Lemma qualified_nonempty s : qualified s -> s <> "".
Proof. by intros [(a & -> & _) | (a & m & z & -> & _)]. Qed.

Lemma validate_taint_key_spec key : is_ok (validate_taint_key key) = true <-> admissible_key key.
Proof.
  unfold validate_taint_key, admissible_key, reserved_taint_prefix.
  assert (Hq : forall n, is_ok (if str_is_empty n || bool_decide (TAINT_NAME_MAX_LEN < String.length n) then
        Err ("taint key name portion must be 1..=63 chars: " +:+ key)
      else if negb (is_qualified_name n) then
        Err ("taint key does not match qualified-name pattern: " +:+ key)
      else Ok tt) = true <-> qualified n /\ String.length n <= 63).
  { intros n. pose proof (is_qualified_name_spec n) as Hn. unfold TAINT_NAME_MAX_LEN.
    destruct (str_is_empty n) eqn:He; cbn [orb].
    - apply str_is_empty_spec in He as ->. split; [done |]. by intros [?%qualified_nonempty _].
    - case_bool_decide; [split; [done | lia] |].
      destruct (is_qualified_name n); cbn; split; try done.
      + intros _. split; [by apply Hn | lia].
      + intros [?%Hn _]. done. }
  destruct (str_is_empty key) eqn:He.
  { apply str_is_empty_spec in He as ->. cbn. split; [done |]. intros [_ [?%qualified_nonempty _]]. done. }
  destruct (starts_with key RESERVED_TAINT_PREFIX_OWN) eqn:Hown.
  { apply starts_with_spec in Hown as [t ->]. split; [done |]. intros [[] _]. eexists. split; [left | eauto]. }
  destruct (find_b (starts_with key) RESERVED_K8S_TAINT_PREFIXES) as [p |] eqn:Hk.
  { apply find_b_Some in Hk as [Hp Hs]. apply starts_with_spec in Hs.
    split; [done |]. intros [[] _]. exists p. split; [by right | done]. }
  assert (Hres : ~ exists p, p ∈ RESERVED_TAINT_PREFIX_OWN :: RESERVED_K8S_TAINT_PREFIXES /\ exists t, key = p +:+ t).
  { rewrite find_b_None in Hk. intros (p & Hp & Ht). apply starts_with_spec in Ht.
    apply elem_of_cons in Hp as [-> | Hp]; [congruence |]. rewrite Hk in Ht; done. }
  destruct (split_once "/" key) as [[p n] |].
  - pose proof (is_dns_subdomain_spec p) as Hd.
    destruct (str_is_empty p) eqn:Hep; cbn [orb].
    { apply str_is_empty_spec in Hep as ->. split; [done |]. by intros (_ & [[] _] & _). }
    case_bool_decide as Hlen; unfold TAINT_PREFIX_MAX_LEN in *.
    { split; [done |]. intros (_ & (_ & ? & _) & _). lia. }
    destruct (is_dns_subdomain p); cbn [negb result_bind].
    + rewrite Hq. tauto.
    + split; [done |]. intros (_ & ?%Hd & _). done.
  - cbn [result_bind]. rewrite Hq. tauto.
Qed.

Lemma validate_taint_value_spec v :
  is_ok (match v with Some v => validate_taint_value v | None => Ok tt end) = true <-> admissible_value v.
Proof.
  destruct v as [s |]; [| done]. unfold validate_taint_value, TAINT_NAME_MAX_LEN. cbn.
  pose proof (is_qualified_name_spec s) as Hq.
  destruct (str_is_empty s) eqn:He; [apply str_is_empty_spec in He; naive_solver |].
  assert (s <> "") by (intros ->; done).
  case_bool_decide; [cbn; split; [done | intros [? | ?]; [done | lia]] |].
  destruct (is_qualified_name s); cbn; split; try done.
  - intros _. right. split; [by apply Hq | lia].
  - intros [? | [?%Hq _]]; done.
Qed.

(** ** Property *)

(** [validate_node_taints] admits a list of taints exactly when every key
    and value follow the grammar, no key is under a reserved prefix and no
    [(key, effect)] pair occurs twice. *)
Theorem validate_node_taints_spec taints :
  is_ok (validate_node_taints taints) = true <->
  Forall (λ t, admissible_key (nt_key t) /\ admissible_value (nt_value t)) taints /\
  NoDup ((λ t, (nt_key t, nt_effect t)) <$> taints).
Proof.
  unfold validate_node_taints.
  assert (H : forall seen, is_ok (validate_node_taints_loop seen taints) = true <->
    Forall (λ t, admissible_key (nt_key t) /\ admissible_value (nt_value t)) taints /\
    NoDup ((λ t, (nt_key t, nt_effect t)) <$> taints) /\
    forall k, k ∈ (λ t, (nt_key t, nt_effect t)) <$> taints -> k ∉ seen); [| rewrite H; split; [tauto | intros [? ?]; split_and!; [done | done | intros; apply not_elem_of_empty]]].
  induction taints as [| t rest IH]; intros seen; cbn [validate_node_taints_loop].
  { cbn. split; [intros _; split_and!; [done | constructor | set_solver] | done]. }
  pose proof (validate_taint_key_spec (nt_key t)) as Hk.
  pose proof (validate_taint_value_spec (nt_value t)) as Hv.
  rewrite fmap_cons, Forall_cons, NoDup_cons.
  destruct (validate_taint_key (nt_key t)) as [[] |]; cbn in Hk; cbn [result_bind];
    [| split; [done | naive_solver]].
  destruct (match nt_value t with Some v => _ | None => _ end) as [[] |]; cbn in Hv; cbn [result_bind];
    [| split; [done | naive_solver]].
  case_bool_decide as Hs; [split; [done | intros (_ & _ & H); exfalso; eapply H; [left | done]] |].
  rewrite IH. clear IH. setoid_rewrite elem_of_cons. setoid_rewrite not_elem_of_union.
  setoid_rewrite not_elem_of_singleton. split.
  - intros (? & ? & Hd). split_and!; try tauto; [by intros [? _]%Hd |].
    intros k [-> | [_ ?]%Hd]; done.
  - intros ([_ ?] & [Hni ?] & Hd). split_and!; try done. intros k Hk'. split; [by intros -> | auto].
Qed.
