(* ===== verification/Externals.v ===== *)
(** Third-party code the crate relies on, as parameters.

    [chrono], [serde_json], [toml], [kube]'s error texts and the Unicode tables
    of the standard library are not part of the repository.  Every definition
    that uses one of them takes it from the class [Externals]; a theorem that
    relies on documented behaviour of one takes a law of [ExternalsLaws]. *)

From S2P Require Import Prelude RustStr Json.

(** [kube::Error]: an API error keeps its status code. *)
Inductive kube_error : Type :=
| ApiError (code : Z) (text : string)
| SerdeError (text : string)
| OtherKubeError (text : string).

(** [Err(kube::Error::Api(e)) if e.code == code] *)
Definition is_api_error (code : Z) (e : kube_error) : bool :=
  match e with ApiError c _ => bool_decide (c = code) | _ => false end.

Class Externals : Type := {
  kube_error_display : kube_error -> string;
  (** [DateTime<Utc>] as nanoseconds since the epoch. *)
  to_rfc3339 : Z -> string;
  parse_from_rfc3339 : string -> result Z string;
  json_to_string : json -> string;
  json_from_str : string -> result json string;
  toml_strings_table : list (string * (list string + Z)) -> string;
  (** The Unicode part of [str::to_lowercase] and of [{:?}] on [str]: what they
      do on a string with a non-ASCII byte. *)
  unicode_to_lowercase : string -> string;
  unicode_escape_debug : string -> string;
  (** Decoding of a [DynamicObject] from its JSON, when it fails. *)
  dynamic_object_error : json -> option string;
  (** [Kubeconfig::from_yaml], [Config::from_custom_kubeconfig] and
      [Client::try_from], when they fail. *)
  kubeconfig_yaml_error : string -> option string;
  kubeconfig_config_error : string -> option string;
  kubeconfig_client_error : string -> option string;
  (** [from_utf8] on bytes that are not UTF-8. *)
  utf8_error : string -> option string;
}.

(** The instants RFC 3339 can write: the years 0 to 9999. *)
Definition rfc3339_range (t : Z) : Prop := (-62167219200000000000 <= t < 253402300800000000000)%Z.

Class ExternalsLaws (X : Externals) : Prop := {
  (** What [to_rfc3339] prints is read back as the same instant. *)
  rfc3339_roundtrip : forall t, rfc3339_range t -> parse_from_rfc3339 (to_rfc3339 t) = Ok t;
}.

(** ** [to_lowercase] and [{:?}] *)

Definition ascii_lower (a : ascii) : ascii :=
  if in_range 65 90 a then ascii_of_nat (nat_of_ascii a + 32) else a.

Fixpoint str_map (f : ascii -> ascii) (s : string) : string :=
  match s with EmptyString => "" | String a s' => String (f a) (str_map f s') end.

Definition quote : ascii := ascii_of_nat 34.
Definition printable_plain (a : ascii) : bool :=
  in_range 32 126 a && negb (bool_decide (a = quote)) && negb (bool_decide (a = "\"%char)).

Section externals.
Context `{Externals}.

Definition to_lowercase (s : string) : string :=
  if is_ascii s then str_map ascii_lower s else unicode_to_lowercase s.

(** [{:?}] quotes; only plain printable ASCII is written out here. *)
Definition str_debug (s : string) : string :=
  if str_all printable_plain s then String quote (s +:+ String quote "") else unicode_escape_debug s.

(** [{:?}] on a list of strings. *)
Definition strs_debug (l : list string) : string :=
  "[" +:+ str_join ", " (str_debug <$> l) +:+ "]".
End externals.

(** ** A concrete instance, for evaluation and for the witnesses *)

Fixpoint pos_bits (p : positive) : string :=
  match p with xH => "" | xO p => String "0" (pos_bits p) | xI p => String "1" (pos_bits p) end.
Fixpoint bits_pos (s : string) : positive :=
  match s with
  | EmptyString => xH
  | String a s' => if decide (a = "0"%char) then xO (bits_pos s') else xI (bits_pos s')
  end.
(** Instants printed in binary, with a sign. *)
Definition toy_print_time (z : Z) : string :=
  match z with Z0 => "0" | Zpos p => String "+" (pos_bits p) | Zneg p => String "-" (pos_bits p) end.
Definition toy_parse_time (s : string) : result Z string :=
  match s with
  | String "+" r => Ok (Zpos (bits_pos r))
  | String "-" r => Ok (Zneg (bits_pos r))
  | String "0" _ => Ok 0%Z
  | _ => Err "premature end of input"
  end.

Lemma bits_pos_bits p : bits_pos (pos_bits p) = p.
Proof. induction p as [p IH | p IH |]; cbn; [| | done]; by rewrite IH. Qed.

Definition toy_externals : Externals := {|
  kube_error_display := λ e,
    match e with
    | ApiError c t => "ApiError: " +:+ t +:+ " (" +:+ pretty c +:+ ")"
    | SerdeError t => "Error deserializing response: " +:+ t
    | OtherKubeError t => t
    end;
  to_rfc3339 := toy_print_time;
  parse_from_rfc3339 := toy_parse_time;
  json_to_string := λ v, match v with JStr s => s | _ => "{}" end;
  json_from_str := λ s, Ok (JStr s);
  toml_strings_table := λ _, "";
  unicode_to_lowercase := λ s, s;
  unicode_escape_debug := λ s, s;
  dynamic_object_error := λ _, None;
  kubeconfig_yaml_error := λ _, None;
  kubeconfig_config_error := λ _, None;
  kubeconfig_client_error := λ _, None;
  utf8_error := λ _, None;
|}.

#[export] Instance toy_externals_laws : ExternalsLaws toy_externals.
Proof. constructor. intros [| p | p] _; cbn; [done | |]; by rewrite bits_pos_bits. Qed.
