(* ===== verification/KubeApi.v ===== *)
(** What the reconciler talks to: the Kubernetes API of the management and of
    the child clusters, the event recorder, the clocks, the process
    environment, the metrics registry and the mutex-guarded maps of the
    controller's [Context].  Each interaction is one constructor of [call_t];
    [reply] is the type of its answer.  Logging is not a call: nothing in the
    crate depends on it. *)

From S2P Require Import Prelude RustStr Effects Constants Json Crd Externals.

(** ** Clients *)

(** [kube::Client]: either the management client the controller was started
    with, or one built from a kubeconfig, with the timeouts set on its
    [Config]. *)
Record child_config : Type := {
  cfg_kubeconfig : string;
  cfg_read_timeout : option Z;
  cfg_write_timeout : option Z;
}.
Inductive client : Type :=
| MgmtClient
| ConfigClient (c : child_config).
#[export] Instance child_config_eq_dec : EqDecision child_config.
Proof. solve_decision. Defined.
#[export] Instance client_eq_dec : EqDecision client.
Proof. solve_decision. Defined.

(** ** Objects of the API *)

Record Taint : Type := {
  t_key : string;
  t_value : option string;
  t_effect : string;
  t_time_added : option string;
}.
Record NodeCondition : Type := { nc_type : string; nc_status : string }.
(** [spec] and [status] are optional objects with optional lists. *)
Record Node : Type := {
  n_name : option string;
  n_labels : option (gmap string string);
  n_annotations : option (gmap string string);
  n_spec_taints : option (option (list Taint));
  n_status_conditions : option (option (list NodeCondition));
  n_machine_id : option string;  (** [status.nodeInfo.machineID] *)
}.
Record Pod : Type := {
  p_name : option string;
  p_namespace : option string;
  p_owner_kinds : option (list string);
  p_status_phase : option (option string);
}.
(** [DynamicObject]: the metadata read by the crate and the rest as JSON. *)
Record DynamicObject : Type := {
  d_name : option string;
  d_namespace : option string;
  d_labels : option (gmap string string);
  d_data : json;
}.
Record Secret : Type := {
  s_resource_version : option string;
  s_data : option (gmap string string);
}.
Record ConfigMap : Type := {
  cm_name : string;
  cm_namespace : string;
  cm_labels : gmap string string;
  cm_data : gmap string string;
}.
Record ApiResource : Type := {
  ar_group : string;
  ar_version : string;
  ar_kind : string;
  ar_plural : string;
}.
#[export] Instance ApiResource_eq_dec : EqDecision ApiResource.
Proof. solve_decision. Defined.
(** [SelfSubjectAccessReview]: its attributes and its status. *)
Record ResourceAttributes : Type := {
  ra_verb : string;
  ra_group : string;
  ra_version : string;
  ra_resource : string;
  ra_namespace : string;
}.
Record ReviewStatus : Type := { rs_allowed : bool; rs_reason : option string }.

Inductive EventType : Type := EventNormal | EventWarning.
Record KubeEvent : Type := {
  ev_type : EventType;
  ev_reason : string;
  ev_note : option string;
  ev_action : string;
}.
(** The [ObjectReference] an event is about. *)
Record EventRef : Type := {
  er_api_version : string;
  er_kind : string;
  er_name : string;
  er_namespace : string;
}.

Inductive patch : Type :=
| MergePatch (body : json)
| ForcedMergePatch (manager : string) (body : json)
| ApplyPatch (manager : string) (force : bool) (body : json).

Record CacheKey : Type := { ck_namespace : string; ck_secret_name : string }.
#[export] Instance CacheKey_eq_dec : EqDecision CacheKey.
Proof. solve_decision. Defined.
#[export] Instance CacheKey_countable : Countable CacheKey.
Proof.
  refine (inj_countable' (λ k, (ck_namespace k, ck_secret_name k))
            (λ p, {| ck_namespace := p.1; ck_secret_name := p.2 |}) _).
  by intros [].
Defined.

(** ** Metrics operations *)

Inductive metric_kind : Type := CounterM | GaugeM | HistogramM.
Record metric : Type := { m_name : string; m_kind : metric_kind; m_labels : list string }.
Inductive metric_op : Type :=
| MInc (m : metric) (labels : list string)
| MSet (m : metric) (labels : list string) (v : Z)
| MObserve (m : metric) (labels : list string) (nanos : Z).

(** ** Calls *)

Inductive call_t : Type :=
| GetNode (c : client) (name : string)
| PatchNode (c : client) (name : string) (p : patch)
| ListPods (c : client) (field_selector : string)
| DeletePod (c : client) (ns name : string) (grace_period_seconds : Z)
| GetDyn (c : client) (ns : string) (ar : ApiResource) (name : string)
| GetOptDyn (c : client) (ns : string) (ar : ApiResource) (name : string)
| CreateDyn (c : client) (ns : string) (ar : ApiResource) (obj : json)
| DeleteDyn (c : client) (ns : string) (ar : ApiResource) (name : string)
| PinnedKind (c : client) (group version kind : string)
| CreateReview (c : client) (attrs : ResourceAttributes)
| PatchSM (c : client) (ns name : string) (body : json)
| PatchSMStatus (c : client) (ns name : string) (body : json)
| PatchProviderStatus (c : client) (kind ns name : string) (body : json)
| Publish (ev : KubeEvent) (about : EventRef)
| GetSecret (c : client) (ns name : string)
| ExistsConfigMap (c : client) (ns name : string)
| ExistsSecret (c : client) (ns name : string)
| ExistsNamespace (c : client) (name : string)
| ApplyConfigMap (c : client) (ns name manager : string) (force : bool) (cm : ConfigMap)
| DeleteConfigMap (c : client) (ns name : string)
| UtcNow
| InstantNow
| DeadlinePassed (secs : Z)
| EnvVar (name : string)
| IsLeader
| RetryIncr (key : string)
| RetryRemove (key : string)
| RecordReclaim (key : string) (now : Z)
| CacheLookup (key : CacheKey) (rv : string)
| CacheInsert (key : CacheKey) (c : child_config) (rv : string)
| HookEvicted (key : CacheKey)
| HookResolved (key : CacheKey) (c : child_config)
| MetricOp (op : metric_op).

(** The answers.  [RetryIncr]: the new count, [None] when the mutex is
    poisoned.  [RecordReclaim]: whether the threshold is reached.
    [CacheInsert]: whether the key was present, and the key evicted to make
    room. *)
Definition reply (c : call_t) : Type :=
  match c with
  | GetNode _ _ => result Node kube_error
  | ListPods _ _ => result (list Pod) kube_error
  | GetDyn _ _ _ _ => result DynamicObject kube_error
  | GetOptDyn _ _ _ _ => result (option DynamicObject) kube_error
  | PinnedKind _ _ _ _ => result ApiResource kube_error
  | CreateReview _ _ => result (option ReviewStatus) kube_error
  | GetSecret _ _ _ => result Secret kube_error
  | ExistsConfigMap _ _ _ | ExistsSecret _ _ _ | ExistsNamespace _ _ => result bool kube_error
  | PatchNode _ _ _ | DeletePod _ _ _ _ | CreateDyn _ _ _ _ | DeleteDyn _ _ _ _
  | PatchSM _ _ _ _ | PatchSMStatus _ _ _ _ | PatchProviderStatus _ _ _ _ _ | Publish _ _
  | ApplyConfigMap _ _ _ _ _ _ | DeleteConfigMap _ _ _ => result unit kube_error
  | UtcNow | InstantNow => Z
  | DeadlinePassed _ | IsLeader | RecordReclaim _ _ => bool
  | EnvVar _ => option string
  | RetryIncr _ => option Z
  | CacheLookup _ _ => option child_config
  | CacheInsert _ _ _ => bool * option CacheKey
  | RetryRemove _ | HookEvicted _ | HookResolved _ _ | MetricOp _ => unit
  end%type.

Notation M := (prog reply).
Notation trace := (list (event reply)).

(** Typed versions of [call]. *)
Definition get_node c n : M (result Node kube_error) := call (GetNode c n).
Definition patch_node c n p : M (result unit kube_error) := call (PatchNode c n p).
Definition list_pods c s : M (result (list Pod) kube_error) := call (ListPods c s).
Definition delete_pod c ns n g : M (result unit kube_error) := call (DeletePod c ns n g).
Definition get_dyn c ns ar n : M (result DynamicObject kube_error) := call (GetDyn c ns ar n).
Definition get_opt_dyn c ns ar n : M (result (option DynamicObject) kube_error) := call (GetOptDyn c ns ar n).
Definition create_dyn c ns ar o : M (result unit kube_error) := call (CreateDyn c ns ar o).
Definition delete_dyn c ns ar n : M (result unit kube_error) := call (DeleteDyn c ns ar n).
Definition pinned_kind c g v k : M (result ApiResource kube_error) := call (PinnedKind c g v k).
Definition create_review c a : M (result (option ReviewStatus) kube_error) := call (CreateReview c a).
Definition patch_sm c ns n b : M (result unit kube_error) := call (PatchSM c ns n b).
Definition patch_sm_status c ns n b : M (result unit kube_error) := call (PatchSMStatus c ns n b).
Definition patch_provider_status c k ns n b : M (result unit kube_error) := call (PatchProviderStatus c k ns n b).
Definition publish ev r : M (result unit kube_error) := call (Publish ev r).
Definition get_secret c ns n : M (result Secret kube_error) := call (GetSecret c ns n).
Definition utc_now : M Z := call UtcNow.
Definition instant_now : M Z := call InstantNow.
Definition env_var n : M (option string) := call (EnvVar n).
Definition is_leader : M bool := call IsLeader.
Definition metric_op_call op : M unit := call (MetricOp op).

Definition call_cache_lookup k rv : M (option child_config) := call (CacheLookup k rv).
Definition call_cache_insert k c rv : M (bool * option CacheKey) := call (CacheInsert k c rv).
Definition on_child_evicted k : M unit := call (HookEvicted k).
Definition on_child_resolved k c : M unit := call (HookResolved k c).
Definition call_retry_incr k : M (option Z) := call (RetryIncr k).
Definition call_retry_remove k : M unit := call (RetryRemove k).
Definition call_record_reclaim k now : M bool := call (RecordReclaim k now).
Definition exists_config_map c ns n : M (result bool kube_error) := call (ExistsConfigMap c ns n).
Definition exists_secret c ns n : M (result bool kube_error) := call (ExistsSecret c ns n).
Definition exists_namespace c n : M (result bool kube_error) := call (ExistsNamespace c n).
Definition apply_config_map c ns n m f cm : M (result unit kube_error) := call (ApplyConfigMap c ns n m f cm).
Definition delete_config_map c ns n : M (result unit kube_error) := call (DeleteConfigMap c ns n).

(** [start.elapsed()]: saturating. *)
Definition elapsed (start : Z) : M Z :=
  now <- instant_now ;; Ret (Z.max 0 (now - start)).

(** ** Errors of the reconciler *)

Inductive ReconcilerError : Type :=
| KubeError (e : kube_error)
| NotFound (s : string)
| InvalidConfig (s : string)
| ScheduleError (s : string)
| CapiError (s : string)
| FileResolutionError (s : string)
| ReferenceValidationError (s : string)
| ValidationError (s : string)
| PermissionDenied (s : string)
| TimeoutError (s : string)
| KubeconfigSecretMissingKey (ns name key : string)
| KubeconfigInvalid (ns name reason : string)
| ChildClusterUnreachable (ns name reason : string)
| Other (s : string).

Section display.
Context `{Externals}.

Definition ReconcilerError_display (e : ReconcilerError) : string :=
  match e with
  | KubeError k => "Kubernetes API error: " +:+ kube_error_display k
  | NotFound s => "Resource not found: " +:+ s
  | InvalidConfig s => "Invalid configuration: " +:+ s
  | ScheduleError s => "Schedule evaluation error: " +:+ s
  | CapiError s => "CAPI operation failed: " +:+ s
  | FileResolutionError s => "File content resolution failed: " +:+ s
  | ReferenceValidationError s => "Reference validation failed: " +:+ s
  | ValidationError s => "Security validation failed: " +:+ s
  | PermissionDenied s => "Permission denied: " +:+ s
  | TimeoutError s => "Operation timed out: " +:+ s
  | KubeconfigSecretMissingKey ns name key =>
      "Kubeconfig Secret " +:+ ns +:+ "/" +:+ name +:+ " is missing data key " +:+ key
  | KubeconfigInvalid ns name reason =>
      "Kubeconfig in Secret " +:+ ns +:+ "/" +:+ name +:+ " is invalid: " +:+ reason
  | ChildClusterUnreachable ns name reason =>
      "Child cluster " +:+ ns +:+ "/" +:+ name +:+ " unreachable: " +:+ reason
  | Other s => s
  end.
End display.

(** [kube::runtime::controller::Action]. *)
Inductive Action : Type :=
| Requeue (secs : Z)
| AwaitChange.

Definition rresult (A : Type) : Type := result A ReconcilerError.

(** [r.await?] on a Kubernetes result, through [#\[from\] kube::Error]. *)
Definition kube_ok {A} (p : M (result A kube_error)) : M (rresult A) :=
  r <- p ;; Ret (map_err KubeError r).

(** The controller's [Context]: its immutable part.  Its mutable part (leader
    flag, retry counters, recent reclaims, client cache) is behind calls.
    [ctx_capi_version] is the process-wide CAPI version
    ([capi_machine_api_version()]), fixed at startup. *)
Record Context : Type := {
  ctx_instance_id : Z;
  ctx_instance_count : Z;
  ctx_force_finalizer_on_timeout : bool;
  ctx_capi_version : string;
}.

Definition sm_event_ref (namespace name : string) : EventRef := {|
  er_api_version := API_VERSION_FULL; er_kind := KIND_SCHEDULED_MACHINE;
  er_name := name; er_namespace := namespace |}.

(** [resource.namespace().ok_or_else(...)]. *)
Definition require_namespace (r : ScheduledMachine) : rresult string :=
  ok_or (Crd.namespace r) (InvalidConfig "ScheduledMachine must be namespaced").

(** ** An environment where every call succeeds, for evaluation *)

Definition empty_node : Node := {| n_name := None; n_labels := None; n_annotations := None;
  n_spec_taints := None; n_status_conditions := None; n_machine_id := None |}.
Definition empty_dynamic : DynamicObject := {| d_name := None; d_namespace := None; d_labels := None; d_data := JObj [] |}.

Definition ok_handler (c : call_t) (now : Z) : Z * reply c :=
  match c return Z * reply c with
  | GetNode _ _ => (now, Ok empty_node)
  | ListPods _ _ => (now, Ok [])
  | GetDyn _ _ _ _ => (now, Ok empty_dynamic)
  | GetOptDyn _ _ _ _ => (now, Ok (Some empty_dynamic))
  | PinnedKind _ g v k => (now, Ok {| ar_group := g; ar_version := v; ar_kind := k; ar_plural := k |})
  | CreateReview _ _ => (now, Ok (Some {| rs_allowed := true; rs_reason := None |}))
  | GetSecret _ _ _ => (now, Ok {| s_resource_version := Some "1"; s_data := None |})
  | ExistsConfigMap _ _ _ | ExistsSecret _ _ _ | ExistsNamespace _ _ => (now, Ok true)
  | PatchNode _ _ _ | DeletePod _ _ _ _ | CreateDyn _ _ _ _ | DeleteDyn _ _ _ _
  | PatchSM _ _ _ _ | PatchSMStatus _ _ _ _ | PatchProviderStatus _ _ _ _ _ | Publish _ _
  | ApplyConfigMap _ _ _ _ _ _ | DeleteConfigMap _ _ _ => (now, Ok tt)
  | UtcNow | InstantNow => ((now + 1)%Z, now)
  | DeadlinePassed _ => (now, false)
  | IsLeader => (now, true)
  | RecordReclaim _ _ => (now, false)
  | EnvVar _ => (now, None)
  | RetryIncr _ => (now, Some 1%Z)
  | CacheLookup _ _ => (now, None)
  | CacheInsert _ _ _ => (now, (false, None))
  | RetryRemove _ | HookEvicted _ | HookResolved _ _ | MetricOp _ => (now, tt)
  end.
