(* ===== verification/Samples.v ===== *)
(** Concrete machines, for the examples and the witnesses. *)

From S2P Require Import Prelude RustStr Json Crd KubeApi.

Definition sample_embedded (group kind : string) : EmbeddedResource :=
  {| inner := JObj [("apiVersion", JStr (group +:+ "/v1beta1")); ("kind", JStr kind); ("spec", JObj [])] |}.
Definition sample_sm : ScheduledMachine := {|
  metadata := {| om_name := Some "sm"; om_namespace := Some "team"; om_uid := Some "u-1"; om_generation := Some 1%Z;
                 om_finalizers := None; om_deletion_timestamp := None |};
  spec := {| schedule := {| ssr_api_version := "spotschedules.5spot.finos.org/v1alpha1";
                            ssr_kind := "TimeBasedSpotSchedule"; ssr_name := "nights" |};
             enabled := true; cluster_name := "prod"; bootstrap_spec := sample_embedded "k0smotron.io" "K0sWorkerConfig";
             infrastructure_spec := sample_embedded "infrastructure.cluster.x-k8s.io" "RemoteMachine";
             machine_template := None; priority := 50; graceful_shutdown_timeout := "5m"; node_drain_timeout := "5m";
             kill_switch := false; node_taints := []; kill_if_commands := None; kubeconfig_secret_ref := None; kata := None |};
  status := None |}.
Definition sample_ctx : Context := {|
  ctx_instance_id := 0; ctx_instance_count := 1; ctx_force_finalizer_on_timeout := true; ctx_capi_version := "v1beta1" |}.


Definition with_phase (ph : string) (sm : ScheduledMachine) : ScheduledMachine := {|
  metadata := metadata sm; spec := spec sm;
  status := Some {| phase := Some ph; message := None; last_scheduled_time := None; machine_ref := None;
    bootstrap_ref := None; infrastructure_ref := None; node_ref := None; provider_id := None; conditions := [];
    observed_generation := None; in_schedule := false; ready := false; next_activation := None; next_cleanup := None;
    applied_node_taints := []; spot_schedule := None |} |}.
