(* ===== verification/Metrics.v ===== *)
(** The metrics of [src/metrics.rs]: the registered families and the [record_*]
    functions.  A label set of the wrong length makes [with_label_values] panic;
    [metric_op_ok] says that an operation cannot. *)

From S2P Require Import Prelude RustStr Effects KubeApi.

(** ** Families *)

Definition RECONCILIATIONS_TOTAL : metric :=
  {| m_name := "fivespot_reconciliations_total"; m_kind := CounterM; m_labels := ["phase"; "result"] |}.
Definition RECONCILIATION_DURATION_SECONDS : metric :=
  {| m_name := "fivespot_reconciliation_duration_seconds"; m_kind := HistogramM; m_labels := ["phase"] |}.
Definition MACHINES_ACTIVE : metric :=
  {| m_name := "fivespot_machines_active"; m_kind := GaugeM; m_labels := [] |}.
Definition MACHINES_BY_PHASE : metric :=
  {| m_name := "fivespot_machines_by_phase"; m_kind := GaugeM; m_labels := ["phase"] |}.
Definition SCHEDULE_EVALUATIONS_TOTAL : metric :=
  {| m_name := "fivespot_schedule_evaluations_total"; m_kind := CounterM; m_labels := ["result"] |}.
Definition CAPITAL_MARKETS_ACTIVE : metric :=
  {| m_name := "fivespot_capital_markets_active"; m_kind := GaugeM; m_labels := ["namespace"; "name"] |}.
Definition CAPITAL_MARKETS_TRANSITIONS_TOTAL : metric :=
  {| m_name := "fivespot_capital_markets_transitions_total"; m_kind := CounterM; m_labels := ["namespace"; "name"] |}.
Definition TIME_BASED_ACTIVE : metric :=
  {| m_name := "fivespot_time_based_active"; m_kind := GaugeM; m_labels := ["namespace"; "name"] |}.
Definition TIME_BASED_TRANSITIONS_TOTAL : metric :=
  {| m_name := "fivespot_time_based_transitions_total"; m_kind := CounterM; m_labels := ["namespace"; "name"] |}.
Definition SPOT_SCHEDULE_RESOLUTIONS_TOTAL : metric :=
  {| m_name := "fivespot_spot_schedule_resolutions_total"; m_kind := CounterM; m_labels := ["namespace"; "kind"; "result"] |}.
Definition SPOT_SCHEDULE_RESOLUTION_ERRORS_TOTAL : metric :=
  {| m_name := "fivespot_spot_schedule_resolution_errors_total"; m_kind := CounterM; m_labels := ["namespace"; "kind"; "reason"] |}.
Definition SPOT_SCHEDULE_TRANSITIONS_TOTAL : metric :=
  {| m_name := "fivespot_spot_schedule_transitions_total"; m_kind := CounterM; m_labels := ["namespace"; "kind"] |}.
Definition KILL_SWITCH_ACTIVATIONS_TOTAL : metric :=
  {| m_name := "fivespot_kill_switch_activations_total"; m_kind := GaugeM; m_labels := [] |}.
Definition CONTROLLER_INFO : metric :=
  {| m_name := "fivespot_controller_info"; m_kind := GaugeM; m_labels := ["version"; "instance_id"] |}.
Definition IS_LEADER : metric :=
  {| m_name := "fivespot_is_leader"; m_kind := GaugeM; m_labels := [] |}.
Definition ERRORS_TOTAL : metric :=
  {| m_name := "fivespot_errors_total"; m_kind := CounterM; m_labels := ["error_type"] |}.
Definition NODE_DRAINS_TOTAL : metric :=
  {| m_name := "fivespot_node_drains_total"; m_kind := CounterM; m_labels := ["result"] |}.
Definition EMERGENCY_DRAIN_DURATION_SECONDS : metric :=
  {| m_name := "fivespot_emergency_drain_duration_seconds"; m_kind := HistogramM; m_labels := ["outcome"] |}.
Definition EMERGENCY_RECLAIMS_TOTAL : metric :=
  {| m_name := "fivespot_emergency_reclaims_total"; m_kind := CounterM; m_labels := ["namespace"; "name"] |}.
Definition RAPID_RE_RECLAIMS_TOTAL : metric :=
  {| m_name := "fivespot_rapid_re_reclaims_total"; m_kind := CounterM; m_labels := ["namespace"; "name"] |}.
Definition POD_EVICTIONS_TOTAL : metric :=
  {| m_name := "fivespot_pod_evictions_total"; m_kind := CounterM; m_labels := ["result"] |}.
Definition FINALIZER_CLEANUP_TIMEOUTS_TOTAL : metric :=
  {| m_name := "fivespot_finalizer_cleanup_timeouts_total"; m_kind := CounterM; m_labels := [] |}.
Definition CHILD_KUBECONFIG_RESOLUTIONS_TOTAL : metric :=
  {| m_name := "fivespot_child_kubeconfig_resolutions_total"; m_kind := CounterM; m_labels := ["result"] |}.
Definition CHILD_KUBECONFIG_ERRORS_TOTAL : metric :=
  {| m_name := "fivespot_child_kubeconfig_errors_total"; m_kind := CounterM; m_labels := ["reason"] |}.
Definition KATA_CONFIG_WRITES_TOTAL : metric :=
  {| m_name := "fivespot_kata_config_writes_total"; m_kind := CounterM; m_labels := [] |}.
Definition KATA_CONFIG_DELETES_TOTAL : metric :=
  {| m_name := "fivespot_kata_config_deletes_total"; m_kind := CounterM; m_labels := [] |}.
Definition KATA_CONFIG_DRIFT_CORRECTED_TOTAL : metric :=
  {| m_name := "fivespot_kata_config_drift_corrected_total"; m_kind := CounterM; m_labels := [] |}.
Definition KATA_CONFIG_RESTARTS_TOTAL : metric :=
  {| m_name := "fivespot_kata_config_restarts_total"; m_kind := CounterM; m_labels := [] |}.
Definition KATA_CONFIG_SYNC_ERRORS_TOTAL : metric :=
  {| m_name := "fivespot_kata_config_sync_errors_total"; m_kind := CounterM; m_labels := [] |}.
Definition KATA_CONFIG_LAST_SYNC_TIMESTAMP_SECONDS : metric :=
  {| m_name := "fivespot_kata_config_last_sync_timestamp_seconds"; m_kind := GaugeM; m_labels := [] |}.

(** ** Recording *)

Definition inc (m : metric) (labels : list string) : M unit := metric_op_call (MInc m labels).
Definition set (m : metric) (labels : list string) (v : Z) : M unit := metric_op_call (MSet m labels v).
Definition observe (m : metric) (labels : list string) (nanos : Z) : M unit :=
  metric_op_call (MObserve m labels nanos).

Definition record_reconciliation_success (phase : string) (duration : Z) : M unit :=
  inc RECONCILIATIONS_TOTAL [phase; "success"] ;;;
  observe RECONCILIATION_DURATION_SECONDS [phase] duration.

Definition record_reconciliation_failure (phase : string) (duration : Z) : M unit :=
  inc RECONCILIATIONS_TOTAL [phase; "failure"] ;;;
  observe RECONCILIATION_DURATION_SECONDS [phase] duration.

Definition record_schedule_evaluation (is_active : bool) : M unit :=
  inc SCHEDULE_EVALUATIONS_TOTAL [if is_active then "active" else "inactive"].

Definition bool_gauge (b : bool) : Z := if b then 1 else 0.

Definition set_capital_markets_active (namespace name : string) (active : bool) : M unit :=
  set CAPITAL_MARKETS_ACTIVE [namespace; name] (bool_gauge active).
Definition record_capital_markets_transition (namespace name : string) : M unit :=
  inc CAPITAL_MARKETS_TRANSITIONS_TOTAL [namespace; name].
Definition set_time_based_active (namespace name : string) (active : bool) : M unit :=
  set TIME_BASED_ACTIVE [namespace; name] (bool_gauge active).
Definition record_time_based_transition (namespace name : string) : M unit :=
  inc TIME_BASED_TRANSITIONS_TOTAL [namespace; name].

Definition record_spot_schedule_resolution (namespace kind result : string) : M unit :=
  inc SPOT_SCHEDULE_RESOLUTIONS_TOTAL [namespace; kind; result].
Definition record_spot_schedule_resolution_error (namespace kind reason : string) : M unit :=
  inc SPOT_SCHEDULE_RESOLUTION_ERRORS_TOTAL [namespace; kind; reason].
Definition record_spot_schedule_transition (namespace kind : string) : M unit :=
  inc SPOT_SCHEDULE_TRANSITIONS_TOTAL [namespace; kind].

Definition set_machines_by_phase (phase : string) (count : Z) : M unit :=
  set MACHINES_BY_PHASE [phase] count.
Definition record_error (error_type : string) : M unit := inc ERRORS_TOTAL [error_type].
Definition success_label (success : bool) : string := if success then "success" else "failure".
Definition record_node_drain (success : bool) : M unit := inc NODE_DRAINS_TOTAL [success_label success].
Definition record_pod_eviction (success : bool) : M unit := inc POD_EVICTIONS_TOTAL [success_label success].

Inductive EmergencyDrainOutcome : Type := DrainSuccess | DrainTimeout | DrainError.
Definition EmergencyDrainOutcome_as_str (o : EmergencyDrainOutcome) : string :=
  match o with DrainSuccess => "success" | DrainTimeout => "timeout" | DrainError => "error" end.
Definition record_emergency_drain (duration : Z) (outcome : EmergencyDrainOutcome) : M unit :=
  observe EMERGENCY_DRAIN_DURATION_SECONDS [EmergencyDrainOutcome_as_str outcome] duration.

Definition record_emergency_reclaim (namespace name : string) : M unit :=
  inc EMERGENCY_RECLAIMS_TOTAL [namespace; name].
Definition record_rapid_re_reclaim (namespace name : string) : M unit :=
  inc RAPID_RE_RECLAIMS_TOTAL [namespace; name].
Definition record_child_kubeconfig_resolution (result : string) : M unit :=
  inc CHILD_KUBECONFIG_RESOLUTIONS_TOTAL [result].
Definition record_child_kubeconfig_error (reason : string) : M unit :=
  inc CHILD_KUBECONFIG_ERRORS_TOTAL [reason].
Definition record_finalizer_cleanup_timeout : M unit := inc FINALIZER_CLEANUP_TIMEOUTS_TOTAL [].
Definition record_kill_switch_activation : M unit := inc KILL_SWITCH_ACTIVATIONS_TOTAL [].

(** The stamp is skipped when the clock is before the epoch. *)
Definition stamp_kata_config_last_sync : M unit :=
  now <- utc_now ;;
  if bool_decide (0 <= now)%Z then set KATA_CONFIG_LAST_SYNC_TIMESTAMP_SECONDS [] now else Ret tt.
Definition record_kata_config_write (drift_corrected : bool) : M unit :=
  inc KATA_CONFIG_WRITES_TOTAL [] ;;;
  (if drift_corrected then inc KATA_CONFIG_DRIFT_CORRECTED_TOTAL [] else Ret tt) ;;;
  stamp_kata_config_last_sync.
Definition record_kata_config_delete : M unit :=
  inc KATA_CONFIG_DELETES_TOTAL [] ;;; stamp_kata_config_last_sync.
Definition record_kata_config_sync_unchanged : M unit := stamp_kata_config_last_sync.
Definition record_kata_config_restart : M unit := inc KATA_CONFIG_RESTARTS_TOTAL [].
Definition record_kata_config_sync_error : M unit := inc KATA_CONFIG_SYNC_ERRORS_TOTAL [].

Definition init_controller_info (version : string) (instance_id : Z) : M unit :=
  set CONTROLLER_INFO [version; pretty instance_id] 1.
Definition set_leader_status (leader : bool) : M unit := set IS_LEADER [] (bool_gauge leader).

(** ** No operation panics *)

Definition metric_op_ok (op : metric_op) : Prop :=
  match op with
  | MInc m l => List.length l = List.length (m_labels m) /\ m_kind m <> HistogramM
  | MSet m l _ => List.length l = List.length (m_labels m) /\ m_kind m = GaugeM
  | MObserve m l _ => List.length l = List.length (m_labels m) /\ m_kind m = HistogramM
  end.

(** The calls that only record. *)
Definition metric_call (c : call_t) : Prop :=
  match c with MetricOp op => metric_op_ok op | _ => False end.

Lemma metric_call_inc m l :
  List.length l = List.length (m_labels m) -> m_kind m <> HistogramM -> calls metric_call (inc m l).
Proof. by repeat constructor. Qed.
Lemma metric_call_observe m l v :
  List.length l = List.length (m_labels m) -> m_kind m = HistogramM -> calls metric_call (observe m l v).
Proof. by repeat constructor. Qed.
