(* ===== verification/Registry.v ===== *)
(** The metric families as the process creates them ([src/metrics.rs]): each is
    a static initialised at its first use, registered in the default registry,
    or, when that fails, replaced by an unregistered one.

    The registry is the [prometheus] crate's; what it accepts is a parameter. *)

From S2P Require Import Prelude RustStr KubeApi Metrics.

(** Buckets in milliseconds.  The help text of the fallback is written apart in
    the code. *)
Record family : Type := { f_metric : metric; f_help : string; f_buckets : list Z; f_fallback_help : string }.

Definition RECONCILIATIONS_TOTAL_family : family :=
  {| f_metric := RECONCILIATIONS_TOTAL; f_help := "Total number of reconciliations performed"; f_buckets := []%Z;
     f_fallback_help := "Total number of reconciliations performed" |}.
Definition RECONCILIATION_DURATION_SECONDS_family : family :=
  {| f_metric := RECONCILIATION_DURATION_SECONDS; f_help := "Duration of reconciliation operations in seconds"; f_buckets := [1; 5; 10; 25; 50; 100; 250; 500; 1000; 2500; 5000; 10000]%Z;
     f_fallback_help := "Duration of reconciliation operations in seconds" |}.
Definition MACHINES_ACTIVE_family : family :=
  {| f_metric := MACHINES_ACTIVE; f_help := "Number of machines currently in Active phase"; f_buckets := []%Z;
     f_fallback_help := "Number of machines currently in Active phase" |}.
Definition MACHINES_BY_PHASE_family : family :=
  {| f_metric := MACHINES_BY_PHASE; f_help := "Number of ScheduledMachine resources by phase"; f_buckets := []%Z;
     f_fallback_help := "Number of ScheduledMachine resources by phase" |}.
Definition SCHEDULE_EVALUATIONS_TOTAL_family : family :=
  {| f_metric := SCHEDULE_EVALUATIONS_TOTAL; f_help := "Total number of schedule evaluations"; f_buckets := []%Z;
     f_fallback_help := "Total number of schedule evaluations" |}.
Definition CAPITAL_MARKETS_ACTIVE_family : family :=
  {| f_metric := CAPITAL_MARKETS_ACTIVE; f_help := "Current active state of each CapitalMarketsSchedule (1=open, 0=closed)"; f_buckets := []%Z;
     f_fallback_help := "Current active state of each CapitalMarketsSchedule (1=open, 0=closed)" |}.
Definition CAPITAL_MARKETS_TRANSITIONS_TOTAL_family : family :=
  {| f_metric := CAPITAL_MARKETS_TRANSITIONS_TOTAL; f_help := "Total CapitalMarketsSchedule active/closed transitions"; f_buckets := []%Z;
     f_fallback_help := "Total CapitalMarketsSchedule active/closed transitions" |}.
Definition TIME_BASED_ACTIVE_family : family :=
  {| f_metric := TIME_BASED_ACTIVE; f_help := "Current active state of each TimeBasedSpotSchedule (1=in window, 0=out)"; f_buckets := []%Z;
     f_fallback_help := "Current active state of each TimeBasedSpotSchedule (1=in window, 0=out)" |}.
Definition TIME_BASED_TRANSITIONS_TOTAL_family : family :=
  {| f_metric := TIME_BASED_TRANSITIONS_TOTAL; f_help := "Total TimeBasedSpotSchedule active/inactive transitions"; f_buckets := []%Z;
     f_fallback_help := "Total TimeBasedSpotSchedule active/inactive transitions" |}.
Definition SPOT_SCHEDULE_RESOLUTIONS_TOTAL_family : family :=
  {| f_metric := SPOT_SCHEDULE_RESOLUTIONS_TOTAL; f_help := "Total spot-schedule provider resolutions by namespace, kind, and result"; f_buckets := []%Z;
     f_fallback_help := "Total spot-schedule provider resolutions by namespace, kind, and result" |}.
Definition SPOT_SCHEDULE_RESOLUTION_ERRORS_TOTAL_family : family :=
  {| f_metric := SPOT_SCHEDULE_RESOLUTION_ERRORS_TOTAL; f_help := "Total spot-schedule provider resolution errors by namespace, kind, and reason"; f_buckets := []%Z;
     f_fallback_help := "Total spot-schedule provider resolution errors by namespace, kind, and reason" |}.
Definition SPOT_SCHEDULE_TRANSITIONS_TOTAL_family : family :=
  {| f_metric := SPOT_SCHEDULE_TRANSITIONS_TOTAL; f_help := "Total spot-schedule provider active/inactive transitions by namespace and kind"; f_buckets := []%Z;
     f_fallback_help := "Total spot-schedule provider active/inactive transitions by namespace and kind" |}.
Definition KILL_SWITCH_ACTIVATIONS_TOTAL_family : family :=
  {| f_metric := KILL_SWITCH_ACTIVATIONS_TOTAL; f_help := "Total number of kill switch activations"; f_buckets := []%Z;
     f_fallback_help := "Total number of kill switch activations" |}.
Definition CONTROLLER_INFO_family : family :=
  {| f_metric := CONTROLLER_INFO; f_help := "Controller information"; f_buckets := []%Z;
     f_fallback_help := "Controller information" |}.
Definition IS_LEADER_family : family :=
  {| f_metric := IS_LEADER; f_help := "Whether this controller instance is the leader (1 = leader, 0 = not leader)"; f_buckets := []%Z;
     f_fallback_help := "Whether this controller instance is the leader" |}.
Definition ERRORS_TOTAL_family : family :=
  {| f_metric := ERRORS_TOTAL; f_help := "Total number of errors by type"; f_buckets := []%Z;
     f_fallback_help := "Total number of errors by type" |}.
Definition NODE_DRAINS_TOTAL_family : family :=
  {| f_metric := NODE_DRAINS_TOTAL; f_help := "Total number of node drain operations"; f_buckets := []%Z;
     f_fallback_help := "Total number of node drain operations" |}.
Definition EMERGENCY_DRAIN_DURATION_SECONDS_family : family :=
  {| f_metric := EMERGENCY_DRAIN_DURATION_SECONDS; f_help := "Wall-clock duration of emergency-reclaim node drains, by outcome"; f_buckets := [500; 1000; 2500; 5000; 10000; 15000; 20000; 30000; 45000; 60000; 90000]%Z;
     f_fallback_help := "Wall-clock duration of emergency-reclaim node drains, by outcome" |}.
Definition EMERGENCY_RECLAIMS_TOTAL_family : family :=
  {| f_metric := EMERGENCY_RECLAIMS_TOTAL; f_help := "Total emergency-reclaim events fired per ScheduledMachine"; f_buckets := []%Z;
     f_fallback_help := "Total emergency-reclaim events fired per ScheduledMachine" |}.
Definition RAPID_RE_RECLAIMS_TOTAL_family : family :=
  {| f_metric := RAPID_RE_RECLAIMS_TOTAL; f_help := "Total RapidReReclaim warnings emitted per ScheduledMachine"; f_buckets := []%Z;
     f_fallback_help := "Total RapidReReclaim warnings emitted per ScheduledMachine" |}.
Definition POD_EVICTIONS_TOTAL_family : family :=
  {| f_metric := POD_EVICTIONS_TOTAL; f_help := "Total number of pod evictions during node drain"; f_buckets := []%Z;
     f_fallback_help := "Total number of pod evictions during node drain" |}.
Definition FINALIZER_CLEANUP_TIMEOUTS_TOTAL_family : family :=
  {| f_metric := FINALIZER_CLEANUP_TIMEOUTS_TOTAL; f_help := "Total number of finalizer cleanup timeouts (force-removed; possible orphan resources)"; f_buckets := []%Z;
     f_fallback_help := "Total number of finalizer cleanup timeouts (force-removed; possible orphan resources)" |}.
Definition CHILD_KUBECONFIG_RESOLUTIONS_TOTAL_family : family :=
  {| f_metric := CHILD_KUBECONFIG_RESOLUTIONS_TOTAL; f_help := "Total number of child-cluster kubeconfig resolutions by outcome"; f_buckets := []%Z;
     f_fallback_help := "Total number of child-cluster kubeconfig resolutions by outcome" |}.
Definition CHILD_KUBECONFIG_ERRORS_TOTAL_family : family :=
  {| f_metric := CHILD_KUBECONFIG_ERRORS_TOTAL; f_help := "Total number of child-cluster kubeconfig resolution errors by reason"; f_buckets := []%Z;
     f_fallback_help := "Total number of child-cluster kubeconfig resolution errors by reason" |}.
Definition KATA_CONFIG_WRITES_TOTAL_family : family :=
  {| f_metric := KATA_CONFIG_WRITES_TOTAL; f_help := "Total kata drop-in files written to the host by the node agent"; f_buckets := []%Z;
     f_fallback_help := "Total kata drop-in files written to the host by the node agent" |}.
Definition KATA_CONFIG_DELETES_TOTAL_family : family :=
  {| f_metric := KATA_CONFIG_DELETES_TOTAL; f_help := "Total kata drop-in files removed from the host by the node agent"; f_buckets := []%Z;
     f_fallback_help := "Total kata drop-in files removed from the host by the node agent" |}.
Definition KATA_CONFIG_DRIFT_CORRECTED_TOTAL_family : family :=
  {| f_metric := KATA_CONFIG_DRIFT_CORRECTED_TOTAL; f_help := "Total out-of-band kata drop-in edits corrected without a service restart"; f_buckets := []%Z;
     f_fallback_help := "Total out-of-band kata drop-in edits corrected without a service restart" |}.
Definition KATA_CONFIG_RESTARTS_TOTAL_family : family :=
  {| f_metric := KATA_CONFIG_RESTARTS_TOTAL; f_help := "Total host k0s-service restarts issued by the kata-config agent"; f_buckets := []%Z;
     f_fallback_help := "Total host k0s-service restarts issued by the kata-config agent" |}.
Definition KATA_CONFIG_SYNC_ERRORS_TOTAL_family : family :=
  {| f_metric := KATA_CONFIG_SYNC_ERRORS_TOTAL; f_help := "Total failed kata-config reconcile ticks"; f_buckets := []%Z;
     f_fallback_help := "Total failed kata-config reconcile ticks" |}.
Definition KATA_CONFIG_LAST_SYNC_TIMESTAMP_SECONDS_family : family :=
  {| f_metric := KATA_CONFIG_LAST_SYNC_TIMESTAMP_SECONDS; f_help := "Unix time of the last successful kata-config reconcile tick"; f_buckets := []%Z;
     f_fallback_help := "Unix time of the last successful kata-config reconcile tick" |}.

Definition families : list family := [
  RECONCILIATIONS_TOTAL_family; RECONCILIATION_DURATION_SECONDS_family; MACHINES_ACTIVE_family;
  MACHINES_BY_PHASE_family; SCHEDULE_EVALUATIONS_TOTAL_family; CAPITAL_MARKETS_ACTIVE_family;
  CAPITAL_MARKETS_TRANSITIONS_TOTAL_family; TIME_BASED_ACTIVE_family; TIME_BASED_TRANSITIONS_TOTAL_family;
  SPOT_SCHEDULE_RESOLUTIONS_TOTAL_family; SPOT_SCHEDULE_RESOLUTION_ERRORS_TOTAL_family; SPOT_SCHEDULE_TRANSITIONS_TOTAL_family;
  KILL_SWITCH_ACTIVATIONS_TOTAL_family; CONTROLLER_INFO_family; IS_LEADER_family;
  ERRORS_TOTAL_family; NODE_DRAINS_TOTAL_family; EMERGENCY_DRAIN_DURATION_SECONDS_family;
  EMERGENCY_RECLAIMS_TOTAL_family; RAPID_RE_RECLAIMS_TOTAL_family; POD_EVICTIONS_TOTAL_family;
  FINALIZER_CLEANUP_TIMEOUTS_TOTAL_family; CHILD_KUBECONFIG_RESOLUTIONS_TOTAL_family; CHILD_KUBECONFIG_ERRORS_TOTAL_family;
  KATA_CONFIG_WRITES_TOTAL_family; KATA_CONFIG_DELETES_TOTAL_family; KATA_CONFIG_DRIFT_CORRECTED_TOTAL_family;
  KATA_CONFIG_RESTARTS_TOTAL_family; KATA_CONFIG_SYNC_ERRORS_TOTAL_family; KATA_CONFIG_LAST_SYNC_TIMESTAMP_SECONDS_family].

(** ** The registry *)

(** [register_*!] on the set of the registered names, and the constructors
    without the registry. *)
Class Prometheus : Type := {
  register : metric -> string -> list Z -> gset string -> result (gset string) string;
  create : metric -> string -> list Z -> result unit string;
}.

Definition name_start (a : ascii) : bool := is_ascii_alphabetic a || bool_decide (a = "_"%char).
Definition name_rest (a : ascii) : bool := name_start a || is_ascii_digit a.
(** [[a-zA-Z_][a-zA-Z0-9_]*]; a metric name may have colons as well. *)
Definition valid_name (s : string) : bool :=
  match s with String a s => name_start a && str_all name_rest s | EmptyString => false end.
Fixpoint increasing (l : list Z) : bool :=
  match l with a :: (b :: _) as l' => bool_decide (a < b)%Z && increasing l' | _ => true end.

(** What the exposition format asks of a family. *)
Definition well_formed (m : metric) (help : string) (buckets : list Z) : bool :=
  valid_name (m_name m) && negb (str_is_empty help) && forallb valid_name (m_labels m) && bool_decide (NoDup (m_labels m)) &&
  match m_kind m with
  | HistogramM => bool_decide (buckets <> []) && increasing buckets && negb (bool_decide ("le" ∈ m_labels m))
  | CounterM | GaugeM => bool_decide (buckets = [])
  end.

(** A well-formed family whose name is free is accepted. *)
Class PrometheusLaws (P : Prometheus) : Prop := {
  register_fresh : forall m help buckets names, well_formed m help buckets = true -> m_name m ∉ names ->
    register m help buckets names = Ok ({[m_name m]} ∪ names);
  create_ok : forall m help buckets, well_formed m help buckets = true -> create m help buckets = Ok tt;
}.

(** ** The statics *)

Section statics.
Context `{Prometheus}.

(** An unregistered family; [None] is the panic. *)
Definition fallback (m : metric) (help : string) (buckets : list Z) : option unit :=
  match create m help buckets with Ok _ => Some tt | Err _ => None end.

(** The initialiser of a static, with whether the family is registered. *)
Definition init_family (f : family) (names : gset string) : option (gset string * bool) :=
  match register (f_metric f) (f_help f) (f_buckets f) names with
  | Ok names => Some (names, true)
  | Err _ => _ ← fallback (f_metric f) (f_fallback_help f) (f_buckets f); Some (names, false)
  end.

(** The registered names, and the statics initialised so far, by name. *)
Record statics : Type := { st_names : gset string; st_done : gmap string bool }.

(** [LazyLock]: the initialiser runs at the first use only. *)
Definition use_family (f : family) (s : statics) : option (statics * bool) :=
  match st_done s !! m_name (f_metric f) with
  | Some registered => Some (s, registered)
  | None =>
      '(names, registered) ← init_family f (st_names s);
      Some ({| st_names := names; st_done := <[m_name (f_metric f) := registered]> (st_done s) |}, registered)
  end.

Fixpoint use_all (l : list family) (s : statics) : option (statics * list bool) :=
  match l with
  | [] => Some (s, [])
  | f :: l =>
      '(s, b) ← use_family f s;
      '(s, bs) ← use_all l s;
      Some (s, b :: bs)
  end.
End statics.

Lemma families_well_formed f : f ∈ families -> well_formed (f_metric f) (f_help f) (f_buckets f) = true.
Proof.
  assert (Hf : forallb (λ f, well_formed (f_metric f) (f_help f) (f_buckets f)) families = true) by (vm_compute; reflexivity).
  rewrite forallb_forall in Hf. intros Hin. by apply Hf, list_elem_of_In.
Qed.
Lemma families_distinct : NoDup ((λ f, m_name (f_metric f)) <$> families).
Proof. apply (bool_decide_unpack _). vm_compute. exact I. Qed.

(** The families: whatever the order and the repetition in which a process uses
    its metrics for the first time, none of its statics panics and none falls
    back to an unregistered family: each is registered once, under a name of
    its own. *)
Theorem families_register `{PrometheusLaws} names0 uses :
  (forall f, f ∈ families -> m_name (f_metric f) ∉ names0) -> (forall f, f ∈ uses -> f ∈ families) ->
  exists s bs, use_all uses {| st_names := names0; st_done := ∅ |} = Some (s, bs) /\ Forall (eq true) bs /\
    st_names s = list_to_set ((λ f, m_name (f_metric f)) <$> uses) ∪ names0.
Proof.
  intros Hfree. cut (forall s, (forall k, k ∈ st_names s <-> k ∈ names0 \/ is_Some (st_done s !! k)) ->
    (forall k b, st_done s !! k = Some b -> b = true) -> (forall f, f ∈ uses -> f ∈ families) ->
    exists s' bs, use_all uses s = Some (s', bs) /\ Forall (eq true) bs /\
      st_names s' = list_to_set ((λ f, m_name (f_metric f)) <$> uses) ∪ st_names s).
  { intros Hc Hu. apply Hc; [| | done]; cbn; intros k; rewrite lookup_empty; [| done].
    split; [by left | intros [? | [? ?]]; done]. }
  induction uses as [| f uses IH]; intros s Hn Hd Hu.
  { exists s, []. split_and!; [done | done |]. cbn. set_solver. }
  cbn [use_all]. unfold use_family. destruct (st_done s !! m_name (f_metric f)) as [b |] eqn:Hf.
  - pose proof (Hd _ _ Hf) as ->. cbn [mbind option_bind].
    destruct (IH s Hn Hd) as (s' & bs & -> & Hb & Hs); [by intros g Hg; apply Hu; right |]. exists s', (true :: bs).
    split_and!; [done | by constructor |]. rewrite Hs. cbn.
    assert (m_name (f_metric f) ∈ st_names s) by (apply Hn; right; by eexists). clear -H0. set_solver.
  - unfold init_family. assert (Hin : f ∈ families) by (apply Hu; by left).
    rewrite register_fresh; [| by apply families_well_formed |].
    2: { rewrite Hn. intros [Hx | [b Hx]]; [by apply (Hfree f) | congruence]. }
    cbn [mbind option_bind]. set (s1 := {| st_names := _; st_done := _ |}).
    destruct (IH s1) as (s' & bs & -> & Hb & Hs); [| | by intros g Hg; apply Hu; right |].
    + intros k. cbn. rewrite elem_of_union, elem_of_singleton, Hn, lookup_insert_is_Some.
      destruct (decide (m_name (f_metric f) = k)) as [-> | Hne]; [tauto |]. clear -Hne. intuition congruence.
    + intros k b. cbn. intros [[_ <-] | [_ Hk]]%lookup_insert_Some; [done | by eapply Hd].
    + exists s', (true :: bs). split_and!; [done | by constructor |]. rewrite Hs. cbn. clear. set_solver.
Qed.

(** A registry that checks what it is given. *)
Definition checking_prometheus : Prometheus := {|
  register := λ m help buckets names,
    if negb (well_formed m help buckets) then Err "invalid family"
    else if bool_decide (m_name m ∈ names) then Err "already registered" else Ok ({[m_name m]} ∪ names);
  create := λ m help buckets, if well_formed m help buckets then Ok tt else Err "invalid family" |}.
Lemma checking_prometheus_laws : PrometheusLaws checking_prometheus.
Proof. split; cbn; intros m help buckets; [intros names -> Hn; by rewrite bool_decide_false | by intros ->]. Qed.

Lemma families_register_witness : exists s bs,
  use_all (H := checking_prometheus) [IS_LEADER_family; ERRORS_TOTAL_family; IS_LEADER_family]
    {| st_names := {["process_cpu_seconds_total"]}; st_done := ∅ |} = Some (s, bs) /\ Forall (eq true) bs.
Proof.
  destruct (families_register (P := checking_prometheus) (H := checking_prometheus_laws)
    {["process_cpu_seconds_total"]} [IS_LEADER_family; ERRORS_TOTAL_family; IS_LEADER_family]) as (s & bs & Hs & Hb & _).
  - intros f Hf Hn. apply elem_of_singleton in Hn.
    assert (Hall : forallb (λ f, negb (String.eqb (m_name (f_metric f)) "process_cpu_seconds_total")) families = true) by (vm_compute; reflexivity).
    rewrite forallb_forall in Hall. specialize (Hall f (proj1 (list_elem_of_In _ _) Hf)). by rewrite Hn in Hall.
  - intros f Hf. unfold families. rewrite !elem_of_cons in Hf |- *. destruct Hf as [-> | [-> | [-> | Hf]]]; [repeat (first [left; reflexivity | right]) .. | by apply elem_of_nil in Hf].
  - exists s, bs. split; [exact Hs | exact Hb].
Defined.
