(* ===== verification/Validation.v ===== *)
(** Input validation of [src/reconcilers/helpers.rs]: embedded metadata, labels,
    cluster names, kill commands, API groups and the schedule reference. *)

From S2P Require Import Prelude RustStr Constants Json Crd Externals KubeApi.

(** ** [BTreeMap] order *)

(** The keys of a [BTreeMap<String, _>], in iteration order. *)
Definition sorted_keys {A} (m : gmap string A) : list string :=
  merge_sort String.le (map_to_list m).*1.

Lemma elem_of_sorted_keys {A} (m : gmap string A) k : k ∈ sorted_keys m <-> is_Some (m !! k).
Proof.
  unfold sorted_keys. rewrite merge_sort_Permutation, list_elem_of_fmap. split.
  - intros ([k' v] & -> & Hv). apply elem_of_map_to_list in Hv. by exists v.
  - intros [v Hv]. exists (k, v). split; [done |]. by apply elem_of_map_to_list.
Qed.

(** ** The code *)

Section validation.
Context `{Externals}.

(** The two nested loops over the keys and the reserved prefixes. *)
Fixpoint validate_keys (field : string) (keys : list string) : rresult unit :=
  match keys with
  | [] => Ok tt
  | key :: rest =>
      match find_b (starts_with key) RESERVED_LABEL_PREFIXES with
      | Some prefix =>
          Err (ValidationError (field +:+ " key '" +:+ key +:+ "' uses reserved prefix '" +:+ prefix +:+ "'"))
      | None => validate_keys field rest
      end
  end.

Definition validate_labels (labels : gmap string string) (field : string) : rresult unit :=
  validate_keys field (sorted_keys labels).

Definition validate_embedded_metadata (embedded : EmbeddedResource) (field : string) : rresult unit :=
  if decide (is_Some (EmbeddedResource.metadata_namespace embedded)) then
    Err (ValidationError (field +:+ ".metadata.namespace is not permitted — the controller always creates the resource in the ScheduledMachine's own namespace"))
  else if decide (is_Some (EmbeddedResource.metadata_name embedded)) then
    Err (ValidationError (field +:+ ".metadata.name is not permitted — the controller names the resource after the ScheduledMachine"))
  else
    let? _ := validate_labels (EmbeddedResource.metadata_labels embedded) (field +:+ ".metadata.labels") in
    let? _ := validate_labels (EmbeddedResource.metadata_annotations embedded) (field +:+ ".metadata.annotations") in
    Ok tt.

Definition merge_owned_labels (labels : gmap string string) (sm_name cluster_name : string) : gmap string string :=
  <[CAPI_CLUSTER_NAME_LABEL := cluster_name]> (<[SCHEDULED_MACHINE_LABEL := sm_name]> labels).

Definition cluster_name_byte (b : ascii) : bool :=
  is_ascii_alphanumeric b || bool_decide (b = "-"%char) || bool_decide (b = "."%char) || bool_decide (b = "_"%char).

Definition validate_cluster_name (cluster_name : string) : rresult unit :=
  if str_is_empty cluster_name then Err (ValidationError "spec.clusterName must not be empty")
  else if bool_decide (MAX_CLUSTER_NAME_LEN < String.length cluster_name) then
    Err (ValidationError ("spec.clusterName length " +:+ pretty (String.length cluster_name) +:+
           " exceeds maximum of 63 characters"))
  else if negb (str_all cluster_name_byte cluster_name) then
    Err (ValidationError ("spec.clusterName contains invalid character(s); allowed: ASCII alphanumerics, '-', '.', '_' (got: " +:+
           str_debug cluster_name +:+ ")"))
  else Ok tt.

Fixpoint validate_commands (idx : nat) (cmds : list string) : rresult unit :=
  match cmds with
  | [] => Ok tt
  | cmd :: rest =>
      if str_is_empty cmd then
        Err (ValidationError ("spec.killIfCommands[" +:+ pretty idx +:+ "] must not be empty"))
      else if bool_decide (MAX_KILL_IF_COMMAND_LEN < String.length cmd) then
        Err (ValidationError ("spec.killIfCommands[" +:+ pretty idx +:+ "] length " +:+
               pretty (String.length cmd) +:+ " exceeds maximum of 256 characters"))
      else validate_commands (S idx) rest
  end.

Definition validate_kill_if_commands (commands : option (list string)) : rresult unit :=
  match commands with
  | None => Ok tt
  | Some cmds =>
      if bool_decide (MAX_KILL_IF_COMMANDS_COUNT < List.length cmds) then
        Err (ValidationError ("spec.killIfCommands has " +:+ pretty (List.length cmds) +:+
               " entries, exceeds maximum of 100"))
      else validate_commands 0 cmds
  end.

Definition validate_api_group (api_version : string) (allowed_groups : list string)
    (resource_type : string) : rresult unit :=
  let? group :=
    ok_or (fst <$> rsplit_once "/" api_version)
      (ValidationError (resource_type +:+ " apiVersion '" +:+ api_version +:+
         "' must use a namespaced API group (e.g. 'bootstrap.cluster.x-k8s.io/v1beta1')")) in
  if bool_decide (group ∈ allowed_groups) then Ok tt
  else Err (ValidationError (resource_type +:+ " API group '" +:+ group +:+
              "' is not allowed. Permitted groups: " +:+ strs_debug allowed_groups)).

Definition validate_schedule_ref (schedule : SpotScheduleRef) : rresult unit :=
  if negb (SpotScheduleRef.is_spot_schedule_group schedule) then
    Err (ValidationError ("spec.schedule.apiVersion group must be '" +:+ SPOT_SCHEDULE_API_GROUP +:+
           "', got '" +:+ SpotScheduleRef.group schedule +:+ "'"))
  else Ok tt.

(** ** Specifications *)

Definition key_allowed (key : string) : Prop :=
  forall p, p ∈ RESERVED_LABEL_PREFIXES -> ~ exists t, key = p +:+ t.

Lemma validate_keys_spec field keys :
  is_ok (validate_keys field keys) = true <-> Forall key_allowed keys.
Proof.
  induction keys as [| key keys IH]; cbn [validate_keys]; [naive_solver |].
  rewrite Forall_cons. unfold key_allowed at 1.
  destruct (find_b (starts_with key) RESERVED_LABEL_PREFIXES) as [p |] eqn:Hf.
  - apply find_b_Some in Hf as [Hp Hs]. apply starts_with_spec in Hs.
    split; [done |]. intros [Hk _]. by destruct (Hk p Hp).
  - rewrite IH. split; [| tauto]. intros HF. split; [| done]. intros p Hp Ht.
    apply starts_with_spec in Ht. rewrite find_b_None in Hf. rewrite Hf in Ht; done.
Qed.

Lemma validate_labels_spec labels field :
  is_ok (validate_labels labels field) = true <-> forall k, is_Some (labels !! k) -> key_allowed k.
Proof.
  unfold validate_labels. rewrite validate_keys_spec, Forall_forall.
  by setoid_rewrite elem_of_sorted_keys.
Qed.

(** A resource with admissible metadata: no identity of its own, no reserved key. *)
Definition metadata_allowed (e : EmbeddedResource) : Prop :=
  EmbeddedResource.metadata_namespace e = None /\ EmbeddedResource.metadata_name e = None /\
  (forall k, is_Some (EmbeddedResource.metadata_labels e !! k) -> key_allowed k) /\
  (forall k, is_Some (EmbeddedResource.metadata_annotations e !! k) -> key_allowed k).

Lemma validate_embedded_metadata_spec e field :
  is_ok (validate_embedded_metadata e field) = true <-> metadata_allowed e.
Proof.
  unfold validate_embedded_metadata, metadata_allowed.
  destruct (EmbeddedResource.metadata_namespace e); cbn [decide].
  { rewrite decide_True by eauto. cbn. naive_solver. }
  rewrite decide_False by (by intros []).
  destruct (EmbeddedResource.metadata_name e).
  { rewrite decide_True by eauto. cbn. naive_solver. }
  rewrite decide_False by (by intros []).
  pose proof (validate_labels_spec (EmbeddedResource.metadata_labels e) (field +:+ ".metadata.labels")) as Hl.
  pose proof (validate_labels_spec (EmbeddedResource.metadata_annotations e) (field +:+ ".metadata.annotations")) as Ha.
  destruct (validate_labels (EmbeddedResource.metadata_labels e) _) as [[] |]; cbn [result_bind] in *;
    [| split; [done | tauto]].
  destruct (validate_labels (EmbeddedResource.metadata_annotations e) _) as [[] |]; cbn [result_bind] in *;
    split; try done; tauto.
Qed.

Lemma validate_cluster_name_spec n :
  is_ok (validate_cluster_name n) = true <->
  1 <= String.length n <= 63 /\ Forall (λ b, cluster_name_byte b = true) (String.list_ascii_of_string n).
Proof.
  unfold validate_cluster_name, MAX_CLUSTER_NAME_LEN.
  destruct n as [| a n]; cbn [str_is_empty]; [cbn; split; [done | lia] |].
  case_bool_decide as Hl; [cbn [is_ok]; split; [done | lia] |].
  rewrite <- str_all_spec. destruct (str_all cluster_name_byte (String a n)); cbn [negb is_ok].
  - split; [intros _; split; [cbn in *; lia | done] | done].
  - split; [done | by intros [_ ?]].
Qed.

Definition command_allowed (c : string) : Prop := 1 <= String.length c <= 256.

Lemma validate_commands_spec idx cmds :
  is_ok (validate_commands idx cmds) = true <-> Forall command_allowed cmds.
Proof.
  revert idx. induction cmds as [| c cmds IH]; intros idx; cbn [validate_commands]; [naive_solver |].
  rewrite Forall_cons. unfold command_allowed at 1, MAX_KILL_IF_COMMAND_LEN.
  destruct c as [| a c]; cbn [str_is_empty]; [cbn; split; [done | lia] |].
  case_bool_decide; cbn [is_ok]; [split; [done | lia] |].
  rewrite IH. cbn [String.length] in *. intuition lia.
Qed.

Lemma validate_kill_if_commands_spec cmds :
  is_ok (validate_kill_if_commands cmds) = true <->
  forall l, cmds = Some l -> List.length l <= 100 /\ Forall command_allowed l.
Proof.
  destruct cmds as [l |]; cbn; [| naive_solver].
  unfold MAX_KILL_IF_COMMANDS_COUNT. case_bool_decide; cbn.
  - split; [done |]. intros Hl. destruct (Hl l eq_refl). lia.
  - rewrite validate_commands_spec. split; [| naive_solver].
    intros ? ? [= <-]. split; [lia | done].
Qed.

Lemma validate_api_group_spec v allowed what :
  is_ok (validate_api_group v allowed what) = true <->
  exists g ver, g ∈ allowed /\ v = g +:+ String "/" ver /\ contains_char "/" ver = false.
Proof.
  unfold validate_api_group. destruct (rsplit_once "/" v) as [[g ver] |] eqn:E; cbn [fmap option_fmap option_map ok_or result_bind fst].
  - apply rsplit_once_Some in E as [-> Hver].
    case_bool_decide as Hg; cbn [is_ok]; split; try done; [by exists g, ver |].
    intros (g' & ver' & Hg' & Hv & Hver'). destruct Hg.
    apply (f_equal (rsplit_once "/")) in Hv.
    assert (Hs : forall h t, contains_char "/" t = false -> rsplit_once "/" (h +:+ String "/" t) = Some (h, t)).
    { clear. intros h t Ht. induction h as [| a h IH]; cbn.
      - apply rsplit_once_None in Ht. by rewrite Ht.
      - by rewrite IH. }
    rewrite !Hs in Hv by done. by simplify_eq.
  - split; [done |]. intros (g & ver & _ & -> & _). exfalso. revert E. clear.
    induction g as [| a g IH]; cbn; [by destruct (rsplit_once "/" ver) as [[] |] |].
    destruct (rsplit_once "/" (g +:+ String "/" ver)) as [[] |]; [done |]. by intros _; apply IH.
Qed.

Lemma validate_schedule_ref_spec r :
  is_ok (validate_schedule_ref r) = true <-> SpotScheduleRef.group r = SPOT_SCHEDULE_API_GROUP.
Proof.
  unfold validate_schedule_ref, SpotScheduleRef.is_spot_schedule_group.
  case_bool_decide; cbn; naive_solver.
Qed.
End validation.
