(* ===== verification/Duration.v ===== *)
(** Durations, the grace period and the retry back-off
    ([parse_duration], [check_grace_period_elapsed], [compute_backoff_secs] and
    [error_policy] of [src/reconcilers/helpers.rs]). *)

From S2P Require Import Prelude RustStr Effects Constants Json Crd Externals KubeApi Samples.

(** ** Durations, in seconds *)

Section duration.
Context `{Externals}.

Definition unit_multiplier (unit : string) : option Z :=
  if decide (unit = "s") then Some 1%Z
  else if decide (unit = "m") then Some 60%Z
  else if decide (unit = "h") then Some 3600%Z
  else None.

Definition checked_mul (a b : Z) : option Z :=
  if bool_decide (a * b <= U64_MAX)%Z then Some (a * b)%Z else None.

Definition parse_duration (duration_str : string) : rresult Z :=
  let duration_str := trim duration_str in
  if str_is_empty duration_str then Err (InvalidConfig "Empty duration string")
  else if negb (is_ascii duration_str) then
    Err (InvalidConfig ("Invalid duration (non-ASCII): " +:+ str_debug duration_str))
  else
    let value_str := str_init duration_str in
    let unit := match str_last duration_str with Some a => String a "" | None => "" end in
    let? value := ok_or (parse_uint U64_MAX value_str)
                    (InvalidConfig ("Invalid duration value: " +:+ duration_str)) in
    let? multiplier := ok_or (unit_multiplier unit)
                    (InvalidConfig ("Invalid duration unit: '" +:+ unit +:+ "'. Use 's', 'm', or 'h'")) in
    let? seconds := ok_or (checked_mul value multiplier)
                    (InvalidConfig ("Duration overflow: '" +:+ duration_str +:+ "' exceeds representable range")) in
    if bool_decide (seconds > MAX_DURATION_SECS)%Z then
      Err (InvalidConfig ("Duration " +:+ pretty seconds +:+ "s exceeds maximum of 86400s (24h)"))
    else Ok seconds.

(** ** Grace period *)

Definition NANOS_PER_SEC : Z := 1000000000.

(** [TimeDelta::num_seconds]: truncated towards zero. *)
Definition num_seconds (nanos : Z) : Z := Z.quot nanos NANOS_PER_SEC.

Definition check_grace_period_elapsed (resource : ScheduledMachine) : M (rresult bool) :=
  match status resource with
  | None => Ret (Err (InvalidConfig "Resource has no status"))
  | Some st =>
      match c_last_transition_time <$>
              find_b (λ c, bool_decide (c_reason c = REASON_GRACE_PERIOD)) (conditions st) with
      | None => Ret (Ok true)
      | Some start_time_str =>
          start_time <-? lift (map_err (λ e, InvalidConfig ("Invalid timestamp: " +:+ e))
                                 (parse_from_rfc3339 start_time_str)) ;;
          timeout <-? lift (parse_duration (graceful_shutdown_timeout (spec resource))) ;;
          now <- utc_now ;;
          let elapsed_secs := num_seconds (now - start_time) in
          if bool_decide (elapsed_secs < 0)%Z then Ret (Ok true)
          else Ret (Ok (bool_decide (timeout <= elapsed_secs)%Z))
      end
  end.

(** ** Back-off *)

Definition saturating_mul_u64 (a b : Z) : Z := Z.min (a * b) U64_MAX.

Definition compute_backoff_secs (retry_count : Z) : Z :=
  if bool_decide (MAX_RECONCILE_RETRIES <= retry_count)%Z then MAX_BACKOFF_SECS
  else
    let backoff := saturating_mul_u64 ERROR_REQUEUE_SECS (Z.shiftl 1 (Z.min retry_count 63)) in
    Z.min backoff MAX_BACKOFF_SECS.

(** The body of the critical section: [count.saturating_add(1)] on the entry. *)
Definition retry_incr (counts : gmap string Z) (key : string) : gmap string Z * Z :=
  let count := Z.min (default 0%Z (counts !! key) + 1) U32_MAX in
  (<[key := count]> counts, count).
Definition retry_remove (counts : gmap string Z) (key : string) : gmap string Z := delete key counts.

Definition retry_key (resource : ScheduledMachine) : string :=
  opt_string (Crd.namespace resource) +:+ "/" +:+ name_any resource.

Definition error_policy (resource : ScheduledMachine) (err : ReconcilerError) : M Action :=
  r <- call_retry_incr (retry_key resource) ;;
  match r with
  | Some retry_count => Ret (Requeue (compute_backoff_secs retry_count))
  | None => Ret (Requeue ERROR_REQUEUE_SECS)
  end.

(** ** Lemmas *)

Lemma parse_duration_bounds s d : parse_duration s = Ok d -> (0 <= d <= 86400)%Z.
Proof.
  unfold parse_duration. cbn zeta. destruct (str_is_empty (trim s)); [done |].
  destruct (negb (is_ascii (trim s))); [done |].
  destruct (parse_uint U64_MAX (str_init (trim s))) as [v |] eqn:Hv; [| done]. cbn [ok_or result_bind].
  apply parse_uint_range in Hv; [| done].
  set (u := match str_last (trim s) with Some a => _ | None => _ end).
  destruct (unit_multiplier u) as [k |] eqn:Hk; [| done]. cbn [ok_or result_bind].
  assert (0 <= k)%Z by (unfold unit_multiplier in Hk; repeat case_decide; simplify_eq; lia).
  unfold checked_mul. case_bool_decide; [| done]. cbn [ok_or result_bind].
  unfold MAX_DURATION_SECS. case_bool_decide; [done |]. intros [= <-]. nia.
Qed.

Lemma compute_backoff_bounds n : (0 <= n)%Z -> (30 <= compute_backoff_secs n <= 300)%Z.
Proof.
  intros Hn. unfold compute_backoff_secs, MAX_RECONCILE_RETRIES, MAX_BACKOFF_SECS, saturating_mul_u64,
    ERROR_REQUEUE_SECS, U64_MAX. case_bool_decide; [lia |].
  rewrite Z.shiftl_1_l. assert (1 <= 2 ^ Z.min n 63)%Z by (apply (Z.pow_le_mono_r 2 0); lia). lia.
Qed.

Lemma compute_backoff_mono n m :
  (0 <= n <= m)%Z -> (compute_backoff_secs n <= compute_backoff_secs m)%Z.
Proof.
  intros Hn. pose proof (compute_backoff_bounds n ltac:(lia)). 
  unfold compute_backoff_secs at 2. case_bool_decide as Hm; [unfold MAX_BACKOFF_SECS; lia |].
  unfold compute_backoff_secs, MAX_RECONCILE_RETRIES, saturating_mul_u64 in *.
  rewrite bool_decide_false by lia. rewrite !Z.shiftl_1_l.
  assert (2 ^ Z.min n 63 <= 2 ^ Z.min m 63)%Z by (apply Z.pow_le_mono_r; lia).
  unfold ERROR_REQUEUE_SECS, U64_MAX, MAX_BACKOFF_SECS. lia.
Qed.

Lemma retry_incr_range counts key :
  (forall k n, counts !! k = Some n -> (0 <= n <= U32_MAX)%Z) ->
  forall k n, (retry_incr counts key).1 !! k = Some n -> (0 <= n <= U32_MAX)%Z.
Proof.
  intros Hc k n. cbn. destruct (decide (k = key)) as [-> | Hne].
  - rewrite lookup_insert_eq. intros [= <-].
    assert (0 <= default 0 (counts !! key))%Z.
    { destruct (counts !! key) as [m |] eqn:E; cbn; [apply Hc in E; lia | lia]. }
    unfold U32_MAX in *. lia.
  - rewrite lookup_insert_ne by done. apply Hc.
Qed.
End duration.

(** ** The retry schedule *)

Section retries.
(** The counters after [n] failures of [key] in a row. *)
Definition failures (n : nat) (key : string) (counts : gmap string Z) : gmap string Z :=
  Nat.iter n (λ c, (retry_incr c key).1) counts.

Lemma failures_lookup n key counts :
  counts !! key = None ->
  default 0%Z (failures n key counts !! key) = Z.min (Z.of_nat n) U32_MAX /\
  forall k, k <> key -> failures n key counts !! k = counts !! k.
Proof.
  intros Hc. induction n as [| n [IH1 IH2]]; [by cbn; rewrite Hc |].
  change (failures (S n) key counts) with (retry_incr (failures n key counts) key).1. unfold retry_incr. cbn [fst].
  rewrite IH1. split.
  - rewrite lookup_insert_eq. cbn [default from_option id]. lia.
  - intros k Hk. rewrite lookup_insert_ne by done. by apply IH2.
Qed.

Lemma compute_backoff_formula n : (0 <= n)%Z -> compute_backoff_secs n = Z.min 300 (30 * 2 ^ n).
Proof.
  intros Hn. unfold compute_backoff_secs, MAX_RECONCILE_RETRIES, MAX_BACKOFF_SECS, saturating_mul_u64, ERROR_REQUEUE_SECS.
  case_bool_decide.
  - assert (16 <= 2 ^ n)%Z by (change 16%Z with (2 ^ 4)%Z; apply Z.pow_le_mono_r; lia). lia.
  - rewrite Z.shiftl_1_l, (Z.min_l n) by lia.
    assert (0 < 2 ^ n <= 1024)%Z.
    { split; [by apply Z.pow_pos_nonneg |]. change 1024%Z with (2 ^ 10)%Z. apply Z.pow_le_mono_r; lia. }
    unfold U64_MAX. lia.
Qed.

(** Long before the counter saturates, the delay has. *)
Lemma compute_backoff_saturated m : (0 <= m)%Z -> compute_backoff_secs (Z.min m U32_MAX) = Z.min 300 (30 * 2 ^ m).
Proof.
  intros Hm. rewrite compute_backoff_formula by (unfold U32_MAX; lia).
  destruct (decide (m <= U32_MAX)%Z); [by rewrite (Z.min_l m) by done |].
  assert (Hbig : forall k, (4 <= k)%Z -> (16 <= 2 ^ k)%Z) by (intros k Hk; change 16%Z with (2 ^ 4)%Z; apply Z.pow_le_mono_r; lia).
  rewrite (Z.min_r m) by lia. pose proof (Hbig m ltac:(unfold U32_MAX in *; lia)). pose proof (Hbig U32_MAX ltac:(unfold U32_MAX; lia)). lia.
Qed.
End retries.

(** C31: the retry schedule: after a success (which clears the counter), the
    [n+1]-st failure in a row of a machine is requeued after
    [min(300, 30 * 2^(n+1))] seconds, so 60 s for the first one, whatever
    happens to the other machines; the delay never leaves the range of 30 to 300
    seconds, and the counter, a [u32], stays at its maximum instead of
    wrapping, however many failures there are. *)
Theorem retry_schedule sm err counts (n : nat) :
  let key := retry_key sm in
  let cleared := retry_remove counts key in
  let count := (retry_incr (failures n key cleared) key).2 in
  count = Z.min (Z.of_nat n + 1) U32_MAX /\
  exec (error_policy sm err) [Ev (RetryIncr key) (Some count)] (Requeue (Z.min 300 (30 * 2 ^ (Z.of_nat n + 1)))) /\
  (forall k, k <> key -> failures n key cleared !! k = counts !! k) /\
  (forall c, (0 <= c)%Z -> 30 <= compute_backoff_secs c <= 300)%Z.
Proof.
  cbn zeta. set (key := retry_key sm).
  assert (Hk : retry_remove counts key !! key = None) by apply lookup_delete_eq.
  destruct (failures_lookup n key _ Hk) as [H1 H2].
  assert (Hc : (retry_incr (failures n key (retry_remove counts key)) key).2 = Z.min (Z.of_nat n + 1) U32_MAX).
  { unfold retry_incr. cbn [snd]. rewrite H1. lia. }
  split_and!; [done | | | apply compute_backoff_bounds].
  - rewrite Hc. eexists _, []. split; [reflexivity |]. split; [done |]. by rewrite compute_backoff_saturated by lia.
  - intros k Hne. rewrite H2 by done. unfold retry_remove. by rewrite lookup_delete_ne.
Qed.

Lemma retry_schedule_witness :
  exec (error_policy sample_sm (Other "x")) [Ev (RetryIncr "team/sm") (Some 1%Z)] (Requeue 60) /\
  (retry_incr {[ "team/sm" := U32_MAX ]} "team/sm").2 = U32_MAX.
Proof.
  split; [exact (proj1 (proj2 (retry_schedule sample_sm (Other "x") ∅ 0))) | vm_compute; reflexivity].
Defined.

(** ** Printed durations *)

Lemma unit_multiplier_visible u k :
  unit_multiplier (String u "") = Some k ->
  visible u = true /\ is_ascii (String u "") = true /\ (0 < k)%Z.
Proof. unfold unit_multiplier. repeat case_decide; intros; simplify_eq; by vm_compute. Qed.

Lemma digit_ascii a : is_ascii_digit a = true -> in_range 0 127 a = true.
Proof. unfold is_ascii_digit, in_range. rewrite !bool_decide_eq_true. lia. Qed.
Lemma digit_visible a : is_ascii_digit a = true -> visible a = true.
Proof. unfold visible, is_ascii_digit, in_range. rewrite !bool_decide_eq_true. lia. Qed.

Lemma trim_printed (n : Z) u k :
  (0 <= n)%Z -> unit_multiplier (String u "") = Some k ->
  trim (pretty n +:+ String u "") = pretty n +:+ String u "" /\
  is_ascii (pretty n +:+ String u "") = true /\ exists a s, pretty n = String a s.
Proof.
  intros Hn Hu. apply unit_multiplier_visible in Hu as (Hvis & Hasc & _).
  pose proof (pretty_Z_digits n Hn) as Hd. rewrite pretty_Z_nonneg in * by done.
  destruct (pretty_N_cons (Z.to_N n)) as (a & s & E & Ha). rewrite E in *. split_and!.
  - apply trim_visible; [by apply digit_visible | done].
  - unfold is_ascii. rewrite str_all_app. apply andb_true_iff. split; [| done].
    by eapply str_all_mono; [apply digit_ascii |].
  - by exists a, s.
Qed.

(** ** Properties *)

(** [parse_duration] reads back every bounded duration: the decimal digits
    of [n] followed by a unit give [n] times the unit when that is at most 24
    hours, and the matching error otherwise; the multiplication never wraps. *)
Theorem parse_duration_print `{Externals} (n : Z) (u : ascii) (k : Z) :
  (0 <= n <= U64_MAX)%Z -> unit_multiplier (String u "") = Some k ->
  parse_duration (pretty n +:+ String u "") =
    if bool_decide (n * k <= 86400)%Z then Ok (n * k)%Z
    else if bool_decide (n * k <= U64_MAX)%Z then
      Err (InvalidConfig ("Duration " +:+ pretty (n * k)%Z +:+ "s exceeds maximum of 86400s (24h)"))
    else Err (InvalidConfig ("Duration overflow: '" +:+ (pretty n +:+ String u "") +:+
                "' exceeds representable range")).
Proof.
  intros Hn Hu. destruct (trim_printed n u k) as (Ht & Hasc & a & s & E); [lia | done |].
  unfold parse_duration. cbn zeta. rewrite Ht, Hasc, str_last_snoc, str_init_snoc, parse_uint_pretty, Hu by done.
  replace (str_is_empty (pretty n +:+ String u "")) with false by (by rewrite E).
  cbn [negb ok_or result_bind]. unfold checked_mul, MAX_DURATION_SECS.
  destruct (decide (n * k <= 86400)%Z).
  - rewrite (bool_decide_true (n * k <= U64_MAX)%Z) by (unfold U64_MAX; lia). cbn [ok_or result_bind].
    rewrite bool_decide_false, bool_decide_true by lia. done.
  - rewrite (bool_decide_false (n * k <= 86400)%Z) by done.
    case_bool_decide; cbn [ok_or result_bind]; [| done]. by rewrite bool_decide_true by lia.
Qed.

Lemma parse_duration_print_witness :
  (0 <= 5 <= U64_MAX)%Z /\ unit_multiplier "m" = Some 60%Z /\
  parse_duration (H := toy_externals) "5m" = Ok 300%Z.
Proof.
  split; [unfold U64_MAX; lia |]. split; [reflexivity |].
  exact (parse_duration_print (H := toy_externals) 5 "m" 60 ltac:(unfold U64_MAX; lia) eq_refl).
Defined.
