(* ===== verification/LoopProtection.v ===== *)
(** Rapid re-reclaim detection ([src/loop_protection.rs]): a bounded deque of
    timestamps per machine, refined to a count over the whole history. *)

From S2P Require Import Prelude Constants.

(** ** The code: the deque is a list, front first; times in nanoseconds *)

Definition seconds (s : Z) : Z := s * 1000000000.

(** [while events.front().is_some_and(|t| *t < cutoff) { events.pop_front(); }] *)
Fixpoint pop_older (cutoff : Z) (events : list Z) : list Z :=
  match events with
  | t :: rest => if bool_decide (t < cutoff)%Z then pop_older cutoff rest else events
  | [] => []
  end.

Definition prune_old_reclaim_events (events : list Z) (now : Z) : list Z :=
  pop_older (now - seconds RAPID_RE_RECLAIM_WINDOW_SECS)%Z events.

(** [while events.len() > MAX { events.pop_front(); }] *)
Fixpoint pop_to_cap (cap : nat) (events : list Z) : list Z :=
  match events with
  | t :: rest => if bool_decide (cap < List.length events) then pop_to_cap cap rest else events
  | [] => []
  end.

Definition record_emergency_reclaim_event (events : list Z) (now : Z) : list Z * bool :=
  let events := prune_old_reclaim_events events now in
  let events := events ++ [now] in
  let events := pop_to_cap RAPID_RE_RECLAIM_MAX_TRACKED events in
  (events, bool_decide (RAPID_RE_RECLAIM_THRESHOLD <= List.length events)).

Definition should_warn_rapid_re_reclaim (events : list Z) (now : Z) : bool :=
  let cutoff := (now - seconds RAPID_RE_RECLAIM_WINDOW_SECS)%Z in
  bool_decide (RAPID_RE_RECLAIM_THRESHOLD <= List.length (List.filter (λ t, bool_decide (cutoff <= t)%Z) events)).

(** The per-machine map of [Context.recent_reclaims]:
    [lock.entry(key).or_default()] and the call. *)
Definition record_reclaim (recent : gmap string (list Z)) (key : string) (now : Z) : gmap string (list Z) * bool :=
  let '(events, breach) := record_emergency_reclaim_event (default [] (recent !! key)) now in
  (<[key := events]> recent, breach).

(** ** The abstract specification: a count over the whole history *)

Definition in_window (now t : Z) : bool :=
  bool_decide (now - seconds RAPID_RE_RECLAIM_WINDOW_SECS <= t)%Z.

Definition lastn {A} (n : nat) (l : list A) : list A := drop (List.length l - n) l.

(** The deque after the reclaims of [history], oldest first. *)
Definition replay (history : list Z) : list Z :=
  foldl (λ dq t, (record_emergency_reclaim_event dq t).1) [] history.

(** ** Lemmas *)

Lemma pop_to_cap_spec cap l : pop_to_cap cap l = lastn cap l.
Proof.
  unfold lastn. induction l as [| t l IH]; [done |]. cbn [pop_to_cap].
  case_bool_decide as Hc.
  - rewrite IH. cbn [List.length] in *. by replace (S (List.length l) - cap) with (S (List.length l - cap)) by lia.
  - by replace (List.length (t :: l) - cap) with 0 by lia.
Qed.

Lemma lastn_length {A} n (l : list A) : List.length (lastn n l) = min n (List.length l).
Proof. unfold lastn. rewrite length_drop. lia. Qed.

Lemma lastn_app_long {A} n (l1 l2 : list A) : n <= List.length l2 -> lastn n (l1 ++ l2) = lastn n l2.
Proof.
  intros Hn. unfold lastn. rewrite length_app, drop_app.
  rewrite drop_ge by lia. cbn. f_equal. lia.
Qed.
Lemma lastn_app_short {A} n (l1 l2 : list A) :
  List.length l2 <= n -> lastn n (l1 ++ l2) = lastn (n - List.length l2) l1 ++ l2.
Proof.
  intros Hn. unfold lastn. rewrite length_app, drop_app. f_equal; [f_equal; lia |].
  replace (List.length l1 + List.length l2 - n - List.length l1) with 0 by lia. done.
Qed.

Definition sorted_times (l : list Z) : Prop := StronglySorted Z.le l.

Lemma pop_older_split c l :
  sorted_times l ->
  exists l1, l = l1 ++ pop_older c l /\ Forall (λ t, t < c)%Z l1 /\ Forall (λ t, c <= t)%Z (pop_older c l).
Proof.
  induction 1 as [| t l Hs IH Ht]; [by exists [] |]. cbn. case_bool_decide.
  - destruct IH as (l1 & E & ? & ?). exists (t :: l1). split_and!; [cbn; by f_equal | by constructor | done].
  - exists []. split_and!; [done | done |]. constructor; [lia |]. eapply Forall_impl; [exact Ht |]. cbn. lia.
Qed.

Lemma filter_ge_split c l1 l2 :
  Forall (λ t, t < c)%Z l1 -> Forall (λ t, c <= t)%Z l2 ->
  List.filter (λ t, bool_decide (c <= t)%Z) (l1 ++ l2) = l2.
Proof.
  intros H1 H2. rewrite List.filter_app. replace (List.filter _ l1) with (@nil Z).
  - induction H2; [done |]. cbn in *. rewrite bool_decide_true by done. by f_equal.
  - induction H1; [done |]. cbn. by rewrite bool_decide_false by lia.
Qed.

(** Pruning commutes with the cap on a sorted history. *)
Lemma pop_older_lastn c n l :
  sorted_times l -> pop_older c (lastn n l) = lastn n (List.filter (λ t, bool_decide (c <= t)%Z) l).
Proof.
  intros Hs. destruct (pop_older_split c l Hs) as (l1 & E & H1 & H2).
  revert E H1 H2. generalize (pop_older c l). intros l2 -> H1 H2. rewrite filter_ge_split by done.
  assert (Hge : forall l', Forall (λ t, c <= t)%Z l' -> pop_older c l' = l').
  { intros [| t l'] Hl; [done |]. cbn. inversion Hl; subst. by rewrite bool_decide_false by lia. }
  assert (Hlt : forall l' l'', Forall (λ t, t < c)%Z l' -> pop_older c (l' ++ l'') = pop_older c l'').
  { induction 1; [done |]. cbn. by rewrite bool_decide_true by lia. }
  destruct (decide (n <= List.length l2)).
  - rewrite lastn_app_long by done. apply Hge. by apply Forall_drop.
  - rewrite lastn_app_short by lia. rewrite Hlt by (by apply Forall_drop). rewrite Hge by done.
    unfold lastn. by replace (List.length l2 - n) with 0 by lia.
Qed.

Lemma sorted_times_snoc l t : sorted_times (l ++ [t]) -> sorted_times l /\ Forall (λ x, x <= t)%Z l.
Proof.
  induction l as [| x l IH]; cbn; [intros _; split; constructor |].
  intros H. inversion H as [| ? ? Hs Hx]; subst. destruct (IH Hs) as [? ?].
  apply Forall_app in Hx as [Hx1 Hx2]. inversion Hx2; subst.
  split; constructor; done.
Qed.

Lemma filter_filter_window l c c' :
  (c <= c')%Z -> List.filter (λ t, bool_decide (c' <= t)%Z) (List.filter (λ t, bool_decide (c <= t)%Z) l)
             = List.filter (λ t, bool_decide (c' <= t)%Z) l.
Proof.
  intros Hc. induction l as [| t l IH]; [done |]. cbn.
  destruct (bool_decide_reflect (c <= t)%Z); cbn; rewrite IH; [done |].
  by rewrite bool_decide_false by lia.
Qed.

Lemma filter_sorted_times f l : sorted_times l -> sorted_times (List.filter f l).
Proof.
  induction 1 as [| t l Hs IH Ht]; cbn; [constructor |].
  destruct (f t); [| done]. constructor; [done |].
  rewrite Forall_forall in *. intros x Hx. apply list_elem_of_In, List.filter_In in Hx as [Hx _].
  apply Ht. by apply list_elem_of_In.
Qed.

Lemma replay_snoc h now : replay (h ++ [now]) = (record_emergency_reclaim_event (replay h) now).1.
Proof. unfold replay. by rewrite foldl_app. Qed.

Lemma in_window_refl now : in_window now now = true.
Proof. unfold in_window, seconds, RAPID_RE_RECLAIM_WINDOW_SECS. apply bool_decide_true. lia. Qed.

(** The deque is the last ten reclaims of the window of the last one. *)
Lemma replay_spec h now :
  sorted_times (h ++ [now]) ->
  replay (h ++ [now]) = lastn RAPID_RE_RECLAIM_MAX_TRACKED (List.filter (in_window now) (h ++ [now])).
Proof.
  revert now. induction h as [| t h IH] using rev_ind; intros now Hs.
  - cbn. by rewrite in_window_refl.
  - destruct (sorted_times_snoc _ _ Hs) as [Hs' Hle].
    rewrite replay_snoc, IH by done. unfold record_emergency_reclaim_event, prune_old_reclaim_events.
    cbn [fst]. rewrite pop_to_cap_spec. unfold in_window.
    rewrite pop_older_lastn by (by apply filter_sorted_times).
    assert (t <= now)%Z by (apply Forall_app in Hle as [_ Hle]; by inversion Hle).
    rewrite filter_filter_window by lia.
    rewrite (List.filter_app _ (h ++ [t]) [now]). cbn [List.filter].
    rewrite (bool_decide_true (_ <= now)%Z) by (unfold seconds, RAPID_RE_RECLAIM_WINDOW_SECS; lia).
    set (w := List.filter _ (h ++ [t])). clearbody w. cbn [RAPID_RE_RECLAIM_MAX_TRACKED].
    rewrite !lastn_app_short by (cbn; unfold RAPID_RE_RECLAIM_MAX_TRACKED; lia).
    f_equal. unfold lastn. rewrite length_drop, drop_drop. cbn [List.length]. f_equal.
    unfold RAPID_RE_RECLAIM_MAX_TRACKED. lia.
Qed.

(** ** Properties *)

(** C30: the bounded deque refines a count over the whole history: as long as
    the wall clock never steps back between the reclaims recorded (the times of
    the history and of this reclaim do not decrease), a reclaim raises the
    rapid-re-reclaim warning exactly when at least three reclaims, itself
    included, lie in its 600-second window; the deque then never holds more than
    ten entries. *)
Theorem record_emergency_reclaim_event_refines h now :
  sorted_times (h ++ [now]) ->
  (record_emergency_reclaim_event (replay h) now).2 =
    bool_decide (3 <= List.length (List.filter (in_window now) (h ++ [now]))) /\
  List.length (replay (h ++ [now])) <= 10.
Proof.
  intros Hs. pose proof (replay_spec h now Hs) as Hr. split.
  - transitivity (bool_decide (3 <= List.length (replay (h ++ [now])))).
    + by rewrite replay_snoc.
    + rewrite Hr, lastn_length. apply bool_decide_ext. unfold RAPID_RE_RECLAIM_MAX_TRACKED. lia.
  - rewrite Hr, lastn_length. unfold RAPID_RE_RECLAIM_MAX_TRACKED. lia.
Qed.

Lemma record_emergency_reclaim_event_refines_witness :
  sorted_times ([seconds 0; seconds 100] ++ [seconds 650]) /\
  (record_emergency_reclaim_event (replay [seconds 0; seconds 100]) (seconds 650)).2 = false.
Proof.
  assert (Hs : sorted_times ([seconds 0; seconds 100] ++ [seconds 650])) by (unfold sorted_times, seconds; cbn [app]; repeat constructor; lia).
  split; [exact Hs |].
  rewrite (proj1 (record_emergency_reclaim_event_refines _ _ Hs)). vm_compute. reflexivity.
Defined.
