(* ===== verification/Labels.v ===== *)
(** The label helpers of [src/labels.rs]. *)

From S2P Require Import Prelude Constants.

Definition LABEL_APP_NAME : string := "app.kubernetes.io/name".
Definition LABEL_APP_PART_OF : string := "app.kubernetes.io/part-of".
Definition LABEL_APP_COMPONENT : string := "app.kubernetes.io/component".
Definition LABEL_APP_MANAGED_BY : string := "app.kubernetes.io/managed-by".
Definition LABEL_APP_INSTANCE : string := "app.kubernetes.io/instance".
Definition LABEL_APP_VERSION : string := "app.kubernetes.io/version".
Definition LABEL_SCHEDULED_MACHINE : string := "5spot.eribourg.dev/scheduled-machine".
Definition LABEL_MACHINE_PHASE : string := "5spot.eribourg.dev/phase".
Definition LABEL_SCHEDULE_ENABLED : string := "5spot.eribourg.dev/schedule-enabled".
Definition LABEL_CLUSTER_DEPLOYMENT : string := "5spot.eribourg.dev/cluster-deployment".
Definition LABEL_PRIORITY : string := "5spot.eribourg.dev/priority".
Definition LABEL_OPERATOR_INSTANCE : string := "5spot.eribourg.dev/operator-instance".
Definition VALUE_APP_NAME : string := "5spot".
Definition VALUE_MANAGED_BY : string := "5spot-controller".
Definition VALUE_COMPONENT_SCHEDULED_MACHINE : string := "scheduled-machine".
Definition VALUE_COMPONENT_CONTROLLER : string := "controller".

Definition scheduled_machine_labels (name cluster_deployment phase : string) : gmap string string :=
  <[LABEL_MACHINE_PHASE := phase]>
  (<[LABEL_CLUSTER_DEPLOYMENT := cluster_deployment]>
  (<[LABEL_SCHEDULED_MACHINE := name]>
  (<[LABEL_APP_COMPONENT := VALUE_COMPONENT_SCHEDULED_MACHINE]>
  (<[LABEL_APP_MANAGED_BY := VALUE_MANAGED_BY]>
  (<[LABEL_APP_NAME := VALUE_APP_NAME]> ∅))))).

Definition common_labels : gmap string string :=
  <[LABEL_APP_MANAGED_BY := VALUE_MANAGED_BY]> (<[LABEL_APP_NAME := VALUE_APP_NAME]> ∅).

Definition with_priority (labels : gmap string string) (priority : Z) : gmap string string :=
  <[LABEL_PRIORITY := pretty priority]> labels.

Definition with_operator_instance (labels : gmap string string) (instance_id : Z) : gmap string string :=
  <[LABEL_OPERATOR_INSTANCE := pretty instance_id]> labels.

(** The extensions keep the common labels. *)
Lemma common_labels_sub l :
  common_labels ⊆ l ->
  forall p i, common_labels ⊆ with_operator_instance (with_priority l p) i.
Proof.
  intros Hl p i. apply map_subseteq_spec. intros k v Hk.
  assert (k <> LABEL_OPERATOR_INSTANCE /\ k <> LABEL_PRIORITY) as [? ?].
  { split; intros ->; vm_compute in Hk; discriminate. }
  unfold with_operator_instance, with_priority. rewrite !lookup_insert_ne by done.
  by eapply map_subseteq_spec.
Qed.

Lemma scheduled_machine_labels_common n c p : common_labels ⊆ scheduled_machine_labels n c p.
Proof.
  apply map_subseteq_spec. intros k v Hk. unfold common_labels in Hk.
  apply lookup_insert_Some in Hk as [[<- <-] | [_ Hk]]; [done |].
  apply lookup_insert_Some in Hk as [[<- <-] | [_ Hk]]; done.
Qed.
