(* ===== verification/SpotSchedule.v ===== *)
(** Spot-schedule provider resolution ([src/reconcilers/spot_schedule.rs]) and
    the hold-last-state composition of [src/reconcilers/helpers.rs]. *)

From S2P Require Import Prelude RustStr Effects Constants Json Crd Externals KubeApi.

(** ** Verdicts *)

Inductive SpotScheduleVerdict : Type :=
| Active (provider_generation : option Z)
| Inactive (provider_generation : option Z)
| Unresolved (reason : string) (message : string).

Module SpotScheduleVerdict.
Definition is_resolved (v : SpotScheduleVerdict) : bool :=
  match v with Unresolved _ _ => false | _ => true end.

Definition active (v : SpotScheduleVerdict) : option bool :=
  match v with
  | Active _ => Some true
  | Inactive _ => Some false
  | Unresolved _ _ => None
  end.

Definition provider_generation (v : SpotScheduleVerdict) : option Z :=
  match v with
  | Active g | Inactive g => g
  | Unresolved _ _ => None
  end.

Definition reason (v : SpotScheduleVerdict) : string :=
  match v with
  | Active _ | Inactive _ => REASON_SPOT_SCHEDULE_RESOLVED
  | Unresolved r _ => r
  end.
End SpotScheduleVerdict.

Definition ready_condition_blocks (status : json) : bool :=
  match jget "conditions" status ≫= as_array with
  | None => false
  | Some conditions =>
      match find_b (λ c, bool_decide (jget "type" c ≫= as_str = Some CONDITION_TYPE_READY)) conditions with
      | None => false
      | Some ready => negb (bool_decide (jget "status" ready ≫= as_str = Some CONDITION_STATUS_TRUE))
      end
  end.

Definition verdict_from_status (status : option json) : SpotScheduleVerdict :=
  match status with
  | None => Unresolved REASON_SPOT_SCHEDULE_STATUS_ACTIVE_MISSING "provider status is absent"
  | Some status =>
      match jget "active" status ≫= as_bool with
      | None => Unresolved REASON_SPOT_SCHEDULE_STATUS_ACTIVE_MISSING
                  "provider status.active is absent or not a boolean"
      | Some active =>
          if ready_condition_blocks status then
            Unresolved REASON_SPOT_SCHEDULE_PROVIDER_NOT_READY "provider Ready condition is not True"
          else
            let provider_generation := jget "observedGeneration" status ≫= as_i64 in
            if (active : bool) then Active provider_generation else Inactive provider_generation
      end
  end.

Section resolve.
Context `{Externals}.

Definition resolve_spot_schedule (c : client) (namespace : string) (reference : SpotScheduleRef)
    : M (rresult SpotScheduleVerdict) :=
  let '(group, version) :=
    match split_once "/" (ssr_api_version reference) with
    | Some gv => gv
    | None => ("", ssr_api_version reference)
    end in
  k <- pinned_kind c group version (ssr_kind reference) ;;
  match k with
  | Err error =>
      Ret (Ok (Unresolved REASON_SPOT_SCHEDULE_PROVIDER_CRD_NOT_INSTALLED
        ("no CRD for " +:+ group +:+ "/" +:+ version +:+ " kind " +:+ ssr_kind reference +:+
         " is installed: " +:+ kube_error_display error)))
  | Ok api_resource =>
      object <-? kube_ok (get_opt_dyn c namespace api_resource (ssr_name reference)) ;;
      match object with
      | None =>
          Ret (Ok (Unresolved REASON_SPOT_SCHEDULE_PROVIDER_NOT_FOUND
            ("provider " +:+ ssr_kind reference +:+ " " +:+ namespace +:+ "/" +:+ ssr_name reference +:+ " not found")))
      | Some object => Ret (Ok (verdict_from_status (jget "status" (d_data object))))
      end
  end.
End resolve.

(** ** Composition *)

Definition compose_should_be_active (verdict : SpotScheduleVerdict) (last_known_spot_active : option bool) : bool :=
  match verdict with
  | Active _ => true
  | Inactive _ => false
  | Unresolved _ _ => default false last_known_spot_active
  end.

(** ** The duck-typed contract of a provider's status *)

(** [status.active] is the boolean [b]. *)
Definition publishes (status : json) (b : bool) : Prop := jget "active" status = Some (JBool b).

(** The first [Ready] condition, when there is one, has status ["True"]. *)
Definition trusted (status : json) : Prop :=
  forall l c, jget "conditions" status = Some (JArr l) ->
    find_b (λ c, bool_decide (jget "type" c ≫= as_str = Some "Ready")) l = Some c ->
    jget "status" c = Some (JStr "True").

Lemma as_bool_Some v b : as_bool v = Some b <-> v = JBool b.
Proof. destruct v; cbn; naive_solver. Qed.
Lemma as_str_Some v s : as_str v = Some s <-> v = JStr s.
Proof. destruct v; cbn; naive_solver. Qed.
Lemma as_array_Some v l : as_array v = Some l <-> v = JArr l.
Proof. destruct v; cbn; naive_solver. Qed.

Lemma ready_condition_blocks_spec status : ready_condition_blocks status = false <-> trusted status.
Proof.
  unfold ready_condition_blocks, trusted, CONDITION_TYPE_READY, CONDITION_STATUS_TRUE.
  destruct (jget "conditions" status) as [v |]; cbn; [| by split].
  destruct (as_array v) as [l |] eqn:Hv.
  - apply as_array_Some in Hv as ->. destruct (find_b _ l) as [c |] eqn:Hf.
    + rewrite negb_false_iff, bool_decide_eq_true. split.
      * intros Hs l' c' [= <-] Hf'. rewrite Hf in Hf'. simplify_eq.
        destruct (jget "status" c') as [w |]; cbn in Hs; [| done].
        apply as_str_Some in Hs. by subst.
      * intros Ht. by rewrite (Ht l c eq_refl Hf).
    + split; [| done]. intros _ l' c' [= <-]. congruence.
  - split; [| done]. intros _ l c [= ->]. done.
Qed.

(** The duck-typed contract: a provider's verdict is active (inactive)
    exactly when its status publishes [active: true] ([false]) and its [Ready]
    condition does not withdraw it; everything else is unresolved. *)
Theorem verdict_from_status_active s b :
  SpotScheduleVerdict.active (verdict_from_status s) = Some b <->
  exists status, s = Some status /\ publishes status b /\ trusted status.
Proof.
  unfold publishes. destruct s as [status |]; cbn; [| naive_solver].
  pose proof (ready_condition_blocks_spec status) as Hr.
  destruct (jget "active" status) as [v |] eqn:Ha; cbn; [| naive_solver].
  destruct (as_bool v) as [b' |] eqn:Hb.
  - apply as_bool_Some in Hb as ->. destruct (ready_condition_blocks status).
    + cbn. split; [done |]. intros (st & [= <-] & _ & Ht). apply Hr in Ht. done.
    + destruct b'; cbn; split; naive_solver.
  - cbn. split; [done |]. intros (st & [= <-] & Hp & _). rewrite Ha in Hp. simplify_eq.
Qed.
