(* ===== verification/Status.v ===== *)
(** Status writes: phase transitions with their audit event, machine references,
    applied taints and the spot-schedule verdict
    ([src/reconcilers/helpers.rs], [src/reconcilers/scheduled_machine.rs]). *)

From S2P Require Import Prelude RustStr Effects Constants Json Crd Externals KubeApi SpotSchedule.

(** The serialization of [ScheduledMachineStatus], absent options skipped. *)
Definition ScheduledMachineStatus_fields (s : ScheduledMachineStatus) : list (string * json) :=
  opt_field "phase" JStr (phase s) ++
  opt_field "message" JStr (message s) ++
  opt_field "lastScheduledTime" JStr (last_scheduled_time s) ++
  opt_field "machineRef" ObjectReference_json (machine_ref s) ++
  opt_field "bootstrapRef" ObjectReference_json (bootstrap_ref s) ++
  opt_field "infrastructureRef" ObjectReference_json (infrastructure_ref s) ++
  opt_field "nodeRef" NodeRef_json (node_ref s) ++
  opt_field "providerID" JStr (provider_id s) ++
  [("conditions", JArr (Condition_json <$> conditions s))] ++
  opt_field "observedGeneration" JInt (observed_generation s) ++
  [("inSchedule", JBool (in_schedule s)); ("ready", JBool (ready s))] ++
  opt_field "nextActivation" JStr (next_activation s) ++
  opt_field "nextCleanup" JStr (next_cleanup s) ++
  list_field "appliedNodeTaints" NodeTaint_json (applied_node_taints s) ++
  opt_field "spotSchedule" SpotScheduleStatus_json (spot_schedule s).
Definition ScheduledMachineStatus_json (s : ScheduledMachineStatus) : json :=
  JObj (ScheduledMachineStatus_fields s).

Section status.
Context `{Externals}.

Definition build_phase_transition_event (from_phase : option string) (to_phase reason message : string) : KubeEvent := {|
  ev_type := if bool_decide (to_phase = PHASE_ERROR) || bool_decide (to_phase = PHASE_TERMINATED)
             then EventWarning else EventNormal;
  ev_reason := reason;
  ev_note := Some (default "Unknown" from_phase +:+ " -> " +:+ to_phase +:+ ": " +:+ message);
  ev_action := "PhaseTransitionTo" +:+ to_phase;
|}.

(** [if let Err(e) = ctx.recorder.publish(..).await { warn!(..) }] *)
Definition publish_best_effort (about : EventRef) (event : KubeEvent) : M unit :=
  _r <- publish event about ;; Ret tt.

(** The status object the three [update_phase] functions write. *)
Definition phase_status (phase message : string) (condition : Condition)
    (last_scheduled : option string) (in_schedule : bool) : ScheduledMachineStatus := {|
  Crd.phase := Some phase; Crd.message := Some message; last_scheduled_time := last_scheduled;
  machine_ref := None; bootstrap_ref := None; infrastructure_ref := None; node_ref := None;
  provider_id := None; conditions := [condition]; observed_generation := None;
  Crd.in_schedule := in_schedule; ready := bool_decide (phase = PHASE_ACTIVE);
  next_activation := None; next_cleanup := None; applied_node_taints := []; spot_schedule := None;
|}.

Definition ready_condition (now : Z) (reason message : string) : Condition :=
  Condition_new (to_rfc3339 now) CONDITION_TYPE_READY CONDITION_STATUS_TRUE reason message.

Definition status_patch (s : ScheduledMachineStatus) : json :=
  JObj [("status", ScheduledMachineStatus_json s)].

Definition update_phase (namespace name : string) (from_phase : option string) (phase : string)
    (reason message : option string) (in_schedule : bool) : M (rresult unit) :=
  let resolved_reason := default REASON_RECONCILE_SUCCEEDED reason in
  let resolved_message := default "Phase transition completed" message in
  publish_best_effort (sm_event_ref namespace name)
    (build_phase_transition_event from_phase phase resolved_reason resolved_message) ;;;
  now <- utc_now ;;
  let condition := ready_condition now resolved_reason resolved_message in
  let status := phase_status phase resolved_message condition None in_schedule in
  kube_ok (patch_sm_status MgmtClient namespace name (status_patch status)).

Definition update_phase_with_last_schedule (namespace name : string) (from_phase : option string) (phase : string)
    (reason message : option string) (in_schedule : bool) : M (rresult unit) :=
  let resolved_reason := default REASON_RECONCILE_SUCCEEDED reason in
  let resolved_message := default "Phase transition completed" message in
  publish_best_effort (sm_event_ref namespace name)
    (build_phase_transition_event from_phase phase resolved_reason resolved_message) ;;;
  now <- utc_now ;;
  let condition := ready_condition now resolved_reason resolved_message in
  now' <- utc_now ;;
  let status := phase_status phase resolved_message condition (Some (to_rfc3339 now')) in_schedule in
  kube_ok (patch_sm_status MgmtClient namespace name (status_patch status)).

Definition update_phase_with_grace_period (namespace name : string) (from_phase : option string) (phase : string)
    (reason message : option string) (in_schedule : bool) : M (rresult unit) :=
  let resolved_reason := default REASON_GRACE_PERIOD reason in
  let resolved_message := default "Grace period started" message in
  publish_best_effort (sm_event_ref namespace name)
    (build_phase_transition_event from_phase phase resolved_reason resolved_message) ;;;
  now <- utc_now ;;
  let condition := ready_condition now resolved_reason resolved_message in
  let status := phase_status phase resolved_message condition None in_schedule in
  kube_ok (patch_sm_status MgmtClient namespace name (status_patch status)).

Definition patch_machine_refs_status (c : client) (namespace name : string)
    (provider_id : option string) (node_ref : option NodeRef) : M (rresult unit) :=
  let status_fields := opt_field "providerID" JStr provider_id ++ opt_field "nodeRef" NodeRef_json node_ref in
  match status_fields with
  | [] => Ret (Ok tt)
  | _ => kube_ok (patch_sm_status c namespace name (JObj [("status", JObj status_fields)]))
  end.

Definition patch_applied_node_taints_status (c : client) (namespace name : string)
    (applied : list NodeTaint) : M (rresult unit) :=
  kube_ok (patch_sm_status c namespace name
    (JObj [("status", JObj [("appliedNodeTaints", JArr (NodeTaint_json <$> applied))])])).

(** [matches!(.., (Some(now), Some(before)) if now != before) || matches!(.., (Some(_), None))] *)
Definition spot_transitioned (now before : option bool) : bool :=
  match now, before with
  | Some now, Some before => negb (Bool.eqb now before)
  | Some _, None => true
  | None, _ => false
  end.

Definition spot_status_fields (verdict : SpotScheduleVerdict) (previous_active : option bool)
    (last_transition_time : option string) : list (string * json) :=
  let active := match SpotScheduleVerdict.active verdict with Some a => Some a | None => previous_active end in
  [("resolved", JBool (SpotScheduleVerdict.is_resolved verdict));
   ("reason", JStr (SpotScheduleVerdict.reason verdict))] ++
  opt_field "active" JBool active ++
  match verdict with Unresolved _ message => [("message", JStr message)] | _ => [] end ++
  opt_field "providerGeneration" JInt (SpotScheduleVerdict.provider_generation verdict) ++
  opt_field "lastTransitionTime" JStr last_transition_time.

Definition persist_spot_schedule_status (namespace name : string) (verdict : SpotScheduleVerdict)
    (previous_active : option bool) : M (rresult unit) :=
  last_transition_time <-
    (if spot_transitioned (SpotScheduleVerdict.active verdict) previous_active
     then now <- utc_now ;; Ret (Some (to_rfc3339 now)) else Ret None) ;;
  kube_ok (patch_sm_status MgmtClient namespace name
    (JObj [("status", JObj [("spotSchedule",
       JObj (spot_status_fields verdict previous_active last_transition_time))])])).
End status.

(** ** Reading the phase back from a status patch *)

(** A write that is answered with an error may or may not have been applied. *)
Definition written {A} (r : result unit kube_error) (old new seen : A) : Prop :=
  seen = new \/ is_ok r = false /\ seen = old.

Definition patch_phase (body : json) : option string := jpath ["status"; "phase"] body ≫= as_str.

(** The phases written to the status of the machine [ns/n], in order. *)
Definition call_phase (c : call_t) : option (string * string * string) :=
  match c with
  | PatchSMStatus MgmtClient ns n body => (λ p, (ns, n, p)) <$> patch_phase body
  | _ => None
  end.
Definition phase_write (e : event reply) : option (string * string * string) := call_phase (ev_call e).

(** A call whose phase write, if any, is the given one. *)
Definition writes_only (w : string * string * string) (c : call_t) : Prop :=
  forall x, call_phase c = Some x -> x = w.

(** A call that writes no phase. *)
Definition quiet (c : call_t) : Prop :=
  match c with PatchSMStatus _ _ _ body => patch_phase body = None | _ => True end.

Lemma patch_phase_status `{Externals} p m c l i :
  patch_phase (status_patch (phase_status p m c l i)) = Some p.
Proof. done. Qed.

Lemma update_phase_writes `{Externals} ns n from p reason msg i :
  calls (writes_only (ns, n, p)) (update_phase ns n from p reason msg i).
Proof. cbn. repeat split; by intros x [= <-]. Qed.

Lemma update_phase_with_grace_period_writes `{Externals} ns n from p reason msg i :
  calls (writes_only (ns, n, p)) (update_phase_with_grace_period ns n from p reason msg i).
Proof. cbn. repeat split; by intros x [= <-]. Qed.

Lemma quiet_writes_only w c : quiet c -> writes_only w c.
Proof. unfold writes_only. destruct c; cbn; try done. destruct c; [| done]. by intros ->. Qed.

Lemma persist_quiet `{Externals} ns n v prev : calls quiet (persist_spot_schedule_status ns n v prev).
Proof. unfold persist_spot_schedule_status. destruct (spot_transitioned _ _); cbn; done. Qed.

Lemma machine_refs_quiet `{Externals} c ns n p r : calls quiet (patch_machine_refs_status c ns n p r).
Proof. unfold patch_machine_refs_status. by destruct p, r. Qed.

(** ** Properties *)

(** The status fields a phase transition owns. *)
Definition phase_owned : list string :=
  ["phase"; "message"; "lastScheduledTime"; "conditions"; "inSchedule"; "ready"].

Lemma phase_status_keys p m c l i :
  forall k, k ∈ (ScheduledMachineStatus_fields (phase_status p m c l i)).*1 -> k ∈ phase_owned.
Proof. intros k. unfold phase_owned. destruct l; cbn; set_solver. Qed.

(** A phase transition keeps every status field it does not own: applied
    to any stored object as a merge patch, the body leaves [nodeRef],
    [providerID], [spotSchedule], [appliedNodeTaints] and every other field as
    they were, and sets the phase, and [ready] exactly for the Active phase. *)
Theorem update_phase_frame `{Externals} ns n from p reason msg i stored :
  wp (update_phase ns n from p reason msg i) (λ t _,
    exists about ev r now body r',
      t = [Ev (Publish ev about) r; Ev UtcNow now; Ev (PatchSMStatus MgmtClient ns n body) r'] /\
      let after := merge_patch body stored in
      jpath ["status"; "phase"] after = Some (JStr p) /\
      jpath ["status"; "ready"] after = Some (JBool (bool_decide (p = PHASE_ACTIVE))) /\
      (forall k, k <> "status" -> jget k after = obj_get k (as_obj stored)) /\
      forall k, k ∉ phase_owned ->
        jpath ["status"; k] after = obj_get k (as_obj (default JNull (obj_get "status" (as_obj stored))))).
Proof.
  cbn [update_phase publish_best_effort publish bind call wp kube_ok utc_now patch_sm_status].
  intros r now r'. repeat eexists; cbn zeta.
  all: unfold status_patch.
  - cbn [jpath]. rewrite (merge_patch_get "status" (ScheduledMachineStatus_json _)) by
      (first [nodup_keys | done]).
    unfold ScheduledMachineStatus_json. rewrite (merge_patch_get "phase" (JStr p)) by
      (first [done | nodup_keys]). done.
  - cbn [jpath]. rewrite (merge_patch_get "status" (ScheduledMachineStatus_json _)) by
      (first [nodup_keys | done]).
    unfold ScheduledMachineStatus_json. rewrite (merge_patch_get "ready" (JBool (bool_decide (p = PHASE_ACTIVE)))) by
      (first [done | nodup_keys]). done.
  - intros k Hk. apply merge_patch_frame. cbn. set_solver.
  - intros k Hk. cbn [jpath]. rewrite (merge_patch_get "status" (ScheduledMachineStatus_json _)) by
      (first [nodup_keys | done]).
    unfold ScheduledMachineStatus_json. rewrite merge_patch_frame.
    + by destruct (obj_get k _).
    + intros Hin. by apply phase_status_keys in Hin.
Qed.

(** The [active] value a reconcile leaves for the next one to hold. *)
Definition held_active (verdict : SpotScheduleVerdict) (previous : option bool) : option bool :=
  match SpotScheduleVerdict.active verdict with Some b => Some b | None => previous end.

Lemma spot_body_active v prev l stored :
  obj_get "active" (as_obj (default JNull (obj_get "spotSchedule"
     (as_obj (default JNull (obj_get "status" (as_obj stored))))))) = JBool <$> prev ->
  jpath ["status"; "spotSchedule"; "active"]
    (merge_patch (JObj [("status", JObj [("spotSchedule", JObj (spot_status_fields v prev l))])]) stored)
  = JBool <$> held_active v prev.
Proof.
  intros Hst. cbn [jpath].
  rewrite (merge_patch_get "status" (JObj [("spotSchedule", JObj (spot_status_fields v prev l))])) by
    (first [nodup_keys | done]).
  rewrite (merge_patch_get "spotSchedule" (JObj (spot_status_fields v prev l))) by
    (first [nodup_keys | done]).
  destruct (held_active v prev) as [b |] eqn:Hb.
  - rewrite (merge_patch_get "active" (JBool b)); [done | | | done].
    + unfold spot_status_fields. destruct v as [[] | [] |], prev, l; nodup_keys.
    + unfold held_active in Hb. unfold spot_status_fields. rewrite Hb. done.
  - unfold held_active in Hb. destruct v as [g | g | r m]; cbn in Hb; try done. subst prev.
    rewrite merge_patch_frame; [by rewrite Hst |]. destruct l; cbn; set_solver.
Qed.

(** Hold-last-state: the value [persist_spot_schedule_status] leaves in
    [status.spotSchedule.active] is the verdict when it is resolved and the
    previous value otherwise, so composing the next unresolved verdict with it
    repeats the last decision; a machine never resolved is never activated. *)
Theorem hold_last_state `{Externals} ns n v prev stored :
  obj_get "active" (as_obj (default JNull (obj_get "spotSchedule"
     (as_obj (default JNull (obj_get "status" (as_obj stored))))))) = JBool <$> prev ->
  wp (persist_spot_schedule_status ns n v prev) (λ t r,
    exists t0 body rep, t = t0 ++ [Ev (PatchSMStatus MgmtClient ns n body) rep] /\
      jpath ["status"; "spotSchedule"; "active"] (merge_patch body stored) = JBool <$> held_active v prev /\
      (forall reason msg, compose_should_be_active (Unresolved reason msg) (held_active v prev) =
         match v with Active _ => true | Inactive _ => false | Unresolved _ _ => default false prev end)).
Proof.
  intros Hst. unfold persist_spot_schedule_status.
  destruct (spot_transitioned _ _); cbn [bind call wp kube_ok utc_now patch_sm_status];
    [intros now r | intros r]; [exists [Ev UtcNow now] | exists []];
    eexists _, r; (split; [reflexivity |]); (split; [by apply spot_body_active |]);
    intros reason msg; unfold held_active; by destruct v.
Qed.

Lemma hold_last_state_witness :
  obj_get "active" (as_obj (default JNull (obj_get "spotSchedule"
     (as_obj (default JNull (obj_get "status" (as_obj (JObj []))))))))= JBool <$> None /\
  wp (persist_spot_schedule_status (H := toy_externals) "ns" "sm" (Unresolved "r" "m") None) (λ t r,
    exists t0 body rep, t = t0 ++ [Ev (PatchSMStatus MgmtClient "ns" "sm" body) rep] /\
      jpath ["status"; "spotSchedule"; "active"] (merge_patch body (JObj [])) = JBool <$> None /\
      (forall reason msg, compose_should_be_active (Unresolved reason msg) None = false)).
Proof.
  split; [reflexivity |].
  exact (hold_last_state (H := toy_externals) "ns" "sm" (Unresolved "r" "m") None (JObj []) eq_refl).
Defined.
