(* ===== verification/Capi.v ===== *)
(** Cluster API resources of a ScheduledMachine: creation, deletion, references
    and the secondary-watch mappers ([src/reconcilers/helpers.rs]). *)

From S2P Require Import Prelude RustStr Effects Constants Json Crd Externals KubeApi Samples Validation.
From S2P Require Import Labels.

(** ** Names and versions *)

Definition parse_api_version (api_version : string) : string * string :=
  match rsplit_once "/" api_version with
  | Some gv => gv
  | None => ("", api_version)
  end.

(** [Option::filter], then the discovered version as a fallback. *)
Definition machine_api_version_for (ctx : Context) (bootstrap_api_version : option string) : string :=
  match snd <$> (bootstrap_api_version ≫= rsplit_once "/") with
  | Some ver => if str_is_empty ver then ctx_capi_version ctx else ver
  | None => ctx_capi_version ctx
  end.

Section capi.
Context `{Externals} (ctx : Context).

Definition resource_plural (kind : string) : string := to_lowercase kind +:+ "s".

Definition dyn_resource (api_version kind : string) : ApiResource :=
  let '(group, version) := parse_api_version api_version in
  {| ar_group := group; ar_version := version; ar_kind := kind; ar_plural := resource_plural kind |}.

(** ** Pre-flight permission review *)

Definition ensure_can_create (c : client) (namespace api_version kind resource_label : string) : M (rresult unit) :=
  let '(group, version) := parse_api_version api_version in
  let plural := resource_plural kind in
  result <-? kube_ok (create_review c {|
    ra_verb := RBAC_VERB_CREATE; ra_group := group; ra_version := version;
    ra_resource := plural; ra_namespace := namespace |}) ;;
  let status := default {| rs_allowed := false; rs_reason := None |} result in
  if rs_allowed status then Ret (Ok tt)
  else
    let reason := match rs_reason status with
                  | Some r => if str_is_empty r then "no reason provided by the API server" else r
                  | None => "no reason provided by the API server"
                  end in
    Ret (Err (PermissionDenied ("controller service account is not permitted to create " +:+ resource_label +:+
      " resource '" +:+ plural +:+ "' in API group '" +:+ group +:+ "' (namespace '" +:+ namespace +:+ "'): " +:+ reason))).

(** ** Idempotent create and delete *)

Definition create_dynamic_resource (c : client) (namespace api_version kind : string) (obj : json)
    : M (result unit kube_error) :=
  match dynamic_object_error obj with
  | Some e => Ret (Err (SerdeError e))
  | None =>
      r <- create_dyn c namespace (dyn_resource api_version kind) obj ;;
      match r with
      | Ok _ => Ret (Ok tt)
      | Err e => if is_api_error HTTP_ALREADY_EXISTS e then Ret (Ok tt) else Ret (Err e)
      end
  end.

Definition delete_dynamic_resource (c : client) (namespace api_version kind name : string) : M (rresult unit) :=
  r <- delete_dyn c namespace (dyn_resource api_version kind) name ;;
  match r with
  | Ok _ => Ret (Ok tt)
  | Err e =>
      if is_api_error HTTP_NOT_FOUND e then Ret (Ok tt)
      else Ret (Err (CapiError ("Failed to delete " +:+ kind +:+ " " +:+ name +:+ ": " +:+ kube_error_display e)))
  end.

(** ** Creation *)

Definition owner_ref (name uid : string) : json :=
  JObj [("apiVersion", JStr API_VERSION_FULL); ("kind", JStr "ScheduledMachine"); ("name", JStr name);
        ("uid", JStr uid); ("controller", JBool true); ("blockOwnerDeletion", JBool true)].

(** The bootstrap and the infrastructure objects have the same shape. *)
Definition provider_object (api_version kind name namespace : string)
    (labels annotations : gmap string string) (spec_inner : json) : json :=
  JObj [("apiVersion", JStr api_version); ("kind", JStr kind);
        ("metadata", JObj [("name", JStr name); ("namespace", JStr namespace);
                           ("labels", json_of_map labels); ("annotations", json_of_map annotations)]);
        ("spec", spec_inner)].

Definition template_ref (api_version kind name namespace : string) : json :=
  JObj [("apiVersion", JStr api_version); ("kind", JStr kind); ("name", JStr name); ("namespace", JStr namespace)].

Definition machine_object (api_version name namespace cluster_name uid : string)
    (labels annotations : gmap string string)
    (bootstrap_api_version bootstrap_kind infra_api_version infra_kind : string) : json :=
  JObj [("apiVersion", JStr api_version); ("kind", JStr "Machine");
        ("metadata", JObj [("name", JStr name); ("namespace", JStr namespace);
                           ("labels", json_of_map labels); ("annotations", json_of_map annotations);
                           ("ownerReferences", JArr [owner_ref name uid])]);
        ("spec", JObj [("clusterName", JStr cluster_name);
                       ("bootstrap", JObj [("configRef", template_ref bootstrap_api_version bootstrap_kind name namespace)]);
                       ("infrastructureRef", template_ref infra_api_version infra_kind name namespace)])].

Definition missing_field (what field : string) : ReconcilerError :=
  InvalidConfig (what +:+ " missing required field '" +:+ field +:+ "'").

Definition template_labels (resource : ScheduledMachine) : gmap string string :=
  match machine_template (spec resource) with Some t => mt_labels t | None => ∅ end.
Definition template_annotations (resource : ScheduledMachine) : gmap string string :=
  match machine_template (spec resource) with Some t => mt_annotations t | None => ∅ end.

Definition capi_err {A} (what : string) (p : M (result A kube_error)) : M (rresult A) :=
  r <- p ;; Ret (map_err (λ e, CapiError (what +:+ ": " +:+ kube_error_display e)) r).

Definition validate_template (resource : ScheduledMachine) : rresult unit :=
  match machine_template (spec resource) with
  | Some t =>
      let? _ := validate_labels (mt_labels t) "machineTemplate.labels" in
      validate_labels (mt_annotations t) "machineTemplate.annotations"
  | None => Ok tt
  end.

Definition add_machine_to_cluster (resource : ScheduledMachine) (c : client) (namespace : string) : M (rresult unit) :=
  let name := name_any resource in
  let cluster := cluster_name (spec resource) in
  let bootstrap := bootstrap_spec (spec resource) in
  let infra := infrastructure_spec (spec resource) in
  bootstrap_api_version <-? lift (ok_or (EmbeddedResource.api_version bootstrap) (missing_field "bootstrapSpec" "apiVersion")) ;;
  let machine_api_version_full := CAPI_GROUP +:+ "/" +:+ machine_api_version_for ctx (Some bootstrap_api_version) in
  bootstrap_kind <-? lift (ok_or (EmbeddedResource.kind bootstrap) (missing_field "bootstrapSpec" "kind")) ;;
  let bootstrap_spec_inner := default JNull (EmbeddedResource.spec bootstrap) in
  infra_api_version <-? lift (ok_or (EmbeddedResource.api_version infra) (missing_field "infrastructureSpec" "apiVersion")) ;;
  infra_kind <-? lift (ok_or (EmbeddedResource.kind infra) (missing_field "infrastructureSpec" "kind")) ;;
  let infra_spec_inner := default JNull (EmbeddedResource.spec infra) in
  lift (validate_cluster_name cluster) ?;;
  lift (validate_kill_if_commands (kill_if_commands (spec resource))) ?;;
  lift (validate_api_group bootstrap_api_version ALLOWED_BOOTSTRAP_API_GROUPS "bootstrap") ?;;
  lift (validate_api_group infra_api_version ALLOWED_INFRASTRUCTURE_API_GROUPS "infrastructure") ?;;
  ensure_can_create c namespace bootstrap_api_version bootstrap_kind "bootstrap" ?;;
  ensure_can_create c namespace infra_api_version infra_kind "infrastructure" ?;;
  ensure_can_create c namespace machine_api_version_full "Machine" "machine" ?;;
  lift (validate_template resource) ?;;
  lift (validate_embedded_metadata bootstrap "spec.bootstrapSpec") ?;;
  lift (validate_embedded_metadata infra "spec.infrastructureSpec") ?;;
  uid <-? lift (ok_or (om_uid (metadata resource)) (InvalidConfig "Resource UID not set")) ;;
  capi_err "Failed to create bootstrap resource"
    (create_dynamic_resource c namespace bootstrap_api_version bootstrap_kind
      (provider_object bootstrap_api_version bootstrap_kind name namespace
        (merge_owned_labels (EmbeddedResource.metadata_labels bootstrap) name cluster)
        (EmbeddedResource.metadata_annotations bootstrap) bootstrap_spec_inner)) ?;;
  capi_err "Failed to create infrastructure resource"
    (create_dynamic_resource c namespace infra_api_version infra_kind
      (provider_object infra_api_version infra_kind name namespace
        (merge_owned_labels (EmbeddedResource.metadata_labels infra) name cluster)
        (EmbeddedResource.metadata_annotations infra) infra_spec_inner)) ?;;
  capi_err "Failed to create Machine"
    (create_dynamic_resource c namespace machine_api_version_full "Machine"
      (machine_object machine_api_version_full name namespace cluster uid
        (merge_owned_labels (template_labels resource) name cluster) (template_annotations resource)
        bootstrap_api_version bootstrap_kind infra_api_version infra_kind)) ?;;
  Ret (Ok tt).

(** ** Deletion *)

Definition machine_resource (version : string) : ApiResource :=
  {| ar_group := CAPI_GROUP; ar_version := version; ar_kind := "Machine"; ar_plural := CAPI_RESOURCE_MACHINES |}.

(** [if let (Some(api_version), Some(kind)) = ... { delete ... }] *)
Definition delete_embedded (c : client) (namespace name : string) (r : EmbeddedResource) : M (rresult unit) :=
  match EmbeddedResource.api_version r, EmbeddedResource.kind r with
  | Some api_version, Some kind => delete_dynamic_resource c namespace api_version kind name
  | _, _ => Ret (Ok tt)
  end.

Definition remove_machine_from_cluster (resource : ScheduledMachine) (c : client) (namespace : string) : M (rresult unit) :=
  let name := name_any resource in
  let version := machine_api_version_for ctx (EmbeddedResource.api_version (bootstrap_spec (spec resource))) in
  r <- delete_dyn c namespace (machine_resource version) name ;;
  match r with
  | Err e =>
      if is_api_error HTTP_NOT_FOUND e then
        delete_embedded c namespace name (bootstrap_spec (spec resource)) ?;;
        delete_embedded c namespace name (infrastructure_spec (spec resource)) ?;;
        Ret (Ok tt)
      else Ret (Err (CapiError ("Failed to delete Machine " +:+ name +:+ ": " +:+ kube_error_display e)))
  | Ok _ =>
      delete_embedded c namespace name (bootstrap_spec (spec resource)) ?;;
      delete_embedded c namespace name (infrastructure_spec (spec resource)) ?;;
      Ret (Ok tt)
  end.

(** ** References *)

Definition extract_machine_refs (machine : DynamicObject) : option string * option NodeRef :=
  let provider_id := jpath ["spec"; "providerID"] (d_data machine) ≫= as_str in
  let node_ref :=
    match jpath ["status"; "nodeRef"] (d_data machine) with
    | None => None
    | Some nr =>
        match jget "name" nr ≫= as_str with
        | None => None
        | Some name => Some {|
            nr_api_version := default "v1" (jget "apiVersion" nr ≫= as_str);
            nr_kind := default "Node" (jget "kind" nr ≫= as_str);
            nr_name := name;
            nr_uid := jget "uid" nr ≫= as_str |}
        end
    end in
  (provider_id, node_ref).

Definition fetch_capi_machine (c : client) (namespace machine_name : string) : M (rresult (option DynamicObject)) :=
  r <- get_dyn c namespace (machine_resource (ctx_capi_version ctx)) machine_name ;;
  match r with
  | Ok m => Ret (Ok (Some m))
  | Err e =>
      if is_api_error HTTP_NOT_FOUND e then Ret (Ok None)
      else Ret (Err (CapiError ("Failed to get Machine " +:+ machine_name +:+ ": " +:+ kube_error_display e)))
  end.

Definition get_node_from_machine (c : client) (namespace machine_name : string) : M (rresult (option string)) :=
  m <-? fetch_capi_machine c namespace machine_name ;;
  match m with
  | None => Ret (Ok None)
  | Some machine => Ret (Ok (nr_name <$> (extract_machine_refs machine).2))
  end.
End capi.

(** ** Secondary-watch mappers: the machines to enqueue *)

Record SmRef : Type := { sr_namespace : string; sr_name : string }.

Definition machine_to_scheduled_machine (machine : DynamicObject) : list SmRef :=
  match d_labels machine ≫= lookup LABEL_SCHEDULED_MACHINE with
  | None => []
  | Some raw_name =>
      let name := trim raw_name in
      if str_is_empty name then []
      else match d_namespace machine with
           | None => []
           | Some namespace => [{| sr_namespace := namespace; sr_name := name |}]
           end
  end.

(** The deprecated mapper, which trusts [status.nodeRef] of the machines. *)
Definition node_to_scheduled_machines (node : Node) (sms : list ScheduledMachine) : list SmRef :=
  match n_name node with
  | None => []
  | Some node_name =>
      if str_is_empty node_name then []
      else omap (λ sm,
        nref ← status sm ≫= node_ref;
        if str_is_empty (nr_name nref) || negb (bool_decide (nr_name nref = node_name)) then None
        else name ← om_name (metadata sm); ns ← om_namespace (metadata sm);
             Some {| sr_namespace := ns; sr_name := name |}) sms
  end.

Definition machine_owner_for_node (node_name : string) (machine : DynamicObject) : option SmRef :=
  machine_node_name ← jpath ["status"; "nodeRef"; "name"] (d_data machine) ≫= as_str;
  if str_is_empty machine_node_name || negb (bool_decide (machine_node_name = node_name)) then None
  else raw ← d_labels machine ≫= lookup LABEL_SCHEDULED_MACHINE;
       let sm_name := trim raw in
       if str_is_empty sm_name then None
       else ns ← d_namespace machine; Some {| sr_namespace := ns; sr_name := sm_name |}.

Definition node_to_scheduled_machines_via_machine (node : Node) (machines : list DynamicObject) : list SmRef :=
  match n_name node with
  | None => []
  | Some node_name => if str_is_empty node_name then [] else omap (machine_owner_for_node node_name) machines
  end.

(** ** What creation may do *)

Section creation.
Context `{Externals} (ctx : Context).

(** The labels every created object carries. *)
Definition tracked (name cluster : string) (obj : json) : Prop :=
  jpath ["metadata"; "labels"; SCHEDULED_MACHINE_LABEL] obj = Some (JStr name) /\
  jpath ["metadata"; "labels"; CAPI_CLUSTER_NAME_LABEL] obj = Some (JStr cluster).

(** The inputs the creation is allowed to act on. *)
Definition spec_admissible (resource : ScheduledMachine) : Prop :=
  is_ok (validate_cluster_name (cluster_name (spec resource))) = true /\
  metadata_allowed (bootstrap_spec (spec resource)) /\
  metadata_allowed (infrastructure_spec (spec resource)) /\
  (forall k, is_Some (template_labels resource !! k) -> key_allowed k) /\
  (forall k, is_Some (template_annotations resource !! k) -> key_allowed k).

Definition creation_call (resource : ScheduledMachine) (c : client) (namespace : string) (call : call_t) : Prop :=
  match call with
  | CreateReview c' a => c' = c /\ ra_verb a = "create" /\ ra_namespace a = namespace
  | CreateDyn c' ns ar obj =>
      c' = c /\ ns = namespace /\ spec_admissible resource /\
      jpath ["metadata"; "name"] obj = Some (JStr (name_any resource)) /\
      jpath ["metadata"; "namespace"] obj = Some (JStr namespace) /\
      tracked (name_any resource) (cluster_name (spec resource)) obj /\
      (ar_group ar ∈ ALLOWED_BOOTSTRAP_API_GROUPS \/ ar_group ar ∈ ALLOWED_INFRASTRUCTURE_API_GROUPS \/
       ar_group ar = CAPI_GROUP /\ ar_kind ar = "Machine")
  | _ => False
  end.

Lemma merge_owned_tracked l name cluster :
  merge_owned_labels l name cluster !! SCHEDULED_MACHINE_LABEL = Some name /\
  merge_owned_labels l name cluster !! CAPI_CLUSTER_NAME_LABEL = Some cluster.
Proof. unfold merge_owned_labels. split; by simplify_map_eq. Qed.

(** Every other label is the user's. *)
Lemma merge_owned_other l name cluster k :
  k <> SCHEDULED_MACHINE_LABEL -> k <> CAPI_CLUSTER_NAME_LABEL -> merge_owned_labels l name cluster !! k = l !! k.
Proof. intros. unfold merge_owned_labels. by rewrite !lookup_insert_ne. Qed.

Lemma jget_json_of_map k m : jget k (json_of_map m) = JStr <$> m !! k.
Proof. apply (obj_get_json_of_map k m). Qed.

Lemma provider_object_tracked v k n ns l a s cluster :
  tracked n cluster (provider_object v k n ns (merge_owned_labels l n cluster) a s).
Proof.
  destruct (merge_owned_tracked l n cluster) as [H1 H2].
  split; change (jpath _ _) with (jpath [SCHEDULED_MACHINE_LABEL] (json_of_map (merge_owned_labels l n cluster)))
    || change (jpath _ _) with (jpath [CAPI_CLUSTER_NAME_LABEL] (json_of_map (merge_owned_labels l n cluster)));
    cbn [jpath]; by rewrite jget_json_of_map, ?H1, ?H2.
Qed.

Lemma machine_object_tracked v n ns cluster uid l a bv bk iv ik :
  tracked n cluster (machine_object v n ns cluster uid (merge_owned_labels l n cluster) a bv bk iv ik).
Proof.
  destruct (merge_owned_tracked l n cluster) as [H1 H2].
  split; change (jpath _ _) with (jpath [SCHEDULED_MACHINE_LABEL] (json_of_map (merge_owned_labels l n cluster)))
    || change (jpath _ _) with (jpath [CAPI_CLUSTER_NAME_LABEL] (json_of_map (merge_owned_labels l n cluster)));
    cbn [jpath]; by rewrite jget_json_of_map, ?H1, ?H2.
Qed.

Lemma allowed_group v allowed what u :
  validate_api_group v allowed what = Ok u -> forall kind, ar_group (dyn_resource v kind) ∈ allowed.
Proof.
  unfold validate_api_group, dyn_resource, parse_api_version. intros Hv kind.
  destruct (rsplit_once "/" v) as [[g ver] |]; cbn in *; [| done]. by case_bool_decide.
Qed.

Lemma rsplit_once_app h t : contains_char "/" t = false -> rsplit_once "/" (h +:+ String "/" t) = Some (h, t).
Proof.
  intros Ht. induction h as [| a h IH]; cbn.
  - apply rsplit_once_None in Ht. by rewrite Ht.
  - by rewrite IH.
Qed.

Definition discovered_ok : Prop := contains_char "/" (ctx_capi_version ctx) = false.

Lemma machine_version_plain v : discovered_ok -> contains_char "/" (machine_api_version_for ctx v) = false.
Proof.
  intros Hd. unfold machine_api_version_for. destruct v as [v |]; cbn; [| done].
  destruct (rsplit_once "/" v) as [[g ver] |] eqn:E; cbn; [| done].
  apply rsplit_once_Some in E as [_ E]. by destruct (str_is_empty ver).
Qed.

(** The resource the Machine is created as is the one it is deleted as. *)
Lemma machine_resource_dyn v :
  discovered_ok ->
  dyn_resource (CAPI_GROUP +:+ "/" +:+ machine_api_version_for ctx v) "Machine" =
    machine_resource (machine_api_version_for ctx v).
Proof.
  intros Hd. unfold dyn_resource, parse_api_version.
  change (CAPI_GROUP +:+ "/" +:+ machine_api_version_for ctx v)
    with (CAPI_GROUP +:+ String "/" (machine_api_version_for ctx v)).
  by rewrite rsplit_once_app by (by apply machine_version_plain).
Qed.

Lemma machine_group_kind v :
  discovered_ok ->
  let ar := dyn_resource (CAPI_GROUP +:+ "/" +:+ machine_api_version_for ctx v) "Machine" in
  ar_group ar = CAPI_GROUP /\ ar_kind ar = "Machine".
Proof. intros Hd. cbn zeta. by rewrite machine_resource_dyn. Qed.

Lemma ensure_can_create_calls resource c ns v k w :
  calls (creation_call resource c ns) (ensure_can_create c ns v k w).
Proof.
  unfold ensure_can_create. destruct (parse_api_version v) as [g ver].
  apply calls_bind_ok; [by repeat constructor |]. intros r. by destruct (rs_allowed _).
Qed.

Lemma create_calls resource c ns v k obj what :
  creation_call resource c ns (CreateDyn c ns (dyn_resource v k) obj) ->
  calls (creation_call resource c ns) (capi_err what (create_dynamic_resource c ns v k obj)).
Proof.
  intros Hc. unfold capi_err, create_dynamic_resource.
  apply calls_bind; [| by intros [] ].
  destruct (dynamic_object_error obj); [done |].
  apply calls_bind; [by split |]. intros [|e]; [done |]. by destruct (is_api_error _ e).
Qed.
End creation.

(** Whatever the API answers, creation only asks for permission reviews
    and creates objects in the machine's own namespace, named after it and
    carrying the controller's tracking labels, in an allowed provider API group
    or as a CAPI Machine, and creates nothing before the cluster name, the
    machine template and both embedded resources have been found admissible. *)
Theorem add_machine_to_cluster_confined `{Externals} ctx resource c ns :
  discovered_ok ctx ->
  calls (creation_call resource c ns) (add_machine_to_cluster ctx resource c ns).
Proof.
  intros Hd. unfold add_machine_to_cluster. cbn zeta.
  apply calls_bind_lift; intros bv Hbv. apply calls_bind_lift; intros bk Hbk.
  apply calls_bind_lift; intros iv Hiv. apply calls_bind_lift; intros ik Hik.
  apply calls_bind_lift; intros u1 Hcn. apply calls_bind_lift; intros u2 _.
  apply calls_bind_lift; intros u3 Hbg. apply calls_bind_lift; intros u4 Hig.
  do 3 (apply calls_bind_ok; [apply ensure_can_create_calls | intros _]).
  apply calls_bind_lift; intros u5 Htl. apply calls_bind_lift; intros u6 Hbm.
  apply calls_bind_lift; intros u7 Him. apply calls_bind_lift; intros uid _.
  assert (Hadm : spec_admissible resource).
  { unfold spec_admissible. rewrite Hcn. split; [done |].
    split; [eapply validate_embedded_metadata_spec; by rewrite Hbm |].
    split; [eapply validate_embedded_metadata_spec; by rewrite Him |].
    unfold template_labels, template_annotations, validate_template in *.
    destruct (machine_template (spec resource)) as [t |]; [| split; intros k []%lookup_empty_is_Some].
    destruct (validate_labels (mt_labels t) _) as [u |] eqn:E1; cbn [result_bind] in Htl; [| done].
    split; eapply validate_labels_spec; [by rewrite E1 | by rewrite Htl]. }
  apply calls_bind_ok; [apply create_calls | intros _].
  { cbn. split_and!; try done; [apply provider_object_tracked | left; by eapply allowed_group]. }
  apply calls_bind_ok; [apply create_calls | intros _].
  { cbn. split_and!; try done; [apply provider_object_tracked | right; left; by eapply allowed_group]. }
  apply calls_bind_ok; [apply create_calls | done].
  cbn. split_and!; try done; [apply machine_object_tracked | right; right; by apply machine_group_kind].
Qed.

Lemma add_machine_to_cluster_confined_witness :
  discovered_ok sample_ctx /\
  calls (creation_call (H := toy_externals) sample_sm MgmtClient "team") (add_machine_to_cluster (H := toy_externals) sample_ctx sample_sm MgmtClient "team").
Proof.
  assert (Hd : discovered_ok sample_ctx) by reflexivity.
  split; [exact Hd |]. exact (add_machine_to_cluster_confined (H := toy_externals) _ _ _ _ Hd).
Defined.

(** ** The creation protocol *)

(** Group, version and plural of a reviewed or created resource. *)
Definition review_key (a : ResourceAttributes) : string * string * string := (ra_group a, ra_version a, ra_resource a).
Definition resource_key (ar : ApiResource) : string * string * string := (ar_group ar, ar_version ar, ar_plural ar).

(** The permissions granted so far, in order, and the number of objects known
    to exist; [None] after a refusal or a failure, when no call may follow. *)
Definition protocol_state : Type := option (list (string * string * string) * nat).

Definition protocol_step (s : protocol_state) (e : event reply) : option protocol_state :=
  match s with
  | None => None
  | Some (granted, created) =>
      match e with
      | Ev (CreateReview _ a) r =>
          if bool_decide (List.length granted < 3) && bool_decide (created = 0) then
            match r with
            | Ok (Some st) => Some (if rs_allowed st then Some (granted ++ [review_key a], 0) else None)
            | _ => Some None
            end
          else None
      | Ev (CreateDyn _ _ ar _) r =>
          if bool_decide (List.length granted = 3) && bool_decide (granted !! created = Some (resource_key ar)) then
            match r with
            | Ok _ => Some (Some (granted, S created))
            | Err e => Some (if is_api_error HTTP_ALREADY_EXISTS e then Some (granted, S created) else None)
            end
          else None
      | _ => None
      end
  end.

Section protocol.
Context `{Externals} (ctx : Context).

Lemma ensure_can_create_protocol c ns v k w granted Φ :
  List.length granted < 3 ->
  (Φ (Some (granted ++ [resource_key (dyn_resource v k)], 0)) (Ok tt)) ->
  (forall e, Φ None (Err e)) ->
  mon protocol_step (Some (granted, 0)) (ensure_can_create c ns v k w) Φ.
Proof.
  intros Hg Hok Herr. unfold ensure_can_create. unfold dyn_resource in Hok.
  destruct (parse_api_version v) as [g ver]. apply mon_bind_ok. cbn.
  rewrite bool_decide_true by done. cbn.
  intros [[st |] | e]; cbn; [| apply Herr | apply Herr].
  destruct (rs_allowed st); [exact Hok | apply Herr].
Qed.

(** An object that does not decode is not created, and ends the run. *)
Lemma create_protocol c ns v k obj what granted n Φ :
  List.length granted = 3 -> granted !! n = Some (resource_key (dyn_resource v k)) ->
  (Φ (Some (granted, S n)) (Ok tt)) -> (forall e, Φ None (Err e)) -> (forall e, Φ (Some (granted, n)) (Err e)) ->
  mon protocol_step (Some (granted, n)) (capi_err what (create_dynamic_resource c ns v k obj)) Φ.
Proof.
  intros Hg Hn Hok Herr Hskip. unfold capi_err, create_dynamic_resource.
  destruct (dynamic_object_error obj); [apply Hskip |].
  cbn. rewrite !bool_decide_true by done. cbn.
  intros [[] | e]; cbn; [done |]. destruct (is_api_error _ e); cbn; [done | apply Herr].
Qed.
End protocol.

(** C18: the creation protocol: all three permission reviews come first and
    each must be granted, the objects created are those reviewed, in the order
    bootstrap, infrastructure, Machine, a refusal or a failure ends the run
    (so does an object that cannot be decoded, before it is sent), and the
    result is [Ok] exactly when all three objects exist (an object that already
    exists counts, so that a retry is idempotent). *)
Theorem add_machine_to_cluster_protocol `{Externals} ctx resource c ns :
  mon protocol_step (Some ([], 0)) (add_machine_to_cluster ctx resource c ns)
    (λ s r, match r with Ok _ => exists granted, s = Some (granted, 3) | Err _ => forall granted, s <> Some (granted, 3) end).
Proof.
  unfold add_machine_to_cluster. cbn zeta.
  do 8 (apply mon_bind_lift; [intros ? _ | by intros]).
  do 3 (apply mon_bind_ok, ensure_can_create_protocol; [cbn; lia | | by intros]).
  do 4 (apply mon_bind_lift; [intros ? _ | by intros]).
  do 3 (apply mon_bind_ok, create_protocol; [done | done | | by intros | by intros]).
  cbn. eauto.
Qed.

(** ** Removal undoes creation *)

Section removal.
Context `{Externals} (ctx : Context).

(** The three resources of a machine, as creation addresses them. *)
Definition owned_resources (resource : ScheduledMachine) : list ApiResource :=
  match EmbeddedResource.api_version (bootstrap_spec (spec resource)), EmbeddedResource.kind (bootstrap_spec (spec resource)),
        EmbeddedResource.api_version (infrastructure_spec (spec resource)), EmbeddedResource.kind (infrastructure_spec (spec resource)) with
  | Some bv, Some bk, Some iv, Some ik =>
      [dyn_resource bv bk; dyn_resource iv ik; machine_resource (machine_api_version_for ctx (Some bv))]
  | _, _, _, _ => []
  end.

Definition creates_owned (resource : ScheduledMachine) (c : client) (ns : string) (call : call_t) : Prop :=
  match call with
  | CreateDyn c' ns' ar obj =>
      c' = c /\ ns' = ns /\ jpath ["metadata"; "name"] obj = Some (JStr (name_any resource)) /\
      ar ∈ owned_resources resource
  | _ => True
  end.

Lemma create_owned resource c ns v k obj what :
  jpath ["metadata"; "name"] obj = Some (JStr (name_any resource)) ->
  dyn_resource v k ∈ owned_resources resource ->
  calls (creates_owned resource c ns) (capi_err what (create_dynamic_resource c ns v k obj)).
Proof.
  intros Hn Hin. unfold capi_err, create_dynamic_resource.
  apply calls_bind; [| by intros []]. destruct (dynamic_object_error obj); [done |].
  apply calls_bind; [by split |]. intros [| e]; [done |]. by destruct (is_api_error _ e).
Qed.

Lemma add_creates_owned resource c ns :
  discovered_ok ctx -> calls (creates_owned resource c ns) (add_machine_to_cluster ctx resource c ns).
Proof.
  intros Hd. unfold add_machine_to_cluster. cbn zeta.
  apply calls_bind_lift; intros bv Hbv. apply calls_bind_lift; intros bk Hbk.
  apply calls_bind_lift; intros iv Hiv. apply calls_bind_lift; intros ik Hik.
  do 4 (apply calls_bind_lift; intros ? _).
  do 3 (apply calls_bind_ok;
    [unfold ensure_can_create; destruct (parse_api_version _); apply calls_bind_ok; [by repeat constructor |];
     intros r; by destruct (rs_allowed _) | intros _]).
  do 4 (apply calls_bind_lift; intros ? _).
  assert (Ho : owned_resources resource =
    [dyn_resource bv bk; dyn_resource iv ik; machine_resource (machine_api_version_for ctx (Some bv))]).
  { unfold owned_resources. rewrite ok_or_Ok in *. by rewrite Hbv, Hbk, Hiv, Hik. }
  do 2 (apply calls_bind_ok; [apply create_owned; [done | rewrite Ho; set_solver] | intros _]).
  apply calls_bind_ok; [apply create_owned; [done | rewrite Ho, machine_resource_dyn by done; set_solver] | done].
Qed.

(** Removal only deletes, in the machine's namespace and by its name. *)
Lemma remove_machine_only_deletes resource c ns :
  calls (λ call, match call with DeleteDyn c' ns' _ n => c' = c /\ ns' = ns /\ n = name_any resource | _ => False end)
    (remove_machine_from_cluster ctx resource c ns).
Proof.
  set (P := λ call : call_t, _).
  assert (Hd : forall e, calls P (delete_embedded c ns (name_any resource) e)).
  { intros e. unfold delete_embedded, delete_dynamic_resource. repeat case_match; try done.
    pstep as r; [done |]. destruct r; [done |]. prog_hnf. by destruct (is_api_error _ _). }
  assert (Hds : calls P (delete_embedded c ns (name_any resource) (bootstrap_spec (spec resource)) ?;;
                         delete_embedded c ns (name_any resource) (infrastructure_spec (spec resource)) ?;; Ret (Ok tt))).
  { apply calls_bind_ok; [apply Hd | intros _]. apply calls_bind_ok; [apply Hd | done]. }
  unfold remove_machine_from_cluster. pstep as r; [done |]. destruct r as [u | e]; [exact Hds |].
  change (calls P (if is_api_error HTTP_NOT_FOUND e then
    delete_embedded c ns (name_any resource) (bootstrap_spec (spec resource)) ?;;
    delete_embedded c ns (name_any resource) (infrastructure_spec (spec resource)) ?;; Ret (Ok tt)
    else Ret (Err (CapiError ("Failed to delete Machine " +:+ name_any resource +:+ ": " +:+ kube_error_display e))))).
  by destruct (is_api_error HTTP_NOT_FOUND e).
Qed.

(** A deletion that did not fail. *)
Definition deleted (t : trace) (c : client) (ns : string) (ar : ApiResource) (name : string) : Prop :=
  exists r : result unit kube_error, Ev (DeleteDyn c ns ar name) r ∈ t /\
    (r = Ok tt \/ exists e, r = Err e /\ is_api_error HTTP_NOT_FOUND e = true).

Lemma delete_dynamic_deleted c ns v k name t :
  exec (delete_dynamic_resource c ns v k name) t (Ok tt) -> deleted t c ns (dyn_resource v k) name.
Proof.
  unfold delete_dynamic_resource. intros He. apply exec_bind in He as (t1 & r & t2 & -> & Hc & He).
  apply (exec_call (R := reply) (DeleteDyn _ _ _ _)) in Hc as ->. exists r. split; [set_solver |].
  destruct r as [[] | e]; [by left | right]. exists e. split; [done |].
  destruct (is_api_error HTTP_NOT_FOUND e); [done |]. by destruct He.
Qed.

Lemma deleted_app_l t1 t2 c ns ar n : deleted t1 c ns ar n -> deleted (t1 ++ t2) c ns ar n.
Proof. intros (r & ? & ?). exists r. set_solver. Qed.
Lemma deleted_app_r t1 t2 c ns ar n : deleted t2 c ns ar n -> deleted (t1 ++ t2) c ns ar n.
Proof. intros (r & ? & ?). exists r. set_solver. Qed.

Lemma remove_deletes_owned resource c ns t :
  exec (remove_machine_from_cluster ctx resource c ns) t (Ok tt) ->
  forall ar, ar ∈ owned_resources resource -> deleted t c ns ar (name_any resource).
Proof.
  unfold remove_machine_from_cluster, owned_resources. cbn zeta. intros He ar Har.
  apply exec_bind in He as (t1 & r & t2 & -> & Hc & He). apply (exec_call (R := reply) (DeleteDyn _ _ _ _)) in Hc as ->.
  unfold delete_embedded in He.
  destruct (EmbeddedResource.api_version (bootstrap_spec (spec resource))) as [bv |],
    (EmbeddedResource.kind (bootstrap_spec (spec resource))) as [bk |],
    (EmbeddedResource.api_version (infrastructure_spec (spec resource))) as [iv |],
    (EmbeddedResource.kind (infrastructure_spec (spec resource))) as [ik |]; try by apply elem_of_nil in Har.
  assert (Hr : (r = Ok tt \/ exists e, r = Err e /\ is_api_error HTTP_NOT_FOUND e = true) /\
    exec (delete_dynamic_resource c ns bv bk (name_any resource) ?;;
          delete_dynamic_resource c ns iv ik (name_any resource) ?;; Ret (Ok tt)) t2 (Ok tt)).
  { destruct r as [[] | e]; [by split; [left |] |].
    destruct (is_api_error HTTP_NOT_FOUND e) eqn:E; [split; [right; eauto | done] | by destruct He]. }
  clear He. destruct Hr as [Hr He].
  apply exec_bind_ok in He as [(? & _ & ?) | (tb & [] & t3 & -> & Hb & He)]; [done |].
  apply exec_bind_ok in He as [(? & _ & ?) | (ti & [] & t4 & -> & Hi & He)]; [done |].
  apply delete_dynamic_deleted in Hb, Hi.
  apply elem_of_cons in Har as [-> | Har]; [by apply deleted_app_r, deleted_app_l |].
  apply elem_of_cons in Har as [-> | Har]; [by apply deleted_app_r, deleted_app_r, deleted_app_l |].
  apply list_elem_of_singleton in Har as ->. apply deleted_app_l. exists r. split; [set_solver | done].
Qed.
End removal.

(** A removal that succeeds undoes every creation: whatever run of
    [add_machine_to_cluster] created, a later successful run of
    [remove_machine_from_cluster] on the same machine has deleted (or found
    absent) at the same group, version, kind, plural, namespace and name. *)
Theorem remove_undoes_add `{Externals} ctx resource c ns t r t' :
  discovered_ok ctx ->
  exec (add_machine_to_cluster ctx resource c ns) t r ->
  exec (remove_machine_from_cluster ctx resource c ns) t' (Ok tt) ->
  forall c' ns' ar obj (rep : result unit kube_error), Ev (CreateDyn c' ns' ar obj) rep ∈ t ->
    c' = c /\ ns' = ns /\ jpath ["metadata"; "name"] obj = Some (JStr (name_any resource)) /\
    deleted t' c ns ar (name_any resource).
Proof.
  intros Hd Ha Hr c' ns' ar obj rep Hin.
  pose proof (calls_exec _ _ _ _ (add_creates_owned ctx resource c ns Hd) Ha) as Ho.
  rewrite Forall_forall in Ho. destruct (Ho _ Hin) as (-> & -> & ? & ?).
  split_and!; try done. by eapply remove_deletes_owned.
Qed.

Lemma remove_undoes_add_witness :
  discovered_ok sample_ctx /\
  exists t t',
    exec (add_machine_to_cluster (H := toy_externals) sample_ctx sample_sm MgmtClient "team") t (Ok tt) /\
    exec (remove_machine_from_cluster (H := toy_externals) sample_ctx sample_sm MgmtClient "team") t' (Ok tt) /\
    (forall c' ns' ar obj (rep : result unit kube_error), Ev (CreateDyn c' ns' ar obj) rep ∈ t ->
      c' = MgmtClient /\ ns' = "team" /\ jpath ["metadata"; "name"] obj = Some (JStr "sm") /\
      deleted t' MgmtClient "team" ar "sm").
Proof.
  set (p := add_machine_to_cluster (H := toy_externals) sample_ctx sample_sm MgmtClient "team").
  set (q := remove_machine_from_cluster (H := toy_externals) sample_ctx sample_sm MgmtClient "team").
  assert (Hd : discovered_ok sample_ctx) by reflexivity.
  pose proof (run_exec ok_handler p 0%Z) as Hp. pose proof (run_exec ok_handler q 0%Z) as Hq.
  replace (run ok_handler 0%Z p).2 with (@Ok unit ReconcilerError tt) in Hp by (vm_compute; reflexivity).
  replace (run ok_handler 0%Z q).2 with (@Ok unit ReconcilerError tt) in Hq by (vm_compute; reflexivity).
  split; [exact Hd |]. eexists _, _. split; [exact Hp |]. split; [exact Hq |].
  exact (remove_undoes_add (H := toy_externals) _ _ _ _ _ _ _ Hd Hp Hq).
Defined.

(** ** The secondary watches *)

(** The Machine watch cannot find the owner of a Machine the controller
    created: the mapper reads a label that creation does not stamp, so its
    answer depends only on the labels the user put in the machine template —
    none there, no owner; one there, any machine of the namespace — and the
    reserved-prefix check lets the user set it. *)
Theorem created_machine_mapping_user_controlled resource cluster m ns :
  d_labels m = Some (merge_owned_labels (template_labels resource) (name_any resource) cluster) ->
  d_namespace m = Some ns ->
  machine_to_scheduled_machine m =
    match template_labels resource !! LABEL_SCHEDULED_MACHINE with
    | None => []
    | Some raw => if str_is_empty (trim raw) then [] else [{| sr_namespace := ns; sr_name := trim raw |}]
    end /\
  key_allowed LABEL_SCHEDULED_MACHINE.
Proof.
  intros Hl Hns. split.
  - unfold machine_to_scheduled_machine. rewrite Hl, Hns. cbn [mbind option_bind].
    change (lookup LABEL_SCHEDULED_MACHINE ?m) with (m !! LABEL_SCHEDULED_MACHINE).
    by rewrite merge_owned_other.
  - intros p Hp Ht. apply starts_with_spec in Ht. unfold RESERVED_LABEL_PREFIXES in Hp.
    rewrite !elem_of_cons, elem_of_nil in Hp.
    destruct Hp as [-> | [-> | [-> | [-> | []]]]]; by vm_compute in Ht.
Qed.

Definition sample_machine : DynamicObject := {|
  d_name := Some "sm"; d_namespace := Some "team";
  d_labels := Some (merge_owned_labels (template_labels sample_sm) (name_any sample_sm) "prod"); d_data := JObj [] |}.

Lemma created_machine_mapping_user_controlled_witness :
  d_labels sample_machine = Some (merge_owned_labels (template_labels sample_sm) (name_any sample_sm) "prod") /\
  machine_to_scheduled_machine sample_machine = [].
Proof.
  split; [reflexivity |].
  exact (proj1 (created_machine_mapping_user_controlled sample_sm "prod" sample_machine "team" eq_refl eq_refl)).
Defined.
