(* ===== verification/Drain.v ===== *)
(** Node draining ([cordon_node], [should_evict_pod], [evict_pod] and
    [drain_node_with_timeout] of [src/reconcilers/helpers.rs]). *)

From S2P Require Import Prelude RustStr Effects Constants Json Crd Externals KubeApi Metrics.

Section drain.
Context `{Externals}.

Definition cordon_patch : json := JObj [("spec", JObj [("unschedulable", JBool true)])].

Definition cordon_node (c : client) (node_name : string) : M (rresult unit) :=
  r <- patch_node c node_name (MergePatch cordon_patch) ;;
  Ret (map_err (λ e, CapiError ("Failed to cordon node " +:+ node_name +:+ ": " +:+ kube_error_display e)) r).

Definition should_evict_pod (pod : Pod) : bool :=
  let terminal :=
    match p_status_phase pod with
    | Some (Some phase) => bool_decide (phase = "Succeeded") || bool_decide (phase = "Failed")
    | _ => false
    end in
  if terminal then false
  else match p_owner_kinds pod with
       | Some kinds => negb (existsb (λ k, bool_decide (k = "DaemonSet")) kinds)
       | None => true
       end.

Definition eviction_grace : Z := POD_EVICTION_GRACE_PERIOD_SECS.

Definition evict_pod (c : client) (pod_name pod_namespace node_name : string) : M (rresult unit) :=
  r <- delete_pod c pod_namespace pod_name eviction_grace ;;
  match r with
  | Ok _ => record_pod_eviction true ;;; Ret (Ok tt)
  | Err e =>
      if is_api_error HTTP_NOT_FOUND e then record_pod_eviction true ;;; Ret (Ok tt)
      else if is_api_error HTTP_TOO_MANY_REQUESTS e then
        record_pod_eviction false ;;;
        Ret (Err (CapiError ("Pod " +:+ pod_name +:+
          " eviction blocked by PodDisruptionBudget (HTTP 429) on node " +:+ node_name)))
      else
        record_pod_eviction false ;;;
        Ret (Err (CapiError ("Failed to evict pod " +:+ pod_name +:+ " from node " +:+ node_name +:+ ": " +:+
          kube_error_display e)))
  end.

(** The eviction loop; [timeout] and the instants are in nanoseconds. *)
Fixpoint evict_loop (c : client) (node_name : string) (start_time timeout : Z) (pods : list Pod) : M (rresult unit) :=
  match pods with
  | [] => record_node_drain true ;;; Ret (Ok tt)
  | pod :: rest =>
      spent <- elapsed start_time ;;
      if bool_decide (timeout <= spent)%Z then
        record_node_drain false ;;;
        Ret (Err (CapiError ("Node drain timeout exceeded for " +:+ node_name)))
      else
        evict_pod c (default "unknown" (p_name pod)) (default "default" (p_namespace pod)) node_name ?;;
        evict_loop c node_name start_time timeout rest
  end.

Definition drain_node_with_timeout (c : client) (node_name : string) (timeout_secs : Z) : M (rresult unit) :=
  cordon_node c node_name ?;;
  items <-? (r <- list_pods c ("spec.nodeName=" +:+ node_name) ;;
    Ret (map_err (λ e, CapiError ("Failed to list pods on node " +:+ node_name +:+ ": " +:+ kube_error_display e)) r)) ;;
  let pods_to_evict := List.filter should_evict_pod items in
  match pods_to_evict with
  | [] => Ret (Ok tt)
  | _ =>
      start_time <- instant_now ;;
      evict_loop c node_name start_time (timeout_secs * 1000000000) pods_to_evict
  end.
End drain.

(** ** What draining may do *)

Definition drain_call (c : client) (node : string) (call : call_t) : Prop :=
  match call with
  | PatchNode c' n p => c' = c /\ n = node /\ p = MergePatch cordon_patch
  | ListPods c' sel => c' = c /\ sel = "spec.nodeName=" +:+ node
  | DeletePod c' _ _ g => c' = c /\ g = 30%Z
  | InstantNow => True
  | MetricOp op => metric_op_ok op
  | _ => False
  end.

Lemma metric_drain c n call : metric_call call -> drain_call c n call.
Proof. by destruct call. Qed.

Section calls.
Context `{Externals}.

Lemma record_pod_eviction_calls b : calls metric_call (record_pod_eviction b).
Proof. by apply metric_call_inc. Qed.
Lemma record_node_drain_calls b : calls metric_call (record_node_drain b).
Proof. by apply metric_call_inc. Qed.

Lemma evict_pod_calls c p ns n : calls (drain_call c n) (evict_pod c p ns n).
Proof.
  unfold evict_pod. apply calls_bind; [by repeat constructor |].
  intros [u | e]; repeat case_match;
    (apply calls_bind; [eapply calls_mono; [apply metric_drain | apply record_pod_eviction_calls] | done]).
Qed.

Lemma evict_loop_calls c n t0 tmo pods : calls (drain_call c n) (evict_loop c n t0 tmo pods).
Proof.
  assert (Hd : forall b r, calls (drain_call c n) (record_node_drain b ;;; Ret (A := rresult unit) r)).
  { intros. apply calls_bind; [eapply calls_mono; [apply metric_drain | apply record_node_drain_calls] | done]. }
  induction pods as [| p pods IH]; cbn [evict_loop]; [apply Hd |].
  apply calls_bind; [by repeat constructor |]. intros spent. case_bool_decide; [apply Hd |].
  apply calls_bind_ok; [apply evict_pod_calls | done].
Qed.

Lemma drain_calls c n secs : calls (drain_call c n) (drain_node_with_timeout c n secs).
Proof.
  unfold drain_node_with_timeout, cordon_node.
  apply calls_bind_ok; [apply calls_bind; [by repeat constructor | by intros []] | intros _].
  apply calls_bind_ok; [apply calls_bind; [by repeat constructor | by intros []] | intros items].
  destruct (List.filter _ items); [done |].
  apply calls_bind; [by repeat constructor |]. intros. apply evict_loop_calls.
Qed.
End calls.

(** ** The eviction discipline *)

(** Not an eviction candidate: finished, or owned by a DaemonSet. *)
Definition must_stay (pod : Pod) : Prop :=
  p_status_phase pod = Some (Some "Succeeded") \/ p_status_phase pod = Some (Some "Failed") \/
  exists kinds, p_owner_kinds pod = Some kinds /\ "DaemonSet" ∈ kinds.

Lemma should_evict_pod_spec pod : should_evict_pod pod = false <-> must_stay pod.
Proof.
  unfold should_evict_pod, must_stay. set (terminal := match p_status_phase pod with Some (Some _) => _ | _ => _ end).
  assert (Ht : terminal = true <-> p_status_phase pod = Some (Some "Succeeded") \/ p_status_phase pod = Some (Some "Failed")).
  { subst terminal. destruct (p_status_phase pod) as [[ph |] |]; [| naive_solver | naive_solver].
    rewrite orb_true_iff, !bool_decide_eq_true. naive_solver. }
  destruct terminal; [tauto |].
  assert (Hn : ~ (p_status_phase pod = Some (Some "Succeeded") \/ p_status_phase pod = Some (Some "Failed"))).
  { intros Hc. apply Ht in Hc. done. }
  destruct (p_owner_kinds pod) as [kinds |]; [| split; [done | naive_solver]].
  rewrite negb_false_iff, List.existsb_exists. split.
  - intros (k & Hk & ->%bool_decide_eq_true). right; right. exists kinds. split; [done |]. by apply list_elem_of_In.
  - intros [? | [? | (l & [= <-] & Hl)]]; [tauto | tauto |]. exists "DaemonSet".
    split; [by apply list_elem_of_In | by apply bool_decide_eq_true].
Qed.

(** The cordon: [spec.unschedulable] becomes true. *)
Definition cordons (p : patch) : bool :=
  match p with
  | MergePatch body => match jpath ["spec"; "unschedulable"] body with Some (JBool true) => true | _ => false end
  | ForcedMergePatch _ _ | ApplyPatch _ _ _ => false
  end.

(** Where a drain stands: the node to be cordoned, its pods to be listed, the
    clock to be read; then for each pod, in the order of the listing, the clock
    again and the eviction, in time since [start]; and the three ends. *)
Inductive drain_state : Type :=
| ToCordon
| ToList
| ToStart (pods : list Pod)
| ToCheck (start : Z) (pods : list Pod)
| ToEvict (start : Z) (pod : Pod) (rest : list Pod)
| Drained
| TimedOut
| Refused.

Definition drain_over (s : drain_state) : bool :=
  match s with Drained | TimedOut | Refused => true | _ => false end.
Definition evicted (start : Z) (rest : list Pod) : drain_state := match rest with [] => Drained | _ => ToCheck start rest end.

(** [timeout] is in nanoseconds. *)
Definition drain_step (c : client) (node : string) (timeout : Z) (s : drain_state) (e : event reply) : option drain_state :=
  match e with
  | Ev (PatchNode c' n p) r =>
      match s with
      | ToCordon =>
          if bool_decide (c' = c) && bool_decide (n = node) && cordons p
          then Some (match r with Ok _ => ToList | Err _ => Refused end) else None
      | _ => None
      end
  | Ev (ListPods c' selector) r =>
      match s with
      | ToList =>
          if bool_decide (c' = c) && bool_decide (selector = "spec.nodeName=" +:+ node) then
            Some (match r with
                  | Ok items => match List.filter should_evict_pod items with [] => Drained | pods => ToStart pods end
                  | Err _ => Refused
                  end)
          else None
      | _ => None
      end
  | Ev InstantNow now =>
      match s with
      | ToStart pods => Some (ToCheck now pods)
      | ToCheck start (pod :: rest) =>
          Some (if bool_decide (timeout <= Z.max 0 (now - start))%Z then TimedOut else ToEvict start pod rest)
      | _ => None
      end
  | Ev (DeletePod c' ns name grace) r =>
      match s with
      | ToEvict start pod rest =>
          if bool_decide (c' = c) && bool_decide (ns = default "default" (p_namespace pod)) &&
             bool_decide (name = default "unknown" (p_name pod)) && bool_decide (grace = 30)%Z
          then Some (match r with
                     | Ok _ => evicted start rest
                     | Err e => if is_api_error HTTP_NOT_FOUND e then evicted start rest else Refused
                     end)
          else None
      | _ => None
      end
  | Ev (MetricOp _) _ => Some s
  | _ => None
  end.

(** How a drain ends, and what it answers then. *)
Definition drain_ends (s : drain_state) (r : rresult unit) : Prop :=
  is_ok r = true /\ s = Drained \/ is_ok r = false /\ (s = TimedOut \/ s = Refused).

Lemma evict_loop_mon `{Externals} c n t0 tmo pods :
  mon (drain_step c n tmo) (evicted t0 pods) (evict_loop c n t0 tmo pods) drain_ends.
Proof.
  induction pods as [| p pods IH]; cbn [evict_loop].
  - pstep as []. pret. by left.
  - pstep as now. cbn [evicted]. prog_hnf. case_bool_decide as Ht.
    + pstep as []. pret. right. auto.
    + apply mon_bind_ok. unfold evict_pod. pstep as r.
      rewrite !bool_decide_true by done. cbn [andb].
      destruct r as [u | e]; [pstep as []; pret; exact IH |].
      prog_hnf. destruct (is_api_error HTTP_NOT_FOUND e); [pstep as []; pret; exact IH |].
      destruct (is_api_error HTTP_TOO_MANY_REQUESTS e); pstep as []; pret; right; auto.
Qed.

(** The evictions, whose loop is only entered with a pod to evict. *)
Lemma drain_mon `{Externals} c node secs :
  mon (drain_step c node (secs * 1000000000)) ToCordon (drain_node_with_timeout c node secs) drain_ends.
Proof.
  pstep as r. rewrite !bool_decide_true by done. change (cordons (MergePatch cordon_patch)) with true. cbn [andb].
  destruct r as [u | e]; [| pret; right; auto].
  pstep as r. rewrite !bool_decide_true by done. cbn [andb]. destruct r as [items | e]; [| pret; right; auto].
  prog_hnf. cbn [map_err]. destruct (List.filter should_evict_pod items) as [| p l] eqn:E; [pret; by left |].
  pstep as t0. apply (evict_loop_mon c node t0 _ (p :: l)).
Qed.

(** C21: the drain discipline: a drain cordons its node on its client
    ([spec.unschedulable] set to true), lists the pods of that node, and deletes
    with a grace period of 30 seconds exactly the evictable pods of the listing,
    in order, reading the clock before each; it ends only when all are deleted
    or already gone, and only then it succeeds, when the time since it started
    has reached the timeout, or when a call is refused.  Finished pods and
    DaemonSet pods, and no others, are not evictable. *)
Theorem drain_node_discipline `{Externals} c node secs :
  mon (drain_step c node (secs * 1000000000)) ToCordon (drain_node_with_timeout c node secs) drain_ends /\
  forall pod, should_evict_pod pod = false <-> must_stay pod.
Proof. split; [apply drain_mon | apply should_evict_pod_spec]. Qed.

(** Routing: every Kubernetes call of a drain goes to the client it was
    given, patches only that node (to cordon it), lists only its pods and
    deletes with the 30-second grace period; and no metric it records panics. *)
Theorem drain_node_routing `{Externals} c node secs :
  calls (drain_call c node) (drain_node_with_timeout c node secs).
Proof. apply drain_calls. Qed.
