(* ===== verification/NodeTaints.v ===== *)
(** User-declared node taints: the three-way diff, its application and the
    orchestration ([diff_node_taints], [apply_node_taints],
    [reconcile_node_taints] of [src/reconcilers/helpers.rs]). *)

From S2P Require Import Prelude RustStr Effects Constants Json Crd Externals KubeApi.

Record NodeTaintPlan : Type := {
  to_add : list NodeTaint;
  to_update : list NodeTaint;
  to_remove : list NodeTaint;
  unchanged : list NodeTaint;
  conflicts : list NodeTaint;
}.

Definition empty_plan : NodeTaintPlan :=
  {| to_add := []; to_update := []; to_remove := []; unchanged := []; conflicts := [] |}.

Definition is_empty {A} (l : list A) : bool := match l with [] => true | _ => false end.

Definition is_noop (p : NodeTaintPlan) : bool :=
  is_empty (to_add p) && is_empty (to_update p) && is_empty (to_remove p).

(** An error is its text and the texts of its [source] chain. *)
Definition error_chain (err : string) (sources : list string) : string :=
  foldl (λ out cause, out +:+ " -> " +:+ cause) err sources.

(** ** The diff *)

Definition find_current (current : list Taint) (key : string) (effect : TaintEffect) : option Taint :=
  find_b (λ c, bool_decide (t_key c = key) && bool_decide (TaintEffect_of_str (t_effect c) = Some effect)) current.

Definition find_applied (previously_applied : list NodeTaint) (key : string) (effect : TaintEffect) : option NodeTaint :=
  find_b (λ p, bool_decide (nt_key p = key) && bool_decide (nt_effect p = effect)) previously_applied.

Inductive push : Type := PushAdd | PushUpdate | PushRemove | PushUnchanged | PushConflict | PushNothing.

Definition push_to (p : NodeTaintPlan) (where_ : push) (t : NodeTaint) : NodeTaintPlan :=
  match where_ with
  | PushAdd => {| to_add := to_add p ++ [t]; to_update := to_update p; to_remove := to_remove p;
                  unchanged := unchanged p; conflicts := conflicts p |}
  | PushUpdate => {| to_add := to_add p; to_update := to_update p ++ [t]; to_remove := to_remove p;
                     unchanged := unchanged p; conflicts := conflicts p |}
  | PushRemove => {| to_add := to_add p; to_update := to_update p; to_remove := to_remove p ++ [t];
                     unchanged := unchanged p; conflicts := conflicts p |}
  | PushUnchanged => {| to_add := to_add p; to_update := to_update p; to_remove := to_remove p;
                        unchanged := unchanged p ++ [t]; conflicts := conflicts p |}
  | PushConflict => {| to_add := to_add p; to_update := to_update p; to_remove := to_remove p;
                       unchanged := unchanged p; conflicts := conflicts p ++ [t] |}
  | PushNothing => p
  end.

(** The body of the loop over [desired]. *)
Definition class_want (current : list Taint) (previously_applied : list NodeTaint) (want : NodeTaint) : push :=
  match find_current current (nt_key want) (nt_effect want) with
  | None => PushAdd
  | Some cur =>
      if decide (t_value cur = nt_value want) then PushUnchanged
      else match find_applied previously_applied (nt_key want) (nt_effect want) with
           | Some p => if decide (nt_value p = t_value cur) then PushUpdate else PushConflict
           | None => PushConflict
           end
  end.

(** The body of the loop over [previously_applied]. *)
Definition class_applied (current : list Taint) (desired : list NodeTaint) (applied : NodeTaint) : push :=
  if existsb (λ d, bool_decide (nt_key d = nt_key applied) && bool_decide (nt_effect d = nt_effect applied)) desired
  then PushNothing
  else match find_current current (nt_key applied) (nt_effect applied) with
       | None => PushNothing
       | Some cur => if decide (t_value cur = nt_value applied) then PushRemove else PushConflict
       end.

Definition diff_node_taints (current : list Taint) (desired previously_applied : list NodeTaint) : NodeTaintPlan :=
  let plan := foldl (λ p want, push_to p (class_want current previously_applied want) want) empty_plan desired in
  foldl (λ p applied, push_to p (class_applied current desired applied) applied) plan previously_applied.

(** ** Application *)

Definition matches (t : Taint) (key : string) (effect : TaintEffect) : bool :=
  bool_decide (t_key t = key) && bool_decide (t_effect t = TaintEffect_str effect).

Definition to_taint (n : NodeTaint) : Taint := {|
  t_key := nt_key n; t_value := nt_value n; t_effect := TaintEffect_str (nt_effect n); t_time_added := None |}.

Definition taint_target (plan : NodeTaintPlan) (current_taints : list Taint) : list Taint :=
  ((λ t, match find_b (λ u, matches t (nt_key u) (nt_effect u)) (to_update plan) with
         | Some update => to_taint update
         | None => t
         end) <$>
     List.filter (λ t, negb (existsb (λ r, matches t (nt_key r) (nt_effect r)) (to_remove plan))) current_taints)
  ++ (to_taint <$> to_add plan).

Definition Taint_json (t : Taint) : json :=
  JObj ([("effect", JStr (t_effect t)); ("key", JStr (t_key t))] ++
        opt_field "timeAdded" JStr (t_time_added t) ++ opt_field "value" JStr (t_value t)).

Definition owned_json (plan : NodeTaintPlan) : json :=
  JArr ((λ t, JObj [("key", JStr (nt_key t)); ("effect", JStr (TaintEffect_str (nt_effect t)))]) <$>
          to_add plan ++ to_update plan ++ unchanged plan).

Definition node_taints_of (n : Node) : list Taint := default [] (default None (n_spec_taints n)).

Section apply.
Context `{Externals}.

Definition taints_patch (plan : NodeTaintPlan) (current_taints : list Taint) : json :=
  JObj [("metadata", JObj [("annotations", JObj [(APPLIED_TAINTS_ANNOTATION, JStr (json_to_string (owned_json plan)))])]);
        ("spec", JObj [("taints", JArr (Taint_json <$> taint_target plan current_taints))])].

Definition apply_node_taints (c : client) (node_name : string) (plan : NodeTaintPlan) : M (rresult unit) :=
  if is_noop plan then Ret (Ok tt)
  else
    current_node <-? kube_ok (get_node c node_name) ;;
    let current_taints := node_taints_of current_node in
    kube_ok (patch_node c node_name (ApplyPatch NODE_TAINT_FIELD_MANAGER true (taints_patch plan current_taints))) ?;;
    Ret (Ok tt).
End apply.

(** ** Orchestration *)

Inductive NodeTaintReconcileOutcome : Type :=
| NoNodeYet
| NodeNotReady
| Applied (applied : list NodeTaint)
| Conflict (conflicts : list NodeTaint).

Definition node_is_ready (n : Node) : bool :=
  match n_status_conditions n with
  | Some (Some cs) => existsb (λ c, bool_decide (nc_type c = "Ready") && bool_decide (nc_status c = "True")) cs
  | _ => false
  end.

Section reconcile.
Context `{Externals}.

Definition reconcile_node_taints (c : client) (node_name : string) (desired previously_applied : list NodeTaint)
    : M (rresult NodeTaintReconcileOutcome) :=
  r <- get_node c node_name ;;
  match r with
  | Err e =>
      if is_api_error HTTP_NOT_FOUND e then Ret (Ok NoNodeYet) else Ret (Err (KubeError e))
  | Ok node =>
      if negb (node_is_ready node) then Ret (Ok NodeNotReady)
      else
        let plan := diff_node_taints (node_taints_of node) desired previously_applied in
        if negb (is_empty (conflicts plan)) then Ret (Ok (Conflict (conflicts plan)))
        else
          apply_node_taints c node_name plan ?;;
          Ret (Ok (Applied desired))
  end.
End reconcile.

(** ** Identity of a taint: key and effect *)

Definition tk (t : Taint) : string * string := (t_key t, t_effect t).
Definition nk (n : NodeTaint) : string * string := (nt_key n, TaintEffect_str (nt_effect n)).

Lemma TaintEffect_of_str_Some s e : TaintEffect_of_str s = Some e <-> s = TaintEffect_str e.
Proof. unfold TaintEffect_of_str. repeat case_decide; subst; destruct e; naive_solver. Qed.

Lemma TaintEffect_str_inj a b : TaintEffect_str a = TaintEffect_str b -> a = b.
Proof. by destruct a, b. Qed.

Lemma find_current_match want t :
  bool_decide (t_key t = nt_key want) && bool_decide (TaintEffect_of_str (t_effect t) = Some (nt_effect want)) = true <->
  tk t = nk want.
Proof.
  rewrite andb_true_iff, !bool_decide_eq_true, TaintEffect_of_str_Some. unfold tk, nk.
  split; [by intros [-> ->] | by intros [= -> ->]].
Qed.

Lemma find_current_Some c want t :
  find_current c (nt_key want) (nt_effect want) = Some t -> t ∈ c /\ tk t = nk want.
Proof. intros [? Hm]%find_b_Some. split; [done |]. by apply find_current_match. Qed.

Lemma find_current_None c want :
  find_current c (nt_key want) (nt_effect want) = None <-> forall t, t ∈ c -> tk t <> nk want.
Proof.
  unfold find_current. rewrite find_b_None. split; intros Hn t Ht.
  - intros E. apply find_current_match in E. rewrite Hn in E; done.
  - apply not_true_is_false. intros E. by apply find_current_match in E; eapply Hn.
Qed.

(** With unique keys, the lookup finds the taint. *)
Lemma find_current_unique c want t :
  NoDup (tk <$> c) -> t ∈ c -> tk t = nk want -> find_current c (nt_key want) (nt_effect want) = Some t.
Proof.
  intros Hnd Ht Hk. destruct (find_current c (nt_key want) (nt_effect want)) as [t' |] eqn:E.
  - apply find_current_Some in E as [Ht' Hk']. f_equal.
    apply list_elem_of_lookup in Ht as [i Hi], Ht' as [j Hj].
    assert (i = j); [| by simplify_eq].
    eapply NoDup_lookup; [exact Hnd | by rewrite list_lookup_fmap, Hi |].
    rewrite list_lookup_fmap, Hj. cbn. congruence.
  - rewrite find_current_None in E. by destruct (E t Ht).
Qed.

Lemma matches_spec t n : matches t (nt_key n) (nt_effect n) = true <-> tk t = nk n.
Proof. unfold matches, tk, nk. rewrite andb_true_iff, !bool_decide_eq_true. split; [by intros [-> ->] | by intros [= -> ->]]. Qed.

Lemma find_applied_Some l n p : find_applied l (nt_key n) (nt_effect n) = Some p -> p ∈ l /\ nk p = nk n.
Proof.
  intros [? Hm]%find_b_Some. split; [done |]. rewrite andb_true_iff, !bool_decide_eq_true in Hm.
  unfold nk. destruct Hm as [-> ->]. done.
Qed.

(** ** The plan, list by list *)

Definition push_is (a b : push) : bool :=
  match a, b with
  | PushAdd, PushAdd | PushUpdate, PushUpdate | PushRemove, PushRemove
  | PushUnchanged, PushUnchanged | PushConflict, PushConflict | PushNothing, PushNothing => true
  | _, _ => false
  end.

Definition plan_list (p : NodeTaintPlan) (b : push) : list NodeTaint :=
  match b with
  | PushAdd => to_add p | PushUpdate => to_update p | PushRemove => to_remove p
  | PushUnchanged => unchanged p | PushConflict => conflicts p | PushNothing => []
  end.

Lemma foldl_push (f : NodeTaint -> push) l p b :
  b <> PushNothing ->
  plan_list (foldl (λ p t, push_to p (f t) t) p l) b = plan_list p b ++ List.filter (λ t, push_is b (f t)) l.
Proof.
  intros Hb. revert p. induction l as [| t l IH]; intros p; cbn [foldl List.filter]; [by rewrite app_nil_r |].
  rewrite IH. destruct (f t), b; cbn; rewrite <- ?app_assoc; done.
Qed.

Lemma push_is_true a b : push_is a b = true <-> a = b.
Proof. by destruct a, b. Qed.

Lemma elem_of_filter_push (f : NodeTaint -> push) l b t :
  t ∈ List.filter (λ t, push_is b (f t)) l <-> t ∈ l /\ f t = b.
Proof. rewrite !list_elem_of_In, List.filter_In, push_is_true. naive_solver. Qed.

Section plan.
Context (current : list Taint) (desired prev : list NodeTaint).
Notation plan := (diff_node_taints current desired prev).

Lemma plan_lists b :
  b <> PushNothing ->
  plan_list plan b = List.filter (λ t, push_is b (class_want current prev t)) desired ++
                     List.filter (λ t, push_is b (class_applied current desired t)) prev.
Proof. intros Hb. unfold diff_node_taints. rewrite !foldl_push by done. by destruct b. Qed.

Lemma class_applied_cases t :
  class_applied current desired t = PushNothing \/ class_applied current desired t = PushRemove \/
  class_applied current desired t = PushConflict.
Proof. unfold class_applied. repeat case_match; auto. Qed.
Lemma class_want_cases t :
  class_want current prev t = PushAdd \/ class_want current prev t = PushUpdate \/
  class_want current prev t = PushUnchanged \/ class_want current prev t = PushConflict.
Proof. unfold class_want. repeat case_match; auto. Qed.

Lemma elem_of_plan b t :
  b <> PushNothing ->
  t ∈ plan_list plan b <-> t ∈ desired /\ class_want current prev t = b \/
                           t ∈ prev /\ class_applied current desired t = b.
Proof. intros Hb. rewrite plan_lists, elem_of_app, !elem_of_filter_push by done. done. Qed.

Lemma elem_of_want b t :
  b = PushAdd \/ b = PushUpdate \/ b = PushUnchanged ->
  t ∈ plan_list plan b <-> t ∈ desired /\ class_want current prev t = b.
Proof.
  intros Hb. rewrite elem_of_plan by (by intros ->; destruct Hb as [| []]).
  split; [| by left]. intros [? | [_ Hc]]; [done |].
  destruct (class_applied_cases t) as [E | [E | E]]; rewrite E in Hc; subst b; by destruct Hb as [| []].
Qed.

Lemma elem_of_remove t :
  t ∈ to_remove plan <-> t ∈ prev /\ (forall d, d ∈ desired -> nk d <> nk t) /\
    exists cur, find_current current (nt_key t) (nt_effect t) = Some cur /\ t_value cur = nt_value t.
Proof.
  rewrite (elem_of_plan PushRemove) by done. split.
  - intros [[_ Hc] | [Ht Hc]].
    { by destruct (class_want_cases t) as [E | [E | [E | E]]]; rewrite E in Hc. }
    split; [done |]. unfold class_applied in Hc. destruct (existsb _ desired) eqn:He; [done |].
    split.
    + intros d Hd Hk. rewrite <- not_true_iff_false, List.existsb_exists in He. apply He.
      exists d. split; [by apply list_elem_of_In |]. rewrite andb_true_iff, !bool_decide_eq_true.
      unfold nk in Hk. simplify_eq. split; [done |]. by apply TaintEffect_str_inj.
    + destruct (find_current _ _ _) as [cur |]; [| done]. case_decide; [eauto | done].
  - intros (Ht & Hd & cur & Hf & Hv). right. split; [done |]. unfold class_applied.
    replace (existsb _ desired) with false; [by rewrite Hf, decide_True |].
    symmetry. apply not_true_iff_false. intros He. apply List.existsb_exists in He as (d & Hin & He).
    rewrite andb_true_iff, !bool_decide_eq_true in He. destruct He as [He1 He2].
    apply (Hd d); [by apply list_elem_of_In |]. unfold nk. by rewrite He1, He2.
Qed.
End plan.

(** ** The applied list *)

(** Uniqueness within one list of desired taints. *)
Lemma nk_unique l a b : NoDup (nk <$> l) -> a ∈ l -> b ∈ l -> nk a = nk b -> a = b.
Proof.
  intros Hnd [i Hi]%list_elem_of_lookup [j Hj]%list_elem_of_lookup Hk.
  assert (i = j); [| by simplify_eq].
  eapply NoDup_lookup; [exact Hnd | by rewrite list_lookup_fmap, Hi |].
  rewrite list_lookup_fmap, Hj. cbn. congruence.
Qed.

Definition updated (plan : NodeTaintPlan) (t : Taint) : Taint :=
  match find_b (λ u, matches t (nt_key u) (nt_effect u)) (to_update plan) with
  | Some update => to_taint update
  | None => t
  end.
Definition removed (plan : NodeTaintPlan) (t : Taint) : bool :=
  existsb (λ r, matches t (nt_key r) (nt_effect r)) (to_remove plan).

Lemma elem_of_target plan c x :
  x ∈ taint_target plan c <->
  (exists t, t ∈ c /\ removed plan t = false /\ x = updated plan t) \/
  exists n, n ∈ to_add plan /\ x = to_taint n.
Proof.
  unfold taint_target. rewrite elem_of_app, !list_elem_of_fmap.
  split; (intros [(t & -> & Ht) | (n & -> & Hn)]; [left; exists t | right; eauto]) ||
         (intros [(t & Ht & Hr & ->) | (n & Hn & ->)]; [left; exists t | right; eauto]).
  - apply list_elem_of_In, List.filter_In in Ht as [Ht Hr]. rewrite negb_true_iff in Hr.
    split_and!; [by apply list_elem_of_In | done | done].
  - split; [done |]. apply list_elem_of_In, List.filter_In.
    split; [by apply list_elem_of_In | by rewrite negb_true_iff].
Qed.

Lemma removed_spec plan t : removed plan t = true <-> exists r, r ∈ to_remove plan /\ tk t = nk r.
Proof.
  unfold removed. rewrite List.existsb_exists. setoid_rewrite matches_spec.
  by setoid_rewrite list_elem_of_In.
Qed.

Lemma updated_spec plan t :
  (exists u, u ∈ to_update plan /\ tk t = nk u /\ updated plan t = to_taint u) \/
  ((forall u, u ∈ to_update plan -> tk t <> nk u) /\ updated plan t = t).
Proof.
  unfold updated. destruct (find_b _ _) as [u |] eqn:E.
  - apply find_b_Some in E as [Hu Hm]. left. exists u. by apply matches_spec in Hm.
  - right. split; [| done]. intros u Hu Hk. rewrite find_b_None in E.
    apply matches_spec in Hk. rewrite E in Hk; done.
Qed.

Lemma tk_to_taint n : tk (to_taint n) = nk n.
Proof. done. Qed.
Lemma tk_updated plan t : tk (updated plan t) = tk t.
Proof. by destruct (updated_spec plan t) as [(u & _ & -> & ->) | [_ ->]]. Qed.

Section target.
Context (current : list Taint) (desired prev : list NodeTaint).
Context (Hcur : NoDup (tk <$> current)) (Hdes : NoDup (nk <$> desired)).
Notation plan := (diff_node_taints current desired prev).
Context (Hnc : conflicts plan = []).
Notation target := (taint_target plan current).

Lemma want_not_conflict d : d ∈ desired -> class_want current prev d <> PushConflict.
Proof using Hnc.
  intros Hd Hc. assert (d ∈ conflicts plan) as Hin; [| by rewrite Hnc in Hin; apply elem_of_nil in Hin].
  apply (elem_of_plan current desired prev PushConflict); [done |]. by left.
Qed.

Lemma desired_not_removed d t : d ∈ desired -> tk t = nk d -> removed plan t = false.
Proof.
  intros Hd Hk. apply not_true_iff_false. intros (r & Hr & Hk')%removed_spec.
  apply elem_of_remove in Hr as (_ & Hnd & _). apply (Hnd d Hd). congruence.
Qed.

(** Every desired taint is present with its value. *)
Lemma desired_in_target d : d ∈ desired -> exists t, t ∈ target /\ tk t = nk d /\ t_value t = nt_value d.
Proof using Hcur Hdes Hnc.
  intros Hd. pose proof (want_not_conflict d Hd) as Hncf.
  assert (Hup : class_want current prev d = PushUpdate <-> d ∈ to_update plan).
  { rewrite (elem_of_want current desired prev PushUpdate) by auto. tauto. }
  unfold class_want in Hncf, Hup.
  destruct (find_current current (nt_key d) (nt_effect d)) as [cur |] eqn:Hf.
  - apply find_current_Some in Hf as [Hin Hk].
    exists (updated plan cur). rewrite tk_updated. split_and!; [| done |].
    { apply elem_of_target. left. exists cur. split_and!; [done | by eapply desired_not_removed | done]. }
    destruct (updated_spec plan cur) as [(u & Hu & Hku & ->) | [Hnu ->]].
    + assert (u = d) as ->; [| done]. pose proof Hu as Hu'.
      apply (elem_of_want current desired prev PushUpdate) in Hu as [Hu _]; [| by auto].
      eapply nk_unique; [exact Hdes | done | done | congruence].
    + case_decide as Hv; [done |]. exfalso.
      assert (d ∈ to_update plan); [| by eapply Hnu].
      apply Hup. destruct (find_applied prev _ _); [| done]. by case_decide.
  - exists (to_taint d). split_and!; [| done | done]. apply elem_of_target. right. exists d.
    split; [| done]. apply (elem_of_want current desired prev PushAdd); [by auto |].
    split; [done |]. unfold class_want. by rewrite Hf.
Qed.

(** A taint the controller applied and that is no longer desired is gone. *)
Lemma stale_not_in_target a :
  a ∈ prev -> (forall d, d ∈ desired -> nk d <> nk a) -> forall t, t ∈ target -> tk t <> nk a.
Proof using Hcur Hnc.
  intros Ha Hnd t Ht Hk. apply elem_of_target in Ht as [(t0 & Ht0 & Hr & ->) | (n & Hn & ->)].
  - rewrite tk_updated in Hk. apply not_true_iff_false in Hr. apply Hr, removed_spec.
    exists a. split; [| done]. apply elem_of_remove. split_and!; [done | done |].
    pose proof (find_current_unique current a t0 Hcur Ht0 Hk) as Hf. exists t0. split; [done |].
    destruct (decide (t_value t0 = nt_value a)) as [| Hv]; [done | exfalso].
    assert (a ∈ conflicts plan) as Hin; [| by rewrite Hnc in Hin; apply elem_of_nil in Hin].
    apply (elem_of_plan current desired prev PushConflict); [done |]. right. split; [done |].
    unfold class_applied. replace (existsb _ desired) with false; [by rewrite Hf, decide_False |].
    symmetry. apply not_true_iff_false. intros He. apply List.existsb_exists in He as (d & Hin & He).
    rewrite andb_true_iff, !bool_decide_eq_true in He. destruct He as [He1 He2].
    apply (Hnd d); [by apply list_elem_of_In |]. unfold nk. by rewrite He1, He2.
  - apply (elem_of_want current desired prev PushAdd) in Hn as [Hn _]; [| by auto]. by apply (Hnd n).
Qed.

Lemma target_keys_unique : NoDup (tk <$> target).
Proof using Hcur Hdes.
  unfold taint_target. rewrite fmap_app, NoDup_app. split_and!.
  - rewrite <- list_fmap_compose.
    assert (He : forall l : list Taint, (tk ∘ updated plan) <$> l = tk <$> l).
    { intros l. apply list_fmap_ext. intros i t _. apply tk_updated. }
    change (NoDup ((tk ∘ updated plan) <$> List.filter (λ t, negb (removed plan t)) current)).
    rewrite He. by apply NoDup_fmap_lfilter.
  - intros k Hk Hk'. rewrite list_elem_of_fmap in Hk. destruct Hk as (x & -> & Hx).
    apply list_elem_of_fmap in Hx as (t & -> & Ht). change (tk _) with (tk (updated plan t)) in Hk'.
    rewrite tk_updated in Hk'. apply list_elem_of_fmap in Hk' as (x & Hk & Hx).
    apply list_elem_of_fmap in Hx as (n & -> & Hn). rewrite tk_to_taint in Hk.
    apply (elem_of_want current desired prev PushAdd) in Hn as [_ Hn]; [| by auto].
    unfold class_want in Hn. destruct (find_current current (nt_key n) (nt_effect n)) eqn:Hf;
      [repeat case_match; done |].
    rewrite find_current_None in Hf. apply list_elem_of_In, List.filter_In in Ht as [Ht _].
    by eapply (Hf t); [apply list_elem_of_In |].
  - rewrite <- list_fmap_compose. change (NoDup (nk <$> to_add plan)).
    change (to_add plan) with (plan_list plan PushAdd). rewrite plan_lists by done.
    replace (List.filter (λ t, push_is PushAdd (class_applied current desired t)) prev) with (@nil NodeTaint).
    + rewrite app_nil_r. by apply NoDup_fmap_lfilter.
    + clear. induction prev as [| t l IH]; [done |]. cbn [List.filter].
      destruct (class_applied_cases current desired t) as [-> | [-> | ->]]; exact IH.
Qed.
End target.

(** ** Properties *)

(** Convergence: when the plan has no conflict and taints are identified by
    key and effect, the list written to the node carries every desired taint
    with its value, none that was applied earlier and is no longer desired, and
    a second pass over that list is a no-op without conflict. *)
Theorem node_taints_converge current desired prev :
  NoDup (tk <$> current) -> NoDup (nk <$> desired) ->
  conflicts (diff_node_taints current desired prev) = [] ->
  let target := taint_target (diff_node_taints current desired prev) current in
  (forall d, d ∈ desired -> exists t, t ∈ target /\ tk t = nk d /\ t_value t = nt_value d) /\
  (forall a, a ∈ prev -> (forall d, d ∈ desired -> nk d <> nk a) -> forall t, t ∈ target -> tk t <> nk a) /\
  is_noop (diff_node_taints target desired desired) = true /\
  conflicts (diff_node_taints target desired desired) = [].
Proof.
  intros Hcur Hdes Hnc target.
  assert (Hw : forall d, d ∈ desired -> class_want target desired d = PushUnchanged).
  { intros d Hd. destruct (desired_in_target current desired prev Hcur Hdes Hnc d Hd) as (t & Ht & Hk & Hv).
    unfold class_want. rewrite (find_current_unique target d t); [| | done | done].
    - by rewrite decide_True.
    - by apply target_keys_unique. }
  assert (Ha : forall d, d ∈ desired -> class_applied target desired d = PushNothing).
  { intros d Hd. unfold class_applied. replace (existsb _ desired) with true; [done |]. symmetry.
    apply List.existsb_exists. exists d. split; [by apply list_elem_of_In |]. by rewrite !bool_decide_true. }
  assert (Hl : forall b, b <> PushNothing -> b <> PushUnchanged -> plan_list (diff_node_taints target desired desired) b = []).
  { intros b Hb Hb'. apply elem_of_nil_inv. intros x Hx.
    apply elem_of_plan in Hx as [[Hd Hx] | [Hd Hx]]; [| | done].
    - rewrite Hw in Hx; [congruence | done].
    - rewrite Ha in Hx; [congruence | done]. }
  split_and!.
  - by apply desired_in_target.
  - by apply stale_not_in_target.
  - unfold is_noop. change (to_add ?p) with (plan_list p PushAdd).
    change (to_update ?p) with (plan_list p PushUpdate). change (to_remove ?p) with (plan_list p PushRemove).
    by rewrite !Hl.
  - by apply (Hl PushConflict).
Qed.

(** The controller never touches what it does not own: a taint of any
    later reading of the node survives unchanged unless its key and effect are
    those of a taint the controller itself had applied at the value it saw
    (removed when no longer desired, or updated to the desired value); and
    every taint it writes is one of these or a desired one. *)
Theorem node_taints_ownership current desired prev later t :
  let plan := diff_node_taints current desired prev in
  (t ∈ later ->
     t ∈ taint_target plan later \/
     exists p cur, p ∈ prev /\ nk p = tk t /\ cur ∈ current /\ tk cur = nk p /\ t_value cur = nt_value p) /\
  (t ∈ taint_target plan later -> t ∈ later \/ exists d, d ∈ desired /\ t = to_taint d).
Proof.
  intros plan. split.
  - intros Ht. destruct (removed plan t) eqn:Hr.
    + right. apply removed_spec in Hr as (r & Hr & Hk). apply elem_of_remove in Hr as (Hin & _ & cur & Hf & Hv).
      apply find_current_Some in Hf as [Hc Hk']. exists r, cur. by rewrite Hk.
    + destruct (updated_spec plan t) as [(u & Hu & Hk & He) | [_ He]].
      * right. apply (elem_of_want current desired prev PushUpdate) in Hu as [_ Hc]; [| by auto].
        unfold class_want in Hc.
        destruct (find_current current (nt_key u) (nt_effect u)) as [cur |] eqn:Hf; [| done].
        case_decide; [done |]. destruct (find_applied prev (nt_key u) (nt_effect u)) as [p |] eqn:Hp; [| done].
        case_decide as Hv; [| done]. apply find_current_Some in Hf as [Hin Hkc].
        apply find_applied_Some in Hp as [Hpin Hkp]. exists p, cur. split_and!; congruence.
      * left. apply elem_of_target. left. by exists t.
  - intros Ht. apply elem_of_target in Ht as [(t0 & Ht0 & _ & ->) | (n & Hn & ->)].
    + destruct (updated_spec plan t0) as [(u & Hu & _ & ->) | [_ ->]]; [| by left].
      right. exists u. apply (elem_of_want current desired prev PushUpdate) in Hu as [? _]; by auto.
    + right. exists n. apply (elem_of_want current desired prev PushAdd) in Hn as [? _]; by auto.
Qed.

(** C28: the three-way diff of node taints.  When the taints of the node, and the
    desired ones, are each unique by key and effect (the API server rejects other
    nodes; nothing in the controller rejects duplicate desired taints) and there
    is no conflict, the list written carries every desired taint with its value,
    none that was applied and is no longer desired, and a second pass over it is
    a no-op.  Whatever the lists are, with or without conflicts, the plan applied
    to any later reading of the node keeps every taint but those the controller
    had applied at the value it saw, and adds none that is not desired. *)
Theorem node_taints_contract current desired prev :
  let plan := diff_node_taints current desired prev in
  (NoDup (tk <$> current) -> NoDup (nk <$> desired) -> conflicts plan = [] ->
     let target := taint_target plan current in
     (forall d, d ∈ desired -> exists t, t ∈ target /\ tk t = nk d /\ t_value t = nt_value d) /\
     (forall a, a ∈ prev -> (forall d, d ∈ desired -> nk d <> nk a) -> forall t, t ∈ target -> tk t <> nk a) /\
     is_noop (diff_node_taints target desired desired) = true /\
     conflicts (diff_node_taints target desired desired) = []) /\
  (forall later t,
     (t ∈ later -> t ∈ taint_target plan later \/
        exists p cur, p ∈ prev /\ nk p = tk t /\ cur ∈ current /\ tk cur = nk p /\ t_value cur = nt_value p) /\
     (t ∈ taint_target plan later -> t ∈ later \/ exists d, d ∈ desired /\ t = to_taint d)).
Proof. split; [by apply node_taints_converge | intros later t; apply node_taints_ownership]. Qed.

Definition admin_taint : Taint := {| t_key := "admin/x"; t_value := None; t_effect := "NoExecute"; t_time_added := None |}.
Definition spot_taint : NodeTaint := {| nt_key := "spot"; nt_value := Some "true"; nt_effect := NoSchedule |}.

Lemma node_taints_contract_witness :
  NoDup (tk <$> [admin_taint]) /\ NoDup (nk <$> [spot_taint]) /\
  conflicts (diff_node_taints [admin_taint] [spot_taint] []) = [] /\
  is_noop (diff_node_taints (taint_target (diff_node_taints [admin_taint] [spot_taint] []) [admin_taint])
             [spot_taint] [spot_taint]) = true.
Proof.
  assert (H1 : NoDup (tk <$> [admin_taint])) by apply NoDup_singleton.
  assert (H2 : NoDup (nk <$> [spot_taint])) by apply NoDup_singleton.
  split; [exact H1 |]. split; [exact H2 |]. split; [reflexivity |].
  exact (proj1 (proj2 (proj2 (proj1 (node_taints_contract [admin_taint] [spot_taint] []) H1 H2 eq_refl)))).
Defined.

(** Orchestration: on every run the only writes are server-side applies of
    the computed list to the same node through the given client, none when the
    node is absent, not Ready or in conflict; and the outcome says which. *)
Theorem reconcile_node_taints_outcome `{Externals} c n desired prev :
  wp (reconcile_node_taints c n desired prev) (λ t r,
    exists (g : result Node kube_error) rest, t = Ev (GetNode c n) g :: rest /\
    match g with
    | Err e => rest = [] /\ r = (if is_api_error HTTP_NOT_FOUND e then Ok NoNodeYet else Err (KubeError e))
    | Ok node =>
        let plan := diff_node_taints (node_taints_of node) desired prev in
        if negb (node_is_ready node) then rest = [] /\ r = Ok NodeNotReady
        else if negb (is_empty (conflicts plan)) then rest = [] /\ r = Ok (Conflict (conflicts plan))
        else if is_noop plan then rest = [] /\ r = Ok (Applied desired)
        else exists g' : result Node kube_error,
          match g' with
          | Err e => rest = [Ev (GetNode c n) g'] /\ r = Err (KubeError e)
          | Ok node' => exists p : result unit kube_error,
              rest = [Ev (GetNode c n) g';
                      Ev (PatchNode c n (ApplyPatch NODE_TAINT_FIELD_MANAGER true (taints_patch plan (node_taints_of node')))) p] /\
              r = match p with Ok _ => Ok (Applied desired) | Err e => Err (KubeError e) end
          end
    end).
Proof.
  unfold reconcile_node_taints. pstep as g. destruct g as [node | e].
  - prog_hnf. destruct (negb (node_is_ready node)) eqn:Hr.
    { pret. exists (Ok node). eexists. split; [reflexivity |]. cbv zeta. by rewrite Hr. }
    destruct (negb (is_empty (conflicts _))) eqn:Hc.
    { pret. exists (Ok node). eexists. split; [reflexivity |]. cbv zeta. by rewrite Hr, Hc. }
    unfold apply_node_taints. destruct (is_noop _) eqn:Hn.
    { pret. exists (Ok node). eexists. split; [reflexivity |]. cbv zeta. by rewrite Hr, Hc, Hn. }
    pstep as g'. destruct g' as [node' | e]; [pstep as p; destruct p as [u | e] |];
      pret; exists (Ok node); eexists; (split; [reflexivity |]); cbv zeta; rewrite Hr, Hc, Hn.
    + exists (Ok node'), (Ok u). done.
    + exists (Ok node'), (Err e). done.
    + exists (Err e). done.
  - prog_hnf. destruct (is_api_error HTTP_NOT_FOUND e) eqn:He; pret; exists (Err e); eexists;
      (split; [reflexivity |]); cbv beta iota; by rewrite He.
Qed.

(** Why [node_taints_contract] asks for desired taints that are unique: with two
    of one key and effect, the pass after the first is no no-op, and the one
    after that finds a conflict, in taints nobody else has touched. *)
Theorem duplicate_taints_never_settle :
  let desired := [spot_taint; {| nt_key := "spot"; nt_value := Some "false"; nt_effect := NoSchedule |}] in
  let pass prev current := taint_target (diff_node_taints current desired prev) current in
  let first := pass [] [admin_taint] in
  let second := pass desired first in
  conflicts (diff_node_taints [admin_taint] desired []) = [] /\
  is_noop (diff_node_taints first desired desired) = false /\ conflicts (diff_node_taints first desired desired) = [] /\
  conflicts (diff_node_taints second desired desired) = [spot_taint].
Proof. by vm_compute. Qed.
