(* ===== verification/ChildClient.v ===== *)
(** Child-cluster clients ([src/reconcilers/child_client.rs]): the resolution
    order, the bounded cache, and the interface the reconciler's other
    components rely on ([ChildResolver]).

    The cache only ever holds clients built from a kubeconfig, so its entries
    are [child_config]s.  The accesses made under its lock are calls of the
    resolver; the functions [cache_lookup] and [cache_insert] are what those
    critical sections do. *)

From S2P Require Import Prelude RustStr Effects Constants Json Crd Externals KubeApi Samples Metrics.

(** ** Resolved clients *)

Inductive ResolvedClient : Type :=
| Management (c : client)
| Child (c : child_config) (key : CacheKey) (resource_version : string).

Module ResolvedClient.
Definition client (r : ResolvedClient) : client :=
  match r with Management c => c | Child c _ _ => ConfigClient c end.
Definition into_client (r : ResolvedClient) : KubeApi.client :=
  match r with Management c => c | Child c _ _ => ConfigClient c end.
Definition is_child (r : ResolvedClient) : bool :=
  match r with Child _ _ _ => true | Management _ => false end.
End ResolvedClient.

(** ** The interface *)

Definition DEFAULT_KUBECONFIG_SECRET_KEY : string := "value".

(** The Secret whose kubeconfig a machine is given, and the data key it names
    in it. *)
Definition designated (sm : ScheduledMachine) : option (CacheKey * string) :=
  ns ← Crd.namespace sm;
  Some match kubeconfig_secret_ref (spec sm) with
       | Some r => ({| ck_namespace := ns; ck_secret_name := ksr_name r |}, ksr_key r)
       | None => ({| ck_namespace := ns; ck_secret_name := cluster_name (spec sm) +:+ "-kubeconfig" |},
                  DEFAULT_KUBECONFIG_SECRET_KEY)
       end.
Definition own_secret (sm : ScheduledMachine) (k : CacheKey) : Prop := fst <$> designated sm = Some k.

(** The calls a resolution for [sm] makes: it reads the Secret the machine
    designates, in its own namespace on the management cluster, and the cache
    entry of that Secret. *)
Definition resolver_call (sm : ScheduledMachine) (call : call_t) : Prop :=
  match call with
  | GetSecret c ns n => c = MgmtClient /\ own_secret sm {| ck_namespace := ns; ck_secret_name := n |}
  | CacheLookup k _ | CacheInsert k _ _ | HookResolved k _ => own_secret sm k
  | HookEvicted _ => True
  | MetricOp op => metric_op_ok op
  | _ => False
  end.

Class ChildResolver : Type := resolve : ScheduledMachine -> M (rresult ResolvedClient).

Class ResolverLaws (R : ChildResolver) : Prop := {
  resolve_calls : forall sm, calls (resolver_call sm) (resolve sm);
  (** The answer is the management client or a child built from a kubeconfig. *)
  resolve_sound : forall sm, returns (λ r, match r with
    | Ok (Management c) => c = MgmtClient /\ kubeconfig_secret_ref (spec sm) = None
    | _ => True end) (resolve sm);
}.

(** ** The cache *)

Record CachedEntry : Type := {
  ce_client : child_config;
  ce_resource_version : string;
  ce_last_used : Z;
}.
Notation cache := (gmap CacheKey CachedEntry).

Definition touch (now : Z) (e : CachedEntry) : CachedEntry :=
  {| ce_client := ce_client e; ce_resource_version := ce_resource_version e; ce_last_used := now |}.

(** The first critical section: a hit needs the same resource version. *)
Definition cache_lookup (now : Z) (key : CacheKey) (rv : string) (m : cache) : cache * option child_config :=
  match m !! key with
  | Some entry =>
      if bool_decide (ce_resource_version entry = rv) then (<[key := touch now entry]> m, Some (ce_client entry))
      else (m, None)
  | None => (m, None)
  end.

(** [iter().min_by_key(|(_, e)| e.last_used)]: the first minimum in the order
    of the iteration, which a [HashMap] does not specify. *)
Fixpoint min_by_last_used (iter : list (CacheKey * CachedEntry)) : option (CacheKey * CachedEntry) :=
  match iter with
  | [] => None
  | x :: rest =>
      match min_by_last_used rest with
      | None => Some x
      | Some y => if bool_decide (ce_last_used x.2 <= ce_last_used y.2)%Z then Some x else Some y
      end
  end.

(** The second critical section: whether the key was present, and the key
    evicted to make room. *)
Definition cache_insert (iter : list (CacheKey * CachedEntry)) (now : Z) (key : CacheKey) (c : child_config)
    (rv : string) (m : cache) : cache * (bool * option CacheKey) :=
  let '(m, evicted_other) :=
    if bool_decide (CHILD_CLIENT_CACHE_CAP <= size m) && bool_decide (m !! key = None) then
      match fst <$> min_by_last_used iter with
      | Some k => (delete k m, Some k)
      | None => (m, None)
      end
    else (m, None) in
  let previous := m !! key in
  (<[key := {| ce_client := c; ce_resource_version := rv; ce_last_used := now |}]> m,
   (bool_decide (is_Some previous), evicted_other)).

Definition peek (now : Z) (key : CacheKey) (m : cache) : cache * option child_config :=
  match m !! key with
  | Some e => (<[key := touch now e]> m, Some (ce_client e))
  | None => (m, None)
  end.

Definition cache_len (m : cache) : nat := size m.
Definition cache_is_empty (m : cache) : bool := bool_decide (cache_len m = 0).

(** [evict], with whether the hook fires. *)
Definition evict (key : CacheKey) (m : cache) : cache * bool := (delete key m, bool_decide (is_Some (m !! key))).

(** ** Resolution *)

Section resolver.
Context `{Externals}.

Definition invalid_kubeconfig (ns name reason : string) : ReconcilerError := KubeconfigInvalid ns name reason.

(** The [Config] of a kubeconfig, with the wire timeouts set on it. *)
Definition build_child (ns name yaml : string) : rresult child_config :=
  match utf8_error yaml with
  | Some e => Err (invalid_kubeconfig ns name ("kubeconfig data is not valid UTF-8: " +:+ e))
  | None =>
  match kubeconfig_yaml_error yaml with
  | Some e => Err (invalid_kubeconfig ns name ("YAML parse failed: " +:+ e))
  | None =>
  match kubeconfig_config_error yaml with
  | Some e => Err (invalid_kubeconfig ns name ("kubeconfig is not usable to build a Config: " +:+ e))
  | None =>
  let config := {| cfg_kubeconfig := yaml; cfg_read_timeout := Some K8S_API_TIMEOUT_SECS;
                   cfg_write_timeout := Some K8S_API_TIMEOUT_SECS |} in
  match kubeconfig_client_error yaml with
  | Some e => Err (invalid_kubeconfig ns name ("could not build kube::Client: " +:+ e))
  | None => Ok config
  end end end end.

Definition build_or_get_cached (mgmt_client : client) (namespace secret_name key : string) (explicit : bool)
    : M (rresult ResolvedClient) :=
  s <- get_secret mgmt_client namespace secret_name ;;
  match s with
  | Err e =>
      if is_api_error HTTP_NOT_FOUND e then
        if explicit then
          Ret (Err (ChildClusterUnreachable namespace secret_name
            ("explicit kubeconfigSecretRef points at Secret " +:+ namespace +:+ "/" +:+ secret_name +:+ " which does not exist")))
        else Ret (Err (NotFound (namespace +:+ "/" +:+ secret_name)))
      else if explicit then
        Ret (Err (ChildClusterUnreachable namespace secret_name ("GET Secret failed: " +:+ kube_error_display e)))
      else Ret (Err (KubeError e))
  | Ok secret =>
      let rv := opt_string (s_resource_version secret) in
      let cache_key := {| ck_namespace := namespace; ck_secret_name := secret_name |} in
      hit <- call_cache_lookup cache_key rv ;;
      match hit with
      | Some c => Ret (Ok (Child c cache_key rv))
      | None =>
          raw <-? lift (ok_or (s_data secret ≫= lookup key) (KubeconfigSecretMissingKey namespace secret_name key)) ;;
          child <-? lift (build_child namespace secret_name raw) ;;
          ins <- call_cache_insert cache_key child rv ;;
          let '(replaced_same_key, evicted_other) := ins in
          match evicted_other with Some ev => on_child_evicted ev | None => Ret tt end ;;;
          (if replaced_same_key : bool then on_child_evicted cache_key else Ret tt) ;;;
          on_child_resolved cache_key child ;;;
          Ret (Ok (Child child cache_key rv))
      end
  end.

Definition record_error_label (err : ReconcilerError) : M unit :=
  record_child_kubeconfig_error
    match err with
    | KubeconfigSecretMissingKey _ _ _ => "secret_missing_key"
    | KubeconfigInvalid _ _ _ => "invalid_yaml"
    | ChildClusterUnreachable _ _ _ => "unreachable"
    | KubeError _ => "non_404_kube_error"
    | _ => "unreachable"
    end.

Definition record_for_resolved (resolved : ResolvedClient) (path : string) : M unit :=
  record_child_kubeconfig_resolution match resolved with Management _ => "management" | Child _ _ _ => path end.

Definition record_for_outcome (r : rresult ResolvedClient) (path : string) : M unit :=
  match r with
  | Ok r => record_for_resolved r path
  | Err e => record_child_kubeconfig_resolution "error" ;;; record_error_label e
  end.

(** [ChildClientCache::resolve]. *)
Definition cache_resolve (mgmt_client : client) (sm : ScheduledMachine) : M (rresult ResolvedClient) :=
  namespace <-? lift (ok_or (Crd.namespace sm)
    (InvalidConfig "ScheduledMachine must be namespaced for kubeconfig resolution")) ;;
  match kubeconfig_secret_ref (spec sm) with
  | Some r =>
      result <- build_or_get_cached mgmt_client namespace (ksr_name r) (ksr_key r) true ;;
      record_for_outcome result "child_explicit" ;;;
      Ret result
  | None =>
      let auto_name := cluster_name (spec sm) +:+ "-kubeconfig" in
      result <- build_or_get_cached mgmt_client namespace auto_name DEFAULT_KUBECONFIG_SECRET_KEY false ;;
      match result with
      | Ok r => record_for_resolved r "child_auto" ;;; Ret (Ok r)
      | Err (NotFound _) =>
          record_child_kubeconfig_resolution "management" ;;; Ret (Ok (Management mgmt_client))
      | Err e =>
          record_child_kubeconfig_resolution "error" ;;; record_error_label e ;;; Ret (Err e)
      end
  end.

(** The controller resolves with its management client. *)
#[global] Instance cache_resolver : ChildResolver := cache_resolve MgmtClient.
End resolver.

(** ** The implementation meets the interface *)

Section laws.
Context `{Externals}.

Lemma metric_resolver sm call : metric_call call -> resolver_call sm call.
Proof. by destruct call. Qed.

Lemma record_calls sm m l :
  List.length l = List.length (m_labels m) -> m_kind m <> HistogramM -> calls (resolver_call sm) (inc m l).
Proof. intros. eapply calls_mono; [apply metric_resolver | by apply metric_call_inc]. Qed.

Lemma record_error_label_calls sm e : calls (resolver_call sm) (record_error_label e).
Proof. unfold record_error_label, record_child_kubeconfig_error. by apply record_calls. Qed.

Lemma record_resolution_calls sm l : calls (resolver_call sm) (record_child_kubeconfig_resolution l).
Proof. by apply record_calls. Qed.

Lemma build_or_get_cached_calls sm ns name key explicit :
  own_secret sm {| ck_namespace := ns; ck_secret_name := name |} ->
  calls (resolver_call sm) (build_or_get_cached MgmtClient ns name key explicit).
Proof.
  intros Hns. unfold build_or_get_cached. pstep as s; [by split |]. destruct s as [s | e].
  - pstep as hit; [exact Hns |]. destruct hit; [done |].
    apply calls_bind_lift; intros raw _. apply calls_bind_lift; intros child _.
    pstep as ins; [exact Hns |]. destruct ins as [[] [ev |]]; repeat (pstep as ?; [done || exact Hns |]); done.
  - prog_hnf. destruct (is_api_error _ e), explicit; done.
Qed.

Lemma cache_resolve_calls sm : calls (resolver_call sm) (cache_resolve MgmtClient sm).
Proof.
  unfold cache_resolve. apply calls_bind_lift; intros ns Hns. apply ok_or_Ok in Hns.
  destruct (kubeconfig_secret_ref (spec sm)) as [r |] eqn:Hr.
  - apply calls_bind; [apply build_or_get_cached_calls; unfold own_secret, designated; by rewrite Hns, Hr |]. intros [rc | e]; cbn [record_for_outcome].
    + apply calls_bind; [apply record_resolution_calls | done].
    + apply calls_bind; [apply calls_bind; [apply record_resolution_calls |] | done].
      intros _. apply record_error_label_calls.
  - apply calls_bind; [apply build_or_get_cached_calls; unfold own_secret, designated; by rewrite Hns, Hr |].
    assert (Hm : forall l (x : rresult ResolvedClient), calls (resolver_call sm)
      (record_child_kubeconfig_resolution l ;;; Ret x)).
    { intros. apply calls_bind; [apply record_resolution_calls | done]. }
    assert (He : forall e (x : rresult ResolvedClient), calls (resolver_call sm)
      (record_child_kubeconfig_resolution "error" ;;; record_error_label e ;;; Ret x)).
    { intros. apply calls_bind; [apply record_resolution_calls |]. intros _.
      apply calls_bind; [apply record_error_label_calls | done]. }
    intros [rc | e]; [apply Hm |]. destruct e; first [apply Hm | apply He].
Qed.

(** A [NotFound] answer means the Secret was looked up and is absent. *)
Lemma build_or_get_cached_not_found c ns name key explicit :
  wp (build_or_get_cached c ns name key explicit) (λ t r,
    match r with
    | Ok (Management _) => False
    | Err (NotFound _) => explicit = false /\
        exists e, t = [Ev (GetSecret c ns name) (Err e)] /\ is_api_error HTTP_NOT_FOUND e = true
    | _ => True
    end).
Proof.
  unfold build_or_get_cached. pstep as s. destruct s as [s | e].
  - pstep as hit. destruct hit; [by pret |]. prog_hnf.
    destruct (s_data s ≫= lookup key) as [raw |]; cbn [ok_or]; [| by pret]. prog_hnf.
    destruct (build_child ns name raw) as [child | e] eqn:Hb.
    + pstep as ins. destruct ins as [[] [ev |]]; repeat pstep as ?; by pret.
    + pret. unfold build_child in Hb. repeat case_match; simplify_eq; done.
  - prog_hnf. destruct (is_api_error HTTP_NOT_FOUND e) eqn:He, explicit; pret; eauto.
Qed.

(** Where a resolution may answer the management client. *)
Definition fallback_justified (sm : ScheduledMachine) (t : trace) (r : rresult ResolvedClient) : Prop :=
  match r with
  | Ok (Management c) =>
      c = MgmtClient /\ kubeconfig_secret_ref (spec sm) = None /\
      exists ns (e : kube_error), Crd.namespace sm = Some ns /\ is_api_error HTTP_NOT_FOUND e = true /\
        Ev (GetSecret MgmtClient ns (cluster_name (spec sm) +:+ "-kubeconfig")) (Err e) ∈ t
  | Ok (Child _ _ _) => True
  | Err (NotFound _) => False
  | Err _ => True
  end.

Lemma cache_resolve_fallback sm : wp (cache_resolve MgmtClient sm) (fallback_justified sm).
Proof.
  unfold cache_resolve. apply wp_bind_ok. destruct (Crd.namespace sm) as [ns |] eqn:Hns; cbn [ok_or]; [| done].
  cbn [lift wp]. cbv beta.
  destruct (kubeconfig_secret_ref (spec sm)) as [r |] eqn:Href; apply wp_bind;
    (eapply wp_mono; [| apply build_or_get_cached_not_found]); cbv beta; intros t res Hres.
  - destruct res as [[c | c k rv] | e]; [done | |].
    + pstep as u. by pret.
    + pstep as u. pstep as u'. pret. unfold fallback_justified. destruct e; try done. by destruct Hres.
  - destruct res as [[c | c k rv] | e]; [done | |].
    + pstep as u. by pret.
    + prog_hnf. destruct e; repeat pstep as ?; pret; cbn; try done.
      destruct Hres as [_ (e & -> & He)]. split_and!; [done | done |].
      exists ns, e. split_and!; [done | done |]. left.
Qed.

#[global] Instance cache_resolver_laws : ResolverLaws cache_resolver.
Proof.
  constructor; [apply cache_resolve_calls |]. intros sm.
  assert (Hwp : forall A (p : M A) (Q : A -> Prop), wp p (λ _ a, Q a) -> returns Q p).
  { intros A p Q. induction p as [a | c k IH]; cbn; eauto. }
  apply Hwp. eapply wp_mono; [| apply cache_resolve_fallback]. cbv beta.
  intros t [[c | c k rv] | e]; cbn; [| done | done]. tauto.
Qed.
End laws.

(** C20: fail-closed resolution: a resolution answers the management client
    only for a machine without an explicit kubeconfig reference, and only after
    the auto-discovered Secret of its own namespace was answered 404; every
    other failure is an error, never a fall-back; and the only Secret it reads is
    the one the machine designates, in its own namespace. *)
Theorem child_resolution_fail_closed `{Externals} sm :
  wp (cache_resolve MgmtClient sm) (fallback_justified sm) /\
  calls (resolver_call sm) (cache_resolve MgmtClient sm).
Proof. split; [apply cache_resolve_fallback | apply cache_resolve_calls]. Qed.

(** ** The cache's contract *)

Lemma min_by_last_used_spec iter :
  match min_by_last_used iter with
  | None => iter = []
  | Some x => x ∈ iter /\ forall y, y ∈ iter -> (ce_last_used x.2 <= ce_last_used y.2)%Z
  end.
Proof.
  induction iter as [| x iter IH]; [done |]. cbn. destruct (min_by_last_used iter) as [y |].
  - destruct IH as [Hy Hmin]. case_bool_decide.
    + split; [left |]. intros z [-> | Hz%Hmin]%elem_of_cons; lia.
    + split; [by right |]. intros z [-> | Hz%Hmin]%elem_of_cons; lia.
  - subst. split; [left |]. intros z [-> | Hz]%elem_of_cons; [done | by apply elem_of_nil in Hz].
Qed.

(** The bound is kept. *)
Lemma cache_insert_size iter now key c rv m :
  iter ≡ₚ map_to_list m -> size m <= CHILD_CLIENT_CACHE_CAP ->
  size (cache_insert iter now key c rv m).1 <= CHILD_CLIENT_CACHE_CAP.
Proof.
  intros Hiter Hsize. unfold cache_insert.
  destruct (bool_decide (CHILD_CLIENT_CACHE_CAP <= size m) && bool_decide (m !! key = None)) eqn:Hfull.
  - apply andb_true_iff in Hfull as [Hcap Hnone]. rewrite bool_decide_eq_true in Hcap, Hnone.
    pose proof (min_by_last_used_spec iter) as Hmin. destruct (min_by_last_used iter) as [[v e] |]; cbn [fst fmap option_fmap option_map].
    + destruct Hmin as [Hin _]. rewrite Hiter in Hin. apply elem_of_map_to_list in Hin.
      assert (v <> key) by (intros ->; congruence).
      rewrite map_size_insert_None by (by rewrite lookup_delete_ne).
      rewrite map_size_delete, Hin. destruct (size m) eqn:E; [| lia].
      apply map_size_empty_inv in E. subst. by rewrite lookup_empty in Hin.
    + exfalso. subst. symmetry in Hiter. apply Permutation_nil_r in Hiter.
      apply map_to_list_empty_iff in Hiter. subst. rewrite map_size_empty in Hcap.
      unfold CHILD_CLIENT_CACHE_CAP in Hcap. lia.
  - apply andb_false_iff in Hfull. rewrite !bool_decide_eq_false in Hfull. cbn [fst].
    rewrite map_size_insert. destruct (m !! key) as [e |] eqn:E; [done |]. destruct Hfull; [lia | done].
Qed.

(** Every entry after an insertion is the inserted one or one of before. *)
Lemma cache_insert_entries iter now key c rv m k e :
  (cache_insert iter now key c rv m).1 !! k = Some e ->
  k = key /\ ce_client e = c /\ ce_resource_version e = rv \/ m !! k = Some e.
Proof.
  unfold cache_insert. destruct (_ && _); [destruct (fst <$> min_by_last_used iter) as [v |] |];
    cbn; intros [[<- <-] | [Hk He]]%lookup_insert_Some; try (by left); right; [| done..].
  by apply lookup_delete_Some in He as [_ He].
Qed.

(** One insertion: what it keeps, and that the victim has the least [last_used]. *)
Lemma cache_insert_evicts iter now key c rv m :
  iter ≡ₚ map_to_list m -> size m <= CHILD_CLIENT_CACHE_CAP ->
  let '(m', (replaced, evicted)) := cache_insert iter now key c rv m in
  size m' <= CHILD_CLIENT_CACHE_CAP /\
  replaced = bool_decide (is_Some (m !! key)) /\
  match evicted with
  | None => forall k, k <> key -> m' !! k = m !! k
  | Some v => v <> key /\ size m = CHILD_CLIENT_CACHE_CAP /\
      (exists e, m !! v = Some e /\ forall k e', m !! k = Some e' -> (ce_last_used e <= ce_last_used e')%Z) /\
      m' !! v = None /\ forall k, k <> key -> k <> v -> m' !! k = m !! k
  end /\
  forall now' rv', (cache_lookup now' key rv' m').2 = (if bool_decide (rv = rv') then Some c else None).
Proof.
  intros Hiter Hsize. pose proof (cache_insert_size iter now key c rv m Hiter Hsize) as Hbound. revert Hbound. unfold cache_insert.
  assert (Hlook : forall now' rv' e (m0 : cache), ce_resource_version e = rv -> ce_client e = c ->
    (cache_lookup now' key rv' (<[key := e]> m0)).2 = (if bool_decide (rv = rv') then Some c else None)).
  { intros now' rv' e m0 <- <-. unfold cache_lookup. rewrite lookup_insert_eq. by case_bool_decide. }
  destruct (bool_decide (CHILD_CLIENT_CACHE_CAP <= size m) && bool_decide (m !! key = None)) eqn:Hfull.
  - apply andb_true_iff in Hfull as [Hcap Hnone]. rewrite bool_decide_eq_true in Hcap, Hnone.
    pose proof (min_by_last_used_spec iter) as Hmin.
    destruct (min_by_last_used iter) as [[v e] |]; cbn [fst fmap option_fmap option_map]; intros Hbound.
    + destruct Hmin as [Hin Hmin]. rewrite Hiter in Hin. apply elem_of_map_to_list in Hin.
      assert (v <> key) by (intros ->; congruence).
      split_and!; [done | | done | lia | | | | intros; by apply Hlook].
      * by rewrite lookup_delete_ne, Hnone.
      * exists e. split; [done |]. intros k e' Hk. apply (Hmin (k, e')). rewrite Hiter. by apply elem_of_map_to_list.
      * rewrite lookup_insert_ne by done. apply lookup_delete_eq.
      * intros k Hk Hkv. by rewrite lookup_insert_ne, lookup_delete_ne by done.
    + exfalso. subst. symmetry in Hiter. apply Permutation_nil_r in Hiter.
      apply map_to_list_empty_iff in Hiter. subst. rewrite map_size_empty in Hcap.
      unfold CHILD_CLIENT_CACHE_CAP in Hcap. lia.
  - intros Hbound. split_and!; [done | done | | intros; by apply Hlook]. intros k Hk. by rewrite lookup_insert_ne.
Qed.

(** *** Least recently used *)

(** The cache [m] that the accesses made so far leave, with who was given a
    client and when, latest first: a lookup or a [peek] that answers one, and an
    insertion, whatever the iteration order it sees. *)
Inductive history : list (CacheKey * Z) -> cache -> Prop :=
| history_new : history [] ∅
| history_lookup h m now key rv :
    history h m ->
    history (match (cache_lookup now key rv m).2 with Some _ => (key, now) :: h | None => h end)
            (cache_lookup now key rv m).1
| history_peek h m now key :
    history h m ->
    history (match (peek now key m).2 with Some _ => (key, now) :: h | None => h end) (peek now key m).1
| history_insert h m iter now key c rv :
    history h m -> iter ≡ₚ map_to_list m ->
    history ((key, now) :: h) (cache_insert iter now key c rv m).1
| history_evict h m key : history h m -> history h (evict key m).1.

Definition last_use (k : CacheKey) (h : list (CacheKey * Z)) : option Z := snd <$> find (λ u, bool_decide (u.1 = k)) h.

Lemma last_use_cons k k' t h : last_use k ((k', t) :: h) = if bool_decide (k' = k) then Some t else last_use k h.
Proof. unfold last_use. cbn. by case_bool_decide. Qed.

(** Every [last_used] is the time of the last use, and the bound holds. *)
Definition recorded (h : list (CacheKey * Z)) (m : cache) : Prop :=
  size m <= CHILD_CLIENT_CACHE_CAP /\ forall k e, m !! k = Some e -> last_use k h = Some (ce_last_used e).

Lemma recorded_touch h m key now e : recorded h m -> m !! key = Some e -> recorded ((key, now) :: h) (<[key := touch now e]> m).
Proof.
  intros [Hs Hr] He. split; [by rewrite map_size_insert, He |]. intros k e'. rewrite last_use_cons.
  intros [[<- <-] | [Hk ?]]%lookup_insert_Some; [by rewrite bool_decide_true |].
  rewrite bool_decide_false by done. by apply Hr.
Qed.

Lemma history_recorded h m : history h m -> recorded h m.
Proof.
  induction 1 as [| h m now key rv _ IH | h m now key _ IH | h m iter now key c rv _ [Hs Hr] Hiter | h m key _ [Hs Hr]].
  - by split; [rewrite map_size_empty; unfold CHILD_CLIENT_CACHE_CAP; lia |].
  - unfold cache_lookup. destruct (m !! key) as [e |] eqn:He; [| done]. case_bool_decide; [| done].
    by apply recorded_touch.
  - unfold peek. destruct (m !! key) as [e |] eqn:He; [| done]. by apply recorded_touch.
  - split; [by apply cache_insert_size |]. intros k e. rewrite last_use_cons. unfold cache_insert.
    destruct (_ && _); [destruct (fst <$> min_by_last_used iter) as [v |] |];
      cbn; intros [[<- <-] | [Hk He]]%lookup_insert_Some; rewrite ?bool_decide_true, ?bool_decide_false by done; try done.
    + apply lookup_delete_Some in He as [_ He]. by apply Hr.
    + by apply Hr.
    + by apply Hr.
  - cbn. split; [rewrite map_size_delete; unfold CHILD_CLIENT_CACHE_CAP in *; case_match; cbn; lia |].
    intros k e [_ He]%lookup_delete_Some. by apply Hr.
Qed.

(** C29: the client cache is a bounded LRU cache: after any accesses it holds
    at most 256 entries; a further insertion evicts only when the cache is full
    and the key new, and then a key other than the inserted one whose client was
    last given out (by an insertion, a lookup or a [peek], in the history of the
    accesses) no later than that of every other cached key, by the clock of
    those accesses (a monotone [Instant]); every other entry is kept as it was.
    A lookup then answers the inserted client exactly when asked for its
    resource version, and leaves the other entries alone. *)
Theorem cache_is_lru h m iter now key c rv :
  history h m -> iter ≡ₚ map_to_list m ->
  let '(m', (replaced, evicted)) := cache_insert iter now key c rv m in
  size m <= CHILD_CLIENT_CACHE_CAP /\ size m' <= CHILD_CLIENT_CACHE_CAP /\
  replaced = bool_decide (is_Some (m !! key)) /\
  match evicted with
  | None => forall k, k <> key -> m' !! k = m !! k
  | Some v =>
      v <> key /\ m !! key = None /\ size m = CHILD_CLIENT_CACHE_CAP /\ is_Some (m !! v) /\
      (exists t, last_use v h = Some t /\
         forall k, is_Some (m !! k) -> exists t', last_use k h = Some t' /\ (t <= t')%Z) /\
      m' !! v = None /\ forall k, k <> key -> k <> v -> m' !! k = m !! k
  end /\
  forall now' rv', let '(m'', answer) := cache_lookup now' key rv' m' in
    answer = (if bool_decide (rv = rv') then Some c else None) /\ forall k, k <> key -> m'' !! k = m' !! k.
Proof.
  intros [Hs Hr]%history_recorded Hiter.
  pose proof (cache_insert_evicts iter now key c rv m Hiter Hs) as Hi.
  assert (Hnew : forall v, (cache_insert iter now key c rv m).2.2 = Some v -> m !! key = None).
  { intros v. unfold cache_insert. destruct (bool_decide (_ <= _) && _) eqn:Hfull; [| done].
    intros _. by apply andb_true_iff in Hfull as [_ ?%bool_decide_eq_true]. }
  destruct (cache_insert iter now key c rv m) as [m' [replaced evicted]]. cbn [snd] in Hnew.
  destruct Hi as (Hs' & Hrep & Hev & Hlook). split_and!; [done | done | done | |].
  - destruct evicted as [v |]; [| done]. destruct Hev as (Hv & Hfull & (e & He & Hmin) & Hgone & Hkeep).
    split_and!; [done | by eapply Hnew | done | by exists e | | done | done].
    exists (ce_last_used e). split; [by apply Hr |]. intros k (e' & He'). exists (ce_last_used e').
    split; [by apply Hr | by eapply Hmin].
  - intros now' rv'. specialize (Hlook now' rv'). unfold cache_lookup in *.
    destruct (m' !! key) as [e |]; [| done]. case_bool_decide; cbn in *; (split; [done |]); intros k Hk; [| done].
    by rewrite lookup_insert_ne.
Qed.

Definition sample_child : child_config := {| cfg_kubeconfig := "k"; cfg_read_timeout := None; cfg_write_timeout := None |}.
Definition sample_key (n : nat) : CacheKey := {| ck_namespace := "ns"; ck_secret_name := pretty n |}.

(** A cache filled with [n] keys, one per instant, and its history. *)
Fixpoint filled (n : nat) : cache :=
  match n with
  | 0 => ∅
  | S n => let m := filled n in (cache_insert (map_to_list m) (Z.of_nat n) (sample_key n) sample_child "1" m).1
  end.
Fixpoint filling (n : nat) : list (CacheKey * Z) :=
  match n with 0 => [] | S n => (sample_key n, Z.of_nat n) :: filling n end.
Lemma filled_history n : history (filling n) (filled n).
Proof. induction n; [constructor |]. by apply (history_insert _ _ _ _ _ _ _ IHn). Qed.

Lemma history_touched h m now key rv : history h m -> exists h', history h' (cache_lookup now key rv m).1.
Proof. intros Hh. eexists. by apply history_lookup. Qed.

(** 256 keys are inserted, the oldest is looked up, and the next insertion
    evicts the second oldest. *)
Lemma cache_is_lru_witness :
  let m := (cache_lookup 300 (sample_key 0) "1" (filled 256)).1 in
  (cache_insert (map_to_list m) 301 (sample_key 256) sample_child "1" m).2 = (false, Some (sample_key 1)) /\
  exists h, history h m /\ exists t, last_use (sample_key 1) h = Some t /\
    forall k, is_Some (m !! k) -> exists t', last_use k h = Some t' /\ (t <= t')%Z.
Proof.
  intros m.
  assert (He : (cache_insert (map_to_list m) 301 (sample_key 256) sample_child "1" m).2 = (false, Some (sample_key 1)))
    by by vm_compute.
  assert (Hh : exists h, history h m) by apply (history_touched (filling 256)), filled_history.
  clearbody m. split; [exact He |]. destruct Hh as [h Hh]. exists h. split; [exact Hh |].
  pose proof (cache_is_lru h m (map_to_list m) 301 (sample_key 256) sample_child "1" Hh (Permutation_refl _)) as Hl.
  destruct (cache_insert _ _ _ _ _ _) as [m' [replaced evicted]]. cbn in He. injection He as -> ->.
  apply Hl.
Defined.

(** ** Runs against a shared cache *)

(** The Secrets are fixed; the cache is the state, with a clock. *)
Definition cache_env (secrets : string -> string -> result Secret kube_error) (c : call_t) (s : cache * Z)
    : (cache * Z) * reply c :=
  match c return (cache * Z) * reply c with
  | GetSecret _ ns n => (s, secrets ns n)
  | CacheLookup k rv =>
      let '(m, r) := cache_lookup s.2 k rv s.1 in ((m, s.2 + 1)%Z, r)
  | CacheInsert k cl rv =>
      let '(m, r) := cache_insert (map_to_list s.1) s.2 k cl rv s.1 in ((m, s.2 + 1)%Z, r)
  | c => (s, (ok_handler c 0%Z).2)
  end.

Section shared.
Context `{Externals} (secrets : string -> string -> result Secret kube_error).

Lemma run_bind {S A B} (h : forall c, S -> S * reply c) (p : M A) (f : A -> M B) : forall s,
  run h s (bind p f) =
    let '(s1, t1, a) := run h s p in let '(s2, t2, b) := run h s1 (f a) in (s2, t1 ++ t2, b).
Proof.
  induction p as [a | c k IH]; intros s; cbn [bind run].
  - by destruct (run h s (f a)) as [[]].
  - destruct (h c s) as [s1 r]. rewrite IH. destruct (run h s1 (k r)) as [[s2 t1] a].
    by destruct (run h s2 (f a)) as [[]].
Qed.

Lemma run_quiet {S A} (h : forall c, S -> S * reply c) (p : M A) (P : call_t -> Prop) s :
  calls P p -> (forall c s, P c -> (h c s).1 = s) -> (run h s p).1.1 = s.
Proof.
  intros Hp Hh. revert s. induction p as [a | c k IH]; intros s; [done |]. destruct Hp as [Hc Hk].
  cbn. specialize (Hh c s Hc). destruct (h c s) as [s1 r]. cbn in Hh. subst s1.
  specialize (IH r (Hk r) s). by destruct (run h s (k r)) as [[]].
Qed.

(** An explicit resolution that finds the version in the cache. *)
Lemma run_resolve_hit sm ns r secret entry m now :
  Crd.namespace sm = Some ns -> kubeconfig_secret_ref (spec sm) = Some r ->
  secrets ns (ksr_name r) = Ok secret ->
  m !! {| ck_namespace := ns; ck_secret_name := ksr_name r |} = Some entry ->
  ce_resource_version entry = opt_string (s_resource_version secret) ->
  (run (cache_env secrets) (m, now) (cache_resolve MgmtClient sm)).2 =
    Ok (Child (ce_client entry) {| ck_namespace := ns; ck_secret_name := ksr_name r |}
          (opt_string (s_resource_version secret))).
Proof.
  intros Hns Hr Hs Hm Hrv. unfold cache_resolve. rewrite Hns, Hr. cbn. rewrite Hs. cbn.
  unfold cache_lookup. rewrite Hm, bool_decide_true by done. done.
Qed.

Lemma run_resolve_miss sm ns r secret raw c m now :
  Crd.namespace sm = Some ns -> kubeconfig_secret_ref (spec sm) = Some r ->
  secrets ns (ksr_name r) = Ok secret ->
  m !! {| ck_namespace := ns; ck_secret_name := ksr_name r |} = None ->
  s_data secret ≫= lookup (ksr_key r) = Some raw -> build_child ns (ksr_name r) raw = Ok c ->
  let res := run (cache_env secrets) (m, now) (cache_resolve MgmtClient sm) in
  res.2 = Ok (Child c {| ck_namespace := ns; ck_secret_name := ksr_name r |} (opt_string (s_resource_version secret))) /\
  exists e, res.1.1.1 !! {| ck_namespace := ns; ck_secret_name := ksr_name r |} = Some e /\
    ce_client e = c /\ ce_resource_version e = opt_string (s_resource_version secret).
Proof.
  intros Hns Hr Hs Hm Hraw Hb. unfold cache_resolve. rewrite Hns, Hr. cbn. rewrite Hs. cbn.
  unfold cache_lookup. rewrite Hm. cbn. rewrite Hraw. cbn. rewrite Hb. cbn.
  unfold cache_insert. set (key := {| ck_namespace := ns; ck_secret_name := ksr_name r |}).
  match goal with |- context [if ?b then ?x else ?y] => destruct (if b then x else y) as [m' ev] end.
  destruct (bool_decide (is_Some (m' !! key))), ev; cbn; (split; [done |]); eexists; by rewrite lookup_insert_eq.
Qed.
End shared.

(** The cache is keyed by Secret and resource version only: of two
    machines that name different data keys of one Secret, the one resolved
    second is given the first one's client, whatever its own key holds. *)
Theorem cache_ignores_data_key `{Externals} secrets sm1 sm2 ns name k1 k2 secret raw c m now :
  Crd.namespace sm1 = Some ns -> Crd.namespace sm2 = Some ns ->
  kubeconfig_secret_ref (spec sm1) = Some {| ksr_name := name; ksr_key := k1 |} ->
  kubeconfig_secret_ref (spec sm2) = Some {| ksr_name := name; ksr_key := k2 |} ->
  secrets ns name = Ok secret ->
  s_data secret ≫= lookup k1 = Some raw -> build_child ns name raw = Ok c ->
  m !! {| ck_namespace := ns; ck_secret_name := name |} = None ->
  let first := run (cache_env secrets) (m, now) (cache_resolve MgmtClient sm1) in
  let second := run (cache_env secrets) first.1.1 (cache_resolve MgmtClient sm2) in
  first.2 = second.2 /\
  second.2 = Ok (Child c {| ck_namespace := ns; ck_secret_name := name |} (opt_string (s_resource_version secret))).
Proof.
  intros Hn1 Hn2 Hr1 Hr2 Hs Hraw Hb Hm first second.
  destruct (run_resolve_miss secrets sm1 ns _ secret raw c m now Hn1 Hr1 Hs Hm Hraw Hb) as [E1 (e & He & Hc & Hv)].
  assert (E2 : second.2 = Ok (Child c {| ck_namespace := ns; ck_secret_name := name |} (opt_string (s_resource_version secret)))).
  { subst second. fold first in He. destruct first.1.1 as [m1 now1]. rewrite <- Hc.
    by eapply (run_resolve_hit secrets sm2 ns _ secret e m1 now1 Hn2 Hr2). }
  split; [| done]. rewrite E2. exact E1.
Qed.

Definition with_key (k : string) (sm : ScheduledMachine) : ScheduledMachine := {|
  metadata := metadata sm; status := status sm;
  spec := {| schedule := schedule (spec sm); enabled := enabled (spec sm); cluster_name := cluster_name (spec sm);
    bootstrap_spec := bootstrap_spec (spec sm); infrastructure_spec := infrastructure_spec (spec sm);
    machine_template := machine_template (spec sm); priority := priority (spec sm);
    graceful_shutdown_timeout := graceful_shutdown_timeout (spec sm); node_drain_timeout := node_drain_timeout (spec sm);
    kill_switch := kill_switch (spec sm); node_taints := node_taints (spec sm); kill_if_commands := kill_if_commands (spec sm);
    kubeconfig_secret_ref := Some {| ksr_name := "kc"; ksr_key := k |}; kata := kata (spec sm) |} |}.

Definition two_keys : Secret := {|
  s_resource_version := Some "7"; s_data := Some (<["prod" := "PROD"]> (<["dev" := "DEV"]> ∅)) |}.

Lemma cache_ignores_data_key_witness :
  let env := cache_env (λ _ _, Ok two_keys) in
  let first := run env (∅, 0%Z) (cache_resolve (H := toy_externals) MgmtClient (with_key "prod" sample_sm)) in
  let second := run env first.1.1 (cache_resolve (H := toy_externals) MgmtClient (with_key "dev" sample_sm)) in
  exists c, cfg_kubeconfig c = "PROD" /\
    second.2 = Ok (Child c {| ck_namespace := "team"; ck_secret_name := "kc" |} "7").
Proof.
  cbv zeta. eexists. split; [| exact (proj2 (cache_ignores_data_key (H := toy_externals) (λ _ _, Ok two_keys)
    (with_key "prod" sample_sm) (with_key "dev" sample_sm) "team" "kc" "prod" "dev" two_keys "PROD" _ ∅ 0%Z
    eq_refl eq_refl eq_refl eq_refl eq_refl eq_refl eq_refl eq_refl))].
  reflexivity.
Defined.
