(* ===== verification/Emergency.v ===== *)
(** Emergency reclaim: detection, patches, events and the removal flow
    ([node_reclaim_request] to [clear_reclaim_annotations_best_effort] of
    [src/reconcilers/helpers.rs]). *)

From S2P Require Import Prelude RustStr Effects Constants Json Crd Externals KubeApi Metrics Samples.
From S2P Require Import SpotSchedule Status Capi Drain ChildClient.

Record ReclaimRequest : Type := { reason : option string; requested_at : option string }.

Definition node_reclaim_request (node : Node) : option ReclaimRequest :=
  match n_annotations node with
  | None => None
  | Some annotations =>
      if negb (bool_decide (annotations !! RECLAIM_REQUESTED_ANNOTATION = Some RECLAIM_REQUESTED_VALUE)) then None
      else Some {| reason := annotations !! RECLAIM_REASON_ANNOTATION;
                   requested_at := annotations !! RECLAIM_REQUESTED_AT_ANNOTATION |}
  end.

Definition build_clear_reclaim_patch : json :=
  JObj [("metadata", JObj [("annotations", JObj [
    (RECLAIM_REQUESTED_ANNOTATION, JNull);
    (RECLAIM_REASON_ANNOTATION, JNull);
    (RECLAIM_REQUESTED_AT_ANNOTATION, JNull)])])].

Definition build_disable_schedule_patch : json := JObj [("spec", JObj [("enabled", JBool false)])].

(** [.filter(|s| !s.trim().is_empty())] *)
Definition non_blank (s : option string) : option string :=
  match s with Some s => if str_is_empty (trim s) then None else Some s | None => None end.

Definition build_emergency_reclaim_event (request : ReclaimRequest) : KubeEvent :=
  let reason_str := default "reclaim trigger on Node" (non_blank (reason request)) in
  let note := match non_blank (requested_at request) with
              | Some ts => "Emergency reclaim requested (" +:+ ts +:+ "): " +:+ reason_str
              | None => "Emergency reclaim requested: " +:+ reason_str
              end in
  {| ev_type := EventWarning; ev_reason := REASON_EMERGENCY_RECLAIM; ev_note := Some note; ev_action := "EmergencyReclaim" |}.

Definition build_emergency_disable_schedule_event : KubeEvent := {|
  ev_type := EventWarning;
  ev_reason := REASON_EMERGENCY_RECLAIM_DISABLED_SCHEDULE;
  ev_note := Some "spec.enabled flipped to false to break the eject→re-add→re-eject loop. Re-enable is a user action.";
  ev_action := "EmergencyReclaimDisableSchedule" |}.

Definition build_rapid_re_reclaim_event (name : string) : KubeEvent := {|
  ev_type := EventWarning;
  ev_reason := REASON_RAPID_RE_RECLAIM;
  ev_note := Some ("ScheduledMachine " +:+ name +:+ " has been emergency-reclaimed 3 or more times within 600 seconds. The conflicting process is likely still running on the node — stop it before re-enabling spec.enabled, or the agent will fire again on the next reconcile.");
  ev_action := "RapidReReclaim" |}.

Definition emergency_reclaim_message (node_name : string) (request : ReclaimRequest) : string :=
  let reason_part := match non_blank (reason request) with Some r => ": " +:+ r | None => "" end in
  let time_part := match non_blank (requested_at request) with Some t => " at " +:+ t | None => "" end in
  "Emergency reclaim on node " +:+ node_name +:+ time_part +:+ reason_part.

Section emergency.
Context `{Externals} `{ChildResolver} (ctx : Context).

Definition patch_disable_schedule (c : client) (namespace name : string) : M (rresult unit) :=
  kube_ok (patch_sm c namespace name build_disable_schedule_patch).

Definition clear_reclaim_annotations_best_effort (c : client) (node_name : string) : M unit :=
  _r <- patch_node c node_name (MergePatch build_clear_reclaim_patch) ;; Ret tt.

Definition drain_outcome (drain_result : rresult unit) : EmergencyDrainOutcome :=
  match drain_result with
  | Ok _ => DrainSuccess
  | Err e => if str_contains (ReconcilerError_display e) "timeout" then DrainTimeout else DrainError
  end.

Definition handle_emergency_remove (resource : ScheduledMachine) (node_name : string) (request : ReclaimRequest)
    : M (rresult Action) :=
  namespace <-? lift (require_namespace resource) ;;
  let name := name_any resource in
  let from_phase := sm_phase resource in
  let sm_object_ref := sm_event_ref namespace name in
  publish_best_effort sm_object_ref (build_emergency_reclaim_event request) ;;;
  update_phase namespace name from_phase PHASE_EMERGENCY_REMOVE (Some REASON_EMERGENCY_RECLAIM)
    (Some (emergency_reclaim_message node_name request)) false ?;;
  record_emergency_reclaim namespace name ;;;
  now_ts <- utc_now ;;
  breach <- call_record_reclaim (namespace +:+ "/" +:+ name) now_ts ;;
  (if breach : bool then
     record_rapid_re_reclaim namespace name ;;;
     publish_best_effort sm_object_ref (build_rapid_re_reclaim_event name)
   else Ret tt) ;;;
  child_for_node <-? resolve resource ;;
  drain_start <- instant_now ;;
  drain_result <- drain_node_with_timeout (ResolvedClient.client child_for_node) node_name EMERGENCY_DRAIN_TIMEOUT_SECS ;;
  spent <- elapsed drain_start ;;
  record_emergency_drain spent (drain_outcome drain_result) ;;;
  remove_machine_from_cluster ctx resource MgmtClient namespace ?;;
  patch_disable_schedule MgmtClient namespace name ?;;
  publish_best_effort sm_object_ref build_emergency_disable_schedule_event ;;;
  clear_reclaim_annotations_best_effort (ResolvedClient.client child_for_node) node_name ;;;
  update_phase namespace name (Some PHASE_EMERGENCY_REMOVE) PHASE_DISABLED (Some REASON_SCHEDULE_DISABLED)
    (Some "Schedule disabled by emergency reclaim; re-enable is a user action") false ?;;
  Ret (Ok (Requeue TIMER_REQUEUE_SECS)).
End emergency.

(** ** The ordering contract *)

(** The deletions of a removal, in order. *)
Definition embedded_resource `{Externals} (r : EmbeddedResource) : list ApiResource :=
  match EmbeddedResource.api_version r, EmbeddedResource.kind r with
  | Some api_version, Some kind => [dyn_resource api_version kind]
  | _, _ => []
  end.
Definition removal_list `{Externals} (ctx : Context) (resource : ScheduledMachine) : list ApiResource :=
  machine_resource (machine_api_version_for ctx (EmbeddedResource.api_version (bootstrap_spec (spec resource)))) ::
  embedded_resource (bootstrap_spec (spec resource)) ++ embedded_resource (infrastructure_spec (spec resource)).

(** Where an emergency removal stands.  [Marked]: the phase is EmergencyRemove.
    [Draining c d]: the node is being drained through the client [c].
    [Removing c gone]: the drain is over and the resources [gone] are deleted. *)
Inductive emergency_state : Type :=
| Detected
| Marked
| Draining (c : client) (d : drain_state)
| Removing (c : client) (gone : list ApiResource)
| ScheduleDisabled (c : client)
| Cleared
| Finished
| Broken.

Definition disables (body : json) : bool :=
  match jpath ["spec"; "enabled"] body with Some (JBool false) => true | _ => false end.
Definition clears_request (p : patch) : bool :=
  match p with
  | MergePatch body =>
      match jpath ["metadata"; "annotations"; RECLAIM_REQUESTED_ANNOTATION] body with Some JNull => true | _ => false end
  | ForcedMergePatch _ _ | ApplyPatch _ _ _ => false
  end.

(** A deletion that left nothing behind. *)
Definition delete_ok (r : result unit kube_error) : bool :=
  match r with Ok _ => true | Err e => is_api_error HTTP_NOT_FOUND e end.

(** The calls that neither drain nor change the machine. *)
Definition bystander (call : call_t) : bool :=
  match call with
  | MetricOp _ | Publish _ _ | UtcNow | InstantNow | RecordReclaim _ _ | GetSecret _ _ _ | CacheLookup _ _
  | CacheInsert _ _ _ | HookEvicted _ | HookResolved _ _ => true
  | _ => false
  end.

Section step.
Context `{Externals} (ctx : Context) (resource : ScheduledMachine) (ns node : string).

Definition own_machine (ns' n : string) : bool := bool_decide (ns' = ns) && bool_decide (n = name_any resource).

(** A status write that sets [phase], to [s] when it is accepted. *)
Definition writes_phase (phase : string) (s : emergency_state) (e : event reply) : option emergency_state :=
  match e with
  | Ev (PatchSMStatus _ ns' n body) r =>
      if own_machine ns' n && bool_decide (patch_phase body = Some phase)
      then Some (if is_ok r then s else Broken) else None
  | _ => None
  end.

Definition drains (c : client) (d : drain_state) (e : event reply) : option emergency_state :=
  Draining c <$> drain_step c node (EMERGENCY_DRAIN_TIMEOUT_SECS * 1000000000) d e.

(** The next deletion, or once [gone] is the whole list the schedule's end. *)
Definition removes (c : client) (gone : list ApiResource) (e : event reply) : option emergency_state :=
  match e with
  | Ev (DeleteDyn c' ns' ar n) r =>
      if bool_decide (c' = MgmtClient) && own_machine ns' n
      then Some (if delete_ok r then Removing c (gone ++ [ar]) else Broken) else None
  | Ev (PatchSM c' ns' n body) r =>
      if bool_decide (gone = removal_list ctx resource) && bool_decide (c' = MgmtClient) && disables body && own_machine ns' n
      then Some (if is_ok r then ScheduleDisabled c else Broken) else None
  | _ => None
  end.

Definition emergency_step (s : emergency_state) (e : event reply) : option emergency_state :=
  let stay_or k := if bystander (ev_call e) then Some s else k in
  match s with
  | Detected => stay_or (writes_phase PHASE_EMERGENCY_REMOVE Marked e)
  | Marked =>
      stay_or match e with
              | Ev (PatchNode c _ _) _ => drains c ToCordon e
              | _ => None
              end
  | Draining c d => if drain_over d then stay_or (removes c [] e) else drains c d e
  | Removing c gone => stay_or (removes c gone e)
  | ScheduleDisabled c =>
      stay_or match e with
              | Ev (PatchNode c' n p) _ =>
                  if bool_decide (c' = c) && bool_decide (n = node) && clears_request p then Some Cleared else None
              | _ => None
              end
  | Cleared => stay_or (writes_phase PHASE_DISABLED Finished e)
  | Finished | Broken => None
  end.
End step.

(** *** The steps *)

(** The states in which the calls of [bystander] change nothing. *)
Definition at_ease (s : emergency_state) : Prop :=
  match s with Draining _ d => drain_over d = true | Finished | Broken => False | _ => True end.

Section contract.
Context `{Externals} `{ResolverLaws} (ctx : Context) (resource : ScheduledMachine) (ns node : string).
Notation step := (emergency_step ctx resource ns node).
Notation me := (name_any resource).

Lemma step_bystander s e : at_ease s -> bystander (ev_call e) = true -> step s e = Some s.
Proof. destruct s; cbn; try done; intros Hs He; by rewrite ?Hs, He. Qed.

Lemma own_me : own_machine resource ns ns me = true.
Proof. unfold own_machine. by rewrite !bool_decide_true. Qed.

(** Calls that are all bystanders. *)
Lemma mon_ease {A} (p : M A) (k : A -> M (rresult Action)) s Φ :
  at_ease s -> calls (λ c, bystander c = true) p -> (forall a, mon step s (k a) Φ) -> mon step s (bind p k) Φ.
Proof.
  intros Hs Hp Hk. apply mon_bind. eapply (mon_stay _ _ _ (λ _, True)); [exact Hp | | | auto].
  - clear. induction p; cbn; auto.
  - intros c r Hc. by apply step_bystander.
Qed.
Lemma ease_metric {A} (p : M A) : calls metric_call p -> calls (λ c, bystander c = true) p.
Proof. apply calls_mono. by intros []. Qed.
Lemma ease_resolve : calls (λ c, bystander c = true) (resolve resource).
Proof. eapply calls_mono; [| apply resolve_calls]. by intros []. Qed.
Lemma ease_publish about ev : calls (λ c, bystander c = true) (publish_best_effort about ev).
Proof. by repeat constructor. Qed.
#[local] Hint Resolve ease_publish ease_resolve : core.

Lemma mon_write_phase (s s' : emergency_state) p from reason msg i Φ :
  (s = Detected /\ p = PHASE_EMERGENCY_REMOVE /\ s' = Marked \/ s = Cleared /\ p = PHASE_DISABLED /\ s' = Finished) ->
  Φ s' (Ok tt) -> (forall e, Φ Broken (Err e)) ->
  mon step s (update_phase ns me from p reason msg i) Φ.
Proof.
  intros Hs Hok Herr. cbn. intros _r. destruct Hs as [(-> & -> & ->) | (-> & -> & ->)]; cbn;
    intros now; rewrite own_me, !bool_decide_true by done; cbn; intros [[] | e]; by cbn.
Qed.

(** The drain, from its first call to its end. *)
Definition draining (c : client) (s : emergency_state) (d : drain_state) : Prop :=
  s = Marked /\ d = ToCordon \/ s = Draining c d.

Lemma mon_drain c Φ :
  (forall d r, drain_over d = true -> Φ (Draining c d) r) ->
  mon step Marked (drain_node_with_timeout c node EMERGENCY_DRAIN_TIMEOUT_SECS) Φ.
Proof.
  intros HΦ. eapply mon_mono; [| eapply (mon_simulates _ _ (draining c)); [| by left | apply drain_mon]].
  - intros s r (d & [[-> ->] | ->] & Hd); [by destruct Hd as [[_ ?] | [_ [? | ?]]] |].
    apply HΦ. by destruct Hd as [[_ ->] | [_ [-> | ->]]].
  - intros s d e d' [[-> ->] | ->] Hd.
    + destruct e as [call r]. destruct call; try done; cbn [ev_call bystander emergency_step].
      * cbn in Hd. case_bool_decide; [subst | done]. unfold drains. cbn. rewrite bool_decide_true by done.
        rewrite Hd. eexists; split; [done | by right].
      * injection Hd as <-. eexists; split; [done | by left].
    + cbn [emergency_step]. destruct (drain_over d) eqn:E.
      * destruct e as [call r]. destruct call; try (by destruct d). injection Hd as <-.
        eexists; split; [done | by right].
      * unfold drains. rewrite Hd. eexists; split; [done | by right].
Qed.

Lemma mon_delete_embedded c gone r Φ :
  Φ (Removing c (gone ++ embedded_resource r)) (Ok tt) -> (forall e, Φ Broken (Err e)) ->
  mon step (Removing c gone) (delete_embedded MgmtClient ns me r) Φ.
Proof.
  intros Hok Herr. unfold delete_embedded, embedded_resource in *.
  destruct (EmbeddedResource.api_version r), (EmbeddedResource.kind r);
    try (rewrite app_nil_r in Hok; exact Hok).
  cbn. intros rep. rewrite own_me, bool_decide_true by done. cbn. destruct rep as [[] | e]; cbn; [done |].
  destruct (is_api_error HTTP_NOT_FOUND e); [done | apply Herr].
Qed.

Lemma mon_remove_machine c d Φ :
  drain_over d = true ->
  Φ (Removing c (removal_list ctx resource)) (Ok tt) -> (forall e, Φ Broken (Err e)) ->
  mon step (Draining c d) (remove_machine_from_cluster ctx resource MgmtClient ns) Φ.
Proof.
  intros Hd Hok Herr.
  assert (Hrest : mon step (Removing c [machine_resource (machine_api_version_for ctx (EmbeddedResource.api_version (bootstrap_spec (spec resource))))])
    (delete_embedded MgmtClient ns me (bootstrap_spec (spec resource)) ?;;
     delete_embedded MgmtClient ns me (infrastructure_spec (spec resource)) ?;; Ret (Ok tt)) Φ).
  { apply mon_bind_ok, mon_delete_embedded; [| by intros]. apply mon_bind_ok, mon_delete_embedded; [| by intros].
    exact Hok. }
  unfold remove_machine_from_cluster. cbn zeta. apply mon_Vis. intros rep. cbn [emergency_step]. rewrite Hd.
  cbn [ev_call bystander removes]. rewrite own_me, bool_decide_true by done. cbn [andb].
  destruct rep as [u | e]; [exact Hrest |]. cbn [delete_ok app]. prog_hnf.
  destruct (is_api_error HTTP_NOT_FOUND e); [exact Hrest | apply Herr].
Qed.
End contract.

(** *** The drain's client *)

(** The clients that resolving [resource] can answer. *)
Definition resolvable `{Externals} `{ChildResolver} (resource : ScheduledMachine) (c : client) : Prop :=
  exists t rc, exec (resolve resource) t (Ok rc) /\ c = ResolvedClient.client rc.

(** Node and pod calls go to a client resolution answers, patches to [node]. *)
Definition drain_reaches `{Externals} `{ChildResolver} (resource : ScheduledMachine) (node : string) (call : call_t) : Prop :=
  match call with
  | PatchNode c n _ => n = node /\ resolvable resource c
  | ListPods c _ | DeletePod c _ _ _ => resolvable resource c
  | _ => True
  end.

Lemma emergency_drain_reaches `{Externals} `{ResolverLaws} ctx resource node request :
  calls (drain_reaches resource node) (handle_emergency_remove ctx resource node request).
Proof.
  assert (Hm : forall p : M unit, calls metric_call p -> calls (drain_reaches resource node) p).
  { intros p. apply calls_mono. by intros []. }
  assert (Hp : forall about ev, calls (drain_reaches resource node) (publish_best_effort about ev)) by by repeat constructor.
  assert (Hw : forall ns f q r m i, calls (drain_reaches resource node) (update_phase ns (name_any resource) f q r m i)) by by cbn.
  unfold handle_emergency_remove. apply calls_bind_ok; [by destruct (require_namespace resource) |]. intros ns. cbn zeta.
  apply calls_bind; [done | intros _]. apply calls_bind_ok; [done | intros _].
  apply calls_bind; [by apply Hm, metric_call_inc | intros _].
  apply calls_bind; [done | intros now]. apply calls_bind; [done | intros breach].
  apply calls_bind; [destruct breach; [apply calls_bind; [by apply Hm, metric_call_inc | done] | done] | intros _].
  apply (calls_bind_ret _ (λ r, match r with Ok rc => resolvable resource (ResolvedClient.client rc) | Err _ => True end)).
  { eapply calls_mono; [| apply resolve_calls]. by intros []. }
  { eapply returns_mono; [| apply returns_answers]. intros [rc | e] (t & Ht); [by exists t, rc | done]. }
  intros [rc | e] Hrc; [| done]. apply calls_bind; [done | intros start].
  apply calls_bind; [| intros dr].
  { eapply calls_mono; [| apply (drain_calls (ResolvedClient.client rc) node)].
    intros []; cbn; try done; [| by intros [-> _] ..]. by intros (-> & -> & _). }
  apply calls_bind; [done | intros spent]. apply calls_bind; [by apply Hm, metric_call_observe | intros _].
  apply calls_bind_ok; [eapply calls_mono; [| apply remove_machine_only_deletes]; by intros [] | intros _].
  apply calls_bind_ok; [by repeat constructor | intros _]. apply calls_bind; [done | intros _].
  apply calls_bind; [| intros _; by apply calls_bind_ok; [| intros []]].
  apply calls_bind; [| done]. by split.
Qed.

(** C8: the emergency-reclaim ordering contract, whatever each call answers:
    the EmergencyRemove phase is written first; then the named node is drained
    through a client that resolving the machine answers, under the discipline of [Drain.drain_step] with
    the emergency timeout; only once that drain is over (all pods deleted, timed
    out, or refused) are the Machine, bootstrap and infrastructure objects
    deleted, in that order; [spec.enabled] is set to false only once all of them
    are deleted or absent; the reclaim annotation of that node is cleared, through
    the client that drained it, only once that patch succeeded (so a crash
    re-drives the removal), and Disabled is written last.  A failed status
    write, schedule patch or deletion ends the run, and the result is [Ok]
    exactly when the last step succeeded. *)
Theorem emergency_ordering `{Externals} `{ResolverLaws} ctx resource node request :
  let run := handle_emergency_remove ctx resource node request in
  mon (emergency_step ctx resource (default "" (Crd.namespace resource)) node) Detected run
    (λ s r, is_ok r = true <-> s = Finished) /\
  calls (drain_reaches resource node) run.
Proof.
  split; [| apply emergency_drain_reaches].
  unfold handle_emergency_remove. apply mon_bind_lift; [| by intros]. intros ns Hns.
  apply ok_or_Ok in Hns. rewrite Hns. cbn [default]. cbn zeta.
  apply mon_ease; [done | apply ease_publish | intros _].
  apply mon_bind_ok, (mon_write_phase _ _ _ _ Detected Marked); [by left | | by intros].
  apply mon_ease; [done | by apply ease_metric, metric_call_inc | intros _].
  apply mon_ease; [done | done | intros now]. apply mon_ease; [done | done | intros breach].
  apply mon_ease; [done | destruct breach; [apply calls_bind; [by apply ease_metric, metric_call_inc | done] | done] | intros _].
  apply mon_ease; [done | apply ease_resolve | intros [rc | e]; [| done]].
  apply mon_ease; [done | done | intros start].
  apply mon_bind, mon_drain. intros d dr Hd.
  apply mon_ease; [done | done | intros spent].
  apply mon_ease; [done | by apply ease_metric, metric_call_observe | intros _].
  apply mon_bind_ok, mon_remove_machine; [done | | by intros].
  apply mon_bind_ok. pstep as r. rewrite own_me, !bool_decide_true by done.
  change (disables build_disable_schedule_patch) with true. cbn [andb]. destruct r as [u | e]; pret; [| done].
  apply mon_ease; [done | apply ease_publish | intros _]. pstep as r. rewrite !bool_decide_true by done.
  change (clears_request (MergePatch build_clear_reclaim_patch)) with true. cbn [andb].
  apply mon_bind_ok, (mon_write_phase _ _ _ _ Cleared Finished); [by right | | by intros]. by pret.
Qed.

(** The resolver that reads the cache, and a machine on the management cluster. *)
Lemma emergency_ordering_witness :
  let run := handle_emergency_remove (H := toy_externals) (H0 := cache_resolver (H := toy_externals)) sample_ctx sample_sm
               "node-1" {| reason := Some "process-match: java"; requested_at := None |} in
  mon (emergency_step (H := toy_externals) sample_ctx sample_sm "team" "node-1") Detected run
    (λ s r, is_ok r = true <-> s = Finished) /\
  calls (drain_reaches (H := toy_externals) (H0 := cache_resolver (H := toy_externals)) sample_sm "node-1") run.
Proof.
  exact (emergency_ordering (H := toy_externals) (R := cache_resolver (H := toy_externals)) sample_ctx sample_sm "node-1"
           {| reason := Some "process-match: java"; requested_at := None |}).
Defined.

(** ** The request and its removal *)

Definition annotations_of (node : json) : list (string * json) := as_obj (jread "annotations" (jread "metadata" node)).
(** What the API serves of a stored node's annotations. *)
Definition annotations_agree (node : Node) (stored : json) : Prop :=
  forall k, n_annotations node ≫= lookup k = obj_get k (annotations_of stored) ≫= as_str.

(** A node requests a reclaim exactly when its trigger annotation is the
    literal ["true"]; and the clearing patch, applied to any stored node,
    removes the three reclaim annotations and changes no other annotation and
    no other part of the metadata, so a cleared node does not re-fire. *)
Theorem clear_removes_request node stored :
  (is_Some (node_reclaim_request node) <->
     exists a, n_annotations node = Some a /\ a !! RECLAIM_REQUESTED_ANNOTATION = Some "true") /\
  let after := merge_patch build_clear_reclaim_patch stored in
  (forall k, k ∈ [RECLAIM_REQUESTED_ANNOTATION; RECLAIM_REASON_ANNOTATION; RECLAIM_REQUESTED_AT_ANNOTATION] ->
     obj_get k (annotations_of after) = None) /\
  (forall k, k ∉ [RECLAIM_REQUESTED_ANNOTATION; RECLAIM_REASON_ANNOTATION; RECLAIM_REQUESTED_AT_ANNOTATION] ->
     obj_get k (annotations_of after) = obj_get k (annotations_of stored)) /\
  forall k, k <> "annotations" -> jread k (jread "metadata" after) = jread k (jread "metadata" stored).
Proof.
  split.
  - unfold node_reclaim_request. destruct (n_annotations node) as [a |]; [| split; [by intros [] | by intros (?&?&?)]].
    case_bool_decide as Ha; cbn [negb]; split.
    + intros _. by exists a.
    + intros _. eauto.
    + by intros [].
    + by intros (a' & [= <-] & ?).
  - cbn zeta. unfold annotations_of, build_clear_reclaim_patch. rewrite !jread_merge_single by done. split_and!.
    + intros k Hk. rewrite obj_get_merge. rewrite !elem_of_cons, elem_of_nil in Hk.
      destruct Hk as [-> | [-> | [-> | []]]]; (apply merge_patch_null; [nodup_keys | done]).
    + intros k Hk. rewrite obj_get_merge. by apply merge_patch_frame.
    + intros k Hk. apply jread_merge_frame. cbn. set_solver.
Qed.
