(* ===== verification/Finalizer.v ===== *)
(** Finalizer, deletion and kill switch ([has_finalizer], [add_finalizer],
    [run_cleanup_with_timeout], [handle_deletion], [handle_kill_switch] of
    [src/reconcilers/helpers.rs]). *)

From S2P Require Import Prelude RustStr Effects Constants Json Crd Externals KubeApi Samples Metrics.
From S2P Require Import SpotSchedule Status Capi.

Definition has_finalizer (resource : ScheduledMachine) : bool :=
  match om_finalizers (metadata resource) with
  | Some f => bool_decide (FINALIZER_SCHEDULED_MACHINE ∈ f)
  | None => false
  end.

Definition finalizers_patch (finalizers : list string) : json :=
  JObj [("metadata", JObj [("finalizers", JArr (JStr <$> finalizers))])].

Definition add_finalizer (resource : ScheduledMachine) : M (rresult Action) :=
  namespace <-? lift (require_namespace resource) ;;
  let name := name_any resource in
  let finalizers := default [] (om_finalizers (metadata resource)) in
  let finalizers := if bool_decide (FINALIZER_SCHEDULED_MACHINE ∈ finalizers) then finalizers
                    else finalizers ++ [FINALIZER_SCHEDULED_MACHINE] in
  kube_ok (patch_sm MgmtClient namespace name (finalizers_patch finalizers)) ?;;
  Ret (Ok (Requeue 0)).

(** ** Cleanup under a timeout *)

Inductive CleanupOutcome : Type :=
| Completed
| Failed (e : ReconcilerError)
| TimedOut.

(** [tokio::time::timeout]: the deadline may pass while any call is in flight;
    the call has then been made and its reply is dropped with the future. *)
Fixpoint with_timeout {A} (secs : Z) (p : M A) : M (option A) :=
  match p with
  | Ret a => Ret (Some a)
  | Vis c k =>
      Vis c (λ r, Vis (DeadlinePassed secs) (λ passed,
        if passed : bool then Ret None else with_timeout secs (k r)))
  end.

Definition run_cleanup_with_timeout (timeout_secs : Z) (cleanup : M (rresult unit)) : M CleanupOutcome :=
  r <- with_timeout timeout_secs cleanup ;;
  Ret match r with
      | Some (Ok _) => Completed
      | Some (Err e) => Failed e
      | None => TimedOut
      end.

Definition build_finalizer_timeout_event (timeout_secs : Z) : KubeEvent := {|
  ev_type := EventWarning;
  ev_reason := "FinalizerCleanupTimedOut";
  ev_note := Some ("Finalizer cleanup exceeded " +:+ pretty timeout_secs +:+ "s timeout. The finalizer was force-removed to unblock namespace deletion. Operators MUST manually verify that the CAPI Machine and its bootstrap/infrastructure resources have been cleaned up — orphan resources are possible. See the troubleshooting docs ('Orphan resources after finalizer timeout') for the runbook.");
  ev_action := "FinalizerCleanupTimedOut" |}.

Section finalizer.
Context `{Externals} (ctx : Context).

(** [matches!(phase, PHASE_ACTIVE | PHASE_SHUTTING_DOWN)] *)
Definition machine_phase (phase : string) : bool :=
  bool_decide (phase = PHASE_ACTIVE) || bool_decide (phase = PHASE_SHUTTING_DOWN).

Definition remove_finalizer (resource : ScheduledMachine) (namespace name : string) : M (rresult Action) :=
  let finalizers := List.filter (λ f, negb (bool_decide (f = FINALIZER_SCHEDULED_MACHINE)))
                      (default [] (om_finalizers (metadata resource))) in
  kube_ok (patch_sm MgmtClient namespace name (finalizers_patch finalizers)) ?;;
  Ret (Ok AwaitChange).

Definition handle_deletion (resource : ScheduledMachine) : M (rresult Action) :=
  namespace <-? lift (require_namespace resource) ;;
  let name := name_any resource in
  match sm_phase resource with
  | Some phase =>
      if machine_phase phase then
        outcome <- run_cleanup_with_timeout FINALIZER_CLEANUP_TIMEOUT_SECS
                     (remove_machine_from_cluster ctx resource MgmtClient namespace) ;;
        match outcome with
        | Completed => remove_finalizer resource namespace name
        | Failed e => Ret (Err e)
        | TimedOut =>
            record_finalizer_cleanup_timeout ;;;
            publish_best_effort (sm_event_ref namespace name)
              (build_finalizer_timeout_event FINALIZER_CLEANUP_TIMEOUT_SECS) ;;;
            if ctx_force_finalizer_on_timeout ctx then remove_finalizer resource namespace name
            else Ret (Err (TimeoutError ("Finalizer cleanup timed out after 600s for " +:+ name)))
        end
      else remove_finalizer resource namespace name
  | None => remove_finalizer resource namespace name
  end.

Definition handle_kill_switch (resource : ScheduledMachine) : M (rresult Action) :=
  namespace <-? lift (require_namespace resource) ;;
  let name := name_any resource in
  (match sm_phase resource with
   | Some phase =>
       if negb (bool_decide (phase = PHASE_INACTIVE)) && negb (bool_decide (phase = PHASE_TERMINATED)) && machine_phase phase
       then remove_machine_from_cluster ctx resource MgmtClient namespace
       else Ret (Ok tt)
   | None => Ret (Ok tt)
   end) ?;;
  update_phase namespace name (sm_phase resource) PHASE_TERMINATED (Some REASON_KILL_SWITCH)
    (Some "Machine terminated due to kill switch") false ?;;
  Ret (Ok (Requeue TIMER_REQUEUE_SECS)).
End finalizer.

(** ** The timeout combinator *)

Definition is_deadline (e : event reply) : bool :=
  match ev_call e with DeadlinePassed _ => true | _ => false end.

(** A run that beats the deadline is a run of the body; one that does not has
    seen the deadline pass. *)
Lemma exec_with_timeout {A} secs (p : M A) : forall t o,
  calls (λ c, match c with DeadlinePassed _ => False | _ => True end) p ->
  exec (with_timeout secs p) t o ->
  match o with
  | Some a => exec p (List.filter (λ e, negb (is_deadline e)) t) a
  | None => Ev (DeadlinePassed secs) true ∈ t
  end.
Proof.
  induction p as [a | c k IH]; intros t o Hp He.
  - destruct He as [-> ->]. done.
  - cbn in He. destruct He as (r & t1 & -> & b & t2 & -> & He). destruct Hp as [Hc Hk].
    destruct b.
    + destruct He as [-> ->]. right. left.
    + specialize (IH r t2 o (Hk r) He). destruct o as [a |].
      * cbn [List.filter is_deadline ev_call negb].
        replace (is_deadline (Ev c r)) with false by (by destruct c). cbn. eauto.
      * by right; right.
Qed.

Section props.
Context `{Externals} (ctx : Context).

Lemma remove_machine_no_deadline resource c ns :
  calls (λ c, match c with DeadlinePassed _ => False | _ => True end) (remove_machine_from_cluster ctx resource c ns).
Proof.
  eapply calls_mono; [| apply remove_machine_only_deletes]. by intros [].
Qed.

(** What a cleanup has achieved. *)
Lemma run_cleanup_spec secs resource ns t o :
  exec (run_cleanup_with_timeout secs (remove_machine_from_cluster ctx resource MgmtClient ns)) t o ->
  match o with
  | Completed => forall ar, ar ∈ owned_resources ctx resource -> deleted t MgmtClient ns ar (name_any resource)
  | Failed _ => True
  | TimedOut => Ev (DeadlinePassed secs) true ∈ t
  end.
Proof.
  unfold run_cleanup_with_timeout. intros He. apply exec_bind in He as (t1 & r & t2 & -> & Hr & He).
  destruct He as [-> ->]. rewrite app_nil_r.
  apply exec_with_timeout in Hr; [| apply remove_machine_no_deadline].
  destruct r as [[[] | e] |]; [| done | done].
  intros ar Har. destruct (remove_deletes_owned ctx resource MgmtClient ns _ Hr ar Har) as (rep & Hin & Hok).
  exists rep. split; [| done]. by apply elem_of_lfilter in Hin as [? _].
Qed.

Definition finalizers_without (resource : ScheduledMachine) : json :=
  finalizers_patch (List.filter (λ f, negb (bool_decide (f = FINALIZER_SCHEDULED_MACHINE)))
                      (default [] (om_finalizers (metadata resource)))).

(** Why the finalizer may go. *)
Definition cleaned_up (resource : ScheduledMachine) (t : trace) : Prop :=
  exists ns, Crd.namespace resource = Some ns /\
  ((forall ph, sm_phase resource = Some ph -> machine_phase ph = false) \/
   (forall ar, ar ∈ owned_resources ctx resource -> deleted t MgmtClient ns ar (name_any resource)) \/
   (ctx_force_finalizer_on_timeout ctx = true /\ Ev (DeadlinePassed FINALIZER_CLEANUP_TIMEOUT_SECS) true ∈ t /\
    exists r : result unit kube_error,
      Ev (Publish (build_finalizer_timeout_event FINALIZER_CLEANUP_TIMEOUT_SECS) (sm_event_ref ns (name_any resource))) r ∈ t)).

Lemma exec_remove_finalizer resource ns t r :
  exec (remove_finalizer resource ns (name_any resource)) t r ->
  exists rep : result unit kube_error,
    t = [Ev (PatchSM MgmtClient ns (name_any resource) (finalizers_without resource)) rep] /\
    r = match rep with Ok _ => Ok AwaitChange | Err e => Err (KubeError e) end.
Proof. intros (rep & t' & -> & He). exists rep. destruct rep; destruct He as [-> ->]; done. Qed.
End props.

Definition is_sm_patch (e : event reply) : bool :=
  match ev_call e with PatchSM _ _ _ _ => true | _ => false end.

Definition no_sm_patch (c : call_t) : Prop := match c with PatchSM _ _ _ _ => False | _ => True end.

Lemma no_sm_patch_trace t e : Forall (λ e, no_sm_patch (ev_call e)) t -> e ∈ t -> is_sm_patch e = false.
Proof. rewrite Forall_forall. intros Hf He. specialize (Hf e He). destruct e as [[] ?]; done. Qed.

Section outcome.
Context `{Externals} (ctx : Context).

Lemma with_timeout_calls {A} secs (p : M A) P :
  calls P p -> P (DeadlinePassed secs) -> calls P (with_timeout secs p).
Proof.
  intros Hp Hd. induction p as [a | c k IH]; [done |]. destruct Hp as [Hc Hk].
  split; [done |]. intros r. split; [done |]. intros []; [done |]. by apply IH.
Qed.

Lemma remove_machine_no_sm_patch resource c ns : calls no_sm_patch (remove_machine_from_cluster ctx resource c ns).
Proof.
  eapply calls_mono; [| apply remove_machine_only_deletes]. by intros [].
Qed.

Lemma remove_machine_no_status resource c ns :
  calls (λ c, match c with PatchSMStatus _ _ _ _ => False | _ => True end) (remove_machine_from_cluster ctx resource c ns).
Proof.
  eapply calls_mono; [| apply remove_machine_only_deletes]. by intros [].
Qed.

(** The conclusion of a deletion, once its prefix is known to be justified. *)
Definition deletion_ok (resource : ScheduledMachine) (t : trace) (r : rresult Action) : Prop :=
  (forall e, e ∈ t -> is_sm_patch e = true ->
     exists t0 ns (rep : result unit kube_error),
       t = t0 ++ [e] /\ e = Ev (PatchSM MgmtClient ns (name_any resource) (finalizers_without resource)) rep /\
       cleaned_up ctx resource t) /\
  (is_ok r = true -> exists ns, r = Ok AwaitChange /\
     Ev (PatchSM MgmtClient ns (name_any resource) (finalizers_without resource)) (Ok tt) ∈ t).

Lemma deletion_ok_final resource ns t1 t2 r :
  Forall (λ e, no_sm_patch (ev_call e)) t1 ->
  exec (remove_finalizer resource ns (name_any resource)) t2 r ->
  cleaned_up ctx resource (t1 ++ t2) -> deletion_ok resource (t1 ++ t2) r.
Proof.
  intros Hq He Hc. apply exec_remove_finalizer in He as (rep & -> & ->). split.
  - intros e He Hp. apply elem_of_app in He as [He | He].
    + by rewrite (no_sm_patch_trace _ _ Hq He) in Hp.
    + apply list_elem_of_singleton in He as ->. by exists t1, ns, rep.
  - destruct rep as [[] | e]; [| done]. intros _. exists ns. split; [done |]. set_solver.
Qed.

Lemma deletion_ok_err resource t e : Forall (λ e, no_sm_patch (ev_call e)) t -> deletion_ok resource t (Err e).
Proof.
  intros Hq. split; [| done]. intros e' He Hp. by rewrite (no_sm_patch_trace _ _ Hq He) in Hp.
Qed.

Lemma handle_deletion_ok resource t r : exec (handle_deletion ctx resource) t r -> deletion_ok resource t r.
Proof.
  unfold handle_deletion. intros He. apply exec_bind_ok in He as [(e & [-> _] & ->) | (t1 & ns & t2 & -> & [-> Hns] & He)].
  { by apply deletion_ok_err. }
  symmetry in Hns. apply ok_or_Ok in Hns. cbn [app].
  assert (Hskip : (forall ph, sm_phase resource = Some ph -> machine_phase ph = false) ->
    exec (remove_finalizer resource ns (name_any resource)) t2 r -> deletion_ok resource t2 r).
  { intros Hph Hf. apply (deletion_ok_final resource ns [] t2); [done | done |]. exists ns. eauto. }
  destruct (sm_phase resource) as [ph |] eqn:Hph; [| by apply Hskip].
  destruct (machine_phase ph) eqn:Hm; [clear Hskip | apply Hskip; [by intros ? [= <-] | done]].
  apply exec_bind in He as (t1 & o & t3 & -> & Ho & He).
  assert (Hq : Forall (λ e, no_sm_patch (ev_call e)) t1).
  { eapply calls_exec; [| exact Ho]. apply calls_bind; [| done].
    apply with_timeout_calls; [apply remove_machine_no_sm_patch | done]. }
  apply run_cleanup_spec in Ho. destruct o as [| e |].
  - eapply deletion_ok_final; [done | exact He |]. exists ns. split; [done |]. right; left.
    intros ar Har. by apply deleted_app_l, Ho.
  - destruct He as [-> ->]. rewrite app_nil_r. by apply deletion_ok_err.
  - destruct He as ([] & t4 & -> & rp & t5 & -> & He). destruct (ctx_force_finalizer_on_timeout ctx) eqn:Hf.
    + rewrite cons_middle, app_assoc, cons_middle, app_assoc.
      eapply deletion_ok_final; [| exact He |].
      * repeat (apply Forall_app_2; [| by repeat constructor]). done.
      * exists ns. split; [done |]. right; right. split_and!; [done | set_solver |]. exists rp. set_solver.
    + destruct He as [-> ->]. apply deletion_ok_err. apply Forall_app_2; [done |]. by repeat constructor.
Qed.
End outcome.



(** The kill switch after the namespace check. *)
Definition kill_switch_body `{Externals} ctx (resource : ScheduledMachine) (namespace : string) : M (rresult Action) :=
  (match sm_phase resource with
   | Some phase =>
       if negb (bool_decide (phase = PHASE_INACTIVE)) && negb (bool_decide (phase = PHASE_TERMINATED)) && machine_phase phase
       then remove_machine_from_cluster ctx resource MgmtClient namespace
       else Ret (Ok tt)
   | None => Ret (Ok tt)
   end) ?;;
  update_phase namespace (name_any resource) (sm_phase resource) PHASE_TERMINATED (Some REASON_KILL_SWITCH)
    (Some "Machine terminated due to kill switch") false ?;;
  Ret (Ok (Requeue TIMER_REQUEUE_SECS)).

Lemma kill_switch_writes `{Externals} ctx resource ns :
  calls (writes_only (ns, name_any resource, PHASE_TERMINATED)) (kill_switch_body ctx resource ns).
Proof.
  apply calls_bind_ok; [| intros _; apply calls_bind_ok; [apply update_phase_writes | done]].
  assert (Hr : calls (writes_only (ns, name_any resource, PHASE_TERMINATED))
    (remove_machine_from_cluster ctx resource MgmtClient ns)).
  { eapply calls_mono; [| apply remove_machine_only_deletes]. by intros []. }
  destruct (sm_phase resource); [| done]. by destruct (_ && _).
Qed.

(** The kill switch writes no phase but Terminated, and for a running
    machine (Active or ShuttingDown) only after its Machine, bootstrap and
    infrastructure objects are deleted or absent. *)
Theorem handle_kill_switch_removes_first `{Externals} ctx resource t r :
  exec (handle_kill_switch ctx resource) t r ->
  forall e ns n p, e ∈ t -> phase_write e = Some (ns, n, p) ->
    p = PHASE_TERMINATED /\ n = name_any resource /\ Crd.namespace resource = Some ns /\
    ((exists ph, sm_phase resource = Some ph /\ machine_phase ph = true) ->
     forall ar, ar ∈ owned_resources ctx resource -> deleted t MgmtClient ns ar n).
Proof.
  intros He e ns n p Hin Hw.
  apply exec_bind_ok in He as [(? & [-> _] & ->) | (t1 & ns0 & t2 & -> & [-> Hns] & He)]; [by apply elem_of_nil in Hin |].
  symmetry in Hns. apply ok_or_Ok in Hns. cbn [app] in *.
  pose proof (calls_exec _ _ _ _ (kill_switch_writes ctx resource ns0) He) as Hq.
  rewrite Forall_forall in Hq. specialize (Hq e Hin _ Hw). simplify_eq. split_and!; try done.
  intros (ph & Hph & Hm) ar Har. unfold kill_switch_body in He. rewrite Hph in He.
  replace (_ && machine_phase ph) with true in He.
  2: { unfold machine_phase in *. rewrite orb_true_iff, !bool_decide_eq_true in Hm. by destruct Hm as [-> | ->]. }
  apply exec_bind_ok in He as [(er & He & ->) | (t3 & [] & t4 & -> & Hr & He)].
  - exfalso. pose proof (calls_exec _ _ _ _ (remove_machine_no_status ctx resource MgmtClient ns0) He) as Hn.
    rewrite Forall_forall in Hn. specialize (Hn e Hin). destruct e as [[] ?]; done.
  - by apply deleted_app_l, (remove_deletes_owned ctx resource MgmtClient ns0 _ Hr).
Qed.

Lemma handle_kill_switch_removes_first_witness :
  exists t r,
    exec (handle_kill_switch (H := toy_externals) sample_ctx (with_phase "Active" sample_sm)) t r /\
    (forall e ns n p, e ∈ t -> phase_write e = Some (ns, n, p) -> p = PHASE_TERMINATED) /\ t <> [].
Proof.
  set (p := handle_kill_switch (H := toy_externals) sample_ctx (with_phase "Active" sample_sm)).
  pose proof (run_exec ok_handler p 0%Z) as Hp. eexists _, _. split; [exact Hp |]. split; [| vm_compute; discriminate].
  intros e ns n q He Hw.
  exact (proj1 (handle_kill_switch_removes_first (H := toy_externals) _ _ _ _ Hp e ns n q He Hw)).
Defined.

(** Deleting (or killing) a machine in the Error phase deletes no CAPI
    object at all: objects left by a failed creation or deletion stay behind
    when the finalizer goes. *)
Theorem error_phase_deletes_nothing `{Externals} ctx resource :
  sm_phase resource = Some PHASE_ERROR ->
  calls (λ c, match c with DeleteDyn _ _ _ _ => False | _ => True end) (handle_deletion ctx resource) /\
  calls (λ c, match c with DeleteDyn _ _ _ _ => False | _ => True end) (handle_kill_switch ctx resource).
Proof.
  intros Hph. unfold handle_deletion, handle_kill_switch. rewrite Hph.
  split; apply calls_bind_lift; intros ns _; cbn [machine_phase].
  - apply calls_bind_ok; [by split | done].
  - apply calls_bind_ok; [done | intros _]. apply calls_bind_ok; [by cbn | done].
Qed.

Lemma error_phase_deletes_nothing_witness :
  sm_phase (with_phase "Error" sample_sm) = Some PHASE_ERROR /\
  calls (λ c, match c with DeleteDyn _ _ _ _ => False | _ => True end)
    (handle_deletion (H := toy_externals) sample_ctx (with_phase "Error" sample_sm)).
Proof.
  split; [reflexivity |].
  exact (proj1 (error_phase_deletes_nothing (H := toy_externals) sample_ctx (with_phase "Error" sample_sm) eq_refl)).
Defined.
