(* ===== verification/Provision.v ===== *)
(** Opt-in agents on the workload cluster: the reclaim agent's label and
    ConfigMap, and the Kata configuration reference
    ([reconcile_reclaim_agent_provision], [reconcile_kata_config_delivery] and
    their builders, [src/reconcilers/helpers.rs]). *)

From S2P Require Import Prelude RustStr Effects Constants Json Crd Externals KubeApi.

Definition DEFAULT_POLL_INTERVAL_MS : Z := 250.

Section reclaim.
Context `{Externals}.

Definition render_reclaim_toml (commands : list string) : string :=
  let body := toml_strings_table [("match_commands", inl commands); ("match_argv_substrings", inl []);
                                  ("poll_interval_ms", inr DEFAULT_POLL_INTERVAL_MS)] in
  "# Auto-generated by 5-spot controller from spec.killIfCommands" +:+ bytes [10] +:+
  "# DO NOT EDIT — changes will be overwritten on next reconcile." +:+ bytes [10] +:+ body.

Definition per_node_configmap_name (node_name : string) : string := RECLAIM_AGENT_CONFIGMAP_PREFIX +:+ node_name.

Definition build_reclaim_agent_configmap (node_name : string) (commands : list string) : ConfigMap := {|
  cm_name := per_node_configmap_name node_name;
  cm_namespace := RECLAIM_AGENT_NAMESPACE;
  cm_labels := <["app.kubernetes.io/component" := "reclaim-agent"]> (<["app.kubernetes.io/name" := "5spot"]> ∅);
  cm_data := <[RECLAIM_CONFIG_DATA_KEY := render_reclaim_toml commands]> ∅ |}.

Definition label_patch (label : string) (value : json) : json :=
  JObj [("metadata", JObj [("labels", JObj [(label, value)])])].

Definition build_reclaim_agent_label_patch (enable : bool) : json :=
  label_patch RECLAIM_AGENT_LABEL (if enable then JStr RECLAIM_AGENT_LABEL_ENABLED else JNull).

Definition RECLAIM_FIELD_MANAGER : string := "5spot-controller-reclaim-agent".

Definition reconcile_reclaim_agent_provision (c : client) (node_name : string) (commands : list string) : M (rresult unit) :=
  let enable := match commands with [] => false | _ => true end in
  kube_ok (patch_node c node_name (MergePatch (build_reclaim_agent_label_patch enable))) ?;;
  let cm_name := per_node_configmap_name node_name in
  if negb enable then
    r <- delete_config_map c RECLAIM_AGENT_NAMESPACE cm_name ;;
    match r with
    | Ok _ => Ret (Ok tt)
    | Err e => if is_api_error HTTP_NOT_FOUND e then Ret (Ok tt) else Ret (Err (KubeError e))
    end
  else
    kube_ok (apply_config_map c RECLAIM_AGENT_NAMESPACE cm_name RECLAIM_FIELD_MANAGER true
               (build_reclaim_agent_configmap node_name commands)) ?;;
    Ret (Ok tt).
End reclaim.

(** ** Kata configuration *)

Inductive KataDeliveryOutcome : Type := KataDisabled | KataReady | SourceNotFound | TargetNamespaceMissing.

Definition KataConfigSourceKind_str (k : KataConfigSourceKind) : string :=
  match k with KindConfigMap => "ConfigMap" | KindSecret => "Secret" end.

Section kata.
Context `{Externals}.

Definition kata_ref_json (k : KataConfig) : json :=
  JObj [("namespace", JStr (kata_namespace k)); ("kind", JStr (KataConfigSourceKind_str (kata_kind k)));
        ("name", JStr (kata_name k)); ("key", JStr (kata_key k)); ("restartService", JStr (kata_restart_service k))].

Definition build_kata_config_ref_annotation_patch (kata : option KataConfig) : json :=
  let value := match kata with Some k => JStr (json_to_string (kata_ref_json k)) | None => JNull end in
  JObj [("metadata", JObj [("annotations", JObj [(KATA_CONFIG_REF_ANNOTATION, value)])])].

Definition build_kata_config_label_patch (enable : bool) : json :=
  label_patch KATA_CONFIG_LABEL (if enable then JStr KATA_CONFIG_LABEL_ENABLED else JNull).

(** The label patch with the annotation patch's metadata inserted key by key. *)
Definition deliver_patch (kata : KataConfig) : json :=
  let patch := build_kata_config_label_patch true in
  let ann := build_kata_config_ref_annotation_patch (Some kata) in
  match jget "metadata" patch ≫= as_object, jget "metadata" ann ≫= as_object with
  | Some meta, Some ann_meta =>
      jset "metadata" (JObj (foldl (λ m kv, obj_set kv.1 kv.2 m) meta ann_meta)) patch
  | _, _ => patch
  end.

Definition reconcile_kata_config_delivery (c : client) (node_name : string) (kata : option KataConfig)
    : M (rresult KataDeliveryOutcome) :=
  let teardown_patch := build_kata_config_ref_annotation_patch None in
  match kata with
  | None =>
      kube_ok (patch_node c node_name (MergePatch teardown_patch)) ?;;
      Ret (Ok KataDisabled)
  | Some kata =>
      present <-? kube_ok
        match kata_kind kata with
        | KindConfigMap => exists_config_map c (kata_namespace kata) (kata_name kata)
        | KindSecret => exists_secret c (kata_namespace kata) (kata_name kata)
        end ;;
      if present : bool then
        kube_ok (patch_node c node_name (MergePatch (deliver_patch kata))) ?;;
        Ret (Ok KataReady)
      else
        ns_exists <-? kube_ok (exists_namespace c (kata_namespace kata)) ;;
        kube_ok (patch_node c node_name (MergePatch teardown_patch)) ?;;
        Ret (Ok (if (ns_exists : bool) then SourceNotFound else TargetNamespaceMissing))
  end.
End kata.

(** ** What the node patches do *)

Definition node_labels (node : json) : list (string * json) := as_obj (jread "labels" (jread "metadata" node)).
Definition node_annotations (node : json) : list (string * json) := as_obj (jread "annotations" (jread "metadata" node)).

Section patches.
Context `{Externals}.

Lemma label_patch_labels label v node :
  v <> JNull ->
  obj_get label (node_labels (merge_patch (label_patch label v) node)) = Some (merge_patch v (jread label (jread "labels" (jread "metadata" node)))) /\
  forall k, k <> label -> obj_get k (node_labels (merge_patch (label_patch label v) node)) = obj_get k (node_labels node).
Proof.
  intros Hv. unfold node_labels, label_patch. rewrite !jread_merge_single by done.
  rewrite obj_get_merge. split; [by apply merge_patch_single |].
  intros k Hk. rewrite obj_get_merge, merge_patch_frame; [done |]. cbn. set_solver.
Qed.

Lemma label_patch_null label node :
  obj_get label (node_labels (merge_patch (label_patch label JNull) node)) = None /\
  forall k, k <> label -> obj_get k (node_labels (merge_patch (label_patch label JNull) node)) = obj_get k (node_labels node).
Proof.
  unfold node_labels, label_patch. rewrite !jread_merge_single by done. split.
  - rewrite obj_get_merge. apply merge_patch_null; [apply NoDup_singleton |]. by rewrite obj_get_cons, decide_True.
  - intros k Hk. rewrite obj_get_merge, merge_patch_frame; [done |]. cbn. set_solver.
Qed.

Lemma label_patch_annotations label v node :
  node_annotations (merge_patch (label_patch label v) node) = node_annotations node.
Proof.
  unfold node_annotations, label_patch. rewrite jread_merge_single by done.
  rewrite jread_merge_frame; [done |]. cbn. set_solver.
Qed.
End patches.

(** ** Properties *)

(** Reclaim-agent projection: the node's opt-in label is set exactly when
    commands are configured, keeping every other label and annotation; the
    per-node ConfigMap is then applied (or deleted, absent being fine) in the
    same cluster, only after the label patch succeeded. *)
Theorem reclaim_agent_projection `{Externals} c n commands :
  let enable := negb (bool_decide (commands = [])) in
  let body := build_reclaim_agent_label_patch enable in
  let cm := per_node_configmap_name n in
  wp (reconcile_reclaim_agent_provision c n commands) (λ t r,
    exists p : result unit kube_error,
      match p with
      | Err e => t = [Ev (PatchNode c n (MergePatch body)) p] /\ r = Err (KubeError e)
      | Ok _ => exists q : result unit kube_error,
          if enable then
            t = [Ev (PatchNode c n (MergePatch body)) p;
                 Ev (ApplyConfigMap c RECLAIM_AGENT_NAMESPACE cm RECLAIM_FIELD_MANAGER true
                       (build_reclaim_agent_configmap n commands)) q] /\
            r = map_err KubeError q
          else
            t = [Ev (PatchNode c n (MergePatch body)) p; Ev (DeleteConfigMap c RECLAIM_AGENT_NAMESPACE cm) q] /\
            r = match q with
                | Ok _ => Ok tt
                | Err e => if is_api_error HTTP_NOT_FOUND e then Ok tt else Err (KubeError e)
                end
      end) /\
  forall node,
    obj_get RECLAIM_AGENT_LABEL (node_labels (merge_patch body node)) = (if enable then Some (JStr "enabled") else None) /\
    (forall k, k <> RECLAIM_AGENT_LABEL -> obj_get k (node_labels (merge_patch body node)) = obj_get k (node_labels node)) /\
    node_annotations (merge_patch body node) = node_annotations node.
Proof.
  cbn zeta. split.
  - unfold reconcile_reclaim_agent_provision. pstep as p.
    destruct p as [u | e]; [| pret; exists (Err e); by destruct commands]. destruct commands as [| cmd commands]; prog_hnf.
    + pstep as q. destruct q as [[] | e]; [by pret; exists (Ok u), (Ok tt) |]. prog_hnf.
      by destruct (is_api_error HTTP_NOT_FOUND e) eqn:He; pret; exists (Ok u), (Err e); cbn; rewrite He.
    + pstep as q. by destruct q as [[] | e]; pret; [exists (Ok u), (Ok tt) | exists (Ok u), (Err e)].
  - intros node. unfold build_reclaim_agent_label_patch. case_bool_decide; cbn [negb].
    + destruct (label_patch_null RECLAIM_AGENT_LABEL node) as [H1 H2]. split_and!; [done | done |].
      apply label_patch_annotations.
    + destruct (label_patch_labels RECLAIM_AGENT_LABEL (JStr RECLAIM_AGENT_LABEL_ENABLED) node) as [H1 H2]; [done |].
      split_and!; [exact H1 | done |]. apply label_patch_annotations.
Qed.

Lemma deliver_patch_eq `{Externals} k :
  deliver_patch k = JObj [("metadata", JObj [("labels", JObj [(KATA_CONFIG_LABEL, JStr KATA_CONFIG_LABEL_ENABLED)]);
    ("annotations", JObj [(KATA_CONFIG_REF_ANNOTATION, JStr (json_to_string (kata_ref_json k)))])])].
Proof. reflexivity. Qed.

(** The probe of the source object, with its answer. *)
Definition kata_probe (c : client) (k : KataConfig) (r : result bool kube_error) : event reply :=
  match kata_kind k with
  | KindConfigMap => Ev (ExistsConfigMap c (kata_namespace k) (kata_name k)) r
  | KindSecret => Ev (ExistsSecret c (kata_namespace k) (kata_name k)) r
  end.

(** The run that ends by patching the node. *)
Definition patches_node (c : client) (n : string) (probes : trace) (body : json) (o : KataDeliveryOutcome)
    (t : trace) (r : rresult KataDeliveryOutcome) : Prop :=
  exists p : result unit kube_error,
    t = probes ++ [Ev (PatchNode c n (MergePatch body)) p] /\
    r = match p with Ok _ => Ok o | Err e => Err (KubeError e) end.

Section kata_effects.
Context `{Externals}.

Lemma deliver_effect k node :
  obj_get KATA_CONFIG_LABEL (node_labels (merge_patch (deliver_patch k) node)) = Some (JStr "enabled") /\
  obj_get KATA_CONFIG_REF_ANNOTATION (node_annotations (merge_patch (deliver_patch k) node))
    = Some (JStr (json_to_string (kata_ref_json k))) /\
  (forall l, l <> KATA_CONFIG_LABEL ->
    obj_get l (node_labels (merge_patch (deliver_patch k) node)) = obj_get l (node_labels node)) /\
  (forall a, a <> KATA_CONFIG_REF_ANNOTATION ->
    obj_get a (node_annotations (merge_patch (deliver_patch k) node)) = obj_get a (node_annotations node)).
Proof.
  rewrite deliver_patch_eq. unfold node_labels, node_annotations. rewrite !jread_merge_single by done.
  rewrite (jread_merge_get "labels" (JObj [(KATA_CONFIG_LABEL, JStr KATA_CONFIG_LABEL_ENABLED)])) by (first [nodup_keys | done]).
  rewrite (jread_merge_get "annotations" (JObj [(KATA_CONFIG_REF_ANNOTATION, JStr (json_to_string (kata_ref_json k)))])) by
    (first [nodup_keys | done]).
  split_and!.
  - rewrite obj_get_merge. by apply merge_patch_single.
  - rewrite obj_get_merge. by apply merge_patch_single.
  - intros l Hl. rewrite obj_get_merge, merge_patch_frame; [done |]. cbn. set_solver.
  - intros a Ha. rewrite obj_get_merge, merge_patch_frame; [done |]. cbn. set_solver.
Qed.

Lemma teardown_effect node :
  let after := merge_patch (build_kata_config_ref_annotation_patch None) node in
  obj_get KATA_CONFIG_REF_ANNOTATION (node_annotations after) = None /\
  (forall a, a <> KATA_CONFIG_REF_ANNOTATION -> obj_get a (node_annotations after) = obj_get a (node_annotations node)) /\
  node_labels after = node_labels node.
Proof.
  cbn zeta. unfold node_annotations, node_labels, build_kata_config_ref_annotation_patch.
  rewrite !jread_merge_single by done. split_and!.
  - rewrite obj_get_merge. apply merge_patch_null; [apply NoDup_singleton |]. by rewrite obj_get_cons, decide_True.
  - intros a Ha. rewrite obj_get_merge, merge_patch_frame; [done |]. cbn. set_solver.
  - rewrite jread_merge_frame; [done |]. cbn. set_solver.
Qed.
End kata_effects.

(** Kata delivery: the reference annotation is written together with the
    opt-in label, and only after the source object was found in the workload
    cluster; without a reference, without a source or without a namespace the
    annotation is removed and the label (the agent's to remove) is left alone.
    It only reads objects and patches the one node: it never writes a
    ConfigMap, a Secret or a namespace. *)
Theorem kata_config_delivery `{Externals} c n kata :
  let teardown := build_kata_config_ref_annotation_patch None in
  wp (reconcile_kata_config_delivery c n kata) (λ t r,
    match kata with
    | None => patches_node c n [] teardown KataDisabled t r
    | Some k => exists present, match present with
        | Err e => t = [kata_probe c k present] /\ r = Err (KubeError e)
        | Ok true => patches_node c n [kata_probe c k present] (deliver_patch k) KataReady t r
        | Ok false => exists ns : result bool kube_error, match ns with
            | Err e => t = [kata_probe c k present; Ev (ExistsNamespace c (kata_namespace k)) ns] /\ r = Err (KubeError e)
            | Ok b => patches_node c n [kata_probe c k present; Ev (ExistsNamespace c (kata_namespace k)) ns] teardown
                        (if b then SourceNotFound else TargetNamespaceMissing) t r
            end
        end
    end) /\
  (forall k node,
    obj_get KATA_CONFIG_LABEL (node_labels (merge_patch (deliver_patch k) node)) = Some (JStr "enabled") /\
    obj_get KATA_CONFIG_REF_ANNOTATION (node_annotations (merge_patch (deliver_patch k) node))
      = Some (JStr (json_to_string (kata_ref_json k)))) /\
  forall node,
    obj_get KATA_CONFIG_REF_ANNOTATION (node_annotations (merge_patch teardown node)) = None /\
    node_labels (merge_patch teardown node) = node_labels node.
Proof.
  cbn zeta. split_and!.
  - unfold reconcile_kata_config_delivery, patches_node, kata_probe. destruct kata as [k |].
    + destruct (kata_kind k); pstep as present; (destruct present as [[] | e]; [| | by pret; exists (Err e)]).
      1, 3: by (pstep as p; destruct p as [u | e]; pret; exists (Ok true); [exists (Ok u) | exists (Err e)]).
      all: pstep as ns; (destruct ns as [b | e]; [| by pret; exists (Ok false), (Err e)]); pstep as p;
        by destruct p as [u | e]; pret; exists (Ok false), (Ok b); [exists (Ok u) | exists (Err e)].
    + pstep as p. by destruct p as [u | e]; pret; [exists (Ok u) | exists (Err e)].
  - intros k node. by destruct (deliver_effect k node) as (H1 & H2 & _).
  - intros node. by destruct (teardown_effect node) as (H1 & _ & H3).
Qed.
