(* ===== verification/Assignment.v ===== *)
(** Distribution of the machines over the controller instances
    ([should_process_resource], [src/reconcilers/helpers.rs]) and the
    correlation id of a reconcile ([generate_reconcile_id],
    [src/reconcilers/scheduled_machine.rs]). *)

From S2P Require Import Prelude RustStr Effects Constants Json Crd Externals KubeApi.

(** ** 64-bit hashing *)

Definition wrap64 (z : Z) : Z := z mod 2 ^ 64.

Fixpoint hash_bytes (hash : Z) (s : string) : Z :=
  match s with
  | EmptyString => hash
  | String a rest => hash_bytes (wrap64 (wrap64 (hash * 31) + byte_of a)) rest
  end.

Definition resource_hash (name namespace : string) (priority : Z) : Z :=
  let resource_id := namespace +:+ "/" +:+ name in
  let priority_modifier := (priority * 1000)%Z in
  wrap64 (hash_bytes 0 resource_id + priority_modifier).

(** [(hash % u64::from(instance_count)) as u32] *)
Definition assigned_instance (name namespace : string) (priority instance_count : Z) : Z :=
  ((resource_hash name namespace priority mod instance_count) mod 2 ^ 32)%Z.

Definition instance_of_env (v : option string) : Z := default DEFAULT_INSTANCE_ID (v ≫= parse_uint U32_MAX).

Definition should_process_resource (name namespace : string) (priority instance_count : Z) : M bool :=
  if bool_decide (instance_count <= 1)%Z then Ret true
  else
    v <- env_var ENV_OPERATOR_INSTANCE_ID ;;
    Ret (bool_decide (assigned_instance name namespace priority instance_count = instance_of_env v)).

(** ** Correlation ids *)

Definition hex_digit (d : Z) : ascii :=
  ascii_of_nat (Z.to_nat (if bool_decide (d < 10)%Z then 48 + d else 87 + d)).

(** [{:x}] of a 64-bit word: at most 16 digits. *)
Fixpoint hex_go (fuel : nat) (z : Z) (acc : string) : string :=
  match fuel with
  | 0 => acc
  | S fuel =>
      let acc := String (hex_digit (z mod 16)) acc in
      if bool_decide (z / 16 = 0)%Z then acc else hex_go fuel (z / 16) acc
  end.
Definition hex_i64 (z : Z) : string := hex_go 16 (wrap64 z) "".

(** [timestamp_nanos_opt]: [None] outside [i64]. *)
Definition timestamp_nanos (now : Z) : Z :=
  if bool_decide (-9223372036854775808 <= now <= 9223372036854775807)%Z then now else 0.

Definition generate_reconcile_id (resource : ScheduledMachine) : M string :=
  let uid_suffix := default "unknown" (om_uid (metadata resource) ≫= λ u, last (split_char "-" u)) in
  now <- utc_now ;;
  Ret (uid_suffix +:+ "-" +:+ hex_i64 (timestamp_nanos now)).

(** ** Lemmas *)

Lemma assigned_instance_range name namespace priority count :
  (0 < count <= U32_MAX)%Z -> (0 <= assigned_instance name namespace priority count < count)%Z.
Proof.
  intros Hc. unfold assigned_instance. set (h := resource_hash name namespace priority).
  pose proof (Z.mod_pos_bound h count ltac:(lia)). unfold U32_MAX in *. rewrite Z.mod_small; lia.
Qed.

(** The environment of the instance with id [id], as a deployment sets it. *)
Lemma instance_of_env_pretty id : (0 <= id <= U32_MAX)%Z -> instance_of_env (Some (pretty id)) = id.
Proof. intros Hid. unfold instance_of_env. cbn. by rewrite parse_uint_pretty. Qed.

(** C32: sharding is a partition: with [count] instances whose ids are set in
    the environment, every machine is processed by exactly one of the ids
    [0 .. count-1], the same on every reconcile; with one instance, every
    machine is processed whatever the environment says; and an instance whose
    variable is missing or unreadable takes the share of instance 0. *)
Theorem sharding_partition name namespace priority count :
  (1 < count <= U32_MAX)%Z ->
  (exists id, (0 <= id < count)%Z /\
     (forall id', (0 <= id' < count)%Z ->
        exec (should_process_resource name namespace priority count)
          [Ev (EnvVar ENV_OPERATOR_INSTANCE_ID) (Some (pretty id'))] (bool_decide (id' = id)))) /\
  (forall v, v ≫= parse_uint U32_MAX = None ->
     exec (should_process_resource name namespace priority count)
       [Ev (EnvVar ENV_OPERATOR_INSTANCE_ID) v] (bool_decide (assigned_instance name namespace priority count = 0%Z))) /\
  (forall c, (c <= 1)%Z -> exec (should_process_resource name namespace priority c) [] true).
Proof.
  intros Hc.
  assert (Hex : forall v, exec (should_process_resource name namespace priority count)
    [Ev (EnvVar ENV_OPERATOR_INSTANCE_ID) v]
    (bool_decide (assigned_instance name namespace priority count = instance_of_env v))).
  { intros v. unfold should_process_resource. rewrite bool_decide_false by lia. by exists v, []. }
  split_and!.
  - exists (assigned_instance name namespace priority count). split; [apply assigned_instance_range; lia |].
    intros id' Hid'. specialize (Hex (Some (pretty id'))).
    rewrite instance_of_env_pretty in Hex by lia.
    by rewrite (bool_decide_ext (id' = _) (assigned_instance name namespace priority count = id')).
  - intros v Hv. specialize (Hex v). unfold instance_of_env in Hex. by rewrite Hv in Hex.
  - intros c Hc'. unfold should_process_resource. by rewrite bool_decide_true.
Qed.

Lemma sharding_partition_witness :
  (1 < 3 <= U32_MAX)%Z /\
  exists id, (0 <= id < 3)%Z /\
    (forall id', (0 <= id' < 3)%Z ->
       exec (should_process_resource "sm" "team" 50 3)
         [Ev (EnvVar ENV_OPERATOR_INSTANCE_ID) (Some (pretty id'))] (bool_decide (id' = id))).
Proof.
  assert (H : (1 < 3 <= U32_MAX)%Z) by (vm_compute; split; [reflexivity | discriminate]).
  split; [exact H |]. exact (proj1 (sharding_partition "sm" "team" 50 3 H)).
Defined.
