(* ===== verification/Phases.v ===== *)
(** The phase handlers of the reconciler and their best-effort steps
    ([handle_pending_phase] to [handle_error_phase] and the three
    [*_best_effort] functions of [src/reconcilers/scheduled_machine.rs]). *)

From S2P Require Import Prelude RustStr Effects Constants Json Crd Externals KubeApi Metrics Duration.
From S2P Require Import SpotSchedule Status Capi Drain NodeTaints ChildClient Provision.

Section phases.
Context `{Externals} `{ChildResolver} (ctx : Context).

(** [node_ref.as_ref().map(|n| n.name.as_str())], empty names excluded. *)
Definition bound_node (node_ref : option NodeRef) : option string :=
  match nr_name <$> node_ref with
  | Some node_name => if str_is_empty node_name then None else Some node_name
  | None => None
  end.

Definition provision_reclaim_agent_best_effort (resource : ScheduledMachine) (node_ref : option NodeRef) : M unit :=
  match bound_node node_ref with
  | None => Ret tt
  | Some node_name =>
      let commands := default [] (kill_if_commands (spec resource)) in
      resolved <- resolve resource ;;
      match resolved with
      | Ok resolved =>
          _r <- reconcile_reclaim_agent_provision (ResolvedClient.client resolved) node_name commands ;;
          Ret tt
      | Err _ => Ret tt
      end
  end.

Definition provision_kata_config_best_effort (resource : ScheduledMachine) (node_ref : option NodeRef) : M unit :=
  match bound_node node_ref with
  | None => Ret tt
  | Some node_name =>
      resolved <- resolve resource ;;
      match resolved with
      | Ok resolved =>
          _r <- reconcile_kata_config_delivery (ResolvedClient.client resolved) node_name (kata (spec resource)) ;;
          Ret tt
      | Err _ => Ret tt
      end
  end.

Definition reconcile_node_taints_best_effort (resource : ScheduledMachine) (node_ref : option NodeRef) : M unit :=
  match om_deletion_timestamp (metadata resource) with
  | Some _ => Ret tt
  | None =>
  if kill_switch (spec resource) then Ret tt
  else match bound_node node_ref with
  | None => Ret tt
  | Some node_name =>
      let desired := node_taints (spec resource) in
      let previously_applied := match status resource with Some s => applied_node_taints s | None => [] end in
      match desired, previously_applied with
      | [], [] => Ret tt
      | _, _ =>
          resolved <- resolve resource ;;
          match resolved with
          | Err _ => Ret tt
          | Ok resolved =>
              outcome <- reconcile_node_taints (ResolvedClient.client resolved) node_name desired previously_applied ;;
              match outcome with
              | Ok (Applied applied) =>
                  if bool_decide (applied = previously_applied) then Ret tt
                  else match Crd.namespace resource with
                       | None => Ret tt
                       | Some namespace =>
                           _r <- patch_applied_node_taints_status MgmtClient namespace (name_any resource) applied ;;
                           Ret tt
                       end
              | _ => Ret tt
              end
          end
      end
  end end.

(** ** Pending *)

Definition handle_pending_phase (resource : ScheduledMachine) (should_be_active : bool) : M (rresult Action) :=
  namespace <-? lift (require_namespace resource) ;;
  let name := name_any resource in
  if negb (is_enabled (spec resource)) then
    update_phase namespace name (Some PHASE_PENDING) PHASE_DISABLED (Some REASON_SCHEDULE_DISABLED)
      (Some "Schedule is disabled") false ?;;
    Ret (Ok (Requeue TIMER_REQUEUE_SECS))
  else if negb should_be_active then
    update_phase namespace name (Some PHASE_PENDING) PHASE_INACTIVE (Some REASON_SCHEDULE_INACTIVE)
      (Some "Outside scheduled time window") false ?;;
    Ret (Ok (Requeue TIMER_REQUEUE_SECS))
  else
    r <- add_machine_to_cluster ctx resource MgmtClient namespace ;;
    match r with
    | Err e =>
        update_phase namespace name (Some PHASE_PENDING) PHASE_ERROR (Some "MachineCreationFailed")
          (Some ("Failed to create CAPI Machine: " +:+ ReconcilerError_display e)) true ?;;
        Ret (Ok (Requeue ERROR_REQUEUE_SECS))
    | Ok _ =>
        update_phase namespace name (Some PHASE_PENDING) PHASE_ACTIVE (Some REASON_MACHINE_CREATED)
          (Some "CAPI Machine created successfully") true ?;;
        Ret (Ok (Requeue TIMER_REQUEUE_SECS))
    end.

(** ** Active *)

Definition enrich_status (resource : ScheduledMachine) (namespace name : string) (machine : DynamicObject) : M unit :=
  let '(provider_id, node_ref) := extract_machine_refs machine in
  _r <- patch_machine_refs_status MgmtClient namespace name provider_id node_ref ;;
  provision_reclaim_agent_best_effort resource node_ref ;;;
  reconcile_node_taints_best_effort resource node_ref ;;;
  provision_kata_config_best_effort resource node_ref.

Definition handle_active_phase (resource : ScheduledMachine) (should_be_active : bool) : M (rresult Action) :=
  namespace <-? lift (require_namespace resource) ;;
  let name := name_any resource in
  if negb (is_enabled (spec resource)) then
    update_phase_with_grace_period namespace name (Some PHASE_ACTIVE) PHASE_SHUTTING_DOWN (Some REASON_SCHEDULE_DISABLED)
      (Some "Schedule disabled - starting graceful shutdown") false ?;;
    Ret (Ok (Requeue TIMER_REQUEUE_SECS))
  else if negb should_be_active then
    update_phase_with_grace_period namespace name (Some PHASE_ACTIVE) PHASE_SHUTTING_DOWN (Some REASON_GRACE_PERIOD)
      (Some "Outside schedule - starting graceful shutdown") false ?;;
    Ret (Ok (Requeue TIMER_REQUEUE_SECS))
  else
    machine <- fetch_capi_machine ctx MgmtClient namespace name ;;
    match machine with
    | Ok (Some machine) => enrich_status resource namespace name machine
    | Ok None | Err _ => Ret tt
    end ;;;
    Ret (Ok (Requeue TIMER_REQUEUE_SECS)).

(** ** ShuttingDown *)

Definition drain_bound_node (resource : ScheduledMachine) (node_name : option string) : M (rresult unit) :=
  match node_name with
  | None => Ret (Ok tt)
  | Some node_name =>
      drain_timeout <-? lift (parse_duration (node_drain_timeout (spec resource))) ;;
      drain_client <-? resolve resource ;;
      _r <- drain_node_with_timeout (ResolvedClient.client drain_client) node_name drain_timeout ;;
      Ret (Ok tt)
  end.

Definition handle_shutting_down_phase (resource : ScheduledMachine) : M (rresult Action) :=
  namespace <-? lift (require_namespace resource) ;;
  let name := name_any resource in
  grace_period_elapsed <-? check_grace_period_elapsed resource ;;
  if grace_period_elapsed : bool then
    node_name <-? get_node_from_machine ctx MgmtClient namespace name ;;
    drain_bound_node resource node_name ?;;
    r <- remove_machine_from_cluster ctx resource MgmtClient namespace ;;
    match r with
    | Err e =>
        update_phase namespace name (Some PHASE_SHUTTING_DOWN) PHASE_ERROR (Some "MachineDeletionFailed")
          (Some ("Failed to delete CAPI Machine: " +:+ ReconcilerError_display e)) false ?;;
        Ret (Ok (Requeue ERROR_REQUEUE_SECS))
    | Ok _ =>
        update_phase namespace name (Some PHASE_SHUTTING_DOWN) PHASE_INACTIVE (Some REASON_MACHINE_DELETED)
          (Some "Machine removed from cluster") false ?;;
        Ret (Ok (Requeue TIMER_REQUEUE_SECS))
    end
  else Ret (Ok (Requeue TIMER_REQUEUE_SECS)).

(** ** Inactive, Disabled, Terminated, EmergencyRemove, Error *)

Definition handle_inactive_phase (resource : ScheduledMachine) (should_be_active : bool) : M (rresult Action) :=
  namespace <-? lift (require_namespace resource) ;;
  let name := name_any resource in
  if negb (is_enabled (spec resource)) then Ret (Ok (Requeue TIMER_REQUEUE_SECS))
  else if negb should_be_active then Ret (Ok (Requeue TIMER_REQUEUE_SECS))
  else
    update_phase namespace name (Some PHASE_INACTIVE) PHASE_PENDING (Some REASON_SCHEDULE_ACTIVE)
      (Some "Schedule became active - initiating machine creation") true ?;;
    Ret (Ok (Requeue TIMER_REQUEUE_SECS)).

Definition handle_disabled_phase (resource : ScheduledMachine) (_should_be_active : bool) : M (rresult Action) :=
  namespace <-? lift (require_namespace resource) ;;
  let name := name_any resource in
  if is_enabled (spec resource) then
    update_phase namespace name (Some PHASE_DISABLED) PHASE_PENDING (Some REASON_SCHEDULE_ACTIVE)
      (Some "Schedule re-enabled") false ?;;
    Ret (Ok (Requeue TIMER_REQUEUE_SECS))
  else Ret (Ok (Requeue TIMER_REQUEUE_SECS)).

Definition handle_terminated_phase (_resource : ScheduledMachine) : M (rresult Action) :=
  Ret (Ok (Requeue TIMER_REQUEUE_SECS)).

Definition handle_emergency_remove_phase (resource : ScheduledMachine) : M (rresult Action) :=
  namespace <-? lift (require_namespace resource) ;;
  let name := name_any resource in
  update_phase namespace name (Some PHASE_EMERGENCY_REMOVE) PHASE_DISABLED (Some REASON_SCHEDULE_DISABLED)
    (Some "Schedule disabled by emergency reclaim; re-enable is a user action") false ?;;
  Ret (Ok (Requeue TIMER_REQUEUE_SECS)).

Definition handle_error_phase (resource : ScheduledMachine) : rresult Action :=
  let? _ := require_namespace resource in Ok (Requeue ERROR_REQUEUE_SECS).
End phases.
