(* ===== verification/Reconcile.v ===== *)
(** The reconcile loop's entry points ([reconcile_scheduled_machine],
    [reconcile_guarded], [reconcile_inner] and their helpers,
    [src/reconcilers/scheduled_machine.rs]). *)

From S2P Require Import Prelude RustStr Effects Constants Json Crd Externals KubeApi Samples Metrics.
From S2P Require Import Validation Duration SpotSchedule Status Capi ChildClient Emergency Finalizer.
From S2P Require Import Assignment Phases.

Definition error_label (e : ReconcilerError) : string :=
  match e with
  | KubeError _ => "kube_api"
  | NotFound _ => "not_found"
  | InvalidConfig _ => "invalid_config"
  | ScheduleError _ => "schedule"
  | CapiError _ => "capi"
  | FileResolutionError _ => "file_resolution"
  | ReferenceValidationError _ => "reference_validation"
  | ValidationError _ => "validation"
  | PermissionDenied _ => "permission_denied"
  | TimeoutError _ => "timeout"
  | KubeconfigSecretMissingKey _ _ _ => "kubeconfig_secret_missing_key"
  | KubeconfigInvalid _ _ _ => "kubeconfig_invalid"
  | ChildClusterUnreachable _ _ _ => "child_cluster_unreachable"
  | Other _ => "other"
  end.

Definition record_reconciliation_result (result : rresult Action) (phase : string) (duration : Z) : M unit :=
  match result with
  | Ok _ => record_reconciliation_success phase duration
  | Err e => record_reconciliation_failure phase duration ;;; record_error (error_label e)
  end.

Definition record_spot_schedule_metrics (namespace kind : string) (verdict : SpotScheduleVerdict)
    (previous_active : option bool) : M unit :=
  record_spot_schedule_resolution namespace kind
    match verdict with Active _ => "active" | Inactive _ => "inactive" | Unresolved _ _ => "unresolved" end ;;;
  match verdict with
  | Unresolved reason _ => record_spot_schedule_resolution_error namespace kind reason
  | _ => Ret tt
  end ;;;
  match SpotScheduleVerdict.active verdict, previous_active with
  | Some now, Some before =>
      if Bool.eqb now before then Ret tt else record_spot_schedule_transition namespace kind
  | _, _ => Ret tt
  end.

Section reconcile.
Context `{Externals} `{ChildResolver} (ctx : Context).

Definition check_emergency_reclaim (resource : ScheduledMachine) : M (rresult (option Action)) :=
  match status resource ≫= node_ref with
  | None => Ret (Ok None)
  | Some nref =>
      let node_name := nr_name nref in
      if str_is_empty node_name then Ret (Ok None)
      else
        n <- get_node MgmtClient node_name ;;
        match n with
        | Err e => if is_api_error HTTP_NOT_FOUND e then Ret (Ok None) else Ret (Err (KubeError e))
        | Ok node =>
            match node_reclaim_request node with
            | None => Ret (Ok None)
            | Some request =>
                action <-? handle_emergency_remove ctx resource node_name request ;;
                Ret (Ok (Some action))
            end
        end
  end.

(** The phase match of [reconcile_inner]; any other phase is handled as
    Pending. *)
Definition dispatch (resource : ScheduledMachine) (current_phase : string) (should_be_active : bool)
    : M (rresult Action) :=
  if decide (current_phase = PHASE_ACTIVE) then handle_active_phase ctx resource should_be_active
  else if decide (current_phase = PHASE_SHUTTING_DOWN) then handle_shutting_down_phase ctx resource
  else if decide (current_phase = PHASE_INACTIVE) then handle_inactive_phase resource should_be_active
  else if decide (current_phase = PHASE_DISABLED) then handle_disabled_phase resource should_be_active
  else if decide (current_phase = PHASE_TERMINATED) then handle_terminated_phase resource
  else if decide (current_phase = PHASE_EMERGENCY_REMOVE) then handle_emergency_remove_phase resource
  else if decide (current_phase = PHASE_ERROR) then lift (handle_error_phase resource)
  else handle_pending_phase ctx resource should_be_active.

Definition last_known_spot_active (resource : ScheduledMachine) : option bool :=
  st ← status resource; spot ← spot_schedule st; sss_active spot.

(** From the schedule resolution on. *)
Definition evaluate_and_dispatch (resource : ScheduledMachine) (namespace : string) : M (rresult Action) :=
  let last := last_known_spot_active resource in
  let reference := schedule (spec resource) in
  spot_verdict <-? resolve_spot_schedule MgmtClient namespace reference ;;
  record_spot_schedule_metrics namespace (ssr_kind reference) spot_verdict last ;;;
  persist_spot_schedule_status namespace (name_any resource) spot_verdict last ?;;
  let should_be_active := compose_should_be_active spot_verdict last in
  record_schedule_evaluation should_be_active ;;;
  dispatch resource (default PHASE_PENDING (sm_phase resource)) should_be_active.

Definition validate_spec (resource : ScheduledMachine) : rresult unit :=
  let? _ := validate_cluster_name (cluster_name (spec resource)) in
  let? _ := validate_kill_if_commands (kill_if_commands (spec resource)) in
  validate_schedule_ref (schedule (spec resource)).

Definition reconcile_inner (resource : ScheduledMachine) : M (rresult Action) :=
  namespace <-? lift (require_namespace resource) ;;
  lift (validate_spec resource) ?;;
  if kill_switch (spec resource) then
    record_kill_switch_activation ;;;
    handle_kill_switch ctx resource
  else
    action <-? check_emergency_reclaim resource ;;
    match action with
    | Some action => Ret (Ok action)
    | None => evaluate_and_dispatch resource namespace
    end.

Definition reconcile_guarded (resource : ScheduledMachine) (namespace name : string) : M (rresult Action) :=
  start_time <- instant_now ;;
  let current_phase := default PHASE_PENDING (sm_phase resource) in
  leader <- is_leader ;;
  if negb leader then Ret (Ok AwaitChange)
  else
    mine <- should_process_resource name namespace (priority (spec resource)) (ctx_instance_count ctx) ;;
    if negb mine then Ret (Ok AwaitChange)
    else
      match om_deletion_timestamp (metadata resource) with
      | Some _ =>
          result <- handle_deletion ctx resource ;;
          spent <- elapsed start_time ;;
          record_reconciliation_result result current_phase spent ;;;
          Ret result
      | None =>
          if negb (has_finalizer resource) then
            result <- add_finalizer resource ;;
            spent <- elapsed start_time ;;
            record_reconciliation_result result current_phase spent ;;;
            Ret result
          else
            result <- reconcile_inner resource ;;
            spent <- elapsed start_time ;;
            record_reconciliation_result result current_phase spent ;;;
            (if is_ok result then call_retry_remove (namespace +:+ "/" +:+ name) else Ret tt) ;;;
            Ret result
      end.

(** The id only names the tracing span. *)
Definition reconcile_scheduled_machine (resource : ScheduledMachine) : M (rresult Action) :=
  match Crd.namespace resource with
  | None =>
      record_error "invalid_config" ;;;
      Ret (Err (InvalidConfig "ScheduledMachine must be namespaced"))
  | Some namespace =>
      let name := name_any resource in
      _reconcile_id <- generate_reconcile_id resource ;;
      reconcile_guarded resource namespace name
  end.
End reconcile.

(** C33: the admission gate: a reconcile past the finalizer asks nothing of any
    cluster for a machine whose spec is inadmissible, and returns that error;
    admissible means a cluster name of 1 to 63 allowed bytes, at most 100
    commands of 1 to 256 bytes each, and a schedule reference in the
    [spotschedules.5spot.finos.org] API group. *)
Theorem inadmissible_spec_is_inert `{Externals} `{ChildResolver} ctx sm ns :
  Crd.namespace sm = Some ns ->
  (is_ok (validate_spec sm) = true <->
    (1 <= String.length (cluster_name (spec sm)) <= 63 /\
     Forall (λ b, cluster_name_byte b = true) (String.list_ascii_of_string (cluster_name (spec sm)))) /\
    (forall l, kill_if_commands (spec sm) = Some l -> List.length l <= 100 /\ Forall command_allowed l) /\
    SpotScheduleRef.group (schedule (spec sm)) = SPOT_SCHEDULE_API_GROUP) /\
  (forall e, validate_spec sm = Err e -> forall t r, exec (reconcile_inner ctx sm) t r -> t = [] /\ r = Err e).
Proof.
  intros Hns. split.
  - rewrite <- validate_cluster_name_spec, <- validate_kill_if_commands_spec, <- validate_schedule_ref_spec.
    unfold validate_spec. destruct (validate_cluster_name _) as [[] |]; cbn [result_bind is_ok]; [| naive_solver].
    destruct (validate_kill_if_commands _) as [[] |]; cbn [result_bind is_ok]; naive_solver.
  - intros e Hv t r He. unfold reconcile_inner, require_namespace in He. rewrite Hns, Hv in He. by destruct He as [-> ->].
Qed.

Definition bad_cluster : ScheduledMachine := {|
  metadata := metadata sample_sm; status := None;
  spec := {| schedule := schedule (spec sample_sm); enabled := true; cluster_name := "bad name";
     bootstrap_spec := bootstrap_spec (spec sample_sm); infrastructure_spec := infrastructure_spec (spec sample_sm);
     machine_template := None; priority := 50; graceful_shutdown_timeout := "5m"; node_drain_timeout := "5m";
     kill_switch := true; node_taints := []; kill_if_commands := None; kubeconfig_secret_ref := None; kata := None |} |}.

Lemma inadmissible_spec_is_inert_witness :
  Crd.namespace bad_cluster = Some "team" /\
  exists e, validate_spec (H := toy_externals) bad_cluster = Err e /\
  forall t r, exec (reconcile_inner (H := toy_externals) (H0 := cache_resolver (H := toy_externals)) sample_ctx bad_cluster) t r ->
    t = [] /\ r = Err e.
Proof.
  split; [reflexivity |]. destruct (validate_spec (H := toy_externals) bad_cluster) as [u | e] eqn:E; [by vm_compute in E |].
  exists e. split; [reflexivity |].
  exact (proj2 (inadmissible_spec_is_inert (H := toy_externals) (H0 := cache_resolver (H := toy_externals)) sample_ctx bad_cluster "team" eq_refl) e E).
Defined.
