(* ===== verification/Bounded.v ===== *)
(** Termination of a reconcile, with its cost: whatever the cluster answers, a
    reconcile returns after a number of calls that depends only on the number
    of pods the cluster listed. *)

From S2P Require Import Prelude RustStr Effects Constants Json Crd Externals KubeApi Samples Metrics.
From S2P Require Import Duration SpotSchedule Status Capi Drain NodeTaints ChildClient Emergency Finalizer.
From S2P Require Import Provision Assignment Phases Reconcile.

(** ** Budgets *)

(** The pods a reply adds to the work. *)
Definition pods_of (e : event reply) : nat :=
  match e with Ev (ListPods _ _) (Ok items) => List.length items | _ => 0 end.
Definition listed_pods (t : trace) : nat := sum_list_with pods_of t.

(** [cost n p]: a budget of [n] pays for every call of [p], each listed pod
    adding three: the clock, the deletion and its metric. *)
Fixpoint cost {A} (n : nat) (p : M A) : Prop :=
  match p with
  | Ret _ => True
  | Vis c k => 1 <= n /\ forall r, cost (3 * pods_of (Ev c r) + pred n) (k r)
  end.

Lemma cost_mono {A} (p : M A) : forall n m, n <= m -> cost n p -> cost m p.
Proof.
  induction p as [a | c k IH]; cbn; [done |]. intros n m Hle [Hn Hk]. split; [lia |].
  intros r. eapply IH; [| apply Hk]. lia.
Qed.

Lemma cost_bind {A B} (p : M A) (f : A -> M B) : forall n m,
  cost n p -> (forall a, cost m (f a)) -> cost (n + m) (bind p f).
Proof.
  induction p as [a | c k IH]; cbn; intros n m Hp Hf; [eapply cost_mono; [| apply Hf]; lia |].
  destruct Hp as [Hn Hk]. split; [lia |]. intros r.
  eapply cost_mono; [| apply IH; [apply Hk | exact Hf]]. lia.
Qed.

Lemma cost_assoc {A B C} (p : M A) (f : A -> M B) (g : B -> M C) : forall n,
  cost n (bind p (λ a, bind (f a) g)) -> cost n (bind (bind p f) g).
Proof. induction p as [a | c k IH]; cbn; [done |]. intros n [Hn Hk]. split; [done |]. intros r. apply IH, Hk. Qed.

(** The bind rule for a goal whose budget is known. *)
Lemma cost_seq {A B} n m (p : M A) (f : A -> M B) :
  cost n p -> n <= m -> (forall a, cost (m - n) (f a)) -> cost m (bind p f).
Proof. intros Hp Hle Hf. eapply cost_mono; [| by apply (cost_bind p f n (m - n))]. lia. Qed.
Lemma cost_seq_ok {A B Er} n m (p : M (result A Er)) (f : A -> M (result B Er)) :
  cost n p -> n <= m -> (forall a, cost (m - n) (f a)) -> cost m (bind_ok p f).
Proof. intros Hp Hle Hf. apply (cost_seq n); [done.. |]. by intros [a | e]. Qed.
Lemma cost_lift {A B Er} m (r : result A Er) (f : A -> M (result B Er)) :
  (forall a, r = Ok a -> cost m (f a)) -> cost m (bind_ok (lift r) f).
Proof. destruct r; cbn; auto. Qed.

Lemma cost_exec {A} (p : M A) : forall n t a, cost n p -> exec p t a -> List.length t <= n + 3 * listed_pods t.
Proof.
  induction p as [a | c k IH]; cbn [cost exec]; intros n t a'; [by intros _ [-> _]; cbn; lia |].
  intros [Hn Hk] (r & t' & -> & He). specialize (IH r _ _ _ (Hk r) He). unfold listed_pods in *. cbn [List.length sum_list_with]. lia.
Qed.

(** Calls that list no pods are paid for one by one; the deadline of a timeout
    is looked at after each. *)
Lemma cost_timeout {A} secs (p : M A) : forall n,
  calls (λ c, match c with ListPods _ _ => False | _ => True end) p -> cost n p -> cost (2 * n) (with_timeout secs p).
Proof.
  induction p as [a | c k IH]; cbn -[pods_of Nat.mul]; [done |]. intros n [Hc Hq] [Hn Hk]. split; [lia |]. intros r.
  assert (Hp : forall r, pods_of (Ev c r) = 0) by by destruct c.
  split; [rewrite Hp; lia |]. intros b. destruct b; cbn -[pods_of Nat.mul]; [done |].
  eapply cost_mono; [| apply IH; [apply Hq | apply Hk]]. rewrite !Hp. cbn [pods_of]. lia.
Qed.

(** ** Automation *)

Lemma cost_Ret {A} (a : A) : cost 0 (Ret a).
Proof. done. Qed.
Lemma cost_Vis {A} n c (k : reply c -> M A) :
  match c with ListPods _ _ => False | _ => True end -> (forall r, cost n (k r)) -> cost (S n) (Vis c k).
Proof. intros Hc Hk. split; [lia |]. intros r. cbn [pred]. by destruct c. Qed.

(** A straight sequence of calls. *)
Ltac cost_line :=
  lazymatch goal with
  | |- cost _ ?p =>
      let p' := eval hnf in p in
      lazymatch p' with
      | Ret ?a => exact (cost_Ret a)
      | Vis ?c ?k => refine (cost_Vis _ c k I _); intros ?; cost_line
      end
  end.
Create HintDb cost.
#[export] Hint Extern 9 (cost _ _) => cost_line : cost.

(** One step of a cost proof: bind, branch, or a component's lemma. *)
Ltac cost_step :=
  lazymatch goal with
  | |- cost _ (Ret _) => exact I
  | |- cost _ (lift _) => exact I
  | |- cost _ (bind_ok (lift _) _) => apply cost_lift; intros ? _; cbv beta
  | |- cost _ (bind (Ret _) _) => cbn [bind]
  | |- cost _ (bind (match ?x with _ => _ end) _) => destruct x
  | |- cost _ (bind_ok (match ?x with _ => _ end) _) => destruct x
  | |- cost _ (bind_ok _ _) => eapply cost_seq_ok; [solve [eauto with cost] | lia | intros ?; cbn [Nat.sub]]
  | |- cost _ (bind _ _) => eapply cost_seq; [solve [eauto with cost] | lia | intros ?; cbn [Nat.sub]]
  | |- cost _ (match ?x with _ => _ end) => destruct x
  | |- cost _ _ => eapply cost_mono; [| solve [eauto with cost]]; lia
  end.
Ltac costs := repeat (cbv zeta; cost_step).

(** ** Components *)

Section components.
Context `{Externals} (ctx : Context) (sm : ScheduledMachine) (ns : string).

Lemma cost_inc m l : cost 1 (inc m l).
Proof. cost_line. Qed.

(** Two calls and a metric per pod. *)
Lemma cost_evict c n t0 tmo pods : cost (3 * List.length pods + 1) (evict_loop c n t0 tmo pods).
Proof.
  induction pods as [| p pods IH]; cbn [evict_loop List.length]; [eapply cost_mono; [| cost_line]; lia |].
  apply (cost_seq 1); [cost_line | lia |]. intros spent. case_bool_decide; [eapply cost_mono; [| cost_line]; lia |].
  apply (cost_seq_ok 2); [unfold evict_pod; costs | lia |]. intros _. eapply cost_mono; [| exact IH]. lia.
Qed.

(** A drain costs four calls beside those of the pods it lists. *)
Lemma cost_drain c n secs : cost 4 (drain_node_with_timeout c n secs).
Proof.
  unfold drain_node_with_timeout. apply (cost_seq_ok 1); [unfold cordon_node; cost_line | lia |]. intros _.
  cbn -[evict_loop]. split; [lia |]. intros [items | e]; [| done]. cbn -[evict_loop].
  destruct (List.filter should_evict_pod items) as [| p l] eqn:El; [done |]. cbn -[evict_loop]. split; [lia |]. intros t0.
  eapply cost_mono; [| apply cost_evict]. rewrite <- El.
  pose proof (List.filter_length_le should_evict_pod items). lia.
Qed.
Hint Resolve cost_drain : cost.

Lemma cost_delete c av k n : cost 1 (delete_dynamic_resource c ns av k n).
Proof. unfold delete_dynamic_resource. costs. Qed.
Lemma cost_delete_embedded c n r : cost 1 (delete_embedded c ns n r).
Proof. unfold delete_embedded. pose proof cost_delete. costs. Qed.
Hint Resolve cost_delete_embedded : cost.
Lemma cost_remove c : cost 3 (remove_machine_from_cluster ctx sm c ns).
Proof. unfold remove_machine_from_cluster. costs. Qed.
Lemma cost_review c av k l : cost 1 (ensure_can_create c ns av k l).
Proof. unfold ensure_can_create. destruct (parse_api_version av). costs. Qed.
Lemma cost_create w c av k o : cost 1 (capi_err w (create_dynamic_resource c ns av k o)).
Proof. unfold capi_err. apply (cost_seq 1); [unfold create_dynamic_resource; costs | lia | done]. Qed.
Hint Resolve cost_remove cost_review cost_create : cost.
Lemma cost_add c : cost 6 (add_machine_to_cluster ctx sm c ns).
Proof. unfold add_machine_to_cluster. costs. Qed.
End components.
#[export] Hint Resolve cost_drain cost_delete_embedded cost_remove cost_add : cost.

(** ** The resolver and the steps on a node *)

Section steps.
Context `{Externals} (ctx : Context) (sm : ScheduledMachine) (ns : string).

Lemma cost_build n k e : cost 6 (build_or_get_cached MgmtClient ns n k e).
Proof.
  unfold build_or_get_cached. apply (cost_seq 1); [cost_line | lia | intros [s | er]; cbn [Nat.sub]]; [| by costs].
  apply (cost_seq 1); [cost_line | lia | intros [c |]; cbn [Nat.sub]]; [done |].
  apply cost_lift; intros raw _. apply cost_lift; intros child _.
  apply (cost_seq 1); [cost_line | lia |]. intros [[] [ev |]]; (eapply cost_mono; [| cost_line]; cbn [Nat.sub]; lia).
Qed.
End steps.
#[export] Hint Resolve cost_build : cost.

Section resolution.
Context `{Externals} (ctx : Context) (sm : ScheduledMachine).

Lemma cost_outcome r p : cost 2 (record_for_outcome r p).
Proof. destruct r; (eapply cost_mono; [| cost_line]; lia). Qed.
Lemma cost_resolve : cost 8 (cache_resolve MgmtClient sm).
Proof.
  unfold cache_resolve. apply cost_lift; intros ns _. destruct (kubeconfig_secret_ref (spec sm)).
  - apply (cost_seq 6); [apply cost_build | lia | intros a; cbn [Nat.sub]].
    apply (cost_seq 2); [apply cost_outcome | lia | done].
  - apply (cost_seq 6); [apply cost_build | lia | intros a; cbn [Nat.sub]].
    destruct a as [r | []]; (eapply cost_mono; [| cost_line]; lia).
Qed.

Lemma cost_reclaim c n l : cost 2 (reconcile_reclaim_agent_provision c n l).
Proof. unfold reconcile_reclaim_agent_provision. destruct l; cbn [negb]; costs. Qed.
Lemma cost_kata c n k : cost 3 (reconcile_kata_config_delivery c n k).
Proof. unfold reconcile_kata_config_delivery. destruct k as [k |]; [destruct (kata_kind k) |]; costs. Qed.
Lemma cost_apply_taints c n p : cost 2 (apply_node_taints c n p).
Proof. unfold apply_node_taints. costs. Qed.
Hint Resolve cost_apply_taints : cost.
Lemma cost_taints c n d p : cost 3 (reconcile_node_taints c n d p).
Proof. unfold reconcile_node_taints. costs. Qed.
Lemma cost_refs c ns n p r : cost 1 (patch_machine_refs_status c ns n p r).
Proof. unfold patch_machine_refs_status. destruct p, r; cbn [opt_field app]; costs. Qed.
Lemma cost_applied c ns n l : cost 1 (patch_applied_node_taints_status c ns n l).
Proof. cost_line. Qed.
Lemma cost_update ns n from p reason msg i : cost 3 (update_phase ns n from p reason msg i).
Proof. cost_line. Qed.
Lemma cost_update_grace ns n from p reason msg i : cost 3 (update_phase_with_grace_period ns n from p reason msg i).
Proof. cost_line. Qed.
Lemma cost_fetch c ns n : cost 1 (fetch_capi_machine ctx c ns n).
Proof. unfold fetch_capi_machine. costs. Qed.
Hint Resolve cost_fetch : cost.
Lemma cost_get_node c ns n : cost 1 (get_node_from_machine ctx c ns n).
Proof. unfold get_node_from_machine. costs. Qed.
Lemma cost_grace : cost 1 (check_grace_period_elapsed sm).
Proof. unfold check_grace_period_elapsed. costs. Qed.
Lemma cost_spot c ns r : cost 2 (resolve_spot_schedule c ns r).
Proof. unfold resolve_spot_schedule. costs. Qed.
Lemma cost_spot_metrics ns k v l : cost 3 (record_spot_schedule_metrics ns k v l).
Proof. destruct v, l as [[] |]; (eapply cost_mono; [| cost_line]; lia). Qed.
Lemma cost_persist ns n v l : cost 2 (persist_spot_schedule_status ns n v l).
Proof. unfold persist_spot_schedule_status. destruct (spot_transitioned _ _); (eapply cost_mono; [| cost_line]; lia). Qed.
Lemma cost_result r p d : cost 3 (record_reconciliation_result r p d).
Proof. destruct r as [a | []]; (eapply cost_mono; [| cost_line]; lia). Qed.
End resolution.
#[export] Hint Resolve cost_resolve cost_reclaim cost_kata cost_taints cost_refs cost_applied cost_update
  cost_update_grace cost_fetch cost_get_node cost_grace cost_spot cost_spot_metrics cost_persist cost_result : cost.

(** ** The handlers *)

Section handlers.
Context `{Externals} (ctx : Context) (sm : ScheduledMachine).

Lemma cost_resolver : cost 8 (resolve sm).
Proof. apply cost_resolve. Qed.
Hint Resolve cost_resolver : cost.

Lemma cost_enrich ns n m : cost 34 (enrich_status sm ns n m).
Proof.
  unfold enrich_status. destruct (extract_machine_refs m) as [p r].
  assert (H1 : cost 10 (provision_reclaim_agent_best_effort sm r)) by (unfold provision_reclaim_agent_best_effort; costs).
  assert (H2 : cost 12 (reconcile_node_taints_best_effort sm r)) by (unfold reconcile_node_taints_best_effort; costs).
  assert (H3 : cost 11 (provision_kata_config_best_effort sm r)) by (unfold provision_kata_config_best_effort; costs).
  costs.
Qed.
Hint Resolve cost_enrich : cost.

Lemma cost_dispatch p b : cost 35 (dispatch ctx sm p b).
Proof.
  unfold dispatch.
  assert (Ha : cost 35 (handle_active_phase ctx sm b)) by (unfold handle_active_phase; costs).
  assert (Hd : forall n, cost 12 (drain_bound_node sm n)) by (intros n; unfold drain_bound_node; costs).
  assert (Hs : cost 20 (handle_shutting_down_phase ctx sm)) by (unfold handle_shutting_down_phase; costs).
  assert (Hi : cost 3 (handle_inactive_phase sm b)) by (unfold handle_inactive_phase; costs).
  assert (Hx : cost 3 (handle_disabled_phase sm b)) by (unfold handle_disabled_phase; costs).
  assert (He : cost 3 (handle_emergency_remove_phase sm)) by (unfold handle_emergency_remove_phase; costs).
  assert (Hp : cost 9 (handle_pending_phase ctx sm b)) by (unfold handle_pending_phase; costs).
  unfold handle_terminated_phase. costs.
Qed.
Lemma cost_emergency n q : cost 33 (handle_emergency_remove ctx sm n q).
Proof. unfold handle_emergency_remove. costs. Qed.
Lemma cost_evaluate ns : cost 43 (evaluate_and_dispatch ctx sm ns).
Proof. unfold evaluate_and_dispatch. pose proof cost_dispatch. costs. Qed.
Lemma cost_kill : cost 6 (handle_kill_switch ctx sm).
Proof.
  unfold handle_kill_switch. apply cost_lift; intros ns _. cbv zeta.
  apply (cost_seq_ok 3); [| lia | intros []; cbn [Nat.sub]; costs]. destruct (sm_phase sm) as [p |]; costs.
Qed.
Hint Resolve cost_emergency cost_evaluate cost_kill : cost.

Lemma cost_inner : cost 44 (reconcile_inner ctx sm).
Proof.
  unfold reconcile_inner. apply cost_lift; intros ns _. apply cost_lift; intros [] _.
  destruct (kill_switch (spec sm)); [costs |]. unfold check_emergency_reclaim.
  assert (Hn : cost 44 (evaluate_and_dispatch ctx sm ns)) by (eapply cost_mono; [| apply cost_evaluate]; lia).
  destruct (status sm ≫= node_ref) as [nref |]; [| exact Hn]. destruct (str_is_empty (nr_name nref)); [exact Hn |].
  cbn -[evaluate_and_dispatch handle_emergency_remove]. split; [lia |].
  intros [node | e]; cbn -[evaluate_and_dispatch handle_emergency_remove].
  - destruct (node_reclaim_request node) as [q |]; [| apply cost_evaluate].
    unfold bind_ok. apply cost_assoc. apply (cost_seq 33); [apply cost_emergency | lia | by intros [a | e]].
  - destruct (is_api_error _ e); cbn -[evaluate_and_dispatch]; [apply cost_evaluate | done].
Qed.

Lemma cost_deletion : cost 9 (handle_deletion ctx sm).
Proof.
  unfold handle_deletion. apply cost_lift; intros ns _. cbv zeta.
  assert (Hr : cost 1 (remove_finalizer sm ns (name_any sm))) by (unfold remove_finalizer; costs).
  assert (Hc : cost 6 (run_cleanup_with_timeout FINALIZER_CLEANUP_TIMEOUT_SECS (remove_machine_from_cluster ctx sm MgmtClient ns))).
  { unfold run_cleanup_with_timeout. apply (cost_seq 6); [| lia | done]. apply (cost_timeout _ _ 3); [| apply cost_remove].
    eapply calls_mono; [| apply remove_machine_only_deletes]. by intros []. }
  costs.
Qed.

Lemma cost_process n ns p c : cost 1 (should_process_resource n ns p c).
Proof. unfold should_process_resource. costs. Qed.
Lemma cost_reconcile : cost 53 (reconcile_scheduled_machine ctx sm).
Proof.
  unfold reconcile_scheduled_machine, reconcile_guarded.
  pose proof cost_inner. pose proof cost_deletion. pose proof cost_process.
  assert (Hf : cost 1 (add_finalizer sm)) by (unfold add_finalizer; costs). costs.
Qed.
End handlers.

(** C19: a reconcile terminates: against any environment, however its replies
    change from call to call, it returns a result after at most 53 calls
    (requests, clock readings, metrics and shared maps together), and three
    more for each pod that the cluster listed for the node it drained; no reply
    makes it loop or wait for another. *)
Theorem reconcile_terminates `{Externals} {S} (environment : forall c, S -> S * reply c) (s : S) ctx sm :
  let '(_, t, r) := run environment s (reconcile_scheduled_machine ctx sm) in
  exec (reconcile_scheduled_machine ctx sm) t r /\ List.length t <= 53 + 3 * listed_pods t.
Proof.
  pose proof (run_exec environment (reconcile_scheduled_machine ctx sm) s) as He.
  destruct (run _ s _) as [[s' t] r]. split; [exact He |]. eapply cost_exec; [apply cost_reconcile | exact He].
Qed.
