(* ===== verification/Confinement.v ===== *)
(** Where a reconcile may act: its own namespace on the management cluster, and
    the workload cluster its machine designates. *)

From S2P Require Import Prelude RustStr Effects Constants Json Crd Externals KubeApi Samples Metrics.
From S2P Require Import Duration SpotSchedule Status Capi Drain NodeTaints ChildClient Emergency Finalizer.
From S2P Require Import Provision Assignment Phases Reconcile.

(** A client for workload objects: never the management cluster's when the
    machine names a kubeconfig. *)
Definition workload_client (sm : ScheduledMachine) (c : client) : Prop :=
  kubeconfig_secret_ref (spec sm) <> None -> c <> MgmtClient.

(** The name and the namespace an object is created under. *)
Definition names (obj : json) (name ns : string) : Prop :=
  jpath ["metadata"; "name"] obj = Some (JStr name) /\ jpath ["metadata"; "namespace"] obj = Some (JStr ns).

(** What the parts of a reconcile that do not resolve a client do, when they
    are given workload clients in [W] only. *)
Definition confined_by (W : client -> Prop) (sm : ScheduledMachine) (ns : string) (call : call_t) : Prop :=
  match call with
  | PatchNode c _ _ => W c
  | ListPods c sel => W c /\ exists node, sel = "spec.nodeName=" +:+ node
  | DeletePod c _ _ g => W c /\ g = 30%Z
  | ApplyConfigMap c ns' _ _ _ _ | DeleteConfigMap c ns' _ => W c /\ ns' = RECLAIM_AGENT_NAMESPACE
  | ExistsConfigMap c ns' n | ExistsSecret c ns' n =>
      W c /\ exists k, kata (spec sm) = Some k /\ ns' = kata_namespace k /\ n = kata_name k
  | ExistsNamespace c n => W c /\ exists k, kata (spec sm) = Some k /\ n = kata_namespace k
  | GetNode c _ => c = MgmtClient \/ W c
  | GetDyn c ns' _ n | DeleteDyn c ns' _ n => c = MgmtClient /\ ns' = ns /\ n = name_any sm
  | GetOptDyn c ns' _ n => c = MgmtClient /\ ns' = ns /\ n = ssr_name (schedule (spec sm))
  | CreateDyn c ns' _ obj => c = MgmtClient /\ ns' = ns /\ names obj (name_any sm) ns
  | CreateReview c a => c = MgmtClient /\ ra_namespace a = ns /\ ra_verb a = "create"
  | PinnedKind c _ _ _ => c = MgmtClient
  | PatchSM c ns' n _ | PatchSMStatus c ns' n _ => c = MgmtClient /\ ns' = ns /\ n = name_any sm
  | Publish _ about => er_namespace about = ns /\ er_name about = name_any sm
  | RecordReclaim k _ | RetryRemove k => k = ns +:+ "/" +:+ name_any sm
  | EnvVar v => v = ENV_OPERATOR_INSTANCE_ID
  | MetricOp op => metric_op_ok op
  | UtcNow | InstantNow | DeadlinePassed _ | IsLeader => True
  | GetSecret _ _ _ | CacheLookup _ _ | CacheInsert _ _ _ | HookResolved _ _ | HookEvicted _
  | RetryIncr _ | PatchProviderStatus _ _ _ _ _ => False
  end.

(** The whole reconcile: it also resolves its client, from the Secret the
    machine designates. *)
Definition confined (sm : ScheduledMachine) (ns : string) (call : call_t) : Prop :=
  match call with
  | GetSecret _ _ _ | CacheLookup _ _ | CacheInsert _ _ _ | HookResolved _ _ | HookEvicted _ => resolver_call sm call
  | call => confined_by (workload_client sm) sm ns call
  end.

(** ** What each component calls *)

Section components.
Context `{Externals} (ctx : Context) (W : client -> Prop) (sm : ScheduledMachine) (ns : string).
Context (Hns : Crd.namespace sm = Some ns).
Notation ok := (confined_by W sm ns).

Lemma confined_drain c n secs : W c -> calls ok (drain_node_with_timeout c n secs).
Proof.
  intros Hc. eapply calls_mono; [| apply (drain_calls c n)]. intros []; cbn; try done; naive_solver.
Qed.

Lemma confined_remove : calls ok (remove_machine_from_cluster ctx sm MgmtClient ns).
Proof. eapply calls_mono; [| apply remove_machine_only_deletes]. intros []; cbn; tauto. Qed.

Lemma confined_update_phase from p reason msg i : calls ok (update_phase ns (name_any sm) from p reason msg i).
Proof. by cbn. Qed.
Lemma confined_update_phase_grace from p reason msg i :
  calls ok (update_phase_with_grace_period ns (name_any sm) from p reason msg i).
Proof. by cbn. Qed.

Lemma confined_persist v prev : calls ok (persist_spot_schedule_status ns (name_any sm) v prev).
Proof. unfold persist_spot_schedule_status. destruct (spot_transitioned _ _); by cbn. Qed.
Lemma confined_machine_refs p r : calls ok (patch_machine_refs_status MgmtClient ns (name_any sm) p r).
Proof. unfold patch_machine_refs_status. by destruct p, r; cbn. Qed.

Lemma confined_fetch : calls ok (fetch_capi_machine ctx MgmtClient ns (name_any sm)).
Proof. unfold fetch_capi_machine. pstep as r; [done |]. destruct r; [done |]. prog_hnf. by destruct (is_api_error _ _). Qed.

Lemma confined_spot : calls ok (resolve_spot_schedule MgmtClient ns (schedule (spec sm))).
Proof.
  unfold resolve_spot_schedule. destruct (match split_once _ _ with Some gv => gv | None => _ end) as [g v].
  pstep as k; [done |]. destruct k; [| done]. pstep as o; [done |]. by destruct o as [[o |] |].
Qed.

(** ** Creation *)

Definition creates (c : client) (call : call_t) : Prop :=
  match call with
  | CreateReview c' a => c' = c /\ ra_namespace a = ns /\ ra_verb a = "create"
  | CreateDyn c' ns' _ obj => c' = c /\ ns' = ns /\ names obj (name_any sm) ns
  | _ => False
  end.

Lemma ensure_creates c v k w : calls (creates c) (ensure_can_create c ns v k w).
Proof.
  unfold ensure_can_create. destruct (parse_api_version v). apply calls_bind_ok; [by repeat constructor |].
  intros r. by destruct (rs_allowed _).
Qed.
Lemma create_creates c v k obj what :
  names obj (name_any sm) ns -> calls (creates c) (capi_err what (create_dynamic_resource c ns v k obj)).
Proof.
  intros Hn. unfold capi_err, create_dynamic_resource. apply calls_bind; [| by intros []].
  destruct (dynamic_object_error obj); [done |]. apply calls_bind; [by split |].
  intros [| e]; [done |]. by destruct (is_api_error _ e).
Qed.

Lemma add_machine_creates c : calls (creates c) (add_machine_to_cluster ctx sm c ns).
Proof.
  unfold add_machine_to_cluster. cbn zeta.
  do 8 (apply calls_bind_lift; intros ? _). do 3 (apply calls_bind_ok; [apply ensure_creates | intros _]).
  do 4 (apply calls_bind_lift; intros ? _). do 3 (apply calls_bind_ok; [by apply create_creates | intros _]). done.
Qed.

Lemma confined_add : calls ok (add_machine_to_cluster ctx sm MgmtClient ns).
Proof. eapply calls_mono; [| apply add_machine_creates]. intros []; cbn; tauto. Qed.

(** ** Node writes *)

Definition node_write (c : client) (call : call_t) : Prop :=
  match call with
  | GetNode c' _ | PatchNode c' _ _ => c' = c
  | ApplyConfigMap c' ns' _ _ _ _ | DeleteConfigMap c' ns' _ => c' = c /\ ns' = RECLAIM_AGENT_NAMESPACE
  | ExistsConfigMap c' ns' n | ExistsSecret c' ns' n =>
      c' = c /\ exists k, kata (spec sm) = Some k /\ ns' = kata_namespace k /\ n = kata_name k
  | ExistsNamespace c' n => c' = c /\ exists k, kata (spec sm) = Some k /\ n = kata_namespace k
  | _ => False
  end.

Lemma confined_node_write {A} c (p : M A) : W c -> calls (node_write c) p -> calls ok p.
Proof. intros Hc. apply calls_mono. intros []; cbn; naive_solver. Qed.

Lemma reclaim_agent_node_write c n commands : calls (node_write c) (reconcile_reclaim_agent_provision c n commands).
Proof.
  unfold reconcile_reclaim_agent_provision. pstep as r; [done |]. destruct r; [| done].
  destruct commands; pstep as r; try done; destruct r; try done. prog_hnf. by destruct (is_api_error _ _).
Qed.
Lemma kata_node_write c n : calls (node_write c) (reconcile_kata_config_delivery c n (kata (spec sm))).
Proof.
  unfold reconcile_kata_config_delivery. destruct (kata (spec sm)) as [k |] eqn:Hk; [| pstep as r; [done | by destruct r]].
  destruct (kata_kind k); (pstep as r; [by split; [| exists k] |]);
    (destruct r as [[] |]; [pstep as r; [done | by destruct r] | pstep as r; [by split; [| exists k] |] | done]);
    (destruct r; [| done]); (pstep as r; [done |]); by destruct r.
Qed.
Lemma taints_node_write c n desired prev : calls (node_write c) (reconcile_node_taints c n desired prev).
Proof.
  unfold reconcile_node_taints. pstep as r; [done |]. destruct r as [node | e]; prog_hnf.
  - destruct (negb (node_is_ready node)); [done |]. destruct (negb (is_empty _)); [done |].
    apply calls_bind_ok; [| done]. unfold apply_node_taints. destruct (is_noop _); [done |].
    pstep as r; [done |]. destruct r; [| done]. pstep as r; [done | by destruct r].
  - by destruct (is_api_error _ e).
Qed.
End components.

#[export] Hint Resolve confined_update_phase confined_update_phase_grace confined_persist confined_machine_refs
  confined_fetch confined_spot confined_add confined_remove confined_drain : fivespot.

(** One step of a confinement proof: bind, branch or a component's lemma. *)
Ltac confine_step :=
  match goal with
  | |- calls _ (Ret _) => exact I
  | |- calls _ (lift _) => exact I
  | |- calls _ (bind_ok (lift _) _) => apply calls_bind_lift; intros ? ?
  | |- calls _ (bind_ok _ _) => apply calls_bind_ok; [| intros ?]
  | |- calls _ (bind _ _) => apply calls_bind; [| intros ?]
  | |- calls _ _ => solve [eauto with fivespot]
  | |- calls _ (match ?x with _ => _ end) => destruct x
  | |- calls _ _ => by repeat constructor
  end.
Ltac confine := repeat (cbv zeta; confine_step).

(** ** The parts that resolve no client *)

Section parts.
Context `{Externals} (ctx : Context) (W : client -> Prop) (sm : ScheduledMachine) (ns : string).
Context (Hns : Crd.namespace sm = Some ns).
Notation ok := (confined_by W sm ns).

Lemma namespace_known {A} (f : string -> M (rresult A)) :
  calls ok (f ns) -> calls ok (bind_ok (lift (require_namespace sm)) f).
Proof using Hns. intros Hf. apply calls_bind_lift. intros n Hn%ok_or_Ok. assert (n = ns) as -> by congruence. exact Hf. Qed.

Lemma confined_pending b : calls ok (handle_pending_phase ctx sm b).
Proof using Hns. unfold handle_pending_phase. apply namespace_known. confine. Qed.
Lemma confined_grace : calls ok (check_grace_period_elapsed sm).
Proof. unfold check_grace_period_elapsed. confine. Qed.
Lemma confined_get_node : calls ok (get_node_from_machine ctx MgmtClient ns (name_any sm)).
Proof. unfold get_node_from_machine. confine. Qed.
Lemma confined_small b :
  calls ok (handle_inactive_phase sm b) /\ calls ok (handle_disabled_phase sm b) /\
  calls ok (handle_emergency_remove_phase sm).
Proof using Hns.
  unfold handle_inactive_phase, handle_disabled_phase, handle_emergency_remove_phase.
  split_and!; apply namespace_known; confine.
Qed.

Lemma confined_remove_finalizer : calls ok (remove_finalizer sm ns (name_any sm)).
Proof. unfold remove_finalizer. confine. Qed.
#[local] Hint Resolve confined_remove_finalizer : fivespot.

Lemma confined_deletion : calls ok (handle_deletion ctx sm).
Proof using Hns.
  unfold handle_deletion. apply namespace_known. cbv zeta.
  destruct (sm_phase sm) as [ph |]; [| confine]. destruct (machine_phase ph); [| confine].
  apply calls_bind; [apply calls_bind; [apply with_timeout_calls; [apply confined_remove | done] | done] |].
  intros [| e |]; confine.
Qed.

Lemma confined_kill : calls ok (handle_kill_switch ctx sm).
Proof using Hns. unfold handle_kill_switch. apply namespace_known. confine. Qed.

Lemma confined_add_finalizer : calls ok (add_finalizer sm).
Proof using Hns. unfold add_finalizer. apply namespace_known. confine. Qed.

Lemma confined_result r phase d : calls ok (record_reconciliation_result r phase d).
Proof. unfold record_reconciliation_result. destruct r as [a | e]; [| destruct e]; cbn; by repeat split. Qed.
Lemma confined_spot_metrics kind v last : calls ok (record_spot_schedule_metrics ns kind v last).
Proof. destruct v as [g | g | r m], last as [[] |]; cbn; by repeat split. Qed.
Lemma confined_should_process : calls ok (should_process_resource (name_any sm) ns (priority (spec sm)) (ctx_instance_count ctx)).
Proof. unfold should_process_resource. by case_bool_decide; cbn. Qed.
End parts.

#[export] Hint Resolve confined_pending confined_grace confined_get_node confined_deletion confined_kill
  confined_add_finalizer confined_result confined_spot_metrics confined_should_process : fivespot.

(** ** The whole reconcile

    Judged with any resolver that, as long as the replies are [good], makes
    calls in [P] and answers clients in [W]. *)

Section reconcile.
Context `{Externals} `{ChildResolver} (good : event reply -> Prop) (P : call_t -> Prop) (W : client -> Prop).
Context (ctx : Context) (sm : ScheduledMachine) (ns : string) (Hns : Crd.namespace sm = Some ns).
Context (Hbase : forall call, confined_by W sm ns call -> P call).
Context (Hres : under good P (resolve sm)
  (λ r, match r with Ok rc => W (ResolvedClient.client rc) | Err _ => True end)).
Notation safe p := (under good P p (λ _, True)).

Lemma safe_part {A} (p : M A) : calls (confined_by W sm ns) p -> safe p.
Proof using Hbase. by apply under_calls. Qed.
Lemma safe_bind {A B} (p : M A) (f : A -> M B) : safe p -> (forall a, safe (f a)) -> safe (bind p f).
Proof. intros Hp Hf. by eapply under_bind. Qed.
Lemma safe_bind_ok {A B Er} (p : M (result A Er)) (f : A -> M (result B Er)) :
  safe p -> (forall a, safe (f a)) -> safe (bind_ok p f).
Proof. intros Hp Hf. by eapply under_bind_ok. Qed.
Lemma safe_namespace {A} (f : string -> M (rresult A)) : safe (f ns) -> safe (bind_ok (lift (require_namespace sm)) f).
Proof using Hns. intros Hf. unfold require_namespace. by rewrite Hns. Qed.

(** [resolve_child_client(..).await?] and its best-effort form. *)
Lemma safe_with_client {A} (f : ResolvedClient -> M (rresult A)) :
  (forall rc, W (ResolvedClient.client rc) -> safe (f rc)) -> safe (bind_ok (resolve sm) f).
Proof using Hres. intros Hf. by eapply under_bind_ok. Qed.
Lemma safe_best_effort (f : ResolvedClient -> M unit) :
  (forall rc, W (ResolvedClient.client rc) -> safe (f rc)) ->
  safe (resolved <- resolve sm ;; match resolved with Ok rc => f rc | Err _ => Ret tt end).
Proof using Hres. intros Hf. eapply under_bind; [exact Hres |]. intros [rc | e] Hr; [by apply Hf | done]. Qed.

Lemma safe_node_step {A} c (p : M A) (k : A -> M unit) :
  W c -> calls (node_write sm c) p -> (forall a, safe (k a)) -> safe (bind p k).
Proof using Hbase. intros Hc Hp Hk. apply safe_bind; [| done]. apply safe_part. by eapply confined_node_write. Qed.

Lemma safe_reclaim_agent nref : safe (provision_reclaim_agent_best_effort sm nref).
Proof using Hbase Hres.
  unfold provision_reclaim_agent_best_effort. destruct (bound_node nref); [| done].
  apply safe_best_effort. intros rc Hrc. eapply safe_node_step; [exact Hrc | apply reclaim_agent_node_write | done].
Qed.
Lemma safe_kata nref : safe (provision_kata_config_best_effort sm nref).
Proof using Hbase Hres.
  unfold provision_kata_config_best_effort. destruct (bound_node nref); [| done].
  apply safe_best_effort. intros rc Hrc. eapply safe_node_step; [exact Hrc | apply kata_node_write | done].
Qed.
Lemma safe_taints nref : safe (reconcile_node_taints_best_effort sm nref).
Proof using Hbase Hns Hres.
  unfold reconcile_node_taints_best_effort. destruct (om_deletion_timestamp _); [done |].
  destruct (kill_switch _); [done |]. destruct (bound_node nref) as [n |]; [| done]. cbn zeta.
  set (prev := match status sm with Some s => applied_node_taints s | None => [] end). clearbody prev.
  destruct (node_taints (spec sm)) as [| d desired], prev as [| p prev]; [done | ..];
    (eapply under_bind; [exact Hres |]; intros [rc | e] Hrc; [| done];
     eapply safe_node_step; [exact Hrc | apply taints_node_write |];
     intros [[| | applied |] |]; try done; case_bool_decide; [done |]; rewrite Hns; apply safe_part; by cbn).
Qed.

Lemma safe_enrich machine : safe (enrich_status sm ns (name_any sm) machine).
Proof using Hbase Hns Hres.
  unfold enrich_status. destruct (extract_machine_refs machine) as [p r].
  apply safe_bind; [apply safe_part, confined_machine_refs | intros _].
  apply safe_bind; [apply safe_reclaim_agent | intros []].
  apply safe_bind; [apply safe_taints | intros []]. apply safe_kata.
Qed.

Lemma safe_active b : safe (handle_active_phase ctx sm b).
Proof using Hbase Hns Hres.
  unfold handle_active_phase. apply safe_namespace. cbv zeta.
  destruct (negb (is_enabled _)); [apply safe_part; confine |]. destruct (negb b); [apply safe_part; confine |].
  apply safe_bind; [apply safe_part, confined_fetch |]. intros machine. apply safe_bind; [| done].
  destruct machine as [[m |] |]; [apply safe_enrich | done | done].
Qed.

Lemma safe_shutting_down : safe (handle_shutting_down_phase ctx sm).
Proof using Hbase Hns Hres.
  unfold handle_shutting_down_phase. apply safe_namespace. cbv zeta.
  apply safe_bind_ok; [apply safe_part, confined_grace | intros []]; [| done].
  apply safe_bind_ok; [apply safe_part, confined_get_node | intros node].
  apply safe_bind_ok.
  - unfold drain_bound_node. destruct node as [n |]; [| done].
    eapply under_bind_ok; [by apply (under_returns _ _ (λ _, True)) | intros secs _ | done].
    apply safe_with_client. intros rc Hrc. apply safe_bind; [by apply safe_part, confined_drain | done].
  - intros _. apply safe_part. confine.
Qed.

Lemma safe_dispatch p b : safe (dispatch ctx sm p b).
Proof using Hbase Hns Hres.
  unfold dispatch. destruct (confined_small W sm ns Hns b) as (H1 & H2 & H3).
  repeat case_decide; try done; auto using safe_active, safe_shutting_down, safe_part.
  apply safe_part. by apply confined_pending.
Qed.

Lemma safe_emergency node request : safe (handle_emergency_remove ctx sm node request).
Proof using Hbase Hns Hres.
  unfold handle_emergency_remove. apply safe_namespace. cbv zeta.
  apply safe_bind; [apply safe_part; confine | intros []]. apply safe_bind_ok; [apply safe_part; confine | intros []].
  do 3 (apply safe_bind; [apply safe_part; confine | intros ?]).
  apply safe_bind; [apply safe_part; confine | intros []].
  apply safe_with_client. intros rc Hrc. apply safe_part. unfold patch_disable_schedule. confine.
Qed.

Lemma safe_check_emergency : safe (check_emergency_reclaim ctx sm).
Proof using Hbase Hns Hres.
  unfold check_emergency_reclaim. destruct (status sm ≫= node_ref) as [nref |]; [| done]. cbv zeta.
  destruct (str_is_empty _); [done |].
  apply safe_bind; [apply safe_part; split; [by left | done] |]. intros [node | e]; [| by destruct (is_api_error _ e)].
  destruct (node_reclaim_request node) as [req |]; [| done].
  apply safe_bind_ok; [apply safe_emergency | done].
Qed.

Lemma safe_evaluate : safe (evaluate_and_dispatch ctx sm ns).
Proof using Hbase Hns Hres.
  unfold evaluate_and_dispatch. cbv zeta. apply safe_bind_ok; [apply safe_part, confined_spot | intros v].
  apply safe_bind; [apply safe_part, confined_spot_metrics | intros []].
  apply safe_bind_ok; [apply safe_part, confined_persist | intros []].
  apply safe_bind; [apply safe_part; confine | intros []]. apply safe_dispatch.
Qed.

Lemma safe_inner : safe (reconcile_inner ctx sm).
Proof using Hbase Hns Hres.
  unfold reconcile_inner. apply safe_namespace.
  apply safe_bind_ok; [by apply safe_part | intros []].
  destruct (kill_switch (spec sm)).
  - apply safe_bind; [apply safe_part; confine | intros []]. apply safe_part. by apply confined_kill.
  - apply safe_bind_ok; [apply safe_check_emergency |]. intros [a |]; [done | apply safe_evaluate].
Qed.

Lemma safe_guarded : safe (reconcile_guarded ctx sm ns (name_any sm)).
Proof using Hbase Hns Hres.
  unfold reconcile_guarded. apply safe_bind; [apply safe_part; by cbn | intros t0]. cbv zeta.
  apply safe_bind; [apply safe_part; by cbn | intros []]; [| done]. cbn [negb].
  apply safe_bind; [apply safe_part, confined_should_process | intros []]; [| done]. cbn [negb].
  assert (Hrec : forall (k : rresult Action -> M (rresult Action)) (p : M (rresult Action)), safe p -> (forall r, safe (k r)) ->
    safe (result <- p ;; spent <- elapsed t0 ;;
      record_reconciliation_result result (default PHASE_PENDING (sm_phase sm)) spent ;;; k result)).
  { intros k p Hp Hk. apply safe_bind; [exact Hp | intros r]. apply safe_bind; [apply safe_part; by cbn | intros d].
    apply safe_bind; [apply safe_part, confined_result | intros []; apply Hk]. }
  destruct (om_deletion_timestamp (metadata sm)); [| destruct (negb (has_finalizer sm))].
  - apply (Hrec (λ r, Ret r)); [by apply safe_part, confined_deletion | done].
  - apply (Hrec (λ r, Ret r)); [by apply safe_part, confined_add_finalizer | done].
  - apply Hrec; [apply safe_inner |]. intros r. apply safe_bind; [| done]. apply safe_part. by destruct (is_ok r); cbn.
Qed.

Lemma safe_reconcile : safe (reconcile_scheduled_machine ctx sm).
Proof using Hbase Hns Hres.
  unfold reconcile_scheduled_machine. rewrite Hns. cbv zeta.
  apply safe_bind; [apply safe_part; by cbn | intros id]. apply safe_guarded.
Qed.
End reconcile.

(** C6: confinement, whatever the cluster answers.  On the management cluster, a
    reconcile writes the machine itself (status, spec, events about it) and, in
    its namespace, the objects it creates and deletes under the machine's name;
    it reads there only these, the schedule object it references and the one
    Secret it designates, besides Nodes, the kinds the API server serves, and
    reviews of its own permission to create in that namespace.  Node and pod operations (cordon, drain,
    eviction, taints, labels), the agent's ConfigMaps, all in their one
    namespace, and the look-up of the one Kata source the spec names go to a
    workload client, which is not the management client when the machine names
    a kubeconfig (when it names none, it may be, and which nodes and pods of it
    are touched is not stated here).  No metric it records can panic. *)
Theorem reconcile_confined `{Externals} `{ResolverLaws} ctx sm :
  calls (confined sm (default "" (Crd.namespace sm))) (reconcile_scheduled_machine ctx sm).
Proof.
  destruct (Crd.namespace sm) as [ns |] eqn:Hns; cbn [default];
    [| unfold reconcile_scheduled_machine; rewrite Hns; by repeat constructor].
  apply (under_calls_inv (λ _, True) _ _ (λ _, True)); [done |].
  apply (safe_reconcile _ _ (workload_client sm) _ _ ns Hns); [by intros [] |].
  apply under_returns.
  - eapply calls_mono; [| apply resolve_calls]. intros call Hc. by destruct call.
  - eapply returns_mono; [| apply resolve_sound]. intros [[c | c k rv] | e]; cbn; try done. by intros [-> Hr] Hn.
Qed.

Lemma reconcile_confined_witness :
  calls (confined sample_sm "team")
    (reconcile_scheduled_machine (H := toy_externals) (H0 := cache_resolver (H := toy_externals)) sample_ctx sample_sm).
Proof. exact (reconcile_confined (H := toy_externals) (R := cache_resolver (H := toy_externals)) sample_ctx sample_sm). Defined.
