(* ===== verification/Footprint.v ===== *)
(** Effects of the components: what kinds of calls each makes, and the effect
    table of the phase handlers. *)

From S2P Require Import Prelude RustStr Effects Constants Json Crd Externals KubeApi Samples Metrics.
From S2P Require Import Duration SpotSchedule Status Capi Drain NodeTaints ChildClient Emergency Finalizer.
From S2P Require Import Provision Assignment Phases Reconcile Confinement.

Inductive effect : Type :=
| ELocal       (** clocks, environment, caches, counters, metrics *)
| ERead        (** reading any cluster *)
| EEvent       (** publishing an event *)
| EWorkload    (** writing a node, a pod or a ConfigMap *)
| EReview      (** asking for a permission review *)
| ECreate      (** creating a CAPI object *)
| EDelete      (** deleting a CAPI object *)
| ESpec        (** patching the machine outside its status *)
| EPhase (phase : string)
| EStatus      (** patching other status fields *)
| EProvider.   (** patching the status of a schedule provider *)

Definition kind_of (c : call_t) : effect :=
  match c with
  | GetNode _ _ | ListPods _ _ | GetDyn _ _ _ _ | GetOptDyn _ _ _ _ | PinnedKind _ _ _ _ | GetSecret _ _ _
  | ExistsConfigMap _ _ _ | ExistsSecret _ _ _ | ExistsNamespace _ _ => ERead
  | PatchNode _ _ _ | DeletePod _ _ _ _ | ApplyConfigMap _ _ _ _ _ _ | DeleteConfigMap _ _ _ => EWorkload
  | CreateReview _ _ => EReview
  | CreateDyn _ _ _ _ => ECreate
  | DeleteDyn _ _ _ _ => EDelete
  | PatchSM _ _ _ _ => ESpec
  | PatchSMStatus _ _ _ body => match patch_phase body with Some p => EPhase p | None => EStatus end
  | PatchProviderStatus _ _ _ _ _ => EProvider
  | Publish _ _ => EEvent
  | UtcNow | InstantNow | DeadlinePassed _ | EnvVar _ | IsLeader | RetryIncr _ | RetryRemove _ | RecordReclaim _ _
  | CacheLookup _ _ | CacheInsert _ _ _ | HookEvicted _ | HookResolved _ _ | MetricOp _ => ELocal
  end.

(** [p] makes only calls of the listed kinds. *)
Definition footprint {A} (l : list effect) (p : M A) : Prop := calls (λ c, kind_of c ∈ l) p.

Lemma footprint_mono {A} l l' (p : M A) : footprint l p -> l ⊆ l' -> footprint l' p.
Proof. intros Hp Hl. eapply calls_mono; [| exact Hp]. auto. Qed.

(** ** Components *)

Section components.
Context `{Externals} `{ResolverLaws} (ctx : Context) (sm : ScheduledMachine) (ns : string).

Lemma foot_resolve : footprint [ELocal; ERead] (resolve sm).
Proof using H0. eapply calls_mono; [| apply resolve_calls]. intros []; cbn; set_solver. Qed.
Lemma foot_drain c n secs : footprint [ELocal; ERead; EWorkload] (drain_node_with_timeout c n secs).
Proof. eapply calls_mono; [| apply (drain_calls c n)]. intros []; cbn; set_solver. Qed.
Lemma foot_remove c : footprint [EDelete] (remove_machine_from_cluster ctx sm c ns).
Proof. eapply calls_mono; [| apply remove_machine_only_deletes]. intros []; cbn; set_solver. Qed.
Lemma foot_add c : footprint [EReview; ECreate] (add_machine_to_cluster ctx sm c ns).
Proof. eapply calls_mono; [| apply add_machine_creates]. intros []; cbn; set_solver. Qed.
Lemma foot_node_write {A} c (p : M A) : calls (node_write sm c) p -> footprint [ERead; EWorkload] p.
Proof. apply calls_mono. intros []; cbn; set_solver. Qed.
Lemma foot_metric {A} (p : M A) : calls metric_call p -> footprint [ELocal] p.
Proof. apply calls_mono. intros []; cbn; set_solver. Qed.
Lemma foot_spot c r : footprint [ERead] (resolve_spot_schedule c ns r).
Proof.
  unfold resolve_spot_schedule, footprint. destruct (match split_once _ _ with Some gv => gv | None => _ end) as [g v].
  pstep as k; [cbn; set_solver |]. destruct k; [| done]. pstep as o; [cbn; set_solver |]. by destruct o as [[o |] |].
Qed.
Lemma foot_fetch c n : footprint [ERead] (fetch_capi_machine ctx c ns n).
Proof.
  unfold fetch_capi_machine, footprint. pstep as r; [cbn; set_solver |]. destruct r; [done |]. prog_hnf.
  by destruct (is_api_error _ _).
Qed.
Lemma foot_persist n v prev : footprint [ELocal; EStatus] (persist_spot_schedule_status ns n v prev).
Proof.
  unfold persist_spot_schedule_status, footprint. destruct (spot_transitioned _ _); cbn; set_solver.
Qed.
Lemma foot_machine_refs c n p r : footprint [EStatus] (patch_machine_refs_status c ns n p r).
Proof. unfold patch_machine_refs_status, footprint. destruct p, r; cbn; set_solver. Qed.
Lemma foot_applied_taints c n l : footprint [EStatus] (patch_applied_node_taints_status c ns n l).
Proof. cbn. set_solver. Qed.
Lemma foot_update_phase n from p reason msg i : footprint [ELocal; EEvent; EPhase p] (update_phase ns n from p reason msg i).
Proof. cbn. set_solver. Qed.
Lemma foot_update_phase_grace n from p reason msg i :
  footprint [ELocal; EEvent; EPhase p] (update_phase_with_grace_period ns n from p reason msg i).
Proof. cbn. set_solver. Qed.
Lemma foot_spot_metrics kind v last : footprint [ELocal] (record_spot_schedule_metrics ns kind v last).
Proof. destruct v as [g | g | r m], last as [[] |]; cbn; set_solver. Qed.
Lemma foot_result r phase d : footprint [ELocal] (record_reconciliation_result r phase d).
Proof. destruct r as [a | e]; [| destruct e]; cbn; set_solver. Qed.
Lemma foot_grace : footprint [ELocal] (check_grace_period_elapsed sm).
Proof.
  unfold check_grace_period_elapsed. destruct (status sm) as [st |]; [| done].
  destruct (c_last_transition_time <$> _); [| done]. unfold footprint.
  apply calls_bind_lift; intros start _. apply calls_bind_lift; intros tmo _.
  pstep as now; [cbn; set_solver |]. prog_hnf. by case_bool_decide.
Qed.
Lemma foot_cleanup secs :
  footprint [ELocal; EDelete] (run_cleanup_with_timeout secs (remove_machine_from_cluster ctx sm MgmtClient ns)).
Proof.
  apply calls_bind; [| done]. apply with_timeout_calls; [| cbn; set_solver].
  eapply footprint_mono; [apply foot_remove | set_solver].
Qed.
End components.
#[export] Hint Resolve foot_resolve foot_drain foot_remove foot_add foot_spot foot_fetch foot_persist foot_machine_refs
  foot_applied_taints foot_update_phase foot_update_phase_grace foot_spot_metrics foot_result foot_grace foot_cleanup
  reclaim_agent_node_write kata_node_write taints_node_write : fivespot.

(** One step of a footprint proof: bind, branch, or a component's lemma. *)
Ltac fold_foot := try lazymatch goal with |- calls (λ c, kind_of c ∈ ?l) ?p => change (footprint l p) end.
Ltac foot_leaf :=
  first [ eapply footprint_mono; [solve [eauto with fivespot] | set_solver]
        | match goal with sm : ScheduledMachine |- _ =>
            eapply footprint_mono; [eapply (foot_node_write sm); solve [eauto with fivespot] | set_solver] end
        | cbn; set_solver ].
Ltac foot_step :=
  match goal with
  | |- footprint _ (Ret _) => exact I
  | |- footprint _ (lift _) => exact I
  | |- footprint _ (bind_ok (lift _) _) => apply calls_bind_lift; intros ? ?; fold_foot
  | |- footprint _ (bind_ok _ _) => apply calls_bind_ok; [fold_foot | intros ?; fold_foot]
  | |- footprint _ (bind _ _) => apply calls_bind; [fold_foot | intros ?; fold_foot]
  | |- footprint _ (match ?x with _ => _ end) => destruct x
  | |- footprint _ _ => solve [foot_leaf]
  end.
Ltac foot := repeat (cbv zeta; foot_step).

#[export] Instance effect_eq_dec : EqDecision effect.
Proof. solve_decision. Defined.

(** ** The phase handlers *)

Definition background : list effect := [ELocal; ERead; EEvent; EStatus].

Definition phase_effects (phase : string) : list effect :=
  background ++
  if decide (phase = PHASE_ACTIVE) then [EWorkload; EPhase PHASE_SHUTTING_DOWN]
  else if decide (phase = PHASE_SHUTTING_DOWN) then [EWorkload; EDelete; EPhase PHASE_INACTIVE; EPhase PHASE_ERROR]
  else if decide (phase = PHASE_INACTIVE) then [EPhase PHASE_PENDING]
  else if decide (phase = PHASE_DISABLED) then [EPhase PHASE_PENDING]
  else if decide (phase = PHASE_EMERGENCY_REMOVE) then [EPhase PHASE_DISABLED]
  else if decide (phase = PHASE_ERROR) then []
  else if decide (phase = PHASE_TERMINATED) then []
  else [EReview; ECreate; EPhase PHASE_DISABLED; EPhase PHASE_INACTIVE; EPhase PHASE_ACTIVE; EPhase PHASE_ERROR].

Section handlers.
Context `{Externals} `{ResolverLaws} (ctx : Context) (sm : ScheduledMachine).

Lemma foot_enrich ns n m : footprint (EWorkload :: background) (enrich_status sm ns n m).
Proof using H0.
  unfold enrich_status, provision_reclaim_agent_best_effort, reconcile_node_taints_best_effort,
    provision_kata_config_best_effort, background. foot.
Qed.
Lemma foot_pending b : footprint (phase_effects PHASE_PENDING) (handle_pending_phase ctx sm b).
Proof. unfold handle_pending_phase. change (phase_effects PHASE_PENDING) with (background ++
  [EReview; ECreate; EPhase PHASE_DISABLED; EPhase PHASE_INACTIVE; EPhase PHASE_ACTIVE; EPhase PHASE_ERROR]).
  unfold background. cbn [app]. foot. Qed.
Lemma foot_active b : footprint (phase_effects PHASE_ACTIVE) (handle_active_phase ctx sm b).
Proof using H0.
  unfold handle_active_phase. change (phase_effects PHASE_ACTIVE) with (background ++ [EWorkload; EPhase PHASE_SHUTTING_DOWN]).
  pose proof foot_enrich as He. unfold background in *. cbn [app]. foot.
Qed.
Lemma foot_shutting_down : footprint (phase_effects PHASE_SHUTTING_DOWN) (handle_shutting_down_phase ctx sm).
Proof using H0.
  unfold handle_shutting_down_phase, get_node_from_machine, drain_bound_node.
  change (phase_effects PHASE_SHUTTING_DOWN) with
    (background ++ [EWorkload; EDelete; EPhase PHASE_INACTIVE; EPhase PHASE_ERROR]).
  unfold background. cbn [app]. foot.
Qed.
Lemma foot_small b :
  footprint (phase_effects PHASE_INACTIVE) (handle_inactive_phase sm b) /\
  footprint (phase_effects PHASE_DISABLED) (handle_disabled_phase sm b) /\
  footprint (phase_effects PHASE_EMERGENCY_REMOVE) (handle_emergency_remove_phase sm).
Proof.
  unfold handle_inactive_phase, handle_disabled_phase, handle_emergency_remove_phase.
  change (phase_effects PHASE_INACTIVE) with (background ++ [EPhase PHASE_PENDING]).
  change (phase_effects PHASE_DISABLED) with (background ++ [EPhase PHASE_PENDING]).
  change (phase_effects PHASE_EMERGENCY_REMOVE) with (background ++ [EPhase PHASE_DISABLED]).
  unfold background. cbn [app]. split_and!; foot.
Qed.

Lemma foot_dispatch p b : footprint (phase_effects p) (dispatch ctx sm p b).
Proof using H0.
  unfold dispatch. destruct (foot_small b) as (H1 & H2 & H3).
  destruct (decide (p = PHASE_ACTIVE)) as [-> |]; [apply foot_active |].
  destruct (decide (p = PHASE_SHUTTING_DOWN)) as [-> |]; [apply foot_shutting_down |].
  destruct (decide (p = PHASE_INACTIVE)) as [-> |]; [done |].
  destruct (decide (p = PHASE_DISABLED)) as [-> |]; [done |].
  destruct (decide (p = PHASE_TERMINATED)) as [-> |]; [exact I |].
  destruct (decide (p = PHASE_EMERGENCY_REMOVE)) as [-> |]; [done |].
  destruct (decide (p = PHASE_ERROR)) as [-> |]; [exact I |].
  eapply footprint_mono; [apply foot_pending |]. unfold phase_effects. repeat (rewrite decide_False by done). done.
Qed.

Lemma foot_evaluate ns : footprint (phase_effects (default PHASE_PENDING (sm_phase sm))) (evaluate_and_dispatch ctx sm ns).
Proof using H0.
  unfold evaluate_and_dispatch. cbv zeta. generalize (default PHASE_PENDING (sm_phase sm)) as p. intros p.
  assert (Hb : forall A l (q : M A), footprint l q -> l ⊆ background -> footprint (phase_effects p) q).
  { intros A l q Hq Hl. eapply footprint_mono; [exact Hq |]. unfold phase_effects. set_solver. }
  apply calls_bind_ok; [by eapply Hb; [apply foot_spot | unfold background; set_solver] | intros v].
  apply calls_bind; [by eapply Hb; [apply foot_spot_metrics | unfold background; set_solver] | intros []].
  apply calls_bind_ok; [by eapply Hb; [apply foot_persist | unfold background; set_solver] | intros []].
  apply calls_bind; [| intros []; apply foot_dispatch].
  eapply Hb; [by apply foot_metric, metric_call_inc | unfold background; set_solver].
Qed.
End handlers.

(** ** The whole reconcile *)

(** The phases in which deletion and the kill switch remove objects. *)
Definition has_objects (sm : ScheduledMachine) : bool :=
  match sm_phase sm with Some phase => machine_phase phase | None => false end.

(** The effects a reconcile may have, from the object it was given. *)
Definition reconcile_effects (sm : ScheduledMachine) : list effect :=
  background ++
  match om_deletion_timestamp (metadata sm) with
  | Some _ => ESpec :: (if has_objects sm then [EDelete] else [])
  | None =>
      if negb (has_finalizer sm) then [ESpec]
      else if kill_switch (spec sm) then
        EPhase PHASE_TERMINATED :: (if has_objects sm then [EDelete] else [])
      else
        match status sm ≫= node_ref with
        | Some _ => [EPhase PHASE_EMERGENCY_REMOVE; EWorkload; EDelete; ESpec; EPhase PHASE_DISABLED]
        | None => []
        end ++ phase_effects (default PHASE_PENDING (sm_phase sm))
  end.

Section top.
Context `{Externals} `{ResolverLaws} (ctx : Context) (sm : ScheduledMachine).

Lemma foot_remove_finalizer ns n : footprint [ESpec] (remove_finalizer sm ns n).
Proof. unfold remove_finalizer. foot. Qed.
#[local] Hint Resolve foot_remove_finalizer : fivespot.

Lemma foot_deletion :
  footprint ([ELocal; EEvent; ESpec] ++ if has_objects sm then [EDelete] else []) (handle_deletion ctx sm).
Proof.
  unfold handle_deletion, has_objects. apply calls_bind_lift; intros ns _. fold_foot. cbv zeta.
  destruct (sm_phase sm) as [ph |]; [| foot]. destruct (machine_phase ph); cbn [app]; foot.
Qed.
Lemma foot_kill :
  footprint ([ELocal; EEvent; EPhase PHASE_TERMINATED] ++ if has_objects sm then [EDelete] else []) (handle_kill_switch ctx sm).
Proof.
  unfold handle_kill_switch, has_objects. apply calls_bind_lift; intros ns _. fold_foot. cbv zeta.
  destruct (sm_phase sm) as [ph |]; [| foot]. destruct (machine_phase ph); rewrite ?andb_false_r; cbn [app]; foot.
Qed.
Lemma foot_add_finalizer : footprint [ESpec] (add_finalizer sm).
Proof. unfold add_finalizer. foot. Qed.

Lemma foot_emergency node request :
  footprint [ELocal; ERead; EEvent; EPhase PHASE_EMERGENCY_REMOVE; EWorkload; EDelete; ESpec; EPhase PHASE_DISABLED]
    (handle_emergency_remove ctx sm node request).
Proof using H0.
  unfold handle_emergency_remove, patch_disable_schedule, clear_reclaim_annotations_best_effort. foot.
Qed.

Lemma foot_check_emergency :
  footprint ([ELocal; ERead; EEvent] ++ match status sm ≫= node_ref with
      | Some _ => [EPhase PHASE_EMERGENCY_REMOVE; EWorkload; EDelete; ESpec; EPhase PHASE_DISABLED]
      | None => []
      end) (check_emergency_reclaim ctx sm).
Proof using H0.
  unfold check_emergency_reclaim. destruct (status sm ≫= node_ref) as [nref |]; [| done]. cbn [app].
  pose proof foot_emergency as He. foot.
Qed.

Lemma foot_inner :
  om_deletion_timestamp (metadata sm) = None -> has_finalizer sm = true ->
  footprint (reconcile_effects sm) (reconcile_inner ctx sm).
Proof using H0.
  intros Hd Hf. unfold reconcile_inner, reconcile_effects, background. rewrite Hd, Hf. cbn [negb].
  apply calls_bind_lift; intros ns _. apply calls_bind_lift; intros _ _. fold_foot.
  destruct (kill_switch (spec sm)).
  - apply calls_bind; [fold_foot; foot | intros []]. eapply footprint_mono; [apply foot_kill |].
    destruct (has_objects sm); set_solver.
  - apply calls_bind_ok; [eapply footprint_mono; [apply foot_check_emergency |] | intros [a |]; [done |]].
    + destruct (status sm ≫= node_ref); set_solver.
    + eapply footprint_mono; [apply foot_evaluate |]. set_solver.
Qed.

Lemma foot_should_process n ns p c : footprint [ELocal] (should_process_resource n ns p c).
Proof. unfold should_process_resource. case_bool_decide; cbn; set_solver. Qed.
End top.
#[export] Hint Resolve foot_remove_finalizer foot_deletion foot_kill foot_add_finalizer foot_emergency
  foot_should_process : fivespot.

(** C10: the effect table: what a reconcile may do is bounded by the object it
    was given, whatever the cluster answers.  A deleted machine's reconcile
    only removes (in the phases that have objects) and patches its finalizers;
    the kill switch only removes and writes Terminated; otherwise, beside an
    emergency reclaim (which needs a bound node), only Pending creates, only
    ShuttingDown deletes, only Active and ShuttingDown touch a node, and the
    Error and Terminated phases do nothing but record the schedule verdict. *)
Theorem reconcile_footprint `{Externals} `{ResolverLaws} ctx sm :
  footprint (reconcile_effects sm) (reconcile_scheduled_machine ctx sm).
Proof.
  unfold reconcile_scheduled_machine.
  assert (Hb : forall A (q : M A), footprint [ELocal] q -> footprint (reconcile_effects sm) q).
  { intros A q Hq. eapply footprint_mono; [exact Hq |]. unfold reconcile_effects, background. set_solver. }
  destruct (Crd.namespace sm) as [ns |].
  2: { apply calls_bind; [apply Hb; cbn; set_solver | done]. }
  cbv zeta. apply calls_bind; [apply Hb; cbn; set_solver | intros id].
  unfold reconcile_guarded. apply calls_bind; [apply Hb; cbn; set_solver | intros t0]. cbv zeta.
  apply calls_bind; [apply Hb; cbn; set_solver | intros []]; [| done]. cbn [negb].
  apply calls_bind; [apply Hb, foot_should_process | intros []]; [| done]. cbn [negb].
  assert (Hrec : forall r (k : M (rresult Action)), footprint (reconcile_effects sm) k ->
    footprint (reconcile_effects sm)
      (spent <- elapsed t0 ;; record_reconciliation_result r (default PHASE_PENDING (sm_phase sm)) spent ;;; k)).
  { intros r k Hk. apply calls_bind; [apply Hb; cbn; set_solver | intros d].
    apply calls_bind; [apply Hb, foot_result | intros []; exact Hk]. }
  destruct (om_deletion_timestamp (metadata sm)) eqn:Hd; [| destruct (has_finalizer sm) eqn:Hf; cbn [negb]].
  - apply calls_bind; [| intros r; by apply Hrec].
    eapply footprint_mono; [apply foot_deletion |]. unfold reconcile_effects, background. rewrite Hd.
    destruct (has_objects sm); set_solver.
  - apply calls_bind; [by apply foot_inner | intros r]. apply Hrec.
    apply calls_bind; [destruct (is_ok r); [apply Hb; cbn; set_solver | done] | done].
  - apply calls_bind; [| intros r; by apply Hrec].
    eapply footprint_mono; [apply foot_add_finalizer |]. unfold reconcile_effects, background. rewrite Hd, Hf. set_solver.
Qed.

Lemma reconcile_footprint_witness :
  footprint (reconcile_effects sample_sm)
    (reconcile_scheduled_machine (H := toy_externals) (H0 := cache_resolver (H := toy_externals)) sample_ctx sample_sm).
Proof. exact (reconcile_footprint (H := toy_externals) (R := cache_resolver (H := toy_externals)) sample_ctx sample_sm). Defined.
