(* ===== verification/Ledger.v ===== *)
(** The life of a machine's CAPI objects, over every reconcile from its creation
    to the end of its finalizer ([src/reconcilers/scheduled_machine.rs],
    [helpers.rs]): no object is left without the record that leads to its
    removal, unless a reconcile reported a failure. *)

From S2P Require Import Prelude RustStr Effects Constants Json Crd Externals KubeApi Samples Metrics.
From S2P Require Import Duration SpotSchedule Status Capi Drain NodeTaints ChildClient Emergency Finalizer.
From S2P Require Import Provision Assignment Phases Reconcile Confinement Footprint.

(** What the cluster holds of a machine: the phase of its status, whether it has
    the controller's finalizer, and the CAPI objects that bear its name and were
    not asked to be deleted. *)
Record life : Type := {
  l_phase : option string;
  l_finalizer : bool;
  l_objects : ApiResource -> Prop;
}.
Definition unborn : life := {| l_phase := None; l_finalizer := false; l_objects := λ _, False |}.

(** The finalizer after a patch of the machine, when it lists finalizers. *)
Definition patch_finalizer (body : json) : option bool :=
  l ← jpath ["metadata"; "finalizers"] body ≫= as_array;
  Some (existsb (λ f, bool_decide (as_str f = Some FINALIZER_SCHEDULED_MACHINE)) l).

(** One event of a reconcile of the machine [ns/name].  Objects may also be
    deleted by anybody at any time; a creation may take effect whatever it is
    answered. *)
Definition life_after (ns name : string) (l : life) (e : event reply) (l' : life) : Prop :=
  let same_phase := l_phase l' = l_phase l in
  let same_finalizer := l_finalizer l' = l_finalizer l in
  let fewer := forall ar, l_objects l' ar -> l_objects l ar in
  match e with
  | Ev (PatchSMStatus _ ns' n body) r => fewer /\ same_finalizer /\
      match patch_phase body with
      | Some p => if bool_decide (ns' = ns /\ n = name) then written r (l_phase l) (Some p) (l_phase l') else same_phase
      | None => same_phase
      end
  | Ev (PatchSM _ ns' n body) r => fewer /\ same_phase /\
      match patch_finalizer body with
      | Some b => if bool_decide (ns' = ns /\ n = name) then written r (l_finalizer l) b (l_finalizer l') else same_finalizer
      | None => same_finalizer
      end
  | Ev (CreateDyn _ _ ar _) _ => same_phase /\ same_finalizer /\ forall x, l_objects l' x -> l_objects l x \/ x = ar
  | Ev (DeleteDyn c ns' ar n) r => same_phase /\ same_finalizer /\
      forall x, l_objects l' x -> l_objects l x /\
        ~ (x = ar /\ c = MgmtClient /\ ns' = ns /\ n = name /\ delete_ok r = true)
  | _ => fewer /\ same_phase /\ same_finalizer
  end.

(** A reconcile that reported no failure: it returned a result other than an
    error or the error requeue, and did not drop the finalizer over a cleanup
    that timed out, which the controller does only if configured to. *)
Definition unforced (ctx : Context) (e : event reply) : Prop :=
  match e with
  | Ev (DeadlinePassed secs) true => secs = FINALIZER_CLEANUP_TIMEOUT_SECS -> ctx_force_finalizer_on_timeout ctx = false
  | _ => True
  end.
Definition clean_result (r : rresult Action) : Prop :=
  exists a, r = Ok a /\ a <> Requeue ERROR_REQUEUE_SECS.

(** Objects are left only under the finalizer, in a phase whose handler, and
    whose deletion and kill-switch paths, remove them. *)
Definition accounted (owned : list ApiResource) (l : life) : Prop :=
  forall ar, l_objects l ar ->
    ar ∈ owned /\ l_finalizer l = true /\ (l_phase l = Some PHASE_ACTIVE \/ l_phase l = Some PHASE_SHUTTING_DOWN).

Definition clean (ctx : Context) (t : trace) (r : rresult Action) : Prop := Forall (unforced ctx) t /\ clean_result r.

(** The lives a machine can have when every reconcile is [fine]: each is given
    the object as stored, with any spec that keeps the provider references, any
    other status and any deletion mark; in between, anything but the phase and
    the finalizer may change, and objects may be deleted. *)
Inductive lived `{Externals} `{ChildResolver} (ctx : Context) (fine : trace -> rresult Action -> Prop)
    (ns name : string) (owned : list ApiResource) : life -> Prop :=
| lived_unborn : lived ctx fine ns name owned unborn
| lived_reconcile l sm t r l' :
    lived ctx fine ns name owned l ->
    Crd.namespace sm = Some ns -> name_any sm = name -> owned_resources ctx sm = owned ->
    sm_phase sm = l_phase l -> has_finalizer sm = l_finalizer l ->
    exec (reconcile_scheduled_machine ctx sm) t r -> evolve (life_after ns name) l t l' ->
    fine t r -> lived ctx fine ns name owned l'
| lived_others l l' :
    lived ctx fine ns name owned l -> l_phase l' = l_phase l -> l_finalizer l' = l_finalizer l ->
    (forall ar, l_objects l' ar -> l_objects l ar) -> lived ctx fine ns name owned l'.

(** ** Rules *)

Lemma hoare_of_exec {E} {R : E -> Type} {S A} (after : S -> event R -> S -> Prop) (p : prog R A) Q : forall s,
  (forall t a s', exec p t a -> evolve after s t s' -> Q s' a) -> hoare after (λ _ _, True) s p Q.
Proof.
  induction p as [a | c k IH]; cbn; intros s H; [by eapply H |]. split; [done |]. intros r s' Ha.
  apply IH. intros t a s'' He Hv. eapply H; [by exists r, t | by exists s'].
Qed.

Section rules.
Context `{Externals} `{ResolverLaws} (ctx : Context) (sm : ScheduledMachine) (ns : string).
Notation name := (name_any sm).
Notation owned := (owned_resources ctx sm).
Definition life_clean (l : life) (e : event reply) (l' : life) : Prop := life_after ns name l e l' /\ unforced ctx e.
Notation triple := (hoare life_clean (λ _ _, True)).

(** What a reconcile has to leave, if it reports no failure. *)
Definition leaves (l : life) (r : rresult Action) : Prop := clean_result r -> accounted owned l.

Definition below (l l0 : life) : Prop :=
  l_phase l = l_phase l0 /\ l_finalizer l = l_finalizer l0 /\ forall ar, l_objects l ar -> l_objects l0 ar.
Definition within (l l0 : life) : Prop := forall ar, l_objects l ar -> l_objects l0 ar.
Definition empty (l : life) : Prop := forall ar, ~ l_objects l ar.

Lemma below_trans l1 l2 l3 : below l1 l2 -> below l2 l3 -> below l1 l3.
Proof. unfold below. intros (-> & -> & H1) (-> & -> & H2). auto. Qed.
Lemma accounted_below l l0 : below l l0 -> accounted owned l0 -> accounted owned l.
Proof. intros (Hp & Hf & Ho) Ha ar Har. rewrite Hp, Hf. auto. Qed.
Lemma accounted_empty l : empty l -> accounted owned l.
Proof. intros He ar Har. by destruct (He ar). Qed.

Lemma leaves_err l e : leaves l (Err e).
Proof. by intros (a & ? & _). Qed.
Lemma leaves_failed l : leaves l (Ok (Requeue ERROR_REQUEUE_SECS)).
Proof. intros (a & [= <-] & Ha). by destruct Ha. Qed.

(** What leaves everything but the objects as it is. *)
Definition keeps (c : call_t) : Prop :=
  match c with
  | PatchSMStatus _ _ _ body => patch_phase body = None
  | PatchSM _ _ _ _ | CreateDyn _ _ _ _ => False
  | _ => True
  end.
Definition no_create (c : call_t) : Prop := match c with CreateDyn _ _ _ _ => False | _ => True end.

Lemma keeps_event l c r l' : keeps c -> life_clean l (Ev c r) l' -> below l' l.
Proof.
  intros Hk [Ha _]. unfold below. destruct c; cbn in *; try done; try tauto.
  - destruct Ha as (Hp & Hf & Ho). split_and!; [done | done |]. intros x Hx. by apply Ho.
  - rewrite Hk in Ha. tauto.
Qed.
Lemma no_create_event l c r l' : no_create c -> life_clean l (Ev c r) l' -> forall ar, l_objects l' ar -> l_objects l ar.
Proof.
  intros Hk [Ha _]. destruct c; cbn in *; try done; try tauto.
  destruct Ha as (_ & _ & Ho). intros x Hx. by apply Ho.
Qed.

Lemma ledger_calls {A} (Inv : life -> Prop) (P : call_t -> Prop) (p : M A) : forall l,
  (forall l c r l', P c -> Inv l -> life_clean l (Ev c r) l' -> Inv l') ->
  calls P p -> Inv l -> triple l p (λ l' _, Inv l').
Proof.
  induction p as [a | c k IH]; cbn; intros l HP; [done |]. intros [Hc Hk] Hl. split; [done |].
  intros r l' Ha. apply IH; [done | done |]. by eapply HP.
Qed.
Lemma ledger_keeps {A} (p : M A) l : calls keeps p -> triple l p (λ l' _, below l' l).
Proof.
  intros Hp. eapply (ledger_calls (λ l', below l' l)); [| exact Hp | by split_and!].
  intros l1 c r l2 Hc Hb Ha. eapply below_trans; [by eapply keeps_event | done].
Qed.
Lemma ledger_no_create {A} (p : M A) l : calls no_create p -> triple l p (λ l' _, within l' l).
Proof.
  intros Hp. eapply (ledger_calls (λ l', within l' l)); [| exact Hp | by intros ar].
  intros l1 c r l2 Hc Hb Ha ar Har. apply Hb. by eapply no_create_event.
Qed.
Lemma ledger_empty (p : M (rresult Action)) l : empty l -> calls no_create p -> triple l p leaves.
Proof.
  intros He Hp. eapply hoare_mono; [done | | by apply ledger_no_create]. cbn. intros l' r Ho _.
  apply accounted_empty. intros ar Har. by apply (He ar), Ho.
Qed.
Lemma ledger_below (p : M (rresult Action)) l : accounted owned l -> calls keeps p -> triple l p leaves.
Proof.
  intros He Hp. eapply hoare_mono; [done | | by apply ledger_keeps]. cbn. intros l' r Ho _. by eapply accounted_below.
Qed.
Lemma ledger_failed (p : M (rresult Action)) l : returns (λ r, ~ clean_result r) p -> triple l p leaves.
Proof.
  revert l. induction p as [a | c k IH]; cbn; intros l Hp; [by intros ?%Hp |]. split; [done |]. intros r l' _. by apply IH.
Qed.

Lemma ledger_bind {A B} l (p : M A) (f : A -> M B) Q :
  calls keeps p -> (forall l' a, below l' l -> triple l' (f a) Q) -> triple l (bind p f) Q.
Proof. intros Hp Hf. apply hoare_bind. eapply hoare_mono; [done | | by apply ledger_keeps]. cbn. auto. Qed.
Lemma ledger_bind_ok {A} l (p : M (rresult A)) (f : A -> M (rresult Action)) :
  calls keeps p -> (forall l' a, below l' l -> triple l' (f a) leaves) -> triple l (bind_ok p f) leaves.
Proof. intros Hp Hf. apply ledger_bind; [done |]. intros l' [a | e] Hb; [by apply Hf | apply leaves_err]. Qed.
Lemma ledger_bind_within {A B} l (p : M A) (f : A -> M B) Q :
  calls no_create p -> (forall l' a, within l' l -> triple l' (f a) Q) -> triple l (bind p f) Q.
Proof. intros Hp Hf. apply hoare_bind. eapply hoare_mono; [done | | by apply ledger_no_create]. cbn. auto. Qed.
Lemma ledger_bind_ok_within {A} l (p : M (rresult A)) (f : A -> M (rresult Action)) :
  calls no_create p -> (forall l' a, within l' l -> triple l' (f a) leaves) -> triple l (bind_ok p f) leaves.
Proof. intros Hp Hf. apply ledger_bind_within; [done |]. intros l' [a | e] Hb; [by apply Hf | apply leaves_err]. Qed.

(** What follows the handlers keeps what they leave. *)
Lemma ledger_then l (p : M (rresult Action)) (k : rresult Action -> M (rresult Action)) :
  (forall r, calls keeps (k r)) -> (forall r, returns (λ r', r' = r) (k r)) ->
  triple l p leaves -> triple l (bind p k) leaves.
Proof.
  intros Hk Hr Hp. apply hoare_bind. eapply hoare_mono; [done | | exact Hp]. cbn. intros l1 r Hl.
  eapply hoare_mono; [done | | apply hoare_returns; [apply ledger_keeps, Hk | apply Hr]].
  cbn. intros l2 r' [Hb ->] Hc. eapply accounted_below; [done | by apply Hl].
Qed.

(** By their effects. *)
Lemma foot_keeps {A} ls (p : M A) :
  footprint ls p -> ESpec ∉ ls -> ECreate ∉ ls -> (forall q, EPhase q ∉ ls) -> calls keeps p.
Proof.
  intros Hp H1 H2 H3. eapply calls_mono; [| exact Hp]. intros [] Hc; cbn -[patch_phase] in *; try done.
  destruct (patch_phase body) as [q |] eqn:E; [by destruct (H3 q) | done].
Qed.
Lemma foot_no_create {A} ls (p : M A) : footprint ls p -> ECreate ∉ ls -> calls no_create p.
Proof. intros Hp Hn. eapply calls_mono; [| exact Hp]. by intros []. Qed.

(** A phase write in a sequence. *)
Lemma ledger_write l p from reason msg i k :
  (forall l', l_phase l' = Some p -> l_finalizer l' = l_finalizer l -> (forall ar, l_objects l' ar -> l_objects l ar) ->
     triple l' k leaves) ->
  triple l (update_phase ns name from p reason msg i ?;; k) leaves.
Proof.
  intros Hk. cbn -[status_patch phase_status patch_phase life_after].
  split; [done |]. intros _r l1 [(Ho1 & Hp1 & Hf1) _]. split; [done |]. intros now l2 [(Ho2 & Hp2 & Hf2) _].
  split; [done |]. intros r l3 [Ha _]. cbn [life_after] in Ha. rewrite patch_phase_status, bool_decide_true in Ha by done.
  destruct Ha as (Ho3 & Hf3 & Hw). destruct r as [[] | e]; cbn; [| apply leaves_err].
  destruct Hw as [Hw | [? _]]; [| done]. apply Hk; [done | congruence | auto].
Qed.
Lemma ledger_write_grace l p from reason msg i k :
  (forall l', l_phase l' = Some p -> l_finalizer l' = l_finalizer l -> (forall ar, l_objects l' ar -> l_objects l ar) ->
     triple l' k leaves) ->
  triple l (update_phase_with_grace_period ns name from p reason msg i ?;; k) leaves.
Proof.
  intros Hk. cbn -[status_patch phase_status patch_phase life_after].
  split; [done |]. intros _r l1 [(Ho1 & Hp1 & Hf1) _]. split; [done |]. intros now l2 [(Ho2 & Hp2 & Hf2) _].
  split; [done |]. intros r l3 [Ha _]. cbn [life_after] in Ha. rewrite patch_phase_status, bool_decide_true in Ha by done.
  destruct Ha as (Ho3 & Hf3 & Hw). destruct r as [[] | e]; cbn; [| apply leaves_err].
  destruct Hw as [Hw | [? _]]; [| done]. apply Hk; [done | congruence | auto].
Qed.

(** A removal that succeeds leaves nothing of what the machine owns. *)
Lemma evolve_fewer t : forall l l', Forall (λ e, no_create (ev_call e)) t ->
  evolve life_clean l t l' -> forall ar, l_objects l' ar -> l_objects l ar.
Proof.
  induction t as [| [c r] t IH]; intros l l'; [by intros _ -> |].
  intros [Hc Ht]%Forall_cons (l1 & Ha & Hv) ar Har. eapply no_create_event; [exact Hc | exact Ha |]. by eapply IH.
Qed.
Lemma evolve_deleted t l l' ar : Forall (λ e, no_create (ev_call e)) t ->
  deleted t MgmtClient ns ar name -> evolve life_clean l t l' -> ~ l_objects l' ar.
Proof.
  intros Ht (r & Hin & Hr). apply list_elem_of_split in Hin as (t1 & t2 & ->).
  apply Forall_app in Ht as [_ [_ Ht2]%Forall_cons]. revert l. induction t1 as [| e t1 IH]; intros l.
  - intros (l1 & [Ha _] & Hv) Hx. pose proof (evolve_fewer t2 _ _ Ht2 Hv ar Hx) as Hx1.
    destruct Ha as (_ & _ & Ho). destruct (Ho ar Hx1) as [_ Hn]. apply Hn. split_and!; try done.
    by destruct Hr as [-> | (e & -> & He)].
  - intros (l1 & _ & Hv). by eapply IH.
Qed.

Lemma remove_no_create : calls no_create (remove_machine_from_cluster ctx sm MgmtClient ns).
Proof. eapply calls_mono; [| apply remove_machine_only_deletes]. by intros []. Qed.

Lemma ledger_remove l :
  (forall ar, l_objects l ar -> ar ∈ owned) ->
  triple l (remove_machine_from_cluster ctx sm MgmtClient ns) (λ l' r, r = Ok tt -> empty l').
Proof.
  intros Ho. apply hoare_of_exec. intros t r l' He Hv -> ar Har.
  pose proof (calls_exec _ _ _ _ remove_no_create He) as Ht.
  refine (evolve_deleted t l l' ar Ht _ Hv Har). eapply remove_deletes_owned; [exact He |].
  apply Ho. by eapply evolve_fewer.
Qed.

End rules.

(** ** The handlers *)

Ltac foot_quiet := first [eapply foot_keeps | eapply foot_no_create]; [solve [eauto with fivespot] | set_solver ..].

Section handlers.
Context `{Externals} `{ResolverLaws} (ctx : Context) (sm : ScheduledMachine) (ns : string).
Hypothesis Hns : Crd.namespace sm = Some ns.
Notation name := (name_any sm).
Notation owned := (owned_resources ctx sm).
Notation triple := (hoare (life_clean ctx sm ns) (λ _ _, True)).
Notation leaves := (leaves ctx sm).

Lemma ledger_namespace l (k : string -> M (rresult Action)) Q :
  triple l (k ns) Q -> triple l (namespace <-? lift (require_namespace sm) ;; k namespace) Q.
Proof using Hns. unfold require_namespace. by rewrite Hns. Qed.

Lemma add_owned l :
  discovered_ok ctx -> empty l ->
  triple l (add_machine_to_cluster ctx sm MgmtClient ns)
    (λ l' _, l_finalizer l' = l_finalizer l /\ forall ar, l_objects l' ar -> ar ∈ owned).
Proof.
  intros Hd He. eapply (ledger_calls ctx sm ns (λ l', l_finalizer l' = l_finalizer l /\ forall ar, l_objects l' ar -> ar ∈ owned));
    [| apply calls_and; [by apply add_creates_owned | apply foot_add] |].
  - intros l1 c r l2 [Hc Hk] [Hf Ho] [Ha _]. rewrite <- Hf.
    destruct c; cbn -[patch_phase] in Hc, Hk; repeat case_match; try (exfalso; set_solver).
    all: cbn in Ha; destruct Ha as (? & Hf2 & Ho2).
    + split; [congruence |]. intros x Hx. destruct (Ho2 x Hx) as [| ->]; [auto | tauto].
    + naive_solver.
  - split; [done |]. intros x Hx. by destruct (He x).
Qed.

Lemma pending_leaves l b :
  discovered_ok ctx -> empty l -> l_finalizer l = true -> triple l (handle_pending_phase ctx sm b) leaves.
Proof using Hns H0.
  intros Hd He Hf. unfold handle_pending_phase. apply ledger_namespace. cbv zeta.
  destruct (negb _); [apply ledger_empty; [done |]; eapply foot_no_create; [foot | set_solver] |].
  destruct (negb _); [apply ledger_empty; [done |]; eapply foot_no_create; [foot | set_solver] |].
  apply hoare_bind. eapply hoare_mono; [done | | by apply add_owned].
  cbn beta. intros l1 [u | e] (Hf1 & Ho1).
  - apply ledger_write. intros l2 Hp2 Hf2 Ho2 _ ar Har. rewrite Hp2, Hf2, Hf1. auto.
  - apply ledger_failed. cbn. intros _ _ [u | e'] (act & [= <-] & Hact). by destruct Hact.
Qed.

Lemma active_leaves l b : accounted owned l -> triple l (handle_active_phase ctx sm b) leaves.
Proof using Hns H0.
  intros Ha. unfold handle_active_phase. apply ledger_namespace. cbv zeta.
  assert (Hw : forall l', l_phase l' = Some PHASE_SHUTTING_DOWN -> l_finalizer l' = l_finalizer l -> within l' l -> accounted owned l').
  { intros l' Hp Hf Ho ar (Hin & Hfin & _)%Ho%Ha. rewrite Hp, Hf. auto. }
  destruct (negb _); [apply ledger_write_grace; intros l' Hp Hf Ho _; by apply Hw |].
  destruct (negb _); [apply ledger_write_grace; intros l' Hp Hf Ho _; by apply Hw |].
  apply ledger_below; [done |]. pose proof (foot_enrich sm) as He. unfold background in He.
  apply calls_bind; [foot_quiet |]. intros [[m |] |]; [| done ..]. apply calls_bind; [foot_quiet | done].
Qed.

Lemma shutting_down_leaves l : accounted owned l -> triple l (handle_shutting_down_phase ctx sm) leaves.
Proof using Hns H0.
  intros Ha. unfold handle_shutting_down_phase, drain_bound_node. apply ledger_namespace. cbv zeta.
  apply ledger_bind_ok; [foot_quiet |]. intros l1 [] Hb1; [| intros _; by eapply accounted_below].
  apply ledger_bind_ok; [unfold get_node_from_machine; eapply (foot_keeps [ERead]); [foot | set_solver ..] |].
  intros l2 node Hb2. apply ledger_bind_ok.
  { eapply (foot_keeps [ELocal; ERead; EWorkload]); [foot | set_solver ..]. }
  intros l3 _ Hb3. apply hoare_bind. eapply hoare_mono; [done | | apply ledger_remove].
  - cbn beta. intros l4 [u | e] He.
    + apply ledger_empty; [by apply He; destruct u |]. eapply foot_no_create; [foot | set_solver].
    + apply ledger_failed. cbn. intros _ _ [u | e'] (act & [= <-] & Hact). by destruct Hact.
  - intros ar Har. apply Ha. by apply Hb1, Hb2, Hb3.
Qed.

Lemma evolve_unforced (t : trace) : forall l l', evolve (life_clean ctx sm ns) l t l' -> Forall (unforced ctx) t.
Proof. induction t as [| e t IH]; cbn; [done |]. intros l l' (l1 & [_ He] & Hv). constructor; [done | by eapply IH]. Qed.

Lemma ledger_cleanup l :
  (forall ar, l_objects l ar -> ar ∈ owned) ->
  triple l (run_cleanup_with_timeout FINALIZER_CLEANUP_TIMEOUT_SECS (remove_machine_from_cluster ctx sm MgmtClient ns))
    (λ l' o, match o with
     | Completed => empty l' | Failed _ => True | TimedOut => ctx_force_finalizer_on_timeout ctx = false end).
Proof.
  intros Ho. apply hoare_of_exec. intros t o l' He Hv.
  pose proof (calls_exec _ _ _ _ (foot_cleanup ctx sm ns FINALIZER_CLEANUP_TIMEOUT_SECS) He) as Hq.
  assert (Ht : Forall (λ e, no_create (ev_call e)) t).
  { eapply Forall_impl; [exact Hq |]. cbn. intros [c r]. destruct c; cbn; try done. intros ?; set_solver. }
  apply run_cleanup_spec in He. destruct o as [| e |]; [| done |].
  - intros ar Har. refine (evolve_deleted ctx sm ns t l l' ar Ht _ Hv Har). apply He, Ho. by eapply evolve_fewer.
  - pose proof (evolve_unforced t l l' Hv) as Hu. rewrite Forall_forall in Hu. by apply (Hu _ He).
Qed.

Lemma deletion_leaves l : accounted owned l -> sm_phase sm = l_phase l -> triple l (handle_deletion ctx sm) leaves.
Proof using Hns H0.
  intros Ha Hp. unfold handle_deletion. apply ledger_namespace. cbv zeta.
  assert (Hrm : forall l', empty l' -> triple l' (remove_finalizer sm ns name) leaves).
  { intros l' He. apply ledger_empty; [done |]. eapply foot_no_create; [foot | set_solver]. }
  assert (Hskip : machine_phase (default "" (sm_phase sm)) = false -> empty l).
  { intros Hm ar (_ & _ & [Hq | Hq])%Ha; rewrite Hp, Hq in Hm; by vm_compute in Hm. }
  destruct (sm_phase sm) as [ph |]; [destruct (machine_phase ph) eqn:Hm | by apply Hrm, Hskip]; [| by apply Hrm, Hskip].
  apply hoare_bind. eapply hoare_mono; [done | | apply ledger_cleanup; by intros ar [? _]%Ha].
  cbn beta. intros l1 [| e |] Ho; [by apply Hrm | apply leaves_err |]. rewrite Ho.
  apply ledger_failed. cbn. intros _ _ (act & ? & _). done.
Qed.

Lemma kill_leaves l : accounted owned l -> sm_phase sm = l_phase l -> triple l (handle_kill_switch ctx sm) leaves.
Proof using Hns H0.
  intros Ha Hp. unfold handle_kill_switch. apply ledger_namespace. cbv zeta.
  assert (Hw : forall l', empty l' -> triple l' (update_phase ns name (sm_phase sm) PHASE_TERMINATED (Some REASON_KILL_SWITCH)
    (Some "Machine terminated due to kill switch") false ?;; Ret (Ok (Requeue TIMER_REQUEUE_SECS))) leaves).
  { intros l' He. apply ledger_empty; [done |]. eapply foot_no_create; [foot | set_solver]. }
  assert (Hskip : machine_phase (default "" (sm_phase sm)) = false -> empty l).
  { intros Hm ar (_ & _ & [Hq | Hq])%Ha; rewrite Hp, Hq in Hm; by vm_compute in Hm. }
  apply hoare_bind. destruct (sm_phase sm) as [ph |]; [| by apply Hw, Hskip].
  destruct (_ && _) eqn:Hm.
  - eapply hoare_mono; [done | | apply ledger_remove; by intros ar [? _]%Ha]. cbn beta.
    intros l1 [[] | e] He; [by apply Hw, He | apply leaves_err].
  - apply Hw, Hskip. cbn. destruct (machine_phase ph) eqn:Hmp; [| done]. rewrite andb_true_r in Hm.
    unfold machine_phase in Hmp. apply orb_true_iff in Hmp as [?%bool_decide_eq_true | ?%bool_decide_eq_true]; by subst ph.
Qed.

Lemma emergency_leaves l node request :
  (forall ar, l_objects l ar -> ar ∈ owned) -> triple l (handle_emergency_remove ctx sm node request) leaves.
Proof using Hns H0.
  intros Ho. unfold handle_emergency_remove. apply ledger_namespace. cbv zeta.
  assert (Hnc : forall A ls (p : M A), footprint ls p -> ECreate ∉ ls -> calls no_create p) by (intros; by eapply foot_no_create).
  apply ledger_bind_within; [by repeat split |]. intros l1 _ Ho1.
  apply ledger_bind_ok_within; [by repeat split |]. intros l2 _ Ho2.
  apply ledger_bind_within; [by repeat split |]. intros l3 _ Ho3.
  apply ledger_bind_within; [by repeat split |]. intros l4 now Ho4.
  apply ledger_bind_within; [by repeat split |]. intros l5 breach Ho5.
  apply ledger_bind_within; [by destruct breach; repeat split |]. intros l6 _ Ho6.
  apply ledger_bind_ok_within; [foot_quiet |]. intros l7 child Ho7.
  apply ledger_bind_within; [by repeat split |]. intros l8 start Ho8.
  apply ledger_bind_within; [foot_quiet |]. intros l9 drained Ho9.
  apply ledger_bind_within; [by repeat split |]. intros l10 spent Ho10.
  apply ledger_bind_within; [by repeat split |]. intros l11 _ Ho11.
  apply hoare_bind. eapply hoare_mono; [done | | apply ledger_remove].
  - cbn beta. intros l12 [[] | e] He; [| apply leaves_err]. apply ledger_empty; [by apply He |].
    unfold patch_disable_schedule, clear_reclaim_annotations_best_effort.
    eapply (foot_no_create [ELocal; EEvent; ESpec; EWorkload; EPhase PHASE_DISABLED]); [foot | set_solver].
  - intros ar Har. by apply Ho, Ho1, Ho2, Ho3, Ho4, Ho5, Ho6, Ho7, Ho8, Ho9, Ho10, Ho11.
Qed.

Lemma reclaim_leaves l :
  accounted owned l ->
  triple l (check_emergency_reclaim ctx sm) (λ l' r, match r with Ok None => below l' l | Ok (Some a) => leaves l' (Ok a) | Err _ => True end).
Proof using Hns H0.
  intros Ha. unfold check_emergency_reclaim. destruct (status sm ≫= node_ref) as [nref |]; [| by split_and!]. cbv zeta.
  destruct (str_is_empty _); [by split_and! |]. split; [done |]. intros [node | e] l1 Hl1; (eapply keeps_event in Hl1; [| done]).
  2: { cbn [bind]. destruct (is_api_error HTTP_NOT_FOUND e); [exact Hl1 | exact I]. }
  cbn [bind]. destruct (node_reclaim_request node) as [request |]; [| exact Hl1].
  apply hoare_bind. eapply hoare_mono; [done | | apply emergency_leaves; intros ar Har; by apply Ha, Hl1].
  cbn beta. by intros l2 [a | e].
Qed.

Lemma dispatch_leaves l b :
  discovered_ok ctx -> accounted owned l -> sm_phase sm = l_phase l -> l_finalizer l = true ->
  triple l (dispatch ctx sm (default PHASE_PENDING (sm_phase sm)) b) leaves.
Proof using Hns H0.
  intros Hd Ha Hp Hf. unfold dispatch.
  assert (He : default PHASE_PENDING (sm_phase sm) <> PHASE_ACTIVE -> default PHASE_PENDING (sm_phase sm) <> PHASE_SHUTTING_DOWN -> empty l).
  { intros H1 H2 ar (_ & _ & [Hq | Hq])%Ha; [by rewrite Hp, Hq in H1 | by rewrite Hp, Hq in H2]. }
  destruct (decide (_ = PHASE_ACTIVE)); [by apply active_leaves |].
  destruct (decide (_ = PHASE_SHUTTING_DOWN)); [by apply shutting_down_leaves |].
  destruct (foot_small sm b) as (F1 & F2 & F3). specialize (He ltac:(done) ltac:(done)).
  destruct (decide (_ = PHASE_INACTIVE)); [apply ledger_empty; [done |]; eapply foot_no_create; [done | set_solver] |].
  destruct (decide (_ = PHASE_DISABLED)); [apply ledger_empty; [done |]; eapply foot_no_create; [done | set_solver] |].
  destruct (decide (_ = PHASE_TERMINATED)); [by intros _; apply accounted_empty |].
  destruct (decide (_ = PHASE_EMERGENCY_REMOVE)); [apply ledger_empty; [done |]; eapply foot_no_create; [done | set_solver] |].
  destruct (decide (_ = PHASE_ERROR)); [by intros _; apply accounted_empty |]. by apply pending_leaves.
Qed.

Lemma inner_leaves l :
  discovered_ok ctx -> accounted owned l -> sm_phase sm = l_phase l -> l_finalizer l = true ->
  triple l (reconcile_inner ctx sm) leaves.
Proof using Hns H0.
  intros Hd Ha Hp Hf. unfold reconcile_inner. apply ledger_namespace.
  apply ledger_bind_ok; [done |]. intros l1 _ Hb1.
  assert (Ht : forall l', below l' l -> accounted owned l' /\ sm_phase sm = l_phase l' /\ l_finalizer l' = true).
  { intros l' Hb. split; [by eapply accounted_below |]. destruct Hb as (-> & -> & _). done. }
  destruct (kill_switch (spec sm)).
  - apply ledger_bind; [by repeat split |]. intros l2 _ Hb2. apply kill_leaves; eapply Ht; by eapply below_trans.
  - apply hoare_bind. eapply hoare_mono; [done | | apply reclaim_leaves, Ht, Hb1]. cbn beta.
    intros l2 [[a |] | e] Hl2; [exact Hl2 | | apply leaves_err].
    unfold evaluate_and_dispatch. cbv zeta.
    apply ledger_bind_ok; [foot_quiet |]. intros l3 v Hb3.
    apply ledger_bind; [foot_quiet |]. intros l4 _ Hb4.
    apply ledger_bind_ok; [foot_quiet |]. intros l5 _ Hb5.
    apply ledger_bind; [by repeat split |]. intros l6 _ Hb6.
    assert (Hb : below l6 l) by (repeat (eapply below_trans; [eassumption |]); done).
    by apply dispatch_leaves; try apply Ht.
Qed.

Lemma reconcile_leaves l :
  discovered_ok ctx -> accounted owned l -> sm_phase sm = l_phase l -> has_finalizer sm = l_finalizer l ->
  triple l (reconcile_scheduled_machine ctx sm) leaves.
Proof using Hns H0.
  intros Hd Ha Hp Hf. unfold reconcile_scheduled_machine. rewrite Hns. cbv zeta.
  apply ledger_bind; [by repeat split |]. intros l1 id Hb1. unfold reconcile_guarded.
  apply ledger_bind; [by repeat split |]. intros l2 start Hb2.
  apply ledger_bind; [by repeat split |]. intros l3 leader Hb3.
  assert (Hb : below l3 l) by (repeat (eapply below_trans; [eassumption |]); done).
  destruct (negb leader); [intros _; by eapply accounted_below |].
  pose proof (foot_should_process name ns (priority (spec sm)) (ctx_instance_count ctx)) as Hsp.
  apply ledger_bind; [eapply foot_keeps; [exact Hsp | set_solver ..] |]. intros l4 mine Hb4.
  assert (Hb' : below l4 l) by (by eapply below_trans).
  assert (Ht : accounted owned l4 /\ sm_phase sm = l_phase l4 /\ has_finalizer sm = l_finalizer l4).
  { split; [by eapply accounted_below |]. destruct Hb' as (-> & -> & _). done. }
  destruct Ht as (Ha4 & Hp4 & Hf4). destruct (negb mine); [intros _; exact Ha4 |].
  assert (Hk : forall r (k : M (rresult Action)), calls keeps k ->
    calls keeps (spent <- elapsed start ;; record_reconciliation_result r (default PHASE_PENDING (sm_phase sm)) spent ;;; k)).
  { intros r k Hk. apply calls_bind; [by repeat split | intros d]. apply calls_bind; [| done].
    eapply foot_keeps; [apply foot_result | set_solver ..]. }
  assert (Hr : forall r (k : M (rresult Action)), returns (λ r', r' = r) k ->
    returns (λ r', r' = r) (spent <- elapsed start ;; record_reconciliation_result r (default PHASE_PENDING (sm_phase sm)) spent ;;; k)).
  { intros r k Hkr. intros d. destruct r as [a | e]; [| destruct e]; by repeat intros ?. }
  destruct (om_deletion_timestamp _); [| destruct (has_finalizer sm); cbn [negb]].
  - apply ledger_then; [intros r; by apply Hk | intros r; by apply Hr |]. by apply deletion_leaves.
  - apply ledger_then; [intros r; apply Hk; by destruct r; repeat split | intros r; apply Hr; by destruct r; repeat intros ? |].
    by apply inner_leaves.
  - apply ledger_then; [intros r; by apply Hk | intros r; by apply Hr |].
    apply ledger_empty; [| eapply foot_no_create; [apply foot_add_finalizer | set_solver]].
    intros ar (_ & Hq & _)%Ha4. by rewrite Hq in Hf4.
Qed.
End handlers.

(** ** The life of a machine *)

Lemma lived_is_accounted `{Externals} `{ResolverLaws} ctx ns name owned l :
  discovered_ok ctx -> lived ctx (clean ctx) ns name owned l -> accounted owned l.
Proof.
  intros Hd Hl. induction Hl as [| l sm t r l' _ IH Hns <- <- Hp Hf He Hv [Ht Hr] | l l' _ IH Hp Hf Ho].
  - by intros ar.
  - refine (hoare_exec _ _ _ _ _ _ _ _ (reconcile_leaves ctx sm ns Hns l Hd IH Hp Hf) He _ Hr).
    clear He. revert Ht Hv. clear. revert l. induction t as [| e t IH]; cbn; [done |].
    intros l [? ?]%Forall_cons (l1 & ? & ?). exists l1. split; [by split | by apply IH].
  - intros ar Har%Ho. rewrite Hp, Hf. by apply IH.
Qed.

(** C3: let a machine live through reconciles each of which works on the object
    as stored (no stale copy of its phase or finalizer), reports no failure (an
    error or the error requeue) and drops no finalizer by force over a cleanup
    that timed out, its provider references constant and the discovered Cluster
    API version without a slash; in between, anybody may change anything but the
    phase and the finalizer, or delete objects.  Then every CAPI object that bears
    its name and was not asked to be deleted is one of the three its spec names,
    the machine has the controller's finalizer, and its phase is Active or
    ShuttingDown, whose handlers, like the deletion and kill-switch paths in these
    phases, remove the three.  ([stale_copy_orphans] and [lost_write_orphans]
    below show what the two excluded cases do.) *)
Theorem lived_accounted `{Externals} `{ResolverLaws} ctx ns name owned l ar :
  discovered_ok ctx -> lived ctx (clean ctx) ns name owned l -> l_objects l ar ->
  ar ∈ owned /\ l_finalizer l = true /\ (l_phase l = Some PHASE_ACTIVE \/ l_phase l = Some PHASE_SHUTTING_DOWN).
Proof. intros Hd Hl. by apply (lived_is_accounted ctx ns name). Qed.

(** ** Concrete lives *)

(** A cluster that applies what it answers with success, and nothing else. *)
Definition life_env (ns name : string) (answers : forall c, reply c) (c : call_t) (l : life) : life * reply c :=
  (match c with
   | PatchSMStatus m ns' n body =>
       match patch_phase body with
       | Some p => if bool_decide (ns' = ns /\ n = name) && is_ok (answers (PatchSMStatus m ns' n body) : result unit kube_error) then
           {| l_phase := Some p; l_finalizer := l_finalizer l; l_objects := l_objects l |} else l
       | None => l
       end
   | PatchSM _ ns' n body =>
       match patch_finalizer body with
       | Some b => if bool_decide (ns' = ns /\ n = name) then
           {| l_phase := l_phase l; l_finalizer := b; l_objects := l_objects l |} else l
       | None => l
       end
   | CreateDyn _ _ ar _ => {| l_phase := l_phase l; l_finalizer := l_finalizer l; l_objects := λ x, l_objects l x \/ x = ar |}
   | DeleteDyn _ _ ar _ => {| l_phase := l_phase l; l_finalizer := l_finalizer l; l_objects := λ x, l_objects l x /\ x <> ar |}
   | _ => l
   end, answers c).

Lemma life_env_after ns name answers c l :
  life_after ns name l (Ev c (life_env ns name answers c l).2) (life_env ns name answers c l).1.
Proof.
  destruct c; cbn -[patch_phase patch_finalizer]; try done.
  - split_and!; try done. intros x [Hx Hn]. split; [done |]. by intros [-> _].
  - destruct (patch_finalizer body); [| done]. case_bool_decide; cbn; [| done]. by split_and!; [..| left].
  - destruct (patch_phase body) as [p |]; [| done]. case_bool_decide; cbn -[is_ok]; [| done].
    destruct (is_ok _) eqn:E; cbn; (split_and!; [done | done |]); [by left | by right].
Qed.

Definition stored (finalizer : bool) (phase : option string) (deleted : bool) : ScheduledMachine := {|
  metadata := {| om_name := Some "sm"; om_namespace := Some "team"; om_uid := Some "u-1"; om_generation := Some 1%Z;
    om_finalizers := if finalizer then Some [FINALIZER_SCHEDULED_MACHINE] else None;
    om_deletion_timestamp := if deleted then Some "now" else None |};
  spec := spec sample_sm; status := match phase with Some p => status (with_phase p sample_sm) | None => None end |}.

Definition cluster (active writes : bool) (c : call_t) : reply c :=
  match c return reply c with
  | GetOptDyn _ _ _ _ => Ok (Some {| d_name := Some "nights"; d_namespace := Some "team"; d_labels := None;
      d_data := JObj [("status", JObj [("active", JBool active)])] |})
  | PatchSMStatus _ _ _ body =>
      match patch_phase body with
      | Some _ => if writes then Ok tt else Err (OtherKubeError "connection reset")
      | None => Ok tt
      end
  | c => (ok_handler c 0%Z).2
  end.
Notation sm_reconcile sm := (reconcile_scheduled_machine (H := toy_externals) (H0 := cache_resolver (H := toy_externals)) sample_ctx sm).
Definition after_reconcile (sm : ScheduledMachine) (active writes : bool) (l : life) : life :=
  (run (life_env "team" "sm" (cluster active writes)) l (sm_reconcile sm)).1.1.
Notation toy_lived fine := (lived (H := toy_externals) (H0 := cache_resolver (H := toy_externals)) sample_ctx fine "team" "sm"
  (owned_resources (H := toy_externals) sample_ctx sample_sm)).

Lemma lived_next fine sm active writes l :
  toy_lived fine l -> sm_phase sm = l_phase l -> has_finalizer sm = l_finalizer l ->
  Crd.namespace sm = Some "team" -> name_any sm = "sm" -> spec sm = spec sample_sm ->
  (forall t, Forall (unforced sample_ctx) t -> fine t (run (life_env "team" "sm" (cluster active writes)) l (sm_reconcile sm)).2) ->
  toy_lived fine (after_reconcile sm active writes l).
Proof.
  intros Hl Hp Hf Hns Hn Hs Hfine.
  destruct (run_evolve (life_after "team" "sm") (life_env "team" "sm" (cluster active writes)) (sm_reconcile sm)
    (life_env_after "team" "sm" (cluster active writes)) l) as [He Hv].
  eapply (lived_reconcile _ _ _ _ _ l sm); try done.
  - unfold owned_resources. by rewrite Hs.
  - apply Hfine. apply run_Forall. intros c l1. by destruct c.
Qed.

Definition joined : life := after_reconcile (stored false None false) true true unborn.
Definition started : life := after_reconcile (stored true None false) true true joined.

Lemma started_lived : toy_lived (clean sample_ctx) started.
Proof.
  apply lived_next; [apply lived_next; [constructor | reflexivity ..| ] | vm_compute; reflexivity .. |];
    (intros t Ht; split; [exact Ht |]; vm_compute; eexists; split; [reflexivity | discriminate]).
Qed.

Lemma lived_accounted_witness :
  discovered_ok sample_ctx /\ toy_lived (clean sample_ctx) started /\
  forall ar, ar ∈ owned_resources (H := toy_externals) sample_ctx sample_sm ->
    l_objects started ar /\ l_finalizer started = true /\ l_phase started = Some PHASE_ACTIVE.
Proof.
  assert (Hd : discovered_ok sample_ctx) by reflexivity. split; [exact Hd |].
  split; [exact started_lived |]. intros ar Har. assert (Ho : l_objects started ar).
  { vm_compute in Har |- *. set_solver. }
  pose proof (lived_accounted (H := toy_externals) (R := cache_resolver (H := toy_externals)) _ _ _ _ _ _ Hd started_lived Ho) as (_ & Hf & Hp).
  split_and!; [exact Ho | exact Hf |]. destruct Hp as [Hp | Hp]; [exact Hp | by vm_compute in Hp].
Defined.

(** One lost status write, just after the creation, and the objects outlive the
    machine: the phase still says Pending, so when the window closes the machine
    goes Inactive with its objects in place, and there its deletion drops the
    finalizer without a single removal.  Every other reconcile is clean. *)
Theorem lost_write_orphans : exists l,
  toy_lived (λ t r, Forall (unforced sample_ctx) t /\ (clean_result r \/ exists e, r = Err (KubeError e))) l /\
  l_finalizer l = false /\ l_phase l = Some PHASE_INACTIVE /\
  forall ar, ar ∈ owned_resources (H := toy_externals) sample_ctx sample_sm -> l_objects l ar.
Proof.
  set (unacknowledged := after_reconcile (stored true None false) true false joined).
  set (missed := after_reconcile (stored true None false) false true unacknowledged).
  exists (after_reconcile (stored true (Some PHASE_INACTIVE) true) false true missed).
  assert (Hok : forall (r : rresult Action) a, r = Ok a -> a <> Requeue ERROR_REQUEUE_SECS -> clean_result r) by (intros; by eexists).
  split; [| split_and!; vm_compute; [done | done | set_solver]].
  apply lived_next; [apply lived_next; [apply lived_next; [apply lived_next; [constructor | ..] | ..] | ..] | ..];
    try (vm_compute; reflexivity); intros t Ht; (split; [exact Ht |]).
  all: vm_compute; first [right; eexists; reflexivity | left; eexists; split; [reflexivity | discriminate]].
Qed.

(** A status patch carries no resource version, so the copy a reconcile works on
    is not checked: one that still says Pending, taken up after the window has
    closed, overwrites Active with Inactive, and the deletion that follows drops
    the finalizer over the objects.  Every reconcile is clean and every write is
    acknowledged. *)
Theorem stale_copy_orphans :
  let pending := stored true None false in
  let closed := after_reconcile pending false true started in
  let deleted := after_reconcile (stored true (Some PHASE_INACTIVE) true) false true closed in
  toy_lived (clean sample_ctx) started /\ l_phase started = Some PHASE_ACTIVE /\
  sm_phase pending = None /\
  clean_result (run (life_env "team" "sm" (cluster false true)) started (sm_reconcile pending)).2 /\
  l_phase closed = Some PHASE_INACTIVE /\ l_finalizer deleted = false /\
  forall ar, ar ∈ owned_resources (H := toy_externals) sample_ctx sample_sm -> l_objects deleted ar.
Proof.
  intros pending closed deleted. split; [exact started_lived |].
  split_and!; vm_compute; [done | done | by eexists | done | done | set_solver].
Qed.
