(* ===== verification/Deletion.v ===== *)
(** The end of a machine: its deletion completes ([handle_deletion] of
    [src/reconcilers/helpers.rs], inside [reconcile_scheduled_machine]).

    [Ledger] shows that nothing is orphaned on the way; here, that the way has
    an end: attempts that fail, time out or are answered by errors leave the
    machine where the next attempt can finish, and the first attempt whose calls
    are answered does. *)

From S2P Require Import Prelude RustStr Effects Constants Json Crd Externals KubeApi Samples Metrics.
From S2P Require Import Duration SpotSchedule Status Capi Drain NodeTaints ChildClient Emergency Finalizer.
From S2P Require Import Provision Assignment Phases Reconcile Confinement Footprint Ledger.

(** What the attempt needs of its environment: to lead, to be the instance of
    the machine, deletions accepted (or nothing to delete), its patch accepted,
    and the deadline not to pass. *)
Definition obliging (ctx : Context) (sm : ScheduledMachine) (ns : string) (e : event reply) : Prop :=
  match e with
  | Ev IsLeader leader => leader = true
  | Ev (EnvVar _) v => assigned_instance (name_any sm) ns (priority (spec sm)) (ctx_instance_count ctx) = instance_of_env v
  | Ev (DeadlinePassed _) passed => passed = false
  | Ev (DeleteDyn _ _ _ _) r => delete_ok r = true
  | Ev (PatchSM _ _ _ _) r => r = Ok tt
  | _ => True
  end.

(** ** Removals whose deletions are accepted *)

Section removal.
Context `{Externals} (ctx : Context) (good : event reply -> Prop).
Context (deletes : forall c ns ar n (r : result unit kube_error), good (Ev (DeleteDyn c ns ar n) r) -> delete_ok r = true).
Notation under := (under good (λ _, True)).

Lemma under_delete_embedded c ns n r : under (delete_embedded c ns n r) (λ x, x = Ok tt).
Proof using deletes.
  unfold delete_embedded. destruct (EmbeddedResource.api_version r), (EmbeddedResource.kind r); try done.
  cbn. split; [done |]. intros [[] | e] [] Hr%deletes; cbn in *; [done |]. by rewrite Hr.
Qed.

Lemma under_remove sm c ns : under (remove_machine_from_cluster ctx sm c ns) (λ x, x = Ok tt).
Proof using deletes.
  assert (Hk : forall b i n, under (delete_embedded c ns n b ?;; delete_embedded c ns n i ?;; Ret (Ok tt)) (λ x, x = Ok tt)).
  { intros b i n. eapply under_bind_ok; [apply under_delete_embedded | intros [] _ | done].
    by eapply under_bind_ok; [apply under_delete_embedded | intros [] _ | done]. }
  unfold remove_machine_from_cluster. cbv zeta. cbn -[delete_embedded]. split; [done |].
  intros [[] | e] [] Hr%deletes; [apply Hk |]. cbn in Hr. rewrite Hr. apply Hk.
Qed.
End removal.

Section attempt.
Context `{Externals} `{ResolverLaws} (ctx : Context) (sm : ScheduledMachine) (ns : string).
Hypothesis Hns : Crd.namespace sm = Some ns.
Notation name := (name_any sm).
Notation owned := (owned_resources ctx sm).
Notation under := (under (obliging ctx sm ns) (λ _, True)).

(** ** The attempt that is answered *)

Lemma under_with_timeout {A} secs (p : M A) Q : under p Q -> under (with_timeout secs p) (λ o, exists a, o = Some a /\ Q a).
Proof.
  unfold Effects.under. induction p as [a | c k IH]; cbn; [eauto |]. intros [_ Hk]. split; [done |]. intros r [] Hr. split; [done |].
  intros b [] ->. by apply IH, Hk.
Qed.

Lemma under_remove_finalizer : under (remove_finalizer sm ns name) (λ x, x = Ok AwaitChange).
Proof. cbn. split; [done |]. by intros r [] ->. Qed.

Lemma under_namespace {A} (k : string -> M (rresult A)) Q :
  under (k ns) Q -> under (namespace <-? lift (require_namespace sm) ;; k namespace) Q.
Proof using Hns. unfold require_namespace. by rewrite Hns. Qed.

Lemma under_deletion : under (handle_deletion ctx sm) (λ x, x = Ok AwaitChange).
Proof using Hns.
  unfold handle_deletion. apply under_namespace. cbv zeta.
  destruct (sm_phase sm) as [ph |]; [destruct (machine_phase ph) |]; try apply under_remove_finalizer.
  apply (under_bind _ _ _ _ (λ o, o = Completed)); [| intros ? ->; apply under_remove_finalizer].
  eapply under_bind; [by apply under_with_timeout, under_remove |]. by intros _ (a & -> & ->).
Qed.

Lemma under_should_process :
  under (should_process_resource name ns (priority (spec sm)) (ctx_instance_count ctx)) (λ b, b = true).
Proof.
  unfold should_process_resource. destruct (bool_decide (_ <= 1)%Z); [done |]. cbn. split; [done |]. intros v [] Hv.
  by apply bool_decide_eq_true.
Qed.

Lemma under_reconcile :
  is_Some (om_deletion_timestamp (metadata sm)) -> under (reconcile_scheduled_machine ctx sm) (λ x, x = Ok AwaitChange).
Proof using Hns.
  intros [dt Hd]. unfold reconcile_scheduled_machine. rewrite Hns. cbv zeta.
  eapply (under_bind _ _ _ _ (λ _, True)); [by repeat split | intros id _]. unfold reconcile_guarded.
  eapply (under_bind _ _ _ _ (λ _, True)); [by repeat split | intros start _].
  eapply (under_bind _ _ _ _ (λ b, b = true)); [split; [done |]; by intros b [] Hb | intros leader ->]. cbn [negb].
  eapply under_bind; [apply under_should_process | intros mine ->]. cbn [negb]. rewrite Hd.
  eapply under_bind; [apply under_deletion | intros r ->]. by repeat split.
Qed.

(** ** Any attempt *)

Notation triple := (hoare (life_clean ctx sm ns) (λ _ _, True)).

(** The last call of a deletion, once nothing is left: the finalizer goes, if the
    patch is accepted. *)
Definition concluded (l : life) (r : rresult Action) : Prop :=
  accounted owned l /\ (is_ok r = true -> l_finalizer l = false).

Lemma dropped : patch_finalizer (finalizers_without sm) = Some false.
Proof.
  unfold finalizers_without. generalize (default [] (om_finalizers (metadata sm))). intros fs.
  enough (Hx : existsb (λ f, bool_decide (as_str f = Some FINALIZER_SCHEDULED_MACHINE))
    (JStr <$> List.filter (λ f, negb (bool_decide (f = FINALIZER_SCHEDULED_MACHINE))) fs) = false) by (exact (f_equal Some Hx)).
  induction fs as [| f fs IH]; [done |]. cbn [List.filter]. case_bool_decide as Hf; cbn [negb]; [done |].
  cbn [fmap list_fmap existsb as_str]. rewrite bool_decide_false by congruence. exact IH.
Qed.

Lemma conclude l : empty l -> triple l (remove_finalizer sm ns name) concluded.
Proof.
  intros He. unfold remove_finalizer. fold (finalizers_without sm). cbn -[finalizers_without patch_finalizer]. split; [done |].
  intros r l' [(Ho & _ & Hw) _]. rewrite dropped, bool_decide_true in Hw by done.
  assert (Ha : accounted owned l') by (apply accounted_empty; intros ar Har; by apply (He ar), Ho).
  destruct r as [[] | e]; [| by split]. destruct Hw as [Hw | [? _]]; [by split | done].
Qed.

Lemma attempt_bind {A} l (p : M A) (k : A -> M (rresult Action)) :
  accounted owned l -> calls keeps p -> (forall l' a, accounted owned l' -> triple l' (k a) concluded) -> triple l (bind p k) concluded.
Proof. intros Ha Hp Hk. apply ledger_bind; [done |]. intros l' a Hb. apply Hk. by eapply accounted_below. Qed.

Lemma deletion_attempt l : accounted owned l -> sm_phase sm = l_phase l -> triple l (handle_deletion ctx sm) concluded.
Proof using Hns H0.
  intros Ha Hp. unfold handle_deletion. apply ledger_namespace; [done |]. cbv zeta.
  assert (Hskip : machine_phase (default "" (sm_phase sm)) = false -> empty l).
  { intros Hm ar (_ & _ & [Hq | Hq])%Ha; rewrite Hp, Hq in Hm; by vm_compute in Hm. }
  destruct (sm_phase sm) as [ph |]; [destruct (machine_phase ph) eqn:Hm | by apply conclude, Hskip]; [| by apply conclude, Hskip].
  apply hoare_bind. eapply hoare_mono; [done | |].
  2: { apply hoare_and; [apply (ledger_cleanup ctx sm ns Hns l); by intros ar [? _]%Ha |].
       apply (ledger_keeps ctx sm ns). eapply foot_keeps; [apply foot_cleanup | set_solver ..]. }
  cbn beta. intros l1 o [Ho Hb]. assert (Ha1 : accounted owned l1) by (by eapply accounted_below).
  destruct o as [| e |]; [by apply conclude | by split | rewrite Ho].
  apply attempt_bind; [done | by repeat split |]. intros l2 _ Ha2.
  apply attempt_bind; [done | by repeat split |]. intros l3 _ Ha3. by split.
Qed.

(** A whole reconcile, in an environment whose replies are [good]. *)
Section environment.
Context (good : event reply -> Prop).
Notation triple_in := (hoare (λ l e l', life_clean ctx sm ns l e l' /\ good e) (λ _ _, True)).

Lemma clean_in {A} (p : M A) Q l : triple l p Q -> triple_in l p Q.
Proof. apply hoare_sub. by intros ? ? ? []. Qed.

Lemma step_in {A B} l (p : M A) (k : A -> M B) (Q : A -> Prop) Q' :
  calls keeps p -> Effects.under good (λ _, True) p Q ->
  (forall l' a, below l' l -> Q a -> triple_in l' (k a) Q') -> triple_in l (bind p k) Q'.
Proof.
  intros Hp Hu Hk. apply hoare_bind. eapply hoare_mono; [| | apply hoare_and; [by apply clean_in, (ledger_keeps ctx sm ns) | by apply hoare_under]].
  - done.
  - cbn. intros l' a [Hb Ha]. by apply Hk.
Qed.

(** An attempt leaves the machine accounted for, and one that is obliged drops
    the finalizer. *)
Lemma attempt_in l :
  is_Some (om_deletion_timestamp (metadata sm)) -> accounted owned l -> sm_phase sm = l_phase l ->
  triple_in l (reconcile_scheduled_machine ctx sm) (λ l' r, accounted owned l' /\
    ((forall e, good e -> obliging ctx sm ns e) -> is_ok r = true -> l_finalizer l' = false)).
Proof using Hns H0.
  intros [dt Hd] Ha Hp. unfold reconcile_scheduled_machine. rewrite Hns. cbv zeta.
  assert (Hk : forall l', below l' l -> accounted owned l' /\ sm_phase sm = l_phase l').
  { intros l' Hb. split; [by eapply accounted_below | by destruct Hb as (-> & _)]. }
  apply (step_in _ _ _ (λ _, True)); [by repeat split | by repeat split |]. intros l1 id Hb1 _. unfold reconcile_guarded.
  apply (step_in _ _ _ (λ _, True)); [by repeat split | by repeat split |]. intros l2 start Hb2 _.
  apply (step_in _ _ _ (λ b, (forall e, good e -> obliging ctx sm ns e) -> b = true)); [by repeat split | |].
  { split; [done |]. intros b [] Hg Ho. exact (Ho _ Hg). }
  intros l3 leader Hb3 Hl. assert (Hb : below l3 l) by (repeat (eapply below_trans; [eassumption |]); done).
  destruct leader; cbn [negb]; [| split; [by apply Hk | by intros ?%Hl]].
  apply (step_in _ _ _ (λ b, (forall e, good e -> obliging ctx sm ns e) -> b = true)).
  { eapply foot_keeps; [apply foot_should_process | set_solver ..]. }
  { unfold should_process_resource. destruct (bool_decide (_ <= 1)%Z); [done |]. cbn. split; [done |]. intros v [] Hg Ho.
    apply bool_decide_eq_true. exact (Ho _ Hg). }
  intros l4 mine Hb4 Hm. assert (Hb' : below l4 l) by (by eapply below_trans).
  destruct mine; cbn [negb]; [| split; [by apply Hk | by intros ?%Hm]]. rewrite Hd.
  apply hoare_bind. eapply hoare_mono; [done | | apply clean_in, deletion_attempt; by apply Hk]. cbn beta. intros l5 r [Ha5 Hf5].
  eapply (step_in _ _ _ (λ _, True)); [by repeat split | by repeat split |]. intros l6 spent Hb6 _.
  eapply (step_in _ _ _ (λ _, True)); [eapply foot_keeps; [apply foot_result | set_solver ..] | |].
  { destruct r as [a | e]; [| destruct e]; by repeat split. }
  intros l7 _ Hb7 _. assert (Hb75 : below l7 l5) by (by eapply below_trans).
  split; [by eapply accounted_below |]. intros _ Hr. destruct Hb75 as (_ & -> & _). by apply Hf5.
Qed.
End environment.
End attempt.

(** ** The end of a life *)

(** The stored copy of a machine that is being deleted. *)
Definition doomed `{Externals} (ctx : Context) (ns name : string) (owned : list ApiResource) (l : life) (sm : ScheduledMachine) : Prop :=
  Crd.namespace sm = Some ns /\ name_any sm = name /\ owned_resources ctx sm = owned /\ sm_phase sm = l_phase l /\
  is_Some (om_deletion_timestamp (metadata sm)).

(** Attempts to delete it, of any outcome; only a finalizer dropped by force over
    a cleanup that timed out is excluded. *)
Inductive dying `{Externals} `{ChildResolver} (ctx : Context) (ns name : string) (owned : list ApiResource) : life -> life -> Prop :=
| dying_refl l : dying ctx ns name owned l l
| dying_attempt l sm t r l1 l2 :
    doomed ctx ns name owned l sm ->
    exec (reconcile_scheduled_machine ctx sm) t r -> evolve (life_after ns name) l t l1 -> Forall (unforced ctx) t ->
    dying ctx ns name owned l1 l2 -> dying ctx ns name owned l l2
| dying_others l l1 l2 : below l1 l -> dying ctx ns name owned l1 l2 -> dying ctx ns name owned l l2.

Lemma evolve_and {S} (after : S -> event reply -> S -> Prop) good : forall t s s',
  evolve after s t s' -> Forall good t -> evolve (λ s e s', after s e s' /\ good e) s t s'.
Proof.
  induction t as [| e t IH]; cbn; [done |]. intros s s' (s1 & Ha & Hv) [He Ht]%Forall_cons. exists s1. split; [done | by apply IH].
Qed.

Lemma obliging_unforced ctx sm ns e : obliging ctx sm ns e -> unforced ctx e.
Proof. destruct e as [[] r]; cbn; try done. by intros ->. Qed.

Lemma dying_accounted `{Externals} `{ResolverLaws} ctx ns name owned l l' :
  dying ctx ns name owned l l' -> accounted owned l -> accounted owned l'.
Proof.
  induction 1 as [l | l sm t r l1 l2 (Hns & <- & <- & Hp & Hd) He Hv Hu _ IH | l l1 l2 Hb _ IH]; intros Ha; [done | |].
  - apply IH. refine (proj1 (hoare_exec _ _ _ _ _ _ _ _ (attempt_in ctx sm ns Hns (λ _, True) l Hd Ha Hp) He _)).
    apply evolve_and; [by apply evolve_and | by apply Forall_true].
  - apply IH. destruct Hb as (Hp & Hf & Ho). intros ar Har. rewrite Hp, Hf. by apply Ha, Ho.
Qed.

(** C12: deletion completes.  Let a machine have lived as in [lived_accounted]
    before its deletion (reconciles on the stored object, none failed, no
    finalizer forced, provider references constant, Cluster API version without
    a slash), and let attempts to delete it then have had any outcome (errors of
    any call, timeouts, no leader, another instance, objects deleted by others),
    each on the stored object and none forced over a timed-out cleanup.  The
    first attempt on the leading instance it is assigned to whose deletions and
    finalizer patch succeed before the deadline returns with the finalizer
    dropped and none of the machine's CAPI objects left. *)
Theorem deletion_completes `{Externals} `{ResolverLaws} ctx ns name owned l0 l sm t r l' :
  discovered_ok ctx -> lived ctx (clean ctx) ns name owned l0 -> dying ctx ns name owned l0 l ->
  doomed ctx ns name owned l sm ->
  exec (reconcile_scheduled_machine ctx sm) t r -> evolve (life_after ns name) l t l' -> Forall (obliging ctx sm ns) t ->
  r = Ok AwaitChange /\ l_finalizer l' = false /\ forall ar, ~ l_objects l' ar.
Proof.
  intros Hd Hl Hx (Hns & <- & <- & Hp & Hdt) He Hv Ho.
  assert (Ha : accounted (owned_resources ctx sm) l).
  { eapply dying_accounted; [exact Hx |]. intros ar. by apply (lived_is_accounted ctx ns (name_any sm)). }
  assert (Hr : r = Ok AwaitChange).
  { refine (hoare_exec _ _ _ _ tt t r tt (under_reconcile ctx sm ns Hns Hdt) He _).
    clear -Ho. induction Ho as [| e t He _ IH]; [done |]. by exists tt. }
  refine ((λ Hc, conj Hr (conj (proj2 Hc (λ e Hg, Hg) _) _)) (hoare_exec _ _ _ _ _ _ _ _
    (attempt_in ctx sm ns Hns (obliging ctx sm ns) l Hdt Ha Hp) He _)).
  - by rewrite Hr.
  - intros ar Har. destruct Hc as [Hc Hf]. destruct (Hc ar Har) as (_ & Hq & _). rewrite Hf in Hq; [done | done | by rewrite Hr].
  - apply evolve_and; [apply evolve_and; [done |] | done]. eapply Forall_impl; [exact Ho |]. apply obliging_unforced.
Qed.

(** One attempt refused by the API server, then one that is answered. *)
Definition refusing (c : call_t) : reply c :=
  match c return reply c with
  | DeleteDyn _ _ _ _ => Err (OtherKubeError "etcdserver: request timed out")
  | c => cluster true true c
  end.
Definition terminating : ScheduledMachine := stored true (Some PHASE_ACTIVE) true.
Definition refused : life := (run (life_env "team" "sm" refusing) started (sm_reconcile terminating)).1.1.

Lemma deletion_completes_witness :
  doomed (H := toy_externals) sample_ctx "team" "sm" (owned_resources (H := toy_externals) sample_ctx sample_sm) refused terminating /\
  l_finalizer refused = true /\
  (run (life_env "team" "sm" refusing) started (sm_reconcile terminating)).2 <> Ok AwaitChange /\
  l_finalizer (after_reconcile terminating true true refused) = false /\
  forall ar, ~ l_objects (after_reconcile terminating true true refused) ar.
Proof.
  assert (Hd : forall l, l_phase l = Some PHASE_ACTIVE ->
    doomed (H := toy_externals) sample_ctx "team" "sm" (owned_resources (H := toy_externals) sample_ctx sample_sm) l terminating).
  { intros l Hl. unfold doomed. rewrite Hl. repeat split. by eexists. }
  assert (Hs : l_phase started = Some PHASE_ACTIVE) by (vm_compute; reflexivity).
  assert (Hr : l_phase refused = Some PHASE_ACTIVE) by (vm_compute; reflexivity).
  split; [exact (Hd _ Hr) |]. split; [vm_compute; reflexivity |]. split; [vm_compute; discriminate |].
  pose proof (run_evolve (life_after "team" "sm") (life_env "team" "sm" refusing) (sm_reconcile terminating)
    (life_env_after "team" "sm" refusing) started) as [He1 Hv1].
  pose proof (run_evolve (life_after "team" "sm") (life_env "team" "sm" (cluster true true)) (sm_reconcile terminating)
    (life_env_after "team" "sm" (cluster true true)) refused) as [He2 Hv2].
  refine (proj2 (deletion_completes (H := toy_externals) (R := cache_resolver (H := toy_externals)) sample_ctx "team" "sm"
    (owned_resources (H := toy_externals) sample_ctx sample_sm) started refused terminating _ _ _ eq_refl started_lived _ (Hd _ Hr) He2 Hv2 _)).
  - refine (dying_attempt (H := toy_externals) sample_ctx "team" "sm" _ _ _ _ _ _ _ (Hd _ Hs) He1 Hv1 _ (dying_refl _ _ _ _ _)).
    apply run_Forall. intros c l. by destruct c.
  - apply run_Forall. intros c l. by destruct c.
Defined.
