(* ===== verification/Lifecycle.v ===== *)
(** The lifecycle of a machine: the abstract state machine of the phases, and
    the refinement of every reconcile to it. *)

From S2P Require Import Prelude RustStr Effects Constants Json Crd Externals KubeApi Samples Metrics.
From S2P Require Import Duration SpotSchedule Status Capi Drain NodeTaints ChildClient Emergency Finalizer.
From S2P Require Import Provision Assignment Phases Reconcile Confinement Footprint.

(** ** The abstract machine *)

(** The phase changes a reconcile may make, with their guards on the spec. *)
Inductive transition (sm : ScheduledMachine) : string -> string -> Prop :=
| t_disable : is_enabled (spec sm) = false -> transition sm PHASE_PENDING PHASE_DISABLED
| t_outside : is_enabled (spec sm) = true -> transition sm PHASE_PENDING PHASE_INACTIVE
| t_create : is_enabled (spec sm) = true -> transition sm PHASE_PENDING PHASE_ACTIVE
| t_create_failed : is_enabled (spec sm) = true -> transition sm PHASE_PENDING PHASE_ERROR
| t_shut_down : transition sm PHASE_ACTIVE PHASE_SHUTTING_DOWN
| t_removed : transition sm PHASE_SHUTTING_DOWN PHASE_INACTIVE
| t_remove_failed : transition sm PHASE_SHUTTING_DOWN PHASE_ERROR
| t_reactivate : is_enabled (spec sm) = true -> transition sm PHASE_INACTIVE PHASE_PENDING
| t_enable : is_enabled (spec sm) = true -> transition sm PHASE_DISABLED PHASE_PENDING
| t_emergency from : kill_switch (spec sm) = false -> transition sm from PHASE_EMERGENCY_REMOVE
| t_emergency_done : kill_switch (spec sm) = false -> transition sm PHASE_EMERGENCY_REMOVE PHASE_DISABLED
| t_kill from : kill_switch (spec sm) = true -> transition sm from PHASE_TERMINATED.

(** The same, decided. *)
Definition transition_b (sm : ScheduledMachine) (from to : string) : bool :=
  let enabled := is_enabled (spec sm) in
  let kill := kill_switch (spec sm) in
  existsb (λ '(g, a, b), g && bool_decide (a = from) && bool_decide (b = to))
    [(negb enabled, PHASE_PENDING, PHASE_DISABLED);
     (enabled, PHASE_PENDING, PHASE_INACTIVE); (enabled, PHASE_PENDING, PHASE_ACTIVE); (enabled, PHASE_PENDING, PHASE_ERROR);
     (true, PHASE_ACTIVE, PHASE_SHUTTING_DOWN);
     (true, PHASE_SHUTTING_DOWN, PHASE_INACTIVE); (true, PHASE_SHUTTING_DOWN, PHASE_ERROR);
     (enabled, PHASE_INACTIVE, PHASE_PENDING); (enabled, PHASE_DISABLED, PHASE_PENDING);
     (negb kill, from, PHASE_EMERGENCY_REMOVE); (negb kill, PHASE_EMERGENCY_REMOVE, PHASE_DISABLED);
     (kill, from, PHASE_TERMINATED)].

Lemma transition_b_spec sm from to : transition_b sm from to = true <-> transition sm from to.
Proof.
  unfold transition_b. rewrite List.existsb_exists. split.
  - intros ([[g a] b] & Hin & Hg). rewrite !andb_true_iff, !bool_decide_eq_true in Hg. destruct Hg as [[Hg Ha] Hb].
    cbn in Hin. repeat (destruct Hin as [Hin | Hin]; [injection Hin as Hx Hy Hz; subst; rewrite ?negb_true_iff in Hg; by constructor |]).
    done.
  - intros Ht. destruct Ht; cbn.
    1: exists (negb (is_enabled (spec sm)), PHASE_PENDING, PHASE_DISABLED).
    2: exists (is_enabled (spec sm), PHASE_PENDING, PHASE_INACTIVE).
    3: exists (is_enabled (spec sm), PHASE_PENDING, PHASE_ACTIVE).
    4: exists (is_enabled (spec sm), PHASE_PENDING, PHASE_ERROR).
    5: exists (true, PHASE_ACTIVE, PHASE_SHUTTING_DOWN).
    6: exists (true, PHASE_SHUTTING_DOWN, PHASE_INACTIVE).
    7: exists (true, PHASE_SHUTTING_DOWN, PHASE_ERROR).
    8: exists (is_enabled (spec sm), PHASE_INACTIVE, PHASE_PENDING).
    9: exists (is_enabled (spec sm), PHASE_DISABLED, PHASE_PENDING).
    10: exists (negb (kill_switch (spec sm)), from, PHASE_EMERGENCY_REMOVE).
    11: exists (negb (kill_switch (spec sm)), PHASE_EMERGENCY_REMOVE, PHASE_DISABLED).
    12: exists (kill_switch (spec sm), from, PHASE_TERMINATED).
    all: rewrite ?H; (split; [tauto |]); by rewrite !bool_decide_true.
Qed.

(** The phase a reconcile starts from: absent and unknown phases are handled
    as Pending. *)
Definition observed_phase (sm : ScheduledMachine) : string :=
  let p := default PHASE_PENDING (sm_phase sm) in
  if bool_decide (p ∈ all_phases) then p else PHASE_PENDING.

(** ** The concrete trace, read as phases *)

(** Every phase write is to the machine itself on the management cluster and is
    a transition; a write that fails leaves the phase as it was. *)
Definition lifecycle_step (sm : ScheduledMachine) (ns : string) (phase : string) (e : event reply) : option string :=
  match e with
  | Ev (PatchSMStatus c ns' n body) r =>
      match patch_phase body with
      | None => Some phase
      | Some p =>
          if bool_decide (c = MgmtClient) && bool_decide (ns' = ns) && bool_decide (n = name_any sm) &&
             transition_b sm phase p
          then Some (if is_ok r then p else phase) else None
      end
  | _ => Some phase
  end.

Lemma lifecycle_step_reach sm ns s e s' : lifecycle_step sm ns s e = Some s' -> rtc (transition sm) s s'.
Proof.
  unfold lifecycle_step. destruct e as [[] r]; try by intros [= ->].
  destruct (patch_phase body) as [p |]; [| by intros [= ->]].
  intros Hs. destruct (_ && _ && _ && _) eqn:Hg; [| done]. apply andb_true_iff in Hg as [_ Ht].
  apply transition_b_spec in Ht. injection Hs as <-. destruct (is_ok _); [by apply rtc_once | done].
Qed.

Lemma mon_reach {A} sm ns (p : M A) : forall s0 s,
  rtc (transition sm) s0 s ->
  mon (lifecycle_step sm ns) s p (λ _ _, True) -> mon (lifecycle_step sm ns) s p (λ s' _, rtc (transition sm) s0 s').
Proof.
  induction p as [a | c k IH]; intros s0 s Hr Hm; [exact Hr |]. cbn [mon] in *.
  intros r. specialize (Hm r). destruct (lifecycle_step sm ns s (Ev c r)) as [s' |] eqn:He; [| done].
  apply IH; [| done]. etrans; [exact Hr |]. by eapply lifecycle_step_reach.
Qed.

(** ** Everything but the phase writes is silent *)

Definition silent : list effect := [ELocal; ERead; EEvent; EStatus; EWorkload; EReview; ECreate; EDelete; ESpec].

Lemma quiet_silent {A} (p : M A) : footprint silent p -> calls quiet p.
Proof.
  apply calls_mono. intros c. unfold silent. destruct c; try done. unfold quiet, kind_of.
  destruct (patch_phase body); [| done]. set_solver.
Qed.

Ltac quieten := apply quiet_silent; unfold silent; foot.

Section silent.
Context `{Externals} `{ResolverLaws} (ctx : Context) (sm : ScheduledMachine) (ns : string).

Lemma quiet_enrich n m : calls quiet (enrich_status sm ns n m).
Proof using H0. apply quiet_silent. eapply footprint_mono; [apply foot_enrich |]. unfold background, silent. set_solver. Qed.
Lemma quiet_deletion : calls quiet (handle_deletion ctx sm).
Proof. apply quiet_silent. eapply footprint_mono; [apply foot_deletion |]. unfold silent. destruct (has_objects sm); set_solver. Qed.
Lemma quiet_add_finalizer : calls quiet (add_finalizer sm).
Proof. unfold add_finalizer. quieten. Qed.
End silent.

(** ** Refinement *)

Section refinement.
Context `{Externals} `{ResolverLaws} (ctx : Context) (sm : ScheduledMachine) (ns : string).
Context (Hns : Crd.namespace sm = Some ns).

(** The run stays inside the lifecycle from phase [s]. *)
Definition within {A} (s : string) (p : M A) : Prop := mon (lifecycle_step sm ns) s p (λ _ _, True).

Lemma step_quiet s c r : quiet c -> lifecycle_step sm ns s (Ev c r) = Some s.
Proof. destruct c; cbn; try done. by intros ->. Qed.

Lemma within_quiet {A} s (p : M A) : calls quiet p -> within s p.
Proof.
  intros Hp. eapply (mon_stay _ _ quiet (λ _, True)); [done | | intros; by apply step_quiet | done].
  clear. induction p; cbn; auto.
Qed.
Lemma within_bind {A B} s (p : M A) (k : A -> M B) : calls quiet p -> (forall a, within s (k a)) -> within s (bind p k).
Proof.
  intros Hp Hk. apply mon_bind. eapply (mon_stay _ _ quiet (λ _, True)); [done | | intros; by apply step_quiet | intros a _; apply Hk].
  clear. induction p; cbn; auto.
Qed.
Lemma within_bind_ok {A B} s (p : M (rresult A)) (k : A -> M (rresult B)) :
  calls quiet p -> (forall a, within s (k a)) -> within s (bind_ok p k).
Proof. intros Hp Hk. apply within_bind; [done |]. by intros []. Qed.
Lemma within_ns {A} s (k : string -> M (rresult A)) : within s (k ns) -> within s (bind_ok (lift (require_namespace sm)) k).
Proof using Hns. intros Hk. apply mon_bind_lift; [| done]. intros n Hn%ok_or_Ok. assert (n = ns) as -> by congruence. exact Hk. Qed.

Lemma step_write s p m c l i r :
  transition sm s p ->
  lifecycle_step sm ns s (Ev (PatchSMStatus MgmtClient ns (name_any sm) (status_patch (phase_status p m c l i))) r)
    = Some (if is_ok r then p else s).
Proof.
  intros Ht%transition_b_spec. unfold lifecycle_step. rewrite patch_phase_status.
  by rewrite !bool_decide_true, Ht by done.
Qed.

(** A phase write that is a transition; the continuation runs in the new phase. *)
Lemma within_write {A} s p from reason msg i (k : unit -> M (rresult A)) :
  transition sm s p -> within p (k tt) ->
  within s (update_phase ns (name_any sm) from p reason msg i ?;; k tt).
Proof.
  intros Ht Hk. unfold within. cbn -[lifecycle_step status_patch].
  intros _r; rewrite step_quiet by done; intros now; rewrite step_quiet by done.
  intros [[] | e]; rewrite step_write by done; [exact Hk | done].
Qed.
Lemma within_write_grace {A} s p from reason msg i (k : unit -> M (rresult A)) :
  transition sm s p -> within p (k tt) ->
  within s (update_phase_with_grace_period ns (name_any sm) from p reason msg i ?;; k tt).
Proof.
  intros Ht Hk. unfold within. cbn -[lifecycle_step status_patch].
  intros _r; rewrite step_quiet by done; intros now; rewrite step_quiet by done.
  intros [[] | e]; rewrite step_write by done; [exact Hk | done].
Qed.

Lemma within_pending b : within PHASE_PENDING (handle_pending_phase ctx sm b).
Proof using Hns H0.
  unfold handle_pending_phase. apply within_ns. cbv zeta.
  destruct (is_enabled (spec sm)) eqn:He; cbn [negb].
  2: { apply (within_write _ _ _ _ _ _ (λ _, Ret _)); [by constructor | done]. }
  destruct (negb b).
  { apply (within_write _ _ _ _ _ _ (λ _, Ret _)); [by constructor | done]. }
  apply within_bind; [quieten | intros [u | e]];
    (apply (within_write _ _ _ _ _ _ (λ _, Ret _)); [by constructor | done]).
Qed.

Lemma within_active b : within PHASE_ACTIVE (handle_active_phase ctx sm b).
Proof using Hns H0.
  unfold handle_active_phase. apply within_ns. cbv zeta.
  destruct (negb (is_enabled (spec sm))).
  { apply (within_write_grace _ _ _ _ _ _ (λ _, Ret _)); [by constructor | done]. }
  destruct (negb b).
  { apply (within_write_grace _ _ _ _ _ _ (λ _, Ret _)); [by constructor | done]. }
  apply within_quiet. pose proof (foot_enrich sm) as He. unfold background in He. quieten.
Qed.

Lemma within_shutting_down : within PHASE_SHUTTING_DOWN (handle_shutting_down_phase ctx sm).
Proof using Hns H0.
  unfold handle_shutting_down_phase. apply within_ns. cbv zeta.
  apply within_bind_ok; [quieten | intros []]; [| done].
  apply within_bind_ok; [unfold get_node_from_machine; quieten | intros node].
  apply within_bind_ok; [unfold drain_bound_node; quieten | intros []].
  apply within_bind; [quieten | intros [u | e]];
    (apply (within_write _ _ _ _ _ _ (λ _, Ret _)); [by constructor | done]).
Qed.

Lemma within_inactive b : within PHASE_INACTIVE (handle_inactive_phase sm b).
Proof using Hns.
  unfold handle_inactive_phase. apply within_ns. destruct (is_enabled (spec sm)) eqn:He; cbn [negb]; [| done].
  destruct (negb b); [done |]. apply (within_write _ _ _ _ _ _ (λ _, Ret _)); [by constructor | done].
Qed.
Lemma within_disabled b : within PHASE_DISABLED (handle_disabled_phase sm b).
Proof using Hns.
  unfold handle_disabled_phase. apply within_ns. destruct (is_enabled (spec sm)) eqn:He; [| done].
  apply (within_write _ _ _ _ _ _ (λ _, Ret _)); [by constructor | done].
Qed.
Lemma within_emergency_phase :
  kill_switch (spec sm) = false -> within PHASE_EMERGENCY_REMOVE (handle_emergency_remove_phase sm).
Proof using Hns.
  intros Hk. unfold handle_emergency_remove_phase. apply within_ns.
  apply (within_write _ _ _ _ _ _ (λ _, Ret _)); [by constructor | done].
Qed.

Lemma within_emergency s node req :
  kill_switch (spec sm) = false -> within s (handle_emergency_remove ctx sm node req).
Proof using Hns H0.
  intros Hk. unfold handle_emergency_remove. apply within_ns. cbv zeta.
  apply within_bind; [by cbn | intros []].
  apply (within_write _ _ _ _ _ _ (λ _, _)); [by constructor |].
  do 4 (apply within_bind; [quieten | intros ?]).
  apply within_bind_ok; [quieten | intros rc].
  do 4 (apply within_bind; [quieten | intros ?]).
  apply within_bind_ok; [quieten | intros []].
  apply within_bind_ok; [by cbn | intros []].
  do 2 (apply within_bind; [by cbn | intros []]).
  apply (within_write _ _ _ _ _ _ (λ _, Ret _)); [by constructor | done].
Qed.

Lemma within_kill s : kill_switch (spec sm) = true -> within s (handle_kill_switch ctx sm).
Proof using Hns H0.
  intros Hk. unfold handle_kill_switch. apply within_ns. cbv zeta.
  apply within_bind_ok; [quieten | intros []].
  apply (within_write _ _ _ _ _ _ (λ _, Ret _)); [by constructor | done].
Qed.
End refinement.

Section top.
Context `{Externals} `{ResolverLaws} (ctx : Context) (sm : ScheduledMachine) (ns : string).
Context (Hns : Crd.namespace sm = Some ns).
Notation within := (within sm ns).

Lemma within_dispatch b :
  kill_switch (spec sm) = false ->
  within (observed_phase sm) (dispatch ctx sm (default PHASE_PENDING (sm_phase sm)) b).
Proof using Hns H0.
  intros Hk. unfold dispatch, observed_phase. cbv zeta. set (p := default PHASE_PENDING (sm_phase sm)). clearbody p.
  repeat case_decide; subst; try rewrite bool_decide_true by (apply (bool_decide_unpack _); by vm_compute);
    auto using within_active, within_shutting_down, within_inactive, within_disabled, within_emergency_phase;
    try exact I.
  all: replace (if bool_decide (p ∈ all_phases) then p else PHASE_PENDING) with PHASE_PENDING;
    [by apply within_pending |].
  all: case_bool_decide as Hp; [| done]; unfold all_phases in Hp;  rewrite !elem_of_cons, elem_of_nil in Hp; naive_solver.
Qed.

Lemma within_after_check s (k : M (rresult Action)) :
  kill_switch (spec sm) = false -> within s k ->
  within s (action <-? check_emergency_reclaim ctx sm ;; match action with Some action => Ret (Ok action) | None => k end).
Proof using Hns H0.
  intros Hk Hw. unfold check_emergency_reclaim. destruct (status sm ≫= node_ref) as [nref |]; [| exact Hw].
  cbv zeta. destruct (str_is_empty (nr_name nref)); [exact Hw |].
  unfold within. cbn -[lifecycle_step handle_emergency_remove node_reclaim_request].
  intros [node | e]; rewrite step_quiet by done; cbn -[lifecycle_step handle_emergency_remove node_reclaim_request].
  - destruct (node_reclaim_request node) as [req |]; [| exact Hw].
    apply mon_bind_ok, mon_bind_ok. eapply mon_mono; [| apply (within_emergency ctx sm ns Hns s); done].
    by intros s' [a | e] _.
  - destruct (is_api_error HTTP_NOT_FOUND e); [exact Hw | done].
Qed.

Lemma within_evaluate :
  kill_switch (spec sm) = false -> within (observed_phase sm) (evaluate_and_dispatch ctx sm ns).
Proof using Hns H0.
  intros Hk. unfold evaluate_and_dispatch. cbv zeta. apply within_bind_ok; [quieten | intros v].
  apply within_bind; [quieten | intros []].
  apply within_bind_ok; [quieten | intros []].
  apply within_bind; [by cbn | intros []]. by apply within_dispatch.
Qed.

Lemma within_inner : within (observed_phase sm) (reconcile_inner ctx sm).
Proof using Hns H0.
  unfold reconcile_inner. apply (within_ns sm ns Hns). apply within_bind_ok; [done | intros []].
  destruct (kill_switch (spec sm)) eqn:Hk.
  - apply within_bind; [by cbn | intros []]. by apply within_kill.
  - apply within_after_check; [done |]. by apply within_evaluate.
Qed.

Lemma within_then {A} s (p : M A) (k : A -> M (rresult Action)) :
  within s p -> (forall a, calls quiet (k a)) -> within s (bind p k).
Proof.
  intros Hp Hk. apply mon_bind. eapply mon_mono; [| exact Hp]. intros s' a _. by apply within_quiet.
Qed.

Lemma within_guarded : within (observed_phase sm) (reconcile_guarded ctx sm ns (name_any sm)).
Proof using Hns H0.
  unfold reconcile_guarded. apply within_bind; [by cbn | intros t0]. cbv zeta.
  apply within_bind; [by cbn | intros []]; [| done]. cbn [negb].
  apply within_bind; [unfold should_process_resource; by case_bool_decide; cbn | intros []]; [| done]. cbn [negb].
  destruct (om_deletion_timestamp (metadata sm)); [| destruct (negb (has_finalizer sm))].
  - apply within_quiet, calls_bind; [apply quiet_deletion | intros r; quieten].
  - apply within_quiet, calls_bind; [apply quiet_add_finalizer | intros r; quieten].
  - apply within_then; [apply within_inner |]. intros r. quieten.
Qed.
End top.

(** C1: refinement: every reconcile refines the abstract lifecycle.  Whatever
    the cluster answers, each phase it writes is a transition from the phase
    before it, starting at the observed one; so the final phase is reachable
    from the observed phase by the transitions of [transition]. *)
Theorem reconcile_refines_lifecycle `{Externals} `{ResolverLaws} ctx sm :
  mon (lifecycle_step sm (default "" (Crd.namespace sm))) (observed_phase sm) (reconcile_scheduled_machine ctx sm)
    (λ phase _, rtc (transition sm) (observed_phase sm) phase).
Proof.
  apply mon_reach; [done |]. unfold reconcile_scheduled_machine.
  destruct (Crd.namespace sm) as [ns |] eqn:Hns; cbn [default]; [| by cbn].
  cbv zeta. change (within sm ns (observed_phase sm) (_id <- generate_reconcile_id sm ;; reconcile_guarded ctx sm ns (name_any sm))).
  apply within_bind; [by cbn | intros id]. by apply within_guarded.
Qed.

Lemma reconcile_refines_lifecycle_witness :
  mon (lifecycle_step sample_sm "team") PHASE_PENDING
    (reconcile_scheduled_machine (H := toy_externals) (H0 := cache_resolver (H := toy_externals)) sample_ctx sample_sm)
    (λ phase _, rtc (transition sample_sm) PHASE_PENDING phase).
Proof. exact (reconcile_refines_lifecycle (H := toy_externals) (R := cache_resolver (H := toy_externals)) sample_ctx sample_sm). Defined.
