(* ===== verification/Safety.v ===== *)
(** What a reconcile does only under a condition: act at all (leadership and
    assignment), create a machine (a verdict of the same reconcile), drain and
    delete (the grace period), and what becomes of an interrupted emergency
    removal. *)

From S2P Require Import Prelude RustStr Effects Constants Json Crd Externals KubeApi Samples Metrics.
From S2P Require Import Validation Duration SpotSchedule Status Capi Drain NodeTaints ChildClient Emergency.
From S2P Require Import LoopProtection Finalizer Provision Assignment Phases Reconcile Confinement Footprint Lifecycle.

(** A machine that has the finalizer, in the given phase. *)
Definition finalized (sm : ScheduledMachine) : ScheduledMachine := {|
  metadata := {| om_name := om_name (metadata sm); om_namespace := om_namespace (metadata sm); om_uid := om_uid (metadata sm);
    om_generation := om_generation (metadata sm); om_finalizers := Some [FINALIZER_SCHEDULED_MACHINE];
    om_deletion_timestamp := None |};
  spec := spec sm; status := status sm |}.

(** ** Leadership and assignment *)

(** Whether this instance is on duty for the machine: it must first be found to
    be the leader, then, with several instances, to be the assigned one. *)
Inductive duty : Type := Undecided | Leading | OnDuty | OffDuty.

Definition duty_step (ctx : Context) (sm : ScheduledMachine) (ns : string) (s : duty) (e : event reply) : option duty :=
  match s with
  | OnDuty => Some OnDuty
  | OffDuty => None
  | Undecided =>
      match e with
      | Ev IsLeader true => Some (if bool_decide (ctx_instance_count ctx <= 1)%Z then OnDuty else Leading)
      | Ev IsLeader false => Some OffDuty
      | Ev UtcNow _ | Ev InstantNow _ => Some Undecided
      | _ => None
      end
  | Leading =>
      match e with
      | Ev (EnvVar v) value =>
          if bool_decide (v = ENV_OPERATOR_INSTANCE_ID) then
            Some (if bool_decide (assigned_instance (name_any sm) ns (priority (spec sm)) (ctx_instance_count ctx)
                                  = instance_of_env value) then OnDuty else OffDuty)
          else None
      | _ => None
      end
  end.

Lemma mon_all {E} {R : E -> Type} {S A} (step : S -> event R -> option S) s (p : prog R A) (Φ : S -> A -> Prop) :
  (forall e, step s e = Some s) -> (forall a, Φ s a) -> mon step s p Φ.
Proof. intros Hs HΦ. induction p as [a | c k IH]; cbn; [done |]. intros r. rewrite Hs. apply IH. Qed.

(** C13: mutual exclusion: a reconcile calls nothing but the clocks until the
    leader flag is read as set and, with several instances, the machine is
    found to be assigned to this one; otherwise it ends at once with
    [AwaitChange], having touched no cluster, cache, counter or metric. *)
Theorem only_on_duty `{Externals} `{ChildResolver} ctx sm ns :
  Crd.namespace sm = Some ns ->
  mon (duty_step ctx sm ns) Undecided (reconcile_scheduled_machine ctx sm)
    (λ s r, s = OnDuty \/ s = OffDuty /\ r = Ok AwaitChange).
Proof.
  intros Hns. unfold reconcile_scheduled_machine. rewrite Hns. cbv zeta.
  pstep as now. pstep as start. pstep as leader. destruct leader; cbn beta iota; [| pret; by right].
  unfold should_process_resource. destruct (bool_decide (ctx_instance_count ctx <= 1)%Z).
  - apply mon_all; [done | by left].
  - pstep as v. apply mon_bind, mon_bind, mon_Ret, mon_Ret. destruct (bool_decide (assigned_instance _ _ _ _ = _)).
    + apply mon_all; [done | by left].
    + pret. by right.
Qed.

Lemma only_on_duty_witness :
  Crd.namespace sample_sm = Some "team" /\
  mon (duty_step sample_ctx sample_sm "team") Undecided
    (reconcile_scheduled_machine (H := toy_externals) (H0 := cache_resolver (H := toy_externals)) sample_ctx sample_sm)
    (λ s r, s = OnDuty \/ s = OffDuty /\ r = Ok AwaitChange).
Proof.
  split; [reflexivity |].
  exact (only_on_duty (H := toy_externals) (H0 := cache_resolver (H := toy_externals)) sample_ctx sample_sm "team" eq_refl).
Defined.

(** ** Creation *)

Lemma footprint_exec {A} l (p : M A) t a k : footprint l p -> k ∉ l -> exec p t a -> forall e, e ∈ t -> kind_of (ev_call e) <> k.
Proof.
  intros Hp Hk He e Hin Hc. pose proof (calls_exec _ _ _ _ Hp He) as Hf. rewrite Forall_forall in Hf.
  specialize (Hf e Hin). cbn in Hf. congruence.
Qed.

(** An event of kind [k] is not in a part that makes no such call. *)
Lemma skip_bind {A B} l (p : M A) (f : A -> M B) t r e k :
  exec (bind p f) t r -> e ∈ t -> kind_of (ev_call e) = k -> footprint l p -> k ∉ l ->
  exists t1 a t2, t = t1 ++ t2 /\ exec p t1 a /\ exec (f a) t2 r /\ e ∈ t2.
Proof.
  intros He Hin Hc Hp Hk. apply exec_bind in He as (t1 & a & t2 & -> & He1 & He2). exists t1, a, t2. split_and!; [done.. |].
  apply elem_of_app in Hin as [Hin |]; [| done]. exfalso. by eapply (footprint_exec _ _ _ _ _ Hp Hk He1).
Qed.
Lemma skip_bind_ok {A B} l (p : M (rresult A)) (f : A -> M (rresult B)) t r e k :
  exec (bind_ok p f) t r -> e ∈ t -> kind_of (ev_call e) = k -> footprint l p -> k ∉ l ->
  exists t1 a t2, t = t1 ++ t2 /\ exec p t1 (Ok a) /\ exec (f a) t2 r /\ e ∈ t2.
Proof.
  intros He Hin Hc Hp Hk.
  destruct (skip_bind l p _ t r e k He Hin Hc Hp Hk) as (t1 & [a | er] & t2 & -> & He1 & He2 & Hin2); [by exists t1, a, t2 |].
  destruct He2 as [-> _]. by apply elem_of_nil in Hin2.
Qed.
(** The dual: the event is in the first part. *)
Lemma keep_bind {A B} l (p : M A) (f : A -> M B) t r e k :
  exec (bind p f) t r -> e ∈ t -> kind_of (ev_call e) = k -> (forall a, footprint l (f a)) -> k ∉ l ->
  exists t1 a t2, t = t1 ++ t2 /\ exec p t1 a /\ e ∈ t1.
Proof.
  intros He Hin Hc Hf Hk. apply exec_bind in He as (t1 & a & t2 & -> & He1 & He2). exists t1, a, t2. split_and!; [done.. |].
  apply elem_of_app in Hin as [| Hin]; [done |]. exfalso. by eapply (footprint_exec _ _ _ _ _ (Hf a) Hk He2).
Qed.

Section creation.
Context `{Externals} `{ResolverLaws} (ctx : Context) (sm : ScheduledMachine).

(** Everything a machine's creation presupposes. *)
Definition creation_guard (ns : string) (t : trace) : Prop :=
  om_deletion_timestamp (metadata sm) = None /\ has_finalizer sm = true /\ validate_spec sm = Ok tt /\
  kill_switch (spec sm) = false /\ is_enabled (spec sm) = true /\ observed_phase sm = PHASE_PENDING /\
  exists t1 t2 t3 v, t = t1 ++ t2 ++ t3 /\
    exec (resolve_spot_schedule MgmtClient ns (schedule (spec sm))) t2 (Ok v) /\
    compose_should_be_active v (last_known_spot_active sm) = true.

Lemma creation_guard_app ns t1 t t2 : creation_guard ns t -> creation_guard ns (t1 ++ t ++ t2).
Proof.
  intros (?&?&?&?&?&?&ta&tb&tc&v&->&?&?). unfold creation_guard. split_and!; try done.
  exists (t1 ++ ta), tb, (tc ++ t2), v. by rewrite <- !app_assoc.
Qed.

Lemma dispatch_creates p b t r e :
  exec (dispatch ctx sm p b) t r -> e ∈ t -> kind_of (ev_call e) = ECreate ->
  is_enabled (spec sm) = true /\ b = true /\ (p ∈ all_phases -> p = PHASE_PENDING).
Proof using H0.
  intros He Hin Hc.
  assert (Hp : ECreate ∈ phase_effects p).
  { pose proof (calls_exec _ _ _ _ (foot_dispatch ctx sm p b) He) as Hf. rewrite Forall_forall in Hf.
    specialize (Hf e Hin). cbn in Hf. by rewrite Hc in Hf. }
  assert (Hph : p ∈ all_phases -> p = PHASE_PENDING).
  { intros Hall. revert Hp. unfold all_phases in Hall. rewrite !elem_of_cons, elem_of_nil in Hall.
    destruct Hall as [-> | [-> | [-> | [-> | [-> | [-> | [-> | [-> | []]]]]]]]]; [done | ..];
      intros Hp; by apply (bool_decide_pack _) in Hp. }
  assert (Hd : dispatch ctx sm p b = handle_pending_phase ctx sm b).
  { unfold dispatch. repeat (rewrite decide_False by (intros ->; by apply (bool_decide_pack _) in Hp)). done. }
  rewrite Hd in He. clear Hp Hd.
  unfold handle_pending_phase in He.
  apply exec_bind_ok in He as [(? & [-> _] & _) | (t1 & ns & t2 & -> & [-> _] & He)]; [by apply elem_of_nil in Hin |].
  cbv zeta in He. cbn [app] in Hin. destruct (is_enabled (spec sm)); cbn [negb] in He.
  - destruct b; [done |]. exfalso. cbn [negb] in He. revert Hc.
    eapply (footprint_exec [ELocal; EEvent; EPhase PHASE_INACTIVE]); [| set_solver | exact He | exact Hin]. foot.
  - exfalso. revert Hc.
    eapply (footprint_exec [ELocal; EEvent; EPhase PHASE_DISABLED]); [| set_solver | exact He | exact Hin]. foot.
Qed.

Lemma evaluate_creates ns t r e :
  exec (evaluate_and_dispatch ctx sm ns) t r -> e ∈ t -> kind_of (ev_call e) = ECreate ->
  is_enabled (spec sm) = true /\ observed_phase sm = PHASE_PENDING /\
  exists t2 t3 v, t = t2 ++ t3 /\
    exec (resolve_spot_schedule MgmtClient ns (schedule (spec sm))) t2 (Ok v) /\
    compose_should_be_active v (last_known_spot_active sm) = true.
Proof using H0.
  unfold evaluate_and_dispatch. cbv zeta. intros He Hin Hc.
  eapply (skip_bind_ok [ERead]) in He as (t1 & v & t2 & -> & Hv & He & Hin2);
    [| done | done | apply foot_spot | set_solver].
  eapply (skip_bind [ELocal]) in He as (t3 & [] & t4 & -> & _ & He & Hin4);
    [| done | done | apply foot_spot_metrics | set_solver].
  eapply (skip_bind_ok [ELocal; EStatus]) in He as (t5 & [] & t6 & -> & _ & He & Hin6);
    [| done | done | apply foot_persist | set_solver].
  eapply (skip_bind [ELocal]) in He as (t7 & [] & t8 & -> & _ & He & Hin8);
    [| done | done | by apply foot_metric, metric_call_inc | set_solver].
  destruct (dispatch_creates _ _ _ _ _ He Hin8 Hc) as (Hen & Hb & Hph).
  split_and!; [done | |].
  - unfold observed_phase. cbv zeta. case_bool_decide; auto.
  - eexists t1, _, v. split_and!; done.
Qed.

Lemma inner_creates t r e :
  exec (reconcile_inner ctx sm) t r -> e ∈ t -> kind_of (ev_call e) = ECreate ->
  om_deletion_timestamp (metadata sm) = None -> has_finalizer sm = true ->
  exists ns, Crd.namespace sm = Some ns /\ creation_guard ns t.
Proof using H0.
  unfold reconcile_inner. intros He Hin Hc Hd Hf.
  apply exec_bind_ok in He as [(? & [-> _] & _) | (? & ns & t1 & -> & [-> Hns] & He)]; [by apply elem_of_nil in Hin |].
  symmetry in Hns. apply ok_or_Ok in Hns. cbn [app] in *.
  apply exec_bind_ok in He as [(? & [-> _] & _) | (? & [] & t2 & -> & [-> Hv] & He)]; [by apply elem_of_nil in Hin |].
  exists ns. split; [done |]. cbn [app] in *. destruct (kill_switch (spec sm)) eqn:Hk.
  - exfalso. eapply (skip_bind [ELocal]) in He as (t1 & [] & t3 & -> & _ & He & Hin3);
      [| done | done | by apply foot_metric, metric_call_inc | set_solver].
    revert Hc. eapply footprint_exec; [apply (foot_kill ctx sm) | destruct (has_objects sm); set_solver | exact He | exact Hin3].
  - eapply (skip_bind_ok ([ELocal; ERead; EEvent] ++ _)) in He as (t1 & a & t3 & -> & _ & He & Hin3);
      [| done | done | apply foot_check_emergency | destruct (status sm ≫= node_ref); set_solver].
    destruct a as [a |]; [destruct He as [-> _]; by apply elem_of_nil in Hin3 |].
    destruct (evaluate_creates _ _ _ _ He Hin3 Hc) as (Hen & Hph & t4 & t5 & v & -> & Hx & Hcomp).
    unfold creation_guard. split_and!; try done. by exists t1, t4, t5, v.
Qed.
End creation.


(** A cluster whose schedule provider says [active]. *)
Definition active_provider : DynamicObject :=
  {| d_name := Some "nights"; d_namespace := Some "team"; d_labels := None;
     d_data := JObj [("status", JObj [("active", JBool true)])] |}.
Definition active_handler (c : call_t) (now : Z) : Z * reply c :=
  match c return Z * reply c with
  | GetOptDyn _ _ _ _ => (now, Ok (Some active_provider))
  | c => ok_handler c now
  end.

(** C2: no creation without cause: a reconcile creates a CAPI object only for a
    live machine that has its finalizer, a valid spec, no kill switch and is
    enabled, from the Pending phase, and after a resolution of its schedule in
    the same reconcile whose verdict, composed with the last known one, says
    the machine should be active. *)
Theorem creation_needs_cause `{Externals} `{ResolverLaws} ctx sm t r c ns' ar obj (rep : result unit kube_error) :
  exec (reconcile_scheduled_machine ctx sm) t r -> Ev (CreateDyn c ns' ar obj) rep ∈ t ->
  exists ns, Crd.namespace sm = Some ns /\ creation_guard sm ns t.
Proof.
  set (e := Ev (CreateDyn c ns' ar obj) rep). intros He Hin.
  assert (Hc : kind_of (ev_call e) = ECreate) by done. clearbody e.
  unfold reconcile_scheduled_machine in He. destruct (Crd.namespace sm) as [ns |] eqn:Hns.
  2: { eapply (skip_bind [ELocal]) in He as (? & [] & ? & -> & _ & [-> _] & Hin'); [| done | done | cbn; set_solver | set_solver].
       by apply elem_of_nil in Hin'. }
  cbv zeta in He. unfold reconcile_guarded in He. cbv zeta in He.
  eapply (skip_bind [ELocal]) in He as (t1 & id & t2 & -> & _ & He & Hin2); [| done | done | cbn; set_solver | set_solver].
  eapply (skip_bind [ELocal]) in He as (t3 & start & t4 & -> & _ & He & Hin4); [| done | done | cbn; set_solver | set_solver].
  eapply (skip_bind [ELocal]) in He as (t5 & leader & t6 & -> & _ & He & Hin6); [| done | done | cbn; set_solver | set_solver].
  destruct leader; cbn [negb] in He; [| by destruct He as [-> _]; apply elem_of_nil in Hin6].
  eapply (skip_bind [ELocal]) in He as (t7 & mine & t8 & -> & _ & He & Hin8);
    [| done | done | apply foot_should_process | set_solver].
  destruct mine; cbn [negb] in He; [| by destruct He as [-> _]; apply elem_of_nil in Hin8].
  assert (Hk : forall r' (k : M (rresult Action)), footprint [ELocal] k -> footprint [ELocal]
    (spent <- elapsed start ;; record_reconciliation_result r' (default PHASE_PENDING (sm_phase sm)) spent ;;; k)).
  { intros r' k Hk. apply calls_bind; [cbn; set_solver | intros d]. by apply calls_bind; [apply foot_result | intros []]. }
  exists ns. split; [done |]. clear Hin. rewrite (app_assoc t3), (app_assoc t1), (app_assoc (t1 ++ t3 ++ t5)).
  destruct (om_deletion_timestamp (metadata sm)) eqn:Hd; [| destruct (has_finalizer sm) eqn:Hf; cbn [negb] in He].
  - exfalso. eapply (keep_bind [ELocal]) in He as (t9 & a & ? & -> & He & Hin9); [| done | done | intros a; by apply Hk | set_solver].
    revert Hc. eapply footprint_exec; [apply (foot_deletion ctx sm) | destruct (has_objects sm); set_solver | exact He | exact Hin9].
  - eapply (keep_bind [ELocal]) in He as (t9 & a & t10 & -> & He & Hin9); [| done | done | | set_solver].
    + destruct (inner_creates ctx sm _ _ _ He Hin9 Hc Hd Hf) as (ns0 & Hns0 & Hg).
      assert (ns0 = ns) as -> by congruence. by apply creation_guard_app.
    + intros a. apply Hk. apply calls_bind; [destruct (is_ok a); [cbn; set_solver | done] | done].
  - exfalso. eapply (keep_bind [ELocal]) in He as (t9 & a & ? & -> & He & Hin9); [| done | done | intros a; by apply Hk | set_solver].
    revert Hc. eapply footprint_exec; [apply (foot_add_finalizer sm) | set_solver | exact He | exact Hin9].
Qed.

Lemma creation_needs_cause_witness :
  exists t r c ns' ar obj rep,
    exec (reconcile_scheduled_machine (H := toy_externals) (H0 := cache_resolver (H := toy_externals)) sample_ctx (finalized sample_sm)) t r /\
    Ev (CreateDyn c ns' ar obj) rep ∈ t /\
    exists ns, Crd.namespace (finalized sample_sm) = Some ns /\
      creation_guard (H := toy_externals) (finalized sample_sm) ns t.
Proof.
  set (p := reconcile_scheduled_machine (H := toy_externals) (H0 := cache_resolver (H := toy_externals)) sample_ctx (finalized sample_sm)).
  pose proof (run_exec active_handler p 0%Z) as Hp. set (t := (run active_handler 0%Z p).1.2) in *.
  destruct (t !! 12) as [[c rep] |] eqn:E; [| by vm_compute in E].
  assert (Hin : Ev c rep ∈ t) by (by eapply list_elem_of_lookup_2).
  assert (Hk : (match t !! 12 with Some (Ev (CreateDyn _ _ _ _) _) => true | _ => false end) = true) by (vm_compute; reflexivity).
  rewrite E in Hk. clearbody t. destruct c; try discriminate Hk.
  eexists t, _, _, _, _, _, _. split; [exact Hp |]. split; [exact Hin |].
  exact (creation_needs_cause (H := toy_externals) (R := cache_resolver (H := toy_externals)) _ _ _ _ _ _ _ _ _ Hp Hin).
Defined.

(** ** The grace period *)

Lemma parse_printed_grace `{ExternalsLaws} later now T reason msg :
  rfc3339_range now ->
  conditions <$> status later = Some [ready_condition now reason msg] ->
  parse_duration (graceful_shutdown_timeout (spec later)) = Ok T ->
  wp (check_grace_period_elapsed later) (λ t r,
    if bool_decide (reason = REASON_GRACE_PERIOD) then
      exists now', t = [Ev UtcNow now'] /\
        r = Ok (bool_decide (num_seconds (now' - now) < 0 \/ T <= num_seconds (now' - now))%Z)
    else t = [] /\ r = Ok true).
Proof.
  intros Hnow Hst HT. unfold check_grace_period_elapsed.
  destruct (status later) as [st |]; [| done]. cbn [fmap option_fmap option_map] in Hst.
  injection Hst as Hst. rewrite Hst. unfold find_b. cbn [List.find ready_condition c_reason Condition_new].
  destruct (bool_decide (reason = REASON_GRACE_PERIOD)); [| by cbn].
  cbn [fmap option_fmap option_map c_last_transition_time ready_condition Condition_new].
  rewrite rfc3339_roundtrip, HT by done. pstep as now'. prog_hnf. set (d := num_seconds (now' - now)).
  destruct (bool_decide (d < 0)%Z) eqn:Hd; pret; exists now'; (split; [done |]); f_equal; symmetry.
  - apply bool_decide_eq_true_2. apply bool_decide_eq_true in Hd. by left.
  - apply bool_decide_eq_false in Hd. apply bool_decide_ext. split; [by intros [? | ?] | by right].
Qed.

(** C15: the grace period: leaving Active because the window closed stores the
    current time, and every later check answers from the clock: over exactly
    when the configured number of whole seconds has passed since then, or when
    the clock is before it.  Leaving Active because the machine was disabled
    stores a condition the check does not recognise, so the very next check
    says the period is over without reading the clock. *)
Theorem grace_period `{ExternalsLaws} `{ChildResolver} ctx sm ns b :
  Crd.namespace sm = Some ns -> is_enabled (spec sm) && b = false ->
  wp (handle_active_phase ctx sm b) (λ t _,
    exists ev (r : result unit kube_error) now st (r' : result unit kube_error),
      t = [Ev (Publish ev (sm_event_ref ns (name_any sm))) r; Ev UtcNow now;
           Ev (PatchSMStatus MgmtClient ns (name_any sm) (status_patch st)) r'] /\
      Crd.phase st = Some PHASE_SHUTTING_DOWN /\
      forall later T, rfc3339_range now -> conditions <$> status later = Some (conditions st) ->
        parse_duration (graceful_shutdown_timeout (spec later)) = Ok T ->
        wp (check_grace_period_elapsed later) (λ t r,
          if is_enabled (spec sm) then
            exists now', t = [Ev UtcNow now'] /\
              r = Ok (bool_decide (num_seconds (now' - now) < 0 \/ T <= num_seconds (now' - now))%Z)
          else t = [] /\ r = Ok true)).
Proof.
  intros Hns Hb. unfold handle_active_phase, require_namespace. rewrite Hns. prog_hnf.
  destruct (is_enabled (spec sm)); cbn [negb andb] in *; [subst b; cbn [negb] |];
    pstep as r; pstep as now; pstep as r'; (destruct r' as [u | e]; pret);
    (eexists _, r, now, _, _; split; [reflexivity |]; split; [done |]; intros later T Hnow Hst HT;
     exact (parse_printed_grace later now T _ _ Hnow Hst HT)).
Qed.

Lemma grace_period_witness :
  Crd.namespace sample_sm = Some "team" /\ is_enabled (spec sample_sm) && false = false /\
  wp (handle_active_phase (H := toy_externals) (H0 := cache_resolver (H := toy_externals)) sample_ctx sample_sm false)
    (λ t _, List.length t = 3).
Proof.
  split; [reflexivity |]. split; [reflexivity |].
  eapply wp_mono; [| exact (grace_period (H0 := cache_resolver (H := toy_externals)) sample_ctx sample_sm "team" false eq_refl eq_refl)].
  intros t r (ev & x & now & st & y & -> & _). reflexivity.
Defined.



(** ** The interrupted emergency removal *)

Lemma exec_update_phase `{Externals} ns n from p reason msg i t :
  exec (update_phase ns n from p reason msg i) t (Ok tt) ->
  exists body, Ev (PatchSMStatus MgmtClient ns n body) (Ok tt) ∈ t /\ patch_phase body = Some p.
Proof.
  intros He. cbn -[status_patch phase_status] in He. destruct He as (r1 & t1 & -> & now & t2 & -> & r2 & t3 & -> & [-> He]).
  destruct r2 as [[] | e]; [| done]. eexists. split; [apply elem_of_cons; right; apply elem_of_cons; right; left |].
  apply patch_phase_status.
Qed.

Definition writes_phase (t : trace) (ns n p : string) : Prop :=
  exists body, Ev (PatchSMStatus MgmtClient ns n body) (Ok tt) ∈ t /\ patch_phase body = Some p.

Lemma evaluate_single_write `{Externals} `{ResolverLaws} ctx sm ns p q from reason msg i a t r :
  sm_phase sm = Some p ->
  (forall b, dispatch ctx sm p b = (update_phase ns (name_any sm) from q reason msg i ?;; Ret (Ok a))) ->
  exec (evaluate_and_dispatch ctx sm ns) t r -> is_ok r = true -> writes_phase t ns (name_any sm) q.
Proof.
  intros Hp Hd He Hr. unfold evaluate_and_dispatch in He. cbv zeta in He. rewrite Hp in He. cbn [default] in He.
  apply exec_bind_ok in He as [(? & _ & ->) | (t1 & v & t2 & -> & _ & He)]; [done |].
  apply exec_bind in He as (t3 & [] & t4 & -> & _ & He).
  apply exec_bind_ok in He as [(? & _ & ->) | (t5 & [] & t6 & -> & _ & He)]; [done |].
  apply exec_bind in He as (t7 & [] & t8 & -> & _ & He). cbn [default] in He.
  change (exec (dispatch ctx sm p (compose_should_be_active v (last_known_spot_active sm))) t8 r) in He. rewrite Hd in He.
  apply exec_bind_ok in He as [(? & _ & ->) | (t9 & [] & ? & -> & Hu & _)]; [done |].
  apply exec_update_phase in Hu as (body & Hb & Hq). exists body. split; [set_solver | done].
Qed.

(** An interrupted emergency removal re-enters service: in the
    EmergencyRemove phase the evaluation never sets [spec.enabled] to false
    (whatever stopped the removal before that patch), yet a successful one
    writes Disabled; and from Disabled, a machine that is still enabled goes
    back to Pending, from which it is created again. *)
Theorem interrupted_reclaim_reenters `{Externals} `{ResolverLaws} ctx sm ns t r :
  Crd.namespace sm = Some ns -> exec (evaluate_and_dispatch ctx sm ns) t r ->
  (sm_phase sm = Some PHASE_EMERGENCY_REMOVE ->
     (forall e, e ∈ t -> kind_of (ev_call e) <> ESpec) /\
     (is_ok r = true -> writes_phase t ns (name_any sm) PHASE_DISABLED)) /\
  (sm_phase sm = Some PHASE_DISABLED -> is_enabled (spec sm) = true ->
     is_ok r = true -> writes_phase t ns (name_any sm) PHASE_PENDING).
Proof.
  intros Hns He.
  assert (Hl : forall A (f : string -> M (rresult A)), bind_ok (lift (require_namespace sm)) f = f ns).
  { intros A f. unfold require_namespace. by rewrite Hns. }
  split.
  - intros Hp. split.
    + intros e Hin. pose proof (foot_evaluate ctx sm ns) as Hf. rewrite Hp in Hf. cbn [default] in Hf.
      eapply footprint_exec; [exact Hf | | exact He | exact Hin]. by apply (bool_decide_unpack _).
    + eapply evaluate_single_write; [exact Hp | | exact He]. intros b.
      change (dispatch ctx sm PHASE_EMERGENCY_REMOVE b) with (handle_emergency_remove_phase sm).
      unfold handle_emergency_remove_phase. rewrite Hl. reflexivity.
  - intros Hp Hen. eapply evaluate_single_write; [exact Hp | | exact He]. intros b.
    change (dispatch ctx sm PHASE_DISABLED b) with (handle_disabled_phase sm b). unfold handle_disabled_phase.
    rewrite Hl, Hen. reflexivity.
Qed.

Lemma interrupted_reclaim_reenters_witness :
  let sm := with_phase "EmergencyRemove" sample_sm in
  exists t,
    exec (evaluate_and_dispatch (H := toy_externals) (H0 := cache_resolver (H := toy_externals)) sample_ctx sm "team") t
      (Ok (Requeue 60)) /\
    (forall e, e ∈ t -> kind_of (ev_call e) <> ESpec) /\ writes_phase t "team" "sm" PHASE_DISABLED.
Proof.
  set (sm := with_phase "EmergencyRemove" sample_sm).
  set (p := evaluate_and_dispatch (H := toy_externals) (H0 := cache_resolver (H := toy_externals)) sample_ctx sm "team").
  pose proof (run_exec ok_handler p 0%Z) as Hp.
  replace (run ok_handler 0%Z p).2 with (@Ok Action ReconcilerError (Requeue 60)) in Hp by (vm_compute; reflexivity).
  eexists. split; [exact Hp |].
  destruct (proj1 (interrupted_reclaim_reenters (H := toy_externals) (R := cache_resolver (H := toy_externals))
    sample_ctx sm "team" _ _ eq_refl Hp) eq_refl) as [H1 H2].
  split; [exact H1 | exact (H2 eq_refl)].
Defined.

(** ** One reclaim, counted again by each of its retries *)

(** The API server refuses the deletion; the clock and the recent reclaims are
    the state. *)
Definition refuses_deletion (c : call_t) (s : gmap string (list Z) * Z) : (gmap string (list Z) * Z) * reply c :=
  match c return (gmap string (list Z) * Z) * reply c with
  | RecordReclaim key now => let '(recent, breach) := record_reclaim (fst s) key now in ((recent, snd s), breach)
  | UtcNow => (s, snd s)
  | DeleteDyn _ _ _ _ => (s, Err (OtherKubeError "admission webhook denied the request"))
  | c => (s, (ok_handler c (snd s)).2)
  end.
Definition attempt_at (secs : Z) (recent : gmap string (list Z)) :=
  run refuses_deletion (recent, seconds secs)
    (handle_emergency_remove (H := toy_externals) (H0 := cache_resolver (H := toy_externals)) sample_ctx
       (with_phase PHASE_EMERGENCY_REMOVE sample_sm) "worker-1" {| reason := Some "process-match: java"; requested_at := None |}).

(** A reclaim whose deletion is refused is retried from its first step, after the
    60 and 120 seconds of the back-off, and each attempt is recorded as a reclaim:
    the third one warns of a process that is still running after the node was
    re-enabled three times, though the node was never re-enabled. *)
Theorem retries_warn_as_reclaims :
  let first := attempt_at 0 ∅ in
  let second := attempt_at 60 (fst first.1.1) in
  let third := attempt_at 180 (fst second.1.1) in
  is_ok first.2 = false /\ is_ok second.2 = false /\
  compute_backoff_secs 1 = 60%Z /\ compute_backoff_secs 2 = 120%Z /\
  Exists (λ e, ev_call e = Publish (build_rapid_re_reclaim_event "sm") (sm_event_ref "team" "sm")) third.1.2.
Proof.
  intros first second third. split_and!; [vm_compute; reflexivity .. |].
  unfold third. vm_compute. repeat (first [apply Exists_cons_hd; reflexivity | apply Exists_cons_tl]).
Qed.
