(* ===== verification/SpotWatch.v ===== *)
(** The spot-schedule watch manager ([src/reconcilers/spot_schedule_watch.rs]):
    the reverse index from providers to machines, the set of per-kind watchers,
    and the dispatch of provider events.

    Of the watcher tasks this file says which run, and what one event makes them
    send; their loop is in [Watchers]. *)

From S2P Require Import Prelude RustStr Effects Crd Externals KubeApi Samples SpotSchedule.

(** ** Keys *)

Record GroupVersionKind : Type := { gvk_group : string; gvk_version : string; gvk_kind : string }.
#[export] Instance GroupVersionKind_eq_dec : EqDecision GroupVersionKind.
Proof. solve_decision. Defined.
#[export] Instance GroupVersionKind_countable : Countable GroupVersionKind.
Proof.
  refine (inj_countable' (λ g, (gvk_group g, gvk_version g, gvk_kind g))
            (λ p, {| gvk_group := p.1.1; gvk_version := p.1.2; gvk_kind := p.2 |}) _).
  by intros [].
Defined.

Record ProviderKey : Type := { gvk : GroupVersionKind; pk_namespace : string; pk_name : string }.
#[export] Instance ProviderKey_eq_dec : EqDecision ProviderKey.
Proof. solve_decision. Defined.
#[export] Instance ProviderKey_countable : Countable ProviderKey.
Proof.
  refine (inj_countable' (λ k, (gvk k, pk_namespace k, pk_name k))
            (λ p, {| gvk := p.1.1; pk_namespace := p.1.2; pk_name := p.2 |}) _).
  by intros [].
Defined.

(** [ObjectRef<ScheduledMachine>]: identity is the name and the namespace. *)
Record ObjectRef : Type := { ref_name : string; ref_namespace : option string }.
#[export] Instance ObjectRef_eq_dec : EqDecision ObjectRef.
Proof. solve_decision. Defined.
#[export] Instance ObjectRef_countable : Countable ObjectRef.
Proof.
  refine (inj_countable' (λ r, (ref_name r, ref_namespace r)) (λ p, {| ref_name := p.1; ref_namespace := p.2 |}) _).
  by intros [].
Defined.
Definition from_obj (sm : ScheduledMachine) : ObjectRef :=
  {| ref_name := name_any sm; ref_namespace := Crd.namespace sm |}.

Definition provider_key_for (sm : ScheduledMachine) : option ProviderKey :=
  let reference := schedule (spec sm) in
  namespace ← Crd.namespace sm;
  '(group, version) ← split_once "/" (ssr_api_version reference);
  Some {| gvk := {| gvk_group := group; gvk_version := version; gvk_kind := ssr_kind reference |};
          pk_namespace := namespace; pk_name := ssr_name reference |}.

(** ** The reverse index *)

Record ReverseIndex : Type := {
  refs : gmap ProviderKey (gset ObjectRef);
  sm_key : gmap ObjectRef ProviderKey;
}.
Definition empty_index : ReverseIndex := {| refs := ∅; sm_key := ∅ |}.

Definition remove_from_refs (sm : ObjectRef) (key : ProviderKey) (refs : gmap ProviderKey (gset ObjectRef))
    : gmap ProviderKey (gset ObjectRef) :=
  match refs !! key with
  | Some set =>
      let set := set ∖ {[sm]} in
      if bool_decide (set = ∅) then delete key refs else <[key := set]> refs
  | None => refs
  end.

Definition register (sm : ObjectRef) (key : ProviderKey) (idx : ReverseIndex) : ReverseIndex :=
  let refs' :=
    match sm_key idx !! sm with
    | Some previous => if bool_decide (previous <> key) then remove_from_refs sm previous (refs idx) else refs idx
    | None => refs idx
    end in
  {| refs := <[key := {[sm]} ∪ default ∅ (refs' !! key)]> refs'; sm_key := <[sm := key]> (sm_key idx) |}.

Definition deregister (sm : ObjectRef) (idx : ReverseIndex) : ReverseIndex :=
  match sm_key idx !! sm with
  | Some key => {| refs := remove_from_refs sm key (refs idx); sm_key := delete sm (sm_key idx) |}
  | None => idx
  end.

(** The order of the result is the set's, which a [HashSet] does not specify. *)
Definition lookup_refs (key : ProviderKey) (idx : ReverseIndex) : list ObjectRef :=
  elements (default ∅ (refs idx !! key)).

Definition referenced_gvks (idx : ReverseIndex) : gset GroupVersionKind := set_map gvk (dom (refs idx)).
Definition key_count (idx : ReverseIndex) : nat := size (refs idx).

(** ** The manager *)

Record Manager : Type := { index : ReverseIndex; watchers : gset GroupVersionKind }.
Definition new_manager : Manager := {| index := empty_index; watchers := ∅ |}.
Definition indexed_key_count (m : Manager) : nat := key_count (index m).
Definition watcher_count (m : Manager) : nat := size (watchers m).

(** The watchers after the call, those aborted and those spawned. *)
Definition sync_watchers (desired watchers : gset GroupVersionKind)
    : gset GroupVersionKind * gset GroupVersionKind * gset GroupVersionKind :=
  let kept := filter (λ g, g ∈ desired) watchers in
  let spawned := filter (λ g, g ∉ kept) desired in
  (kept ∪ spawned, watchers ∖ kept, spawned).

Definition resync (idx : ReverseIndex) (ws : gset GroupVersionKind) : Manager :=
  {| index := idx; watchers := (sync_watchers (referenced_gvks idx) ws).1.1 |}.

Definition observe_scheduled_machine (sm : ScheduledMachine) (m : Manager) : Manager :=
  let idx := match provider_key_for sm with
             | Some key => register (from_obj sm) key (index m)
             | None => deregister (from_obj sm) (index m)
             end in
  resync idx (watchers m).

Definition forget_scheduled_machine (sm : ScheduledMachine) (m : Manager) : Manager :=
  resync (deregister (from_obj sm) (index m)) (watchers m).

(** Sending stops at the first refusal: the receiver is gone. *)
Fixpoint send_refs (accepts : ObjectRef -> bool) (l : list ObjectRef) : list ObjectRef :=
  match l with
  | [] => []
  | r :: l' => if accepts r then r :: send_refs accepts l' else []
  end.

Definition emit_refs_for_provider (g : GroupVersionKind) (object : DynamicObject) (idx : ReverseIndex)
    (accepts : ObjectRef -> bool) : list ObjectRef :=
  match d_namespace object, d_name object with
  | Some namespace, Some name =>
      send_refs accepts (lookup_refs {| gvk := g; pk_namespace := namespace; pk_name := name |} idx)
  | _, _ => []
  end.

(** ** The specification: the history of observations *)

Inductive sm_event : Type :=
| Observed (sm : ScheduledMachine)
| Forgotten (sm : ScheduledMachine).

Definition event_ref (e : sm_event) : ObjectRef :=
  match e with Observed sm | Forgotten sm => from_obj sm end.

(** What the last event about a machine says it references. *)
Definition event_key (e : sm_event) : option ProviderKey :=
  match e with Observed sm => provider_key_for sm | Forgotten _ => None end.
Fixpoint current_key (history : list sm_event) (r : ObjectRef) : option ProviderKey :=
  match history with
  | [] => None
  | e :: older => if bool_decide (event_ref e = r) then event_key e else current_key older r
  end.

Definition handle_event (e : sm_event) (m : Manager) : Manager :=
  match e with
  | Observed sm => observe_scheduled_machine sm m
  | Forgotten sm => forget_scheduled_machine sm m
  end.
(** Most recent event first. *)
Definition replay_events (history : list sm_event) : Manager := foldr handle_event new_manager history.

(** ** The invariant *)

(** The two maps are inverse, and no provider is kept without a machine. *)
Definition index_ok (idx : ReverseIndex) : Prop :=
  (forall k r, r ∈ default ∅ (refs idx !! k) <-> sm_key idx !! r = Some k) /\
  (forall k s, refs idx !! k = Some s -> s <> ∅).

Lemma remove_from_refs_elem sm key m k r :
  r ∈ default ∅ (remove_from_refs sm key m !! k) <-> r ∈ default ∅ (m !! k) /\ (k = key -> r <> sm).
Proof.
  unfold remove_from_refs. destruct (m !! key) as [s |] eqn:Hs.
  - destruct (decide (k = key)) as [-> | Hne].
    + rewrite Hs. cbn [default]. case_bool_decide as He.
      * rewrite lookup_delete_eq. cbn. set_solver.
      * rewrite lookup_insert_eq. cbn. set_solver.
    + case_bool_decide; rewrite ?lookup_delete_ne, ?lookup_insert_ne by done; naive_solver.
  - split; [| naive_solver]. intros Hr. split; [done |]. intros ->. rewrite Hs in Hr. cbn in Hr. set_solver.
Qed.

Lemma remove_from_refs_ne sm key m k s :
  (forall k s, m !! k = Some s -> s <> ∅) -> remove_from_refs sm key m !! k = Some s -> s <> ∅.
Proof.
  intros Hm. unfold remove_from_refs. destruct (m !! key) as [s' |] eqn:Hs; [| by apply Hm].
  case_bool_decide as He.
  - intros [_ Hk]%lookup_delete_Some. by eapply Hm.
  - intros [[_ <-] | [_ Hk]]%lookup_insert_Some; [done | by eapply Hm].
Qed.

Lemma deregister_ok sm idx : index_ok idx -> index_ok (deregister sm idx).
Proof.
  intros [Hi Hn]. unfold deregister. destruct (sm_key idx !! sm) as [key |] eqn:Hk; [| done].
  split; cbn [refs sm_key].
  - intros k r. rewrite remove_from_refs_elem, Hi. destruct (decide (r = sm)) as [-> | Hne].
    + rewrite lookup_delete_eq, Hk. split; [intros [[= <-] Hf]; by destruct (Hf eq_refl) | done].
    + rewrite lookup_delete_ne by done. naive_solver.
  - intros k s. by apply remove_from_refs_ne.
Qed.

Lemma deregister_key sm idx r :
  sm_key (deregister sm idx) !! r = if bool_decide (sm = r) then None else sm_key idx !! r.
Proof.
  unfold deregister. destruct (sm_key idx !! sm) as [key |] eqn:Hk; case_bool_decide as He; cbn [sm_key]; subst;
    rewrite ?lookup_delete_eq, ?lookup_delete_ne by done; done.
Qed.

Lemma register_ok sm key idx : index_ok idx -> index_ok (register sm key idx).
Proof.
  intros [Hi Hn].
  set (refs' := match sm_key idx !! sm with
                | Some previous => if bool_decide (previous <> key) then remove_from_refs sm previous (refs idx) else refs idx
                | None => refs idx end).
  assert (Hr : forall k r, k <> key \/ r <> sm ->
            (r ∈ default ∅ (refs' !! k) <-> <[sm := key]> (sm_key idx) !! r = Some k)).
  { intros k r Hor. subst refs'. destruct (sm_key idx !! sm) as [previous |] eqn:Hp.
    - case_bool_decide as Hd.
      + rewrite remove_from_refs_elem, Hi. destruct (decide (r = sm)) as [-> | Hne].
        * rewrite Hp, lookup_insert_eq. split; [intros [[= ->] Hf]; by destruct (Hf eq_refl) | intros [= ->]; naive_solver].
        * rewrite lookup_insert_ne by done. naive_solver.
      + rewrite Hi. assert (previous = key) as -> by (by destruct (decide (previous = key))).
        destruct (decide (r = sm)) as [-> | Hne]; [by rewrite Hp, lookup_insert_eq | by rewrite lookup_insert_ne].
    - rewrite Hi. destruct (decide (r = sm)) as [-> | Hne]; [| by rewrite lookup_insert_ne].
      rewrite Hp, lookup_insert_eq. split; [done | intros [= ->]; naive_solver]. }
  assert (Hn' : forall k s, refs' !! k = Some s -> s <> ∅).
  { subst refs'. intros k s. destruct (sm_key idx !! sm); [case_bool_decide |]; try by apply Hn. by apply remove_from_refs_ne. }
  split; cbn [register refs sm_key]; fold refs'.
  - intros k r. destruct (decide (k = key)) as [-> | Hne]; [| rewrite lookup_insert_ne by done; apply Hr; by left].
    rewrite lookup_insert_eq. cbn [default from_option id]. rewrite elem_of_union, elem_of_singleton.
    destruct (decide (r = sm)) as [-> | Hne]; [rewrite lookup_insert_eq; naive_solver |].
    rewrite Hr by (by right). naive_solver.
  - intros k s [[_ <-] | [_ Hk]]%lookup_insert_Some; [set_solver | by eapply Hn'].
Qed.

Lemma sync_watchers_desired desired ws : (sync_watchers desired ws).1.1 = desired.
Proof.
  unfold sync_watchers. cbn. apply set_eq. intros g. rewrite elem_of_union, !elem_of_filter. destruct (decide (g ∈ ws)); set_solver.
Qed.

Lemma replay_events_ok history :
  let m := replay_events history in
  index_ok (index m) /\ (forall r, sm_key (index m) !! r = current_key history r) /\
  watchers m = referenced_gvks (index m).
Proof.
  induction history as [| e h IH]; [split_and!; [split; [intros; cbn; rewrite lookup_empty; set_solver |] | |]; try done;
    intros k s; cbn; by rewrite lookup_empty | ].
  destruct IH as (Hok & Hkey & _). cbn [replay_events foldr current_key]. fold (replay_events h).
  set (m := replay_events h) in *.
  assert (Hw : watchers (handle_event e m) = referenced_gvks (index (handle_event e m))).
  { destruct e; apply sync_watchers_desired. }
  destruct e as [sm | sm]; cbn [handle_event event_ref event_key] in *.
  - unfold observe_scheduled_machine in *. destruct (provider_key_for sm) as [key |]; cbn [resync index] in *;
      (split_and!; [by first [apply register_ok | apply deregister_ok] | | done]); intros r; rewrite <- Hkey.
    + cbn [register sm_key]. case_bool_decide; subst; by rewrite ?lookup_insert_eq, ?lookup_insert_ne.
    + apply deregister_key.
  - cbn [forget_scheduled_machine resync index] in *. split_and!; [by apply deregister_ok | | done].
    intros r. rewrite <- Hkey. apply deregister_key.
Qed.

(** A watcher runs for a kind exactly when some machine references an object of
    it. *)
Lemma watchers_referenced history g :
  g ∈ watchers (replay_events history) <-> exists r k, current_key history r = Some k /\ gvk k = g.
Proof.
  destruct (replay_events_ok history) as ([Hi Hn] & Hkey & ->). set (m := replay_events history) in *.
  unfold referenced_gvks. rewrite elem_of_map. setoid_rewrite elem_of_dom. split.
  - intros (k & -> & s & Hs). pose proof (Hn k s Hs) as Hne. apply set_choose_L in Hne as (r & Hr).
    exists r, k. split; [| done]. rewrite <- Hkey, <- Hi, Hs. done.
  - intros (r & k & Hr & <-). exists k. split; [done |]. rewrite <- Hkey, <- Hi in Hr.
    destruct (refs (index m) !! k); [by eexists | cbn in Hr; set_solver].
Qed.

(** The index finds exactly the machines whose last event references the
    provider. *)
Lemma lookup_refs_current history k r :
  r ∈ lookup_refs k (index (replay_events history)) <-> current_key history r = Some k.
Proof.
  destruct (replay_events_ok history) as ([Hi _] & Hkey & _). unfold lookup_refs. by rewrite elem_of_elements, Hi, Hkey.
Qed.

Lemma send_refs_all l : send_refs (λ _, true) l = l.
Proof. induction l as [| r l IH]; [done |]. cbn. by rewrite IH. Qed.

Lemma send_refs_prefix accepts l : send_refs accepts l `prefix_of` l.
Proof.
  induction l as [| r l IH]; [done |]. cbn. destruct (accepts r); [by apply prefix_cons | apply prefix_nil].
Qed.

(** The reverse index refines the history: after any sequence of
    observations and deletions, an event of a provider object wakes exactly the
    machines whose last observation references it, each once, and never any
    other; and a watcher runs for a kind exactly when some machine references
    an object of it. *)
Theorem provider_event_wakes_referrers history g object accepts :
  let m := replay_events history in
  let woken := emit_refs_for_provider g object (index m) in
  (forall r, r ∈ woken (λ _, true) <->
     exists ns n, d_namespace object = Some ns /\ d_name object = Some n /\
       current_key history r = Some {| gvk := g; pk_namespace := ns; pk_name := n |}) /\
  NoDup (woken (λ _, true)) /\
  woken accepts `prefix_of` woken (λ _, true) /\
  (g ∈ watchers m <-> exists r k, current_key history r = Some k /\ gvk k = g).
Proof.
  intros m woken. split_and!.
  - intros r. unfold woken, m, emit_refs_for_provider. destruct (d_namespace object) as [ns |], (d_name object) as [n |];
      [| (split; [by intros ?%elem_of_nil | naive_solver])..].
    rewrite send_refs_all, lookup_refs_current. naive_solver.
  - unfold woken, emit_refs_for_provider. destruct (d_namespace object), (d_name object); try apply NoDup_nil_2.
    rewrite send_refs_all. apply NoDup_elements.
  - unfold woken, emit_refs_for_provider. destruct (d_namespace object), (d_name object); try done.
    rewrite send_refs_all. apply send_refs_prefix.
  - apply watchers_referenced.
Qed.

(** The provider a machine is indexed under is the one its reconcile reads. *)
Lemma resolution_reads_indexed_provider `{Externals} c sm k :
  provider_key_for sm = Some k ->
  calls (λ call, match call with
    | PinnedKind _ g v kd => gvk k = {| gvk_group := g; gvk_version := v; gvk_kind := kd |}
    | GetOptDyn _ ns _ n => ns = pk_namespace k /\ n = pk_name k
    | _ => False
    end) (resolve_spot_schedule c (pk_namespace k) (schedule (spec sm))).
Proof.
  unfold provider_key_for, resolve_spot_schedule. destruct (Crd.namespace sm) as [ns |]; [| done]. cbn.
  destruct (split_once "/" (ssr_api_version (schedule (spec sm)))) as [[g v] |]; [| done]. intros [= <-]. cbn.
  split; [done |]. intros [ar | e]; [| done]. split; [done |]. by intros [[o |] | e].
Qed.

Example provider_event_wakes_sample :
  emit_refs_for_provider
    {| gvk_group := "spotschedules.5spot.finos.org"; gvk_version := "v1alpha1"; gvk_kind := ssr_kind (schedule (spec sample_sm)) |}
    {| d_name := Some (ssr_name (schedule (spec sample_sm))); d_namespace := Some "team"; d_labels := None; d_data := Json.JObj [] |}
    (index (replay_events [Observed sample_sm])) (λ _, true) = [from_obj sample_sm].
Proof. vm_compute. reflexivity. Qed.
