(* ===== verification/ChildWatch.v ===== *)
(** The child-cluster Node watch manager ([src/reconcilers/child_watch.rs]) and
    its composition with the client cache that drives it.

    A watcher task is represented by the client it watches with; what it does
    with one Node event is [emit_refs_for_node], its loop is in [Watchers]. *)

From S2P Require Import Prelude RustStr Effects Constants Json Crd Externals KubeApi Samples Metrics Capi.
From S2P Require Import ChildClient.

Notation tasks := (gmap CacheKey child_config).

(** The tasks after the hook, and the task it aborted. *)
Definition on_child_resolved_hook (key : CacheKey) (c : child_config) (g : tasks) : tasks * option child_config :=
  let existing := g !! key in
  (<[key := c]> (delete key g), existing).

Definition on_child_evicted_hook (key : CacheKey) (g : tasks) : tasks * option child_config :=
  (delete key g, g !! key).

Definition task_count (g : tasks) : nat := size g.
Definition has_watcher (key : CacheKey) (g : tasks) : bool := bool_decide (is_Some (g !! key)).

Definition emit_refs_for_node (node : Node) (machines : list DynamicObject) (accepts : SmRef -> bool) : list SmRef :=
  let fix send l :=
    match l with
    | [] => []
    | r :: l' => if accepts r then r :: send l' else []
    end in
  send (node_to_scheduled_machines_via_machine node machines).

(** ** The hook slot of the cache *)

(** A [ChildWatchHook] over a state of its own. *)
Record ChildWatchHook (S : Type) : Type := {
  hook_resolved : CacheKey -> child_config -> S -> S;
  hook_evicted : CacheKey -> S -> S;
}.
#[global] Arguments hook_resolved {S}.
#[global] Arguments hook_evicted {S}.
Definition NoopWatchHook {S} : ChildWatchHook S := {| hook_resolved := λ _ _ s, s; hook_evicted := λ _ s, s |}.
Definition node_watch_hook : ChildWatchHook tasks :=
  {| hook_resolved := λ k c g, (on_child_resolved_hook k c g).1; hook_evicted := λ k g, (on_child_evicted_hook k g).1 |}.

Record ChildClientCache (S : Type) : Type := { ccc_inner : cache; ccc_hook : ChildWatchHook S }.
#[global] Arguments ccc_inner {S}.
#[global] Arguments ccc_hook {S}.
Definition ChildClientCache_new {S} : ChildClientCache S := {| ccc_inner := ∅; ccc_hook := NoopWatchHook |}.
Definition set_hook {S} (hook : ChildWatchHook S) (c : ChildClientCache S) : ChildClientCache S :=
  {| ccc_inner := ccc_inner c; ccc_hook := hook |}.
Definition current_hook {S} (c : ChildClientCache S) : ChildWatchHook S := ccc_hook c.

(** ** The cache with the manager installed as its hook *)

Record watched_cache : Type := { wc_cache : cache; wc_tasks : tasks; wc_clock : Z }.

(** The environment of a resolution: any answers to its API calls, the cache
    and the hook's table as state. *)
Definition watched_env (answers : forall c, reply c) (c : call_t) (s : watched_cache) : watched_cache * reply c :=
  match c return watched_cache * reply c with
  | CacheLookup k rv =>
      let '(m, r) := cache_lookup (wc_clock s) k rv (wc_cache s) in
      ({| wc_cache := m; wc_tasks := wc_tasks s; wc_clock := wc_clock s + 1 |}, r)
  | CacheInsert k cl rv =>
      let '(m, r) := cache_insert (map_to_list (wc_cache s)) (wc_clock s) k cl rv (wc_cache s) in
      ({| wc_cache := m; wc_tasks := wc_tasks s; wc_clock := wc_clock s + 1 |}, r)
  | HookEvicted k =>
      ({| wc_cache := wc_cache s; wc_tasks := (on_child_evicted_hook k (wc_tasks s)).1; wc_clock := wc_clock s |}, tt)
  | HookResolved k c =>
      ({| wc_cache := wc_cache s; wc_tasks := (on_child_resolved_hook k c (wc_tasks s)).1; wc_clock := wc_clock s |}, tt)
  | c => (s, answers c)
  end.

(** [ChildClientCache::evict] with the hook. *)
Definition evict_watched (key : CacheKey) (s : watched_cache) : watched_cache :=
  let '(m, fired) := evict key (wc_cache s) in
  {| wc_cache := m;
     wc_tasks := if fired then (on_child_evicted_hook key (wc_tasks s)).1 else wc_tasks s;
     wc_clock := wc_clock s |}.

(** One watcher per cached client, with that client. *)
Definition watchers_follow (s : watched_cache) : Prop :=
  forall k, wc_tasks s !! k = ce_client <$> wc_cache s !! k.

(** What the controller does with the cache, in sequence. *)
Inductive cache_op : Type :=
| OpResolve (sm : ScheduledMachine)
| OpPeek (key : CacheKey)
| OpEvict (key : CacheKey).

Definition cache_step `{Externals} (answers : forall c, reply c) (o : cache_op) (s : watched_cache) : watched_cache :=
  match o with
  | OpResolve sm => (run (watched_env answers) s (cache_resolve MgmtClient sm)).1.1
  | OpPeek key => {| wc_cache := (peek (wc_clock s) key (wc_cache s)).1; wc_tasks := wc_tasks s; wc_clock := wc_clock s + 1 |}
  | OpEvict key => evict_watched key s
  end.

Definition cache_run `{Externals} (ops : list ((forall c, reply c) * cache_op)) (s : watched_cache) : watched_cache :=
  foldl (λ s o, cache_step o.1 o.2 s) s ops.

(** ** Lemmas *)

Lemma cache_lookup_clients now k rv m k' :
  ce_client <$> (cache_lookup now k rv m).1 !! k' = ce_client <$> m !! k'.
Proof.
  unfold cache_lookup. destruct (m !! k) as [e |] eqn:He; [| done]. case_bool_decide; [| done]. cbn [fst].
  destruct (decide (k' = k)) as [-> | Hne]; [by rewrite lookup_insert_eq, He | by rewrite lookup_insert_ne].
Qed.

Lemma peek_clients now k m k' : ce_client <$> (peek now k m).1 !! k' = ce_client <$> m !! k'.
Proof.
  unfold peek. destruct (m !! k) as [e |] eqn:He; [| done]. cbn [fst].
  destruct (decide (k' = k)) as [-> | Hne]; [by rewrite lookup_insert_eq, He | by rewrite lookup_insert_ne].
Qed.

(** What an insertion leaves under every key but the inserted one. *)
Lemma cache_insert_shape iter now key c rv m :
  let '(m', (replaced, evicted)) := cache_insert iter now key c rv m in
  (ce_client <$> m' !! key = Some c) /\
  match evicted with
  | None => forall k, k <> key -> m' !! k = m !! k
  | Some v => forall k, k <> key -> m' !! k = delete v m !! k
  end.
Proof.
  unfold cache_insert. destruct (_ && _); [destruct (fst <$> min_by_last_used iter) as [v |] |]; cbn;
    rewrite lookup_insert_eq; (split; [done |]); intros k Hk; by rewrite lookup_insert_ne.
Qed.

Section composition.
Context `{Externals} (answers : forall c, reply c).

Lemma run_follow_bind {A B} (p : M A) (f : A -> M B) s :
  watchers_follow (run (watched_env answers) s p).1.1 ->
  (forall a s', watchers_follow s' -> watchers_follow (run (watched_env answers) s' (f a)).1.1) ->
  watchers_follow (run (watched_env answers) s (bind p f)).1.1.
Proof.
  intros Hp Hf. rewrite run_bind. destruct (run _ s p) as [[s1 t1] a]. cbn in Hp. specialize (Hf a s1 Hp).
  by destruct (run _ s1 (f a)) as [[]].
Qed.

Lemma run_follow_metric {A} (p : M A) s :
  calls metric_call p -> watchers_follow s -> watchers_follow (run (watched_env answers) s p).1.1.
Proof. intros Hp Hs. rewrite (run_quiet _ p metric_call s Hp); [done |]. by intros []. Qed.

(** The critical section of an insertion followed by its hooks. *)
Lemma insert_follow key c rv s :
  watchers_follow s ->
  watchers_follow (run (watched_env answers) s
    (ins <- call_cache_insert key c rv ;;
     let '(replaced_same_key, evicted_other) := ins in
     match evicted_other with Some ev => on_child_evicted ev | None => Ret tt end ;;;
     (if replaced_same_key : bool then on_child_evicted key else Ret tt) ;;;
     on_child_resolved key c)).1.1.
Proof.
  intros Hs. cbn. pose proof (cache_insert_shape (map_to_list (wc_cache s)) (wc_clock s) key c rv (wc_cache s)) as Hshape.
  destruct (cache_insert _ _ _ _ _ _) as [m' [replaced evicted]]. destruct Hshape as [Hk Ho]. cbn.
  destruct evicted as [v |], replaced; cbn;
    unfold watchers_follow, on_child_resolved_hook, on_child_evicted_hook; cbn; intros k;
    (destruct (decide (k = key)) as [-> | Hne]; [by rewrite lookup_insert_eq, Hk |]);
    rewrite lookup_insert_ne, (Ho k Hne) by done; rewrite ?(lookup_delete_ne _ key k) by done; try apply Hs.
  all: destruct (decide (k = v)) as [-> | Hv];
    [by rewrite !lookup_delete_eq | rewrite !lookup_delete_ne by done; apply Hs].
Qed.

Lemma build_follow ns n key explicit s :
  watchers_follow s ->
  watchers_follow (run (watched_env answers) s (build_or_get_cached MgmtClient ns n key explicit)).1.1.
Proof.
  intros Hs. unfold build_or_get_cached. cbn. destruct (answers (GetSecret MgmtClient ns n)) as [secret | e]; cycle 1.
  { destruct (is_api_error _ e), explicit; exact Hs. }
  cbn. set (ck := {| ck_namespace := ns; ck_secret_name := n |}). set (rv := opt_string _).
  destruct (cache_lookup (wc_clock s) ck rv (wc_cache s)) as [m hit] eqn:Hl.
  set (s1 := {| wc_cache := m; wc_tasks := wc_tasks s; wc_clock := (wc_clock s + 1)%Z |}).
  assert (Hs1 : watchers_follow s1).
  { intros k. cbn. rewrite Hs, <- (cache_lookup_clients (wc_clock s) ck rv). by rewrite Hl. }
  destruct hit as [c |]; cbn; [exact Hs1 |].
  destruct (ok_or _ _) as [raw | e]; cbn; [| exact Hs1].
  destruct (build_child _ _ _) as [c | e]; cbn; [| exact Hs1].
  pose proof (insert_follow ck c rv s1 Hs1) as Hi. cbn in Hi.
  destruct (cache_insert _ _ _ _ _ _) as [m' [replaced evicted]]. cbn in *. by destruct evicted, replaced.
Qed.

Lemma resolve_follow sm s :
  watchers_follow s -> watchers_follow (run (watched_env answers) s (cache_resolve MgmtClient sm)).1.1.
Proof.
  intros Hs. unfold cache_resolve, lift, bind_ok, ok_or.
  destruct (Crd.namespace sm) as [ns |]; [| exact Hs]. cbn [bind].
  destruct (kubeconfig_secret_ref (spec sm)) as [r |]; (apply run_follow_bind; [by apply build_follow |]).
  - intros a s' Hs'. apply run_follow_bind; [| done].
    apply run_follow_metric; [| done]. unfold record_for_outcome. destruct a as [[] | []]; by repeat constructor.
  - intros a s' Hs'. destruct a as [r | e]; [| destruct e];
      (apply run_follow_metric; [| done]); first [by destruct r; repeat constructor | by repeat constructor].
Qed.
End composition.

(** C36: one watcher per cached child cluster: whatever sequence of
    resolutions, peeks and evictions the controller performs one after the
    other, and whatever the API answers, the watch manager runs a Node watcher
    exactly for the Secrets whose client is cached, each with the client that is
    cached.  (Resolutions that overlap can leave a watcher with the old
    credentials of a rotated kubeconfig:
    [Isolation.watcher_keeps_old_credentials].) *)
Theorem watchers_follow_cache `{Externals} ops clock :
  let s := cache_run ops {| wc_cache := ∅; wc_tasks := ∅; wc_clock := clock |} in
  (forall k, wc_tasks s !! k = ce_client <$> wc_cache s !! k) /\ task_count (wc_tasks s) = size (wc_cache s).
Proof.
  intros s. assert (Hs : watchers_follow s).
  { subst s. unfold cache_run. set (s0 := {| wc_cache := ∅; wc_tasks := ∅; wc_clock := clock |}).
    assert (H0 : watchers_follow s0) by (intros k; cbn; by rewrite !lookup_empty).
    clearbody s0. revert s0 H0. induction ops as [| [answers o] ops IH]; intros s0 H0; [done |].
    cbn [foldl]. apply IH. destruct o as [sm | key | key]; cbn [cache_step fst snd].
    - by apply resolve_follow.
    - intros k. cbn. by rewrite peek_clients.
    - intros k. unfold evict_watched, evict. cbn. destruct (decide (k = key)) as [-> | Hne].
      + rewrite lookup_delete_eq. case_bool_decide as Hd; cbn; [by rewrite lookup_delete_eq |].
        rewrite H0. destruct (wc_cache s0 !! key); [destruct Hd; by eexists | done].
      + rewrite lookup_delete_ne by done. case_bool_decide; cbn; rewrite ?lookup_delete_ne by done; apply H0. }
  split; [exact Hs |]. unfold task_count.
  assert (wc_tasks s = ce_client <$> wc_cache s) as -> by (apply map_eq; intros k; by rewrite lookup_fmap).
  by rewrite map_size_fmap.
Qed.
