(* ===== verification/Isolation.v ===== *)
(** Isolation of the tenants under concurrency: any number of reconciles that
    run at the same time and share the client cache and the table of Node
    watchers ([src/reconcilers/child_client.rs], [child_watch.rs],
    [scheduled_machine.rs]). *)

From S2P Require Import Prelude RustStr Effects Interleave Constants Json Crd Externals KubeApi Samples Metrics.
From S2P Require Import ChildClient ChildWatch Reconcile Confinement.

(** ** Whose clients *)

Section isolation.
Context `{Externals} (ctx : Context).
(** The machines of the cluster, and what each version of a Secret holds: a
    resource version identifies the content of an object. *)
Context (machines : ScheduledMachine -> Prop) (content : CacheKey -> string -> option (gmap string string)).

(** [c] is built from version [rv] of the Secret [k], from a data key that some
    machine names in it. *)
Definition built (k : CacheKey) (rv : string) (c : child_config) : Prop :=
  exists sm key raw, machines sm /\ designated sm = Some (k, key) /\
    content k rv ≫= lookup key = Some raw /\ build_child (ck_namespace k) (ck_secret_name k) raw = Ok c.

(** The clients of the machine [sm]: children built from its own Secret, and
    the management client when it names none. *)
Definition own_client (sm : ScheduledMachine) (c : client) : Prop :=
  match c with
  | MgmtClient => kubeconfig_secret_ref (spec sm) = None
  | ConfigClient c => exists k key rv, designated sm = Some (k, key) /\ built k rv c
  end.

(** What a reconcile of [sm] may call: workload operations on its own clients,
    everything else on the management cluster in its own namespace, and cache
    entries only for its own Secret, with what that Secret holds. *)
Definition tenant_call (sm : ScheduledMachine) (call : call_t) : Prop :=
  let own k := exists key, designated sm = Some (k, key) in
  match call with
  | GetSecret c ns n => c = MgmtClient /\ own {| ck_namespace := ns; ck_secret_name := n |}
  | CacheLookup k _ => own k
  | CacheInsert k c rv => own k /\ built k rv c
  | HookResolved k c => own k /\ exists rv, built k rv c
  | HookEvicted _ => True
  | call => confined_by (own_client sm) sm (default "" (Crd.namespace sm)) call
  end.

(** ** The shared state *)

Definition shared_after (s : watched_cache) (e : event reply) (s' : watched_cache) : Prop :=
  match e with
  | Ev (GetSecret _ ns n) r => s' = s /\ forall secret, r = Ok secret ->
      content {| ck_namespace := ns; ck_secret_name := n |} (opt_string (s_resource_version secret)) = s_data secret
  | Ev (CacheLookup k rv) r =>
      wc_cache s' = (cache_lookup (wc_clock s) k rv (wc_cache s)).1 /\ wc_tasks s' = wc_tasks s /\
      r = (cache_lookup (wc_clock s) k rv (wc_cache s)).2
  | Ev (CacheInsert k c rv) r => exists iter, iter ≡ₚ map_to_list (wc_cache s) /\
      wc_cache s' = (cache_insert iter (wc_clock s) k c rv (wc_cache s)).1 /\ wc_tasks s' = wc_tasks s /\
      r = (cache_insert iter (wc_clock s) k c rv (wc_cache s)).2
  | Ev (HookEvicted k) _ =>
      wc_cache s' = wc_cache s /\ wc_tasks s' = (on_child_evicted_hook k (wc_tasks s)).1
  | Ev (HookResolved k c) _ =>
      wc_cache s' = wc_cache s /\ wc_tasks s' = (on_child_resolved_hook k c (wc_tasks s)).1
  | Ev _ _ => s' = s
  end.

(** A reconcile of a machine of the cluster starts. *)
Definition starts (sm : ScheduledMachine) (p : M (rresult Action)) : Prop :=
  machines sm /\ is_Some (Crd.namespace sm) /\ p = reconcile_scheduled_machine ctx sm.

Definition shared_inv (s : watched_cache) : Prop :=
  (forall k e, wc_cache s !! k = Some e -> built k (ce_resource_version e) (ce_client e)) /\
  (forall k c, wc_tasks s !! k = Some c -> exists rv, built k rv c) /\
  size (wc_cache s) <= CHILD_CLIENT_CACHE_CAP.

(** The replies the shared state vouches for. *)
Definition vouched (e : event reply) : Prop :=
  match e with
  | Ev (GetSecret _ ns n) (Ok secret) =>
      content {| ck_namespace := ns; ck_secret_name := n |} (opt_string (s_resource_version secret)) = s_data secret
  | Ev (CacheLookup k rv) (Some c) => built k rv c
  | _ => True
  end.

(** ** One step keeps the invariant *)

Lemma shared_inv_lookup now k rv m :
  (forall k e, m !! k = Some e -> built k (ce_resource_version e) (ce_client e)) ->
  size (cache_lookup now k rv m).1 = size m /\
  (forall k' e, (cache_lookup now k rv m).1 !! k' = Some e -> built k' (ce_resource_version e) (ce_client e)) /\
  (forall c, (cache_lookup now k rv m).2 = Some c -> built k rv c).
Proof.
  intros Hm. unfold cache_lookup. destruct (m !! k) as [e |] eqn:He; [| done].
  case_bool_decide as Hrv; [| done]. cbn [fst snd]. split_and!.
  - rewrite map_size_insert, He. done.
  - intros k' e' [[-> <-] | [_ Hk]]%lookup_insert_Some; [exact (Hm _ _ He) | by apply Hm].
  - intros c [= <-]. rewrite <- Hrv. by apply Hm.
Qed.

Lemma shared_inv_insert iter now k c rv m :
  iter ≡ₚ map_to_list m -> built k rv c -> size m <= CHILD_CLIENT_CACHE_CAP ->
  (forall k e, m !! k = Some e -> built k (ce_resource_version e) (ce_client e)) ->
  size (cache_insert iter now k c rv m).1 <= CHILD_CLIENT_CACHE_CAP /\
  (forall k' e, (cache_insert iter now k c rv m).1 !! k' = Some e -> built k' (ce_resource_version e) (ce_client e)).
Proof.
  intros Hi Hb Hs Hm. split; [by apply cache_insert_size |]. intros k' e He.
  pose proof (cache_insert_entries iter now k c rv m k' e He) as [[-> [-> ->]] | Hk]; [done | by apply Hm].
Qed.

Lemma shared_step sm s c r s' :
  shared_inv s -> tenant_call sm c -> shared_after s (Ev c r) s' -> vouched (Ev c r) /\ shared_inv s'.
Proof.
  intros (Hc & Ht & Hs) Hcall Ha.
  destruct c; cbn in Ha; try (subst s'; split; [done |]; by split_and!).
  - destruct Ha as [-> Hg]. split; [destruct r; [by apply Hg | done] | by split_and!].
  - destruct Ha as (Hm & Hw & ->). destruct (shared_inv_lookup (wc_clock s) key rv (wc_cache s) Hc) as (Hsz & Hl & Hr).
    split; [cbn; destruct (cache_lookup _ _ _ _).2 eqn:E; [by apply Hr | done] |]. unfold shared_inv. by rewrite Hm, Hw, Hsz.
  - destruct Ha as (iter & Hi & Hm & Hw & ->). destruct Hcall as [_ Hb].
    destruct (shared_inv_insert iter (wc_clock s) key c rv (wc_cache s) Hi Hb Hs Hc) as [Hsz Hl].
    split; [done |]. unfold shared_inv. by rewrite Hm, Hw.
  - destruct Ha as [Hm Hw]. split; [done |]. unfold shared_inv. rewrite Hm, Hw. split_and!; [done | | done].
    cbn. intros k c [_ Hk]%lookup_delete_Some. by eapply Ht.
  - destruct Ha as [Hm Hw]. split; [done |]. destruct Hcall as [_ Hb]. unfold shared_inv. rewrite Hm, Hw. split_and!; [done | | done].
    cbn. intros k c' [[<- <-] | [_ Hk]]%lookup_insert_Some; [done |].
    apply lookup_delete_Some in Hk as [_ Hk]. by eapply Ht.
Qed.

(** ** A reconcile keeps to its own Secret *)

Lemma under_one_call sm c {A} (k : reply c -> M A) Q :
  tenant_call sm c -> (forall r, vouched (Ev c r) -> under vouched (tenant_call sm) (k r) Q) ->
  under vouched (tenant_call sm) (Vis c k) Q.
Proof. intros Hc Hk. split; [exact Hc |]. intros r [] Hr. by apply Hk. Qed.

Lemma build_under sm k key explicit :
  machines sm -> designated sm = Some (k, key) ->
  under vouched (tenant_call sm) (build_or_get_cached MgmtClient (ck_namespace k) (ck_secret_name k) key explicit)
    (λ r, match r with Ok rc => own_client sm (ResolvedClient.client rc) | Err _ => True end).
Proof.
  intros Hm Hd. destruct k as [ns n]. cbn [ck_namespace ck_secret_name]. set (k := {| ck_namespace := ns; ck_secret_name := n |}) in *.
  unfold build_or_get_cached. apply under_one_call; [by split; [| by exists key] |]. intros [secret | e] Hs; [| by repeat case_match].
  cbn [vouched] in Hs. fold k in Hs. cbn [bind]. apply under_one_call; [by eexists |].
  intros [c |] Hc; cbn [vouched bind] in *; [by exists k, key, (opt_string (s_resource_version secret)) |].
  destruct (s_data secret ≫= lookup key) as [raw |] eqn:Hraw; [| done]. cbn [ok_or lift bind_ok bind].
  destruct (build_child ns n raw) as [c | e] eqn:Hb; [| done]. cbn [lift bind_ok bind].
  assert (Hbuilt : built k (opt_string (s_resource_version secret)) c) by (exists sm, key, raw; by rewrite Hs).
  apply under_one_call; [by split; [eexists |] |]. intros [[] [ev |]] _; cbn [bind];
    repeat (apply under_one_call; [first [done | by split; eauto] | intros [] _; cbn [bind]]);
    by exists k, key, (opt_string (s_resource_version secret)).
Qed.

Lemma metric_under sm {A} (p : M A) Q :
  calls metric_call p -> returns Q p -> under vouched (tenant_call sm) p Q.
Proof. intros Hp. apply under_returns. eapply calls_mono; [| exact Hp]. by intros []. Qed.

Lemma resolve_under sm :
  machines sm ->
  under vouched (tenant_call sm) (cache_resolve MgmtClient sm)
    (λ r, match r with Ok rc => own_client sm (ResolvedClient.client rc) | Err _ => True end).
Proof.
  intros Hm. unfold cache_resolve. destruct (Crd.namespace sm) as [ns |] eqn:Hns; [| done]. cbn [ok_or lift bind_ok bind].
  destruct (kubeconfig_secret_ref (spec sm)) as [r |] eqn:Href.
  - eapply under_bind.
    + apply (build_under sm {| ck_namespace := ns; ck_secret_name := ksr_name r |} (ksr_key r) true Hm).
      unfold designated. by rewrite Hns, Href.
    + intros a Ha. destruct a as [rc | e]; [| destruct e]; (apply metric_under; [by repeat constructor | by cbn]).
  - eapply under_bind.
    + apply (build_under sm {| ck_namespace := ns; ck_secret_name := cluster_name (spec sm) +:+ "-kubeconfig" |}
        DEFAULT_KUBECONFIG_SECRET_KEY false Hm). unfold designated. by rewrite Hns, Href.
    + intros a Ha. destruct a as [[] | e]; [| | destruct e]; (apply metric_under; [by repeat constructor | by cbn]).
Qed.

Lemma starts_under sm p : starts sm p -> under vouched (tenant_call sm) p (λ _, True).
Proof.
  intros (Hm & [ns Hns] & ->). apply (safe_reconcile _ _ (own_client sm) _ _ ns Hns); [| by apply resolve_under].
  intros call. unfold tenant_call. rewrite Hns. by destruct call.
Qed.
End isolation.

(** C7: isolation of the tenants: however many reconciles run at the same time,
    in whatever order their calls interleave and whenever they start or are
    dropped, a workload operation (cordon, drain, eviction, taint, label,
    ConfigMap) for a machine reaches only a cluster built from a version of the
    Secret that machine designates in its own namespace, or the management
    cluster when it designates none; what it puts in the shared cache comes from
    that Secret; and the cache never holds more than 256 clients, each (as each
    client of a Node watcher) built from the Secret it is filed under. *)
Theorem reconciles_isolated `{Externals} ctx machines content clock t s ps :
  pool_run (starts ctx machines) (shared_after content) ({| wc_cache := ∅; wc_tasks := ∅; wc_clock := clock |}, []) t (s, ps) ->
  (forall sm e, (sm, e) ∈ t -> tenant_call machines content sm (ev_call e)) /\ shared_inv machines content s.
Proof.
  intros Hrun.
  destruct (pool_run_ok _ _ (shared_inv machines content) (vouched machines content) (tenant_call machines content) (λ _ _, True)
              (starts_under ctx machines content) (shared_step machines content) _ _ _ Hrun) as [[Hs _] Ht].
  { split; [| done]. unfold shared_inv. cbn [fst wc_cache wc_tasks]. split_and!; [by intros ? ?; rewrite lookup_empty | by intros ? ?; rewrite lookup_empty |].
    rewrite map_size_empty. apply Nat.le_0_l. }
  split; [| exact Hs]. intros sm e He. rewrite Forall_forall in Ht. exact (proj1 (Ht _ He)).
Qed.

(** ** Concrete pools *)

(** A handler that answers as the shared state does. *)
Lemma watched_env_after content (answers : forall c, reply c) c s :
  (forall m ns n secret, answers (GetSecret m ns n) = Ok secret ->
     content {| ck_namespace := ns; ck_secret_name := n |} (opt_string (s_resource_version secret)) = s_data secret) ->
  shared_after content s (Ev c (watched_env answers c s).2) (watched_env answers c s).1.
Proof.
  intros Ha. destruct c; cbn; try done.
  - split; [done |]. intros secret. apply Ha.
  - by destruct (cache_lookup _ _ _ _).
  - exists (map_to_list (wc_cache s)). by destruct (cache_insert _ _ _ _ _ _).
Qed.

(** Two machines on service that name one Secret, whose content changes. *)
Definition tenant (name : string) : ScheduledMachine := {|
  metadata := {| om_name := Some name; om_namespace := Some "team"; om_uid := Some name; om_generation := Some 1%Z;
                 om_finalizers := Some [FINALIZER_SCHEDULED_MACHINE]; om_deletion_timestamp := None |};
  spec := spec (with_key "value" sample_sm); status := status (with_phase PHASE_ACTIVE sample_sm) |}.
Definition rotated (rv : string) : Secret :=
  {| s_resource_version := Some rv; s_data := Some (<["value" := "kubeconfig " +:+ rv]> ∅) |}.
Definition rotated_content (k : CacheKey) (rv : string) : option (gmap string string) := s_data (rotated rv).
Definition on_service (rv : string) (c : call_t) : reply c :=
  match c return reply c with
  | GetSecret _ _ _ => Ok (rotated rv)
  | GetOptDyn _ _ _ _ => Ok (Some {| d_name := None; d_namespace := None; d_labels := None;
      d_data := JObj [("status", JObj [("active", JBool true)])] |})
  | GetDyn _ _ _ _ => Ok {| d_name := None; d_namespace := None; d_labels := None;
      d_data := JObj [("status", JObj [("nodeRef", JObj [("name", JStr "node-1")])])] |}
  | c => (ok_handler c 0%Z).2
  end.
Definition turns (i n : nat) (rv : string) : list (nat * (forall c, watched_cache -> watched_cache * reply c)) :=
  replicate n (i, watched_env (on_service rv)).
Definition two_tenants : list (ScheduledMachine * M (rresult Action)) :=
  (λ sm, (sm, reconcile_scheduled_machine (H := toy_externals) (H0 := cache_resolver (H := toy_externals)) sample_ctx sm))
    <$> [tenant "a"; tenant "b"].

Definition no_clients : watched_cache := {| wc_cache := ∅; wc_tasks := ∅; wc_clock := 0 |}.
Definition kc : CacheKey := {| ck_namespace := "team"; ck_secret_name := "kc" |}.

(** The first reconcile is overtaken by the second between putting its client
    in the cache and calling the hook. *)
Definition overtaken : list (nat * (forall c, watched_cache -> watched_cache * reply c)) :=
  turns 0 14 "1" ++ turns 1 60 "2" ++ turns 0 60 "2".

Lemma two_tenants_run tail :
  (forall i h, (i, h) ∈ tail -> exists rv, h = watched_env (on_service rv)) ->
  exists t, pool_run (starts (H := toy_externals) sample_ctx (λ sm, sm = tenant "a" \/ sm = tenant "b"))
    (shared_after rotated_content) (no_clients, []) t (play tail no_clients two_tenants).
Proof.
  intros Ht.
  destruct (play_run (starts (H := toy_externals) sample_ctx (λ sm, sm = tenant "a" \/ sm = tenant "b"))
    (shared_after rotated_content) tail no_clients two_tenants) as [t Hrun].
  { intros i h c s [rv ->]%Ht. apply watched_env_after. by intros m ns n secret [= <-]. }
  exists ([] ++ t). eapply pool_run_trans; [| exact Hrun]. apply (pool_start_all _ _ no_clients []).
  repeat apply Forall_cons_2; [| | done]; (split; [by auto |]; split; [by eexists | done]).
Qed.

Lemma turns_handler rvs i h :
  (i, h) ∈ mjoin ((λ x : nat * nat * string, turns x.1.1 x.1.2 x.2) <$> rvs) -> exists rv, h = watched_env (on_service rv).
Proof.
  rewrite list_elem_of_join. intros (l & Hi & Hl). apply list_elem_of_fmap in Hl as ([[j n] rv] & -> & _).
  apply elem_of_replicate in Hi as [[= _ ->] _]. by exists rv.
Qed.

Lemma reconciles_isolated_witness :
  exists t s ps,
    pool_run (starts (H := toy_externals) sample_ctx (λ sm, sm = tenant "a" \/ sm = tenant "b"))
      (shared_after rotated_content) (no_clients, []) t (s, ps) /\
    wc_cache s <> ∅ /\ Forall (λ tp, exists r, tp.2 = Ret r) ps /\
    forall sm e, (sm, e) ∈ t ->
      tenant_call (H := toy_externals) (λ sm, sm = tenant "a" \/ sm = tenant "b") rotated_content sm (ev_call e).
Proof.
  destruct (two_tenants_run overtaken (turns_handler [(0, 14, "1"); (1, 60, "2"); (0, 60, "2")])) as [t Hrun].
  destruct (play overtaken no_clients two_tenants) as [s ps] eqn:Hp. exists t, s, ps.
  split; [exact Hrun |]. split; [| split].
  - replace s with (play overtaken no_clients two_tenants).1 by (by rewrite Hp). vm_compute. discriminate.
  - replace ps with (play overtaken no_clients two_tenants).2 by (by rewrite Hp). vm_compute. repeat constructor; by eexists.
  - exact (proj1 (reconciles_isolated (H := toy_externals) _ _ _ 0 t s ps Hrun)).
Defined.

(** The hooks are called after the cache's lock is released: when two reconciles
    rebuild the client of one Secret at the same time, the older client's
    watcher may be started last.  Both reconciles have ended, the cache holds
    the client of the new credentials, and the only Node watcher of that
    cluster runs with the old ones, until the Secret changes again. *)
Theorem watcher_keeps_old_credentials :
  exists t s ps,
    pool_run (starts (H := toy_externals) sample_ctx (λ sm, sm = tenant "a" \/ sm = tenant "b"))
      (shared_after rotated_content) (no_clients, []) t (s, ps) /\
    Forall (λ tp, exists r, tp.2 = Ret (Ok r)) ps /\
    (cfg_kubeconfig ∘ ce_client <$> wc_cache s !! kc) = Some "kubeconfig 2" /\
    (cfg_kubeconfig <$> wc_tasks s !! kc) = Some "kubeconfig 1".
Proof.
  destruct (two_tenants_run overtaken (turns_handler [(0, 14, "1"); (1, 60, "2"); (0, 60, "2")])) as [t Hrun].
  destruct (play overtaken no_clients two_tenants) as [s ps] eqn:Hp. exists t, s, ps.
  assert (Hs : s = (play overtaken no_clients two_tenants).1) by (by rewrite Hp).
  assert (Hps : ps = (play overtaken no_clients two_tenants).2) by (by rewrite Hp).
  split; [exact Hrun |]. rewrite Hs, Hps. split_and!; vm_compute; [| done..]. repeat constructor; by eexists.
Qed.
