(* ===== verification/Watchers.v ===== *)
(** The watcher tasks ([run_provider_watcher] and [emit_refs_for_provider] of
    [src/reconcilers/spot_schedule_watch.rs], [run_node_watcher] and
    [emit_refs_for_node] of [src/reconcilers/child_watch.rs]).

    A task is its loop: a body, from a state to the next, and a number of
    iterations.  What it shares with the rest of the controller (the reverse
    index behind its mutex, the Machine store, the channel into the reconcile
    queue) and what it waits for (the API, the watch stream, the clock) are
    calls. *)

From S2P Require Import Prelude RustStr Effects Constants Json Crd Externals KubeApi Samples Capi SpotWatch.

(** [kube::runtime::watcher::Event]. *)
Inductive watcher_event (O : Type) : Type :=
| Apply (o : O)
| Delete (o : O)
| Init
| InitApply (o : O)
| InitDone.
Arguments Apply {O} o.
Arguments Delete {O} o.
Arguments Init {O}.
Arguments InitApply {O} o.
Arguments InitDone {O}.

(** The object whose referrers an item of the stream concerns: both tasks treat
    the three kinds of object event alike and skip the rest. *)
Definition event_object {O} (item : result (watcher_event O) string) : option O :=
  match item with
  | Ok (Apply o) | Ok (InitApply o) | Ok (Delete o) => Some o
  | Ok Init | Ok InitDone | Err _ => None
  end.

Inductive watch_call : Type :=
| ResolveKind (g : GroupVersionKind)
| SleepSecs (secs : Z)
| OpenStream (ar : ApiResource)
| NextObject
| ReadIndex
| NextNode
| ReadMachines
| Send (r : ObjectRef).
Definition watch_reply (c : watch_call) : Type :=
  match c with
  | ResolveKind _ => result ApiResource kube_error
  | NextObject => option (result (watcher_event DynamicObject) string)
  | ReadIndex => ReverseIndex
  | NextNode => option (result (watcher_event Node) string)
  | ReadMachines => list DynamicObject
  | Send _ => bool
  | SleepSecs _ | OpenStream _ => unit
  end%type.
#[local] Notation P := (prog watch_reply).

Definition resolve_kind g : P (result ApiResource kube_error) := call (ResolveKind g).
Definition next_object : P (option (result (watcher_event DynamicObject) string)) := call NextObject.
Definition read_index : P ReverseIndex := call ReadIndex.
Definition next_node : P (option (result (watcher_event Node) string)) := call NextNode.
Definition read_machines : P (list DynamicObject) := call ReadMachines.
Definition send_ref r : P bool := call (Send r).

(** [for r in refs { if tx.send(r).await.is_err() { return; } }] *)
Fixpoint send_each (refs : list ObjectRef) : P unit :=
  match refs with
  | [] => Ret tt
  | r :: refs => sent <- send_ref r ;; if sent : bool then send_each refs else Ret tt
  end.

(** ** The provider watcher *)

Definition provider_key_of (g : GroupVersionKind) (object : DynamicObject) : option ProviderKey :=
  match d_namespace object, d_name object with
  | Some namespace, Some name => Some {| gvk := g; pk_namespace := namespace; pk_name := name |}
  | _, _ => None
  end.

Definition emit_for_provider (g : GroupVersionKind) (object : DynamicObject) : P unit :=
  match provider_key_of g object with
  | None => Ret tt
  | Some key =>
      index <- read_index ;;
      send_each (lookup_refs key index)
  end.

Definition back_off : P unit := call (SleepSecs SPOT_SCHEDULE_DISCOVERY_RETRY_SECS).

(** Inside the stream, or before it. *)
Definition provider_tick (g : GroupVersionKind) (streaming : bool) : P (bool + Empty_set) :=
  if streaming then
    item <- next_object ;;
    match item with
    | None => back_off ;;; Ret (inl false)
    | Some item =>
        match event_object item with
        | Some object => emit_for_provider g object
        | None => Ret tt
        end ;;;
        Ret (inl true)
    end
  else
    k <- resolve_kind g ;;
    match k with
    | Err _ => back_off ;;; Ret (inl false)
    | Ok ar => call (OpenStream ar) ;;; Ret (inl true)
    end.
Definition run_provider_watcher (g : GroupVersionKind) (n : nat) : P (option Empty_set) :=
  iterate n (provider_tick g) false.

(** ** The Node watcher *)

Definition object_ref (r : SmRef) : ObjectRef := {| ref_name := sr_name r; ref_namespace := Some (sr_namespace r) |}.

Definition emit_for_node (node : Node) : P unit :=
  snapshot <- read_machines ;;
  send_each (object_ref <$> node_to_scheduled_machines_via_machine node snapshot).

Definition node_tick (_ : unit) : P (unit + unit) :=
  item <- next_node ;;
  match item with
  | None => Ret (inr tt)
  | Some item =>
      match event_object item with
      | Some node => emit_for_node node
      | None => Ret tt
      end ;;;
      Ret (inl tt)
  end.
Definition run_node_watcher (n : nat) : P (option unit) := iterate n node_tick tt.

(** ** What the watchers send *)

(** Where the provider watcher stands.  [Waking k h sent]: the last event was of
    the object [k], the index read for it is that of the history [h], and the
    machines [sent] were enqueued. *)
Inductive watch_state : Type :=
| Resolving
| BackingOff
| Opening
| Listening
| Looking (k : ProviderKey)
| Waking (k : ProviderKey) (h : list sm_event) (sent : gset ObjectRef).

(** One reply.  The index is the manager's, which the observations and
    deletions of machines drive; the rest answers in any way. *)
Definition watch_after (g : GroupVersionKind) (s : watch_state) (e : event watch_reply) (s' : watch_state) : Prop :=
  match e with
  | Ev (ResolveKind _) r => s' = match r with Ok _ => Opening | Err _ => BackingOff end
  | Ev (SleepSecs _) _ => s' = Resolving
  | Ev (OpenStream _) _ => s' = Listening
  | Ev NextObject None => s' = BackingOff
  | Ev NextObject (Some item) =>
      s' = match event_object item ≫= provider_key_of g with Some k => Looking k | None => Listening end
  | Ev ReadIndex idx => exists k h, s = Looking k /\ idx = index (replay_events h) /\ s' = Waking k h ∅
  | Ev (Send r) accepted =>
      exists k h sent, s = Waking k h sent /\ s' = if accepted : bool then Waking k h ({[r]} ∪ sent) else Listening
  | _ => s' = s
  end.

(** The calls the provider watcher may make: it sends a machine that references
    the object of the last event and was not sent for it yet, and goes on to
    the next event when none is left. *)
Definition watch_allowed (g : GroupVersionKind) (s : watch_state) (c : watch_call) : Prop :=
  match c with
  | ResolveKind g' => s = Resolving /\ g' = g
  | SleepSecs secs => s = BackingOff /\ secs = 30%Z
  | OpenStream _ => s = Opening
  | NextObject =>
      s = Listening \/
      exists k h sent, s = Waking k h sent /\ forall r, current_key h r = Some k <-> r ∈ sent
  | ReadIndex => exists k, s = Looking k
  | Send r => exists k h sent, s = Waking k h sent /\ current_key h r = Some k /\ r ∉ sent
  | NextNode | ReadMachines => False
  end.

Section provider.
Context (g : GroupVersionKind).
Notation triple := (hoare (watch_after g) (watch_allowed g)).

(** Ready for the next event. *)
Definition ready_for_next (s : watch_state) : Prop := watch_allowed g s NextObject.

Lemma triple_send_each k h l : forall sent,
  NoDup l -> (forall r, r ∈ l -> r ∉ sent) ->
  (forall r, current_key h r = Some k <-> r ∈ l \/ r ∈ sent) ->
  triple (Waking k h sent) (send_each l) (λ s _, ready_for_next s).
Proof.
  induction l as [| r l IH]; cbn [send_each]; intros sent Hd Hf Hk.
  { cbn. right. exists k, h, sent. split; [done |]. intros r. rewrite Hk, elem_of_nil. tauto. }
  apply NoDup_cons in Hd as [Hr Hd]. cbn. split.
  { exists k, h, sent. split; [done |]. split; [apply Hk; left; by left |]. apply Hf. by left. }
  intros accepted s' (k' & h' & sent' & [= <- <- <-] & ->). destruct accepted; cbn; [| by left].
  apply IH; [done | |].
  - intros r' Hr'. rewrite not_elem_of_union, not_elem_of_singleton. split; [by intros -> |]. apply Hf. by right.
  - intros r'. rewrite Hk, elem_of_cons, elem_of_union, elem_of_singleton. tauto.
Qed.

Lemma triple_emit object :
  triple (match provider_key_of g object with Some k => Looking k | None => Listening end)
    (emit_for_provider g object) (λ s _, ready_for_next s).
Proof.
  unfold emit_for_provider. destruct (provider_key_of g object) as [k |]; [| by left]. cbn. split; [by eexists |].
  intros idx s' (k' & h & [= <-] & -> & ->). apply triple_send_each.
  - apply NoDup_elements.
  - intros r _. apply not_elem_of_empty.
  - intros r. rewrite lookup_refs_current. set_solver.
Qed.

Lemma triple_provider n : triple Resolving (run_provider_watcher g n) (λ _ r, r = None).
Proof.
  apply (hoare_iterate _ _ _ (λ streaming s, if streaming : bool then ready_for_next s else s = Resolving)); [| done | done].
  assert (Hb : triple BackingOff (back_off ;;; Ret (inl (B := Empty_set) false)) (λ s r,
            match r with inl st => if st : bool then ready_for_next s else s = Resolving | inr _ => False end)).
  { cbn. split; [done |]. by intros _ s' ->. }
  intros streaming s Hs. unfold provider_tick. destruct streaming.
  - split; [exact Hs |]. intros [item |] s'; cbn [watch_after]; intros ->.
    + cbn [bind]. destruct (event_object item) as [object |]; cbn [option_bind mbind]; [| cbn; by left].
      apply hoare_bind. eapply hoare_mono; [done | | apply triple_emit]. by intros s' [].
    + eapply hoare_mono; [done | | exact Hb]. by intros s' [st | []].
  - subst s. split; [done |]. intros [ar | e] s' ->.
    + cbn. split; [done |]. intros _ s' ->. by left.
    + eapply hoare_mono; [done | | exact Hb]. by intros s' [st | []].
Qed.
End provider.

(** C35: provider events wake exactly the machines concerned: a watcher runs for
    a kind exactly when, after the observations and deletions so far, some
    machine references an object of that kind; and however often it reconnects,
    for each event of an object it enqueues exactly the machines whose last
    observation references that object, each once (all of them, unless the
    controller's queue is closed), none on any other item of the stream, and
    waits 30 seconds before resolving the kind again; it never ends by itself. *)
Theorem provider_watcher_wakes_referrers g n :
  (forall history, g ∈ watchers (replay_events history) <-> exists r k, current_key history r = Some k /\ gvk k = g) /\
  hoare (watch_after g) (watch_allowed g) Resolving (run_provider_watcher g n) (λ _ r, r = None).
Proof. split; [intros history; apply watchers_referenced | apply triple_provider]. Qed.

(** The Node watcher: what is left to enqueue for the last event, and whether
    the stream has ended. *)
Inductive node_state : Type :=
| NodeListening
| NodeLooking (node : Node)
| NodeWaking (left_over : list ObjectRef)
| StreamEnded.

Definition node_after (s : node_state) (e : event watch_reply) (s' : node_state) : Prop :=
  match e with
  | Ev NextNode None => s' = StreamEnded
  | Ev NextNode (Some item) => s' = match event_object item with Some node => NodeLooking node | None => NodeListening end
  | Ev ReadMachines machines => exists node, s = NodeLooking node /\
      s' = NodeWaking (object_ref <$> node_to_scheduled_machines_via_machine node machines)
  | Ev (Send r) accepted => exists rest, s = NodeWaking (r :: rest) /\ s' = if accepted : bool then NodeWaking rest else NodeListening
  | _ => s' = s
  end.
Definition node_allowed (s : node_state) (c : watch_call) : Prop :=
  match c with
  | NextNode => s = NodeListening \/ s = NodeWaking []
  | ReadMachines => exists node, s = NodeLooking node
  | Send r => exists rest, s = NodeWaking (r :: rest)
  | _ => False
  end.

(** The Node watcher enqueues, for each event of a Node, the machines the
    Machine store of that moment maps it to, in order and all of them unless
    the queue is closed; it ends exactly when its stream does. *)
Theorem node_watcher_wakes_owners n :
  hoare node_after node_allowed NodeListening (run_node_watcher n) (λ s r, r = Some tt <-> s = StreamEnded).
Proof.
  apply (hoare_iterate _ _ _ (λ _ s, s = NodeListening \/ s = NodeWaking []));
    [| intros [] s [-> | ->]; done | by left].
  intros [] s Hs. unfold node_tick. split; [exact Hs |]. intros [item |] s'; cbn [node_after]; intros ->; [| done].
  cbn [bind]. destruct (event_object item) as [node |]; [| cbn; by left].
  apply hoare_bind. eapply (hoare_mono _ _ _ _ (λ s _, s = NodeListening \/ s = NodeWaking []));
    [done | by intros s' [] | ].
  unfold emit_for_node. split; [by eexists |]. intros ms s' (node' & [= <-] & ->). cbn [bind].
  generalize (object_ref <$> node_to_scheduled_machines_via_machine node ms). intros l.
  induction l as [| r l IH]; cbn [send_each]; [by right |].
  split; [by eexists |]. intros accepted s' (rest & [= <-] & ->). destruct accepted; [exact IH | by left].
Qed.

(** An event wakes the sample machine. *)
Example provider_watcher_sample :
  let env c (_ : unit) := (tt, match c return watch_reply c with
    | ResolveKind _ => Ok {| ar_group := ""; ar_version := ""; ar_kind := ""; ar_plural := "" |}
    | NextObject => Some (Ok (Apply {| d_name := Some (ssr_name (schedule (spec sample_sm)));
        d_namespace := Some "team"; d_labels := None; d_data := JObj [] |}))
    | ReadIndex => index (replay_events [Observed sample_sm])
    | NextNode => None
    | ReadMachines => []
    | Send _ => true
    | SleepSecs _ | OpenStream _ => tt
    end) in
  omap (λ e, match ev_call e with Send r => Some r | _ => None end)
    (run env tt (run_provider_watcher {| gvk_group := "spotschedules.5spot.finos.org"; gvk_version := "v1alpha1";
       gvk_kind := ssr_kind (schedule (spec sample_sm)) |} 2)).1.2 = [from_obj sample_sm].
Proof. vm_compute. reflexivity. Qed.
