(* ===== verification/Providers.v ===== *)
(** The schedule providers ([src/providers/time_based.rs] and
    [src/providers/capital_markets.rs]): when a window is open, the next time
    that changes, and the status they publish.

    The two files share their text but for names; what they share is written
    once here, over the provider's own [is_active_at].  Instants are
    nanoseconds.  Time zones ([chrono_tz]) are a parameter. *)

From S2P Require Import Prelude RustStr Effects Constants Json Crd Ranges Externals KubeApi Metrics Duration.
From S2P Require Import SpotSchedule.

Class TimeZones : Type := {
  Tz : Type;
  parse_tz : string -> option Tz;
  (** [with_timezone(&tz)], then [weekday().num_days_from_monday()], [hour()]
      and [format(%Y-%m-%d)]. *)
  local_weekday : Tz -> Z -> Z;
  local_hour : Tz -> Z -> Z;
  local_date : Tz -> Z -> string;
}.

(** [Action::requeue] with the precision of a [Duration]. *)
Inductive ProviderAction : Type := RequeueAfter (nanos : Z).

(** A provider object: what a reconcile reads of it. *)
Record ProviderObject (S : Type) : Type := {
  po_metadata : ObjectMeta;
  po_spec : S;
  po_status : option (bool * option string);  (** [active] and [lastTransitionTime] *)
}.
Arguments po_metadata {S} p.
Arguments po_spec {S} p.
Arguments po_status {S} p.

(** ** What the two providers share *)

Section provider.
Context {E : Type} (is_active_at : Z -> result bool E).

Definition HOUR : Z := 3600 * NANOS_PER_SEC.

(** [with_minute(0)], [with_second(0)], [with_nanosecond(0)], plus one hour. *)
Definition next_hour (from : Z) : Z := from - from mod HOUR + HOUR.

Fixpoint scan_hours (n : nat) (current : bool) (candidate : Z) : result (option Z) E :=
  match n with
  | 0 => Ok None
  | S n =>
      let? a := is_active_at candidate in
      if Bool.eqb a current then scan_hours n current (candidate + HOUR) else Ok (Some candidate)
  end.

Definition next_transition (from : Z) : result (option Z) E :=
  let? current := is_active_at from in
  scan_hours (Z.to_nat PROVIDER_TRANSITION_HORIZON_HOURS) current (next_hour from).

Context `{Externals}.

Definition provider_status (active : bool) (generation : option Z) (reason message : string) (now : Z)
    (last_transition_time : option string) (next : option Z) : json :=
  JObj ([("active", JBool active);
         ("observedGeneration", match generation with Some g => JInt g | None => JNull end);
         ("conditions", JArr [JObj [("type", JStr CONDITION_TYPE_READY); ("status", JStr CONDITION_STATUS_TRUE);
            ("reason", JStr reason); ("message", JStr message); ("lastTransitionTime", JStr (to_rfc3339 now))]])] ++
        opt_field "lastTransitionTime" JStr last_transition_time ++
        opt_field "nextTransitionTime" (λ t, JStr (to_rfc3339 t)) next).

(** The requeue delay: until the next transition, or the fallback. *)
Definition provider_requeue (now : Z) (next : option Z) : Z :=
  match next with
  | Some next => if bool_decide (0 <= next - now)%Z then next - now else PROVIDER_FALLBACK_REQUEUE_SECS * NANOS_PER_SEC
  | None => PROVIDER_FALLBACK_REQUEUE_SECS * NANOS_PER_SEC
  end.

Context (unnamespaced : E) (kube_err : kube_error -> E) (kind : string) (describe : bool -> string * string)
  (set_active : string -> string -> bool -> M unit) (record_transition : string -> string -> M unit).

Definition reconcile_provider (meta : ObjectMeta) (previous : option (bool * option string)) : M (result ProviderAction E) :=
  now <- utc_now ;;
  namespace <-? lift (ok_or (om_namespace meta) unnamespaced) ;;
  let name := opt_string (om_name meta) in
  active <-? lift (is_active_at now) ;;
  next <-? lift (next_transition now) ;;
  let transitioned := negb (bool_decide (fst <$> previous = Some active)) in
  let last_transition_time := if transitioned then Some (to_rfc3339 now) else previous ≫= snd in
  let '(reason, message) := describe active in
  let status := provider_status active (om_generation meta) reason message now last_transition_time next in
  patched <- patch_provider_status MgmtClient kind namespace name (JObj [("status", status)]) ;;
  match patched with
  | Err e => Ret (Err (kube_err e))
  | Ok _ =>
      set_active namespace name active ;;;
      (if transitioned : bool then record_transition namespace name else Ret tt) ;;;
      Ret (Ok (RequeueAfter (provider_requeue now next)))
  end.
End provider.

(** ** [src/providers/time_based.rs] *)

Module TimeBased.
Inductive ProviderError : Type :=
| InvalidTimezone (tz : string)
| Window (s : string)
| Unnamespaced
| Kube (e : kube_error).

Definition is_active_at `{TimeZones} (spec : TimeBasedSpotScheduleSpec) (instant : Z) : result bool ProviderError :=
  if negb (tb_enabled spec) then Ok false
  else
    let? tz := ok_or (parse_tz (timezone spec)) (InvalidTimezone (timezone spec)) in
    let? days := map_err Window (get_active_weekdays spec) in
    let? hours := map_err Window (get_active_hours spec) in
    let weekday := local_weekday tz instant in
    let hour := local_hour tz instant in
    Ok (match days with Some d => bool_decide (weekday ∈ d) | None => false end &&
        match hours with Some h => bool_decide (hour ∈ h) | None => false end).

Definition describe (active : bool) : string * string :=
  if active then (REASON_TIME_BASED_WINDOW_OPEN, "schedule window open")
  else (REASON_TIME_BASED_WINDOW_CLOSED, "schedule window closed").

Definition reconcile `{Externals} `{TimeZones} (tbss : ProviderObject TimeBasedSpotScheduleSpec)
    : M (result ProviderAction ProviderError) :=
  reconcile_provider (is_active_at (po_spec tbss)) Unnamespaced Kube "TimeBasedSpotSchedule" describe
    set_time_based_active record_time_based_transition (po_metadata tbss) (po_status tbss).

Definition error_policy (_tbss : ProviderObject TimeBasedSpotScheduleSpec) (_error : ProviderError) : ProviderAction :=
  RequeueAfter (PROVIDER_ERROR_REQUEUE_SECS * NANOS_PER_SEC).
End TimeBased.

(** ** [src/providers/capital_markets.rs] *)

Module CapitalMarkets.
Inductive ProviderError : Type :=
| InvalidTimezone (tz : string)
| Calendar (s : string)
| Unnamespaced
| Kube (e : kube_error).

(** The loop over [sessions], left at the first match. *)
Fixpoint in_session (weekday hour : Z) (sessions : list TradingSession) : result bool ProviderError :=
  match sessions with
  | [] => Ok false
  | session :: rest =>
      let? days := map_err Calendar (parse_day_ranges (ts_days_of_week session)) in
      let? hours := map_err Calendar (parse_hour_ranges (ts_hours_of_day session)) in
      if bool_decide (weekday ∈ days) && bool_decide (hour ∈ hours) then Ok true else in_session weekday hour rest
  end.

Definition is_active_at `{TimeZones} (spec : CapitalMarketsScheduleSpec) (instant : Z) : result bool ProviderError :=
  let? tz := ok_or (parse_tz (cm_timezone spec)) (InvalidTimezone (cm_timezone spec)) in
  let date := local_date tz instant in
  if bool_decide (date ∈ cm_holidays spec) then Ok false
  else
    let weekday := local_weekday tz instant in
    let hour := local_hour tz instant in
    let? inside := in_session weekday hour (cm_sessions spec) in
    if negb inside then Ok false
    else match find_b (λ ec, bool_decide (ec_date ec = date)) (cm_early_closes spec) with
         | Some early_close => Ok (negb (bool_decide (ec_close_hour early_close < hour)%Z))
         | None => Ok true
         end.

Definition describe (active : bool) : string * string :=
  if active then (REASON_CAPITAL_MARKETS_SESSION_OPEN, "market session open")
  else (REASON_CAPITAL_MARKETS_SESSION_CLOSED, "market session closed").

Definition reconcile `{Externals} `{TimeZones} (cms : ProviderObject CapitalMarketsScheduleSpec)
    : M (result ProviderAction ProviderError) :=
  reconcile_provider (is_active_at (po_spec cms)) Unnamespaced Kube "CapitalMarketsSchedule" describe
    set_capital_markets_active record_capital_markets_transition (po_metadata cms) (po_status cms).

Definition error_policy (_cms : ProviderObject CapitalMarketsScheduleSpec) (_error : ProviderError) : ProviderAction :=
  RequeueAfter (PROVIDER_ERROR_REQUEUE_SECS * NANOS_PER_SEC).
End CapitalMarkets.

(** ** The next transition *)

Section scan.
Context {E : Type} (is_active_at : Z -> result bool E).

Lemma scan_hours_spec n current : forall candidate,
  match scan_hours is_active_at n current candidate with
  | Ok (Some t) => exists k, (0 <= k < Z.of_nat n)%Z /\ t = (candidate + k * HOUR)%Z /\
      is_active_at t = Ok (negb current) /\
      forall j, (0 <= j < k)%Z -> is_active_at (candidate + j * HOUR)%Z = Ok current
  | Ok None => forall j, (0 <= j < Z.of_nat n)%Z -> is_active_at (candidate + j * HOUR)%Z = Ok current
  | Err e => exists k, (0 <= k < Z.of_nat n)%Z /\ is_active_at (candidate + k * HOUR)%Z = Err e /\
      forall j, (0 <= j < k)%Z -> is_active_at (candidate + j * HOUR)%Z = Ok current
  end.
Proof.
  induction n as [| n IH]; intros candidate; [intros j Hj; lia |]. cbn [scan_hours].
  assert (H0 : (candidate + 0 * HOUR = candidate)%Z) by lia.
  destruct (is_active_at candidate) as [a | e] eqn:Ha; cbn [result_bind]; [| exists 0%Z; rewrite H0; split_and!; [lia | lia | done | intros j Hj; lia]].
  assert (Hstep : forall j, (candidate + HOUR + j * HOUR = candidate + (j + 1) * HOUR)%Z) by lia.
  destruct (Bool.eqb a current) eqn:Hc.
  - apply Bool.eqb_prop in Hc as ->. specialize (IH (candidate + HOUR)%Z).
    assert (Hsame : forall m : Z, (forall j, (0 <= j < m)%Z -> is_active_at (candidate + HOUR + j * HOUR)%Z = Ok current) ->
              forall j, (0 <= j < m + 1)%Z -> is_active_at (candidate + j * HOUR)%Z = Ok current).
    { intros m Hm j Hj. destruct (decide (j = 0)%Z) as [-> | Hne]; [by rewrite H0 |].
      specialize (Hm (j - 1)%Z ltac:(lia)). rewrite Hstep in Hm. by replace (j - 1 + 1)%Z with j in Hm by lia. }
    destruct (scan_hours _ n current (candidate + HOUR)%Z) as [[t |] | e].
    + destruct IH as (k & Hk & -> & Ht & Hj). exists (k + 1)%Z. rewrite Hstep in *. split_and!; [lia | lia | done | done | by apply Hsame].
    + intros j Hj. apply (Hsame (Z.of_nat n) IH). lia.
    + destruct IH as (k & Hk & He & Hj). exists (k + 1)%Z. rewrite Hstep in He. split_and!; [lia | lia | done | by apply Hsame].
  - exists 0%Z. rewrite H0. split_and!; [lia | lia | done | | intros j Hj; lia].
    rewrite Ha. by destruct a, current.
Qed.

Lemma HOUR_pos : (0 < HOUR)%Z.
Proof. unfold HOUR, NANOS_PER_SEC. lia. Qed.

Lemma next_hour_spec from : (from < next_hour from <= from + HOUR)%Z /\ (next_hour from mod HOUR = 0)%Z.
Proof.
  unfold next_hour. pose proof HOUR_pos. pose proof (Z.mod_pos_bound from HOUR HOUR_pos). split; [lia |].
  replace (from - from mod HOUR + HOUR)%Z with ((from / HOUR + 1) * HOUR)%Z; [by apply Z.mod_mul; lia |].
  pose proof (Z.div_mod from HOUR ltac:(lia)). lia.
Qed.

(** The [k]-th whole hour after [from]. *)
Definition boundary (from k : Z) : Z := next_hour from + k * HOUR.

(** The schedule changes on whole UTC hours only, as it does in a time zone whose
    offset is a whole number of hours. *)
Definition whole_hours : Prop := forall u, is_active_at u = is_active_at (u - u mod HOUR).

(** Then what holds at [from] and at the boundaries holds in between. *)
Lemma whole_hours_between from current (k : Z) :
  whole_hours -> is_active_at from = Ok current ->
  (forall j, (0 <= j < k)%Z -> is_active_at (boundary from j) = Ok current) ->
  forall u, (from <= u < boundary from k)%Z -> is_active_at u = Ok current.
Proof.
  intros Hw Hf Hb u Hu. pose proof HOUR_pos as Hp. rewrite Hw. rewrite Hw in Hf.
  replace (u - u mod HOUR)%Z with (u / HOUR * HOUR)%Z by (pose proof (Z.div_mod u HOUR ltac:(lia)); lia).
  replace (from - from mod HOUR)%Z with (from / HOUR * HOUR)%Z in Hf by (pose proof (Z.div_mod from HOUR ltac:(lia)); lia).
  assert (Hn : next_hour from = ((from / HOUR + 1) * HOUR)%Z) by (unfold next_hour; pose proof (Z.div_mod from HOUR ltac:(lia)); lia).
  destruct (decide (u / HOUR = from / HOUR)%Z) as [-> | Hne]; [done |].
  assert (from / HOUR <= u / HOUR)%Z by (apply Z.div_le_mono; lia).
  assert (u / HOUR < from / HOUR + 1 + k)%Z.
  { apply Z.div_lt_upper_bound; [lia |]. unfold boundary in Hu. rewrite Hn in Hu. lia. }
  specialize (Hb (u / HOUR - from / HOUR - 1)%Z ltac:(lia)). unfold boundary in Hb. rewrite Hn in Hb.
  by replace ((from / HOUR + 1) * HOUR + (u / HOUR - from / HOUR - 1) * HOUR)%Z with (u / HOUR * HOUR)%Z in Hb by lia.
Qed.
End scan.

(** The scan, from [current]. *)
Lemma next_transition_cases {E} (is_active_at : Z -> result bool E) from current :
  is_active_at from = Ok current ->
  match next_transition is_active_at from with
  | Ok (Some t) => exists k, (0 <= k < 192)%Z /\ t = boundary from k /\ is_active_at t = Ok (negb current) /\
      (forall j, (0 <= j < k)%Z -> is_active_at (boundary from j) = Ok current) /\
      (whole_hours is_active_at -> forall u, (from <= u < t)%Z -> is_active_at u = Ok current)
  | Ok None => (forall j, (0 <= j < 192)%Z -> is_active_at (boundary from j) = Ok current) /\
      (whole_hours is_active_at -> forall u, (from <= u < boundary from 192)%Z -> is_active_at u = Ok current)
  | Err e => exists k, (0 <= k < 192)%Z /\ is_active_at (boundary from k) = Err e /\
      forall j, (0 <= j < k)%Z -> is_active_at (boundary from j) = Ok current
  end.
Proof.
  intros Hf. unfold next_transition. rewrite Hf. cbn [result_bind].
  pose proof (scan_hours_spec is_active_at (Z.to_nat PROVIDER_TRANSITION_HORIZON_HOURS) current (next_hour from)) as Hs.
  change (Z.of_nat (Z.to_nat PROVIDER_TRANSITION_HORIZON_HOURS)) with 192%Z in Hs.
  destruct (scan_hours _ _ _ _) as [[t |] | e]; [| | exact Hs].
  - destruct Hs as (k & Hk & Ht & Ha & Hj). exists k. split_and!; try done; try lia.
    intros Hw. rewrite Ht. by apply (whole_hours_between is_active_at from current k).
  - split; [done |]. intros Hw. by apply whole_hours_between.
Qed.

(** C37: the next transition: of the 192 whole hours that follow [from], the
    one announced is the first at which the schedule differs from [from], and
    it is in the future; none is announced only when none of them differs; and
    an error is that of [from], or of one of these hours before which the
    schedule is evaluated without an error and without a difference.
    In a time zone of whole hours the announcement is exact: nothing changes
    before it (or, without one, before the last of these hours). *)
Theorem next_transition_spec {E} (is_active_at : Z -> result bool E) from :
  (from < boundary from 0 <= from + HOUR /\ boundary from 0 mod HOUR = 0)%Z /\
  match next_transition is_active_at from with
  | Ok (Some t) => exists current k, is_active_at from = Ok current /\ (0 <= k < 192)%Z /\ t = boundary from k /\
      (from < t)%Z /\ is_active_at t = Ok (negb current) /\
      (forall j, (0 <= j < k)%Z -> is_active_at (boundary from j) = Ok current) /\
      (whole_hours is_active_at -> forall u, (from <= u < t)%Z -> is_active_at u = Ok current)
  | Ok None => exists current, is_active_at from = Ok current /\
      (forall j, (0 <= j < 192)%Z -> is_active_at (boundary from j) = Ok current) /\
      (whole_hours is_active_at -> forall u, (from <= u < boundary from 192)%Z -> is_active_at u = Ok current)
  | Err e => is_active_at from = Err e \/
      exists current k, is_active_at from = Ok current /\ (0 <= k < 192)%Z /\ is_active_at (boundary from k) = Err e /\
        forall j, (0 <= j < k)%Z -> is_active_at (boundary from j) = Ok current
  end.
Proof.
  pose proof (next_hour_spec from) as [Hn Hm]. pose proof HOUR_pos. split.
  { unfold boundary. rewrite Z.mul_0_l, Z.add_0_r. done. }
  destruct (is_active_at from) as [current | e] eqn:Hf; [| unfold next_transition; rewrite Hf; by left].
  pose proof (next_transition_cases is_active_at from current Hf) as Hs.
  destruct (next_transition is_active_at from) as [[t |] | e]; [| by exists current | right; destruct Hs as (k & ? & ? & ?); by exists current, k].
  destruct Hs as (k & Hk & Ht & Ha & Hj & Hw). exists current, k. split_and!; try done; try lia.
  rewrite Ht. unfold boundary. lia.
Qed.

(** The hypothesis of exactness is one on the time zone alone: its local calendar
    changes on whole UTC hours. *)
Definition whole_hour_zone `{TimeZones} (tz : Tz) : Prop := forall u, let u' := (u - u mod HOUR)%Z in
  local_hour tz u = local_hour tz u' /\ local_weekday tz u = local_weekday tz u' /\ local_date tz u = local_date tz u'.

Lemma time_based_whole_hours `{TimeZones} spec :
  (forall tz, parse_tz (timezone spec) = Some tz -> whole_hour_zone tz) -> whole_hours (TimeBased.is_active_at spec).
Proof.
  intros Hz u. unfold TimeBased.is_active_at. destruct (negb _); [done |].
  destruct (parse_tz (timezone spec)) as [tz |] eqn:Htz; cbn [ok_or result_bind]; [| done].
  destruct (Hz tz eq_refl u) as (<- & <- & _). done.
Qed.
Lemma capital_markets_whole_hours `{TimeZones} spec :
  (forall tz, parse_tz (cm_timezone spec) = Some tz -> whole_hour_zone tz) -> whole_hours (CapitalMarkets.is_active_at spec).
Proof.
  intros Hz u. unfold CapitalMarkets.is_active_at.
  destruct (parse_tz (cm_timezone spec)) as [tz |] eqn:Htz; cbn [ok_or result_bind]; [| done].
  destruct (Hz tz eq_refl u) as (<- & <- & <-). done.
Qed.

(** ** The published status *)

Section publish.
Context `{Externals} {E : Type} (is_active_at : Z -> result bool E) (unnamespaced : E) (kube_err : kube_error -> E)
  (kind : string) (describe : bool -> string * string) (set_active : string -> string -> bool -> M unit)
  (record_transition : string -> string -> M unit).
Context (set_calls : forall ns n b, calls metric_call (set_active ns n b))
  (record_calls : forall ns n, calls metric_call (record_transition ns n)).

(** A field of the status of a stored object. *)
Definition status_field (k : string) (stored : json) : option json := obj_get k (as_obj (jread "status" stored)).

(** The status as the controller reads it, after the API server merged the
    patch into any stored object. *)
Lemma provider_status_verdict active generation reason message now last next stored :
  verdict_from_status (jget "status" (merge_patch
    (JObj [("status", provider_status active generation reason message now last next)]) stored)) =
  (if active then Active else Inactive) (generation ≫= λ g, as_i64 (JInt g)).
Proof.
  rewrite merge_patch_single by done. unfold provider_status, verdict_from_status, ready_condition_blocks.
  set (l := _ ++ _). set (t := jread "status" stored).
  assert (Hnd : NoDup l.*1) by (subst l; destruct last, next; nodup_keys).
  assert (Ha : jget "active" (merge_patch (JObj l) t) = Some (JBool active)).
  { by rewrite (merge_patch_get "active" (JBool active) l t Hnd) by (subst l; done). }
  set (ready := JObj [("type", JStr CONDITION_TYPE_READY); ("status", JStr CONDITION_STATUS_TRUE);
            ("reason", JStr reason); ("message", JStr message); ("lastTransitionTime", JStr (to_rfc3339 now))]) in *.
  assert (Hc : jget "conditions" (merge_patch (JObj l) t) = Some (JArr [ready])).
  { by rewrite (merge_patch_get "conditions" (JArr [ready]) l t Hnd) by (subst l; done). }
  assert (Hg : jget "observedGeneration" (merge_patch (JObj l) t) ≫= as_i64 = generation ≫= λ g, as_i64 (JInt g)).
  { destruct generation as [g |]; subst l.
    - by rewrite (merge_patch_get "observedGeneration" (JInt g) _ t Hnd).
    - by rewrite (merge_patch_null "observedGeneration" _ t Hnd). }
  revert Ha Hc Hg. generalize (merge_patch (JObj l) t). intros after Ha Hc Hg.
  rewrite Ha, Hc, Hg. cbn [mbind option_bind as_bool as_array]. by destruct active.
Qed.

(** The transition times it publishes: one that is left out stays as it was. *)
Lemma provider_status_times active generation reason message now last next stored :
  let after := merge_patch (JObj [("status", provider_status active generation reason message now last next)]) stored in
  status_field "nextTransitionTime" after =
    match next with Some t => Some (JStr (to_rfc3339 t)) | None => status_field "nextTransitionTime" stored end /\
  status_field "lastTransitionTime" after =
    match last with Some t => Some (JStr t) | None => status_field "lastTransitionTime" stored end.
Proof.
  cbv zeta. unfold status_field. rewrite jread_merge_single by done. unfold provider_status. set (l := _ ++ _). set (t := jread "status" stored).
  assert (Hnd : NoDup l.*1) by (subst l; destruct last, next; nodup_keys).
  assert (Hg : forall k, obj_get k (as_obj (merge_patch (JObj l) t)) = jget k (merge_patch (JObj l) t)) by (by intros; rewrite merge_patch_obj).
  rewrite !Hg. split.
  - destruct next as [n |]; [by rewrite (merge_patch_get _ (JStr (to_rfc3339 n)) l t Hnd) by (subst l; by destruct last) |].
    apply merge_patch_frame. subst l. destruct last; apply (bool_decide_unpack _); by vm_compute.
  - destruct last as [n |]; [by rewrite (merge_patch_get _ (JStr n) l t Hnd) by (subst l; done) |].
    apply merge_patch_frame. subst l. destruct next; apply (bool_decide_unpack _); by vm_compute.
Qed.

(** One reconcile of a provider object: it reads the clock, and either fails
    without a write, for one of the three reasons it can, or writes one status,
    its own, and then only records metrics. *)
Definition publishes_once (meta : ObjectMeta) (previous : option (bool * option string)) (t : list (event reply))
    (r : result ProviderAction E) : Prop :=
  exists now rest, t = Ev UtcNow now :: rest /\
    ((exists e, rest = [] /\ r = Err e /\
        (om_namespace meta = None /\ e = unnamespaced \/ is_active_at now = Err e \/ next_transition is_active_at now = Err e)) \/
     exists active next ns body rep metrics,
       rest = Ev (PatchProviderStatus MgmtClient kind ns (opt_string (om_name meta)) body) rep :: metrics /\
       om_namespace meta = Some ns /\ is_active_at now = Ok active /\ next_transition is_active_at now = Ok next /\
       Forall (λ e, metric_call (ev_call e)) metrics /\
       (forall stored, let after := merge_patch body stored in
          verdict_from_status (jget "status" after) =
            (if active then Active else Inactive) (om_generation meta ≫= λ g, as_i64 (JInt g)) /\
          status_field "nextTransitionTime" after =
            match next with Some t => Some (JStr (to_rfc3339 t)) | None => status_field "nextTransitionTime" stored end /\
          status_field "lastTransitionTime" after =
            match (if bool_decide (fst <$> previous = Some active) then previous ≫= snd else Some (to_rfc3339 now)) with
            | Some t => Some (JStr t)
            | None => status_field "lastTransitionTime" stored
            end) /\
       r = match rep with Ok _ => Ok (RequeueAfter (provider_requeue now next)) | Err e => Err (kube_err e) end).

Lemma reconcile_provider_publishes meta previous :
  wp (reconcile_provider is_active_at unnamespaced kube_err kind describe set_active record_transition meta previous)
    (publishes_once meta previous).
Proof using set_calls record_calls.
  apply wp_exec. intros t r. unfold reconcile_provider, lift. intros (now & rest & -> & He).
  exists now, rest. split; [done |].
  destruct (om_namespace meta) as [ns |]; [| destruct He as [-> ->]; left; by exists unnamespaced; auto]. cbn [ok_or bind_ok bind] in He.
  destruct (is_active_at now) as [active | e] eqn:Ha; [| destruct He as [-> ->]; left; by exists e; auto]. cbn [bind_ok bind] in He.
  destruct (next_transition is_active_at now) as [next | e]; [| destruct He as [-> ->]; left; by exists e; auto]. cbn [bind_ok bind] in He.
  destruct (describe active) as [reason message]. right.
  destruct He as (rep & metrics & -> & He). cbn [bind] in He.
  eexists active, next, ns, _, rep, metrics. split; [reflexivity |]. split; [done |]. split; [done |]. split; [done |]. split; [| split].
  - destruct rep as [u | e]; [| by destruct He as [-> _]].
    eapply calls_exec; [| exact He]. apply calls_bind; [apply set_calls |]. intros _.
    apply calls_bind; [| done]. destruct (negb _); [apply record_calls | done].
  - intros stored. cbv zeta. split; [apply provider_status_verdict |].
    match goal with |- context [provider_status active ?g ?re ?m now ?l next] =>
      destruct (provider_status_times active g re m now l next stored) as [-> ->] end.
    split; [done |]. by case_bool_decide.
  - destruct rep as [u | e]; [| by destruct He as [_ ->]].
    apply exec_bind in He as (? & [] & ? & -> & _ & He). by apply exec_bind in He as (? & [] & ? & -> & _ & [_ ->]).
Qed.
End publish.

(** C38: the provider contract, end to end: a reconcile of either provider fails
    without a write, and then because its object has no namespace or its schedule
    could not be evaluated, or writes one status, to itself. Whatever was stored,
    that status is read by the controller as the resolved verdict the provider
    computed from its schedule at the time it read, of the generation it
    reconciled; it carries the next transition, when one was found within the
    horizon (when none was, the patch leaves the field out and what was stored
    stays), and the time of the last transition the provider saw; and the
    requeue is at that next transition. *)
Theorem providers_publish_contract `{Externals} `{TimeZones} :
  (forall tbss, wp (TimeBased.reconcile tbss)
     (publishes_once (TimeBased.is_active_at (po_spec tbss)) TimeBased.Unnamespaced TimeBased.Kube "TimeBasedSpotSchedule"
        (po_metadata tbss) (po_status tbss))) /\
  (forall cms, wp (CapitalMarkets.reconcile cms)
     (publishes_once (CapitalMarkets.is_active_at (po_spec cms)) CapitalMarkets.Unnamespaced CapitalMarkets.Kube "CapitalMarketsSchedule"
        (po_metadata cms) (po_status cms))).
Proof.
  split; intros obj; apply reconcile_provider_publishes; intros; by repeat constructor.
Qed.

(** ** Windows *)

(** [x] is in the union of the cyclic ranges of the parts of [specs], all of
    them well formed. *)
Definition in_ranges (endpoints : string -> option (Z * Z)) (max : Z) (specs : list string) (x : Z) : Prop :=
  Forall (λ p, is_Some (endpoints p)) (all_parts specs) /\
  exists p a b, p ∈ all_parts specs /\ endpoints p = Some (a, b) /\ cyclic_between max a b x.
Definition on_day : list string -> Z -> Prop := in_ranges day_endpoints 6.
Definition in_hours : list string -> Z -> Prop := in_ranges hour_endpoints 23.

Lemma parse_day_in_ranges specs x : (exists s, parse_day_ranges specs = Ok s /\ x ∈ s) <-> on_day specs x.
Proof.
  unfold on_day, in_ranges. pose proof (specs_loop_spec _ _ _ day_part_ok day_part_err specs) as Hs.
  unfold parse_day_ranges. destruct (specs_loop day_part specs ∅) as [s | e].
  - destruct Hs as [HF Hx]. rewrite <- Hx. naive_solver.
  - split; [naive_solver |]. intros [HF _]. apply Exists_exists in Hs as (p & Hp & Hn).
    rewrite Forall_forall in HF. specialize (HF p Hp). rewrite Hn in HF. by destruct HF.
Qed.
Lemma parse_hour_in_ranges specs x : (exists s, parse_hour_ranges specs = Ok s /\ x ∈ s) <-> in_hours specs x.
Proof.
  unfold in_hours, in_ranges. pose proof (specs_loop_spec _ _ _ hour_part_ok hour_part_err specs) as Hs.
  unfold parse_hour_ranges. destruct (specs_loop hour_part specs ∅) as [s | e].
  - destruct Hs as [HF Hx]. rewrite <- Hx. naive_solver.
  - split; [naive_solver |]. intros [HF _]. apply Exists_exists in Hs as (p & Hp & Hn).
    rewrite Forall_forall in HF. specialize (HF p Hp). rewrite Hn in HF. by destruct HF.
Qed.

Lemma parse_day_well_formed specs :
  is_ok (parse_day_ranges specs) = true <-> Forall (λ p, is_Some (day_endpoints p)) (all_parts specs).
Proof.
  pose proof (specs_loop_spec _ _ _ day_part_ok day_part_err specs) as Hs. unfold parse_day_ranges.
  destruct (specs_loop day_part specs ∅) as [s | e]; [naive_solver |]. split; [done |]. intros HF.
  apply Exists_exists in Hs as (p & Hp & Hn). rewrite Forall_forall in HF. specialize (HF p Hp). rewrite Hn in HF. by destruct HF.
Qed.
Lemma parse_hour_well_formed specs :
  is_ok (parse_hour_ranges specs) = true <-> Forall (λ p, is_Some (hour_endpoints p)) (all_parts specs).
Proof.
  pose proof (specs_loop_spec _ _ _ hour_part_ok hour_part_err specs) as Hs. unfold parse_hour_ranges.
  destruct (specs_loop hour_part specs ∅) as [s | e]; [naive_solver |]. split; [done |]. intros HF.
  apply Exists_exists in Hs as (p & Hp & Hn). rewrite Forall_forall in HF. specialize (HF p Hp). rewrite Hn in HF. by destruct HF.
Qed.

Definition session_well_formed (s : TradingSession) : Prop :=
  Forall (λ p, is_Some (day_endpoints p)) (all_parts (ts_days_of_week s)) /\
  Forall (λ p, is_Some (hour_endpoints p)) (all_parts (ts_hours_of_day s)).
Definition session_covers (weekday hour : Z) (s : TradingSession) : Prop :=
  on_day (ts_days_of_week s) weekday /\ in_hours (ts_hours_of_day s) hour.

Lemma in_session_true weekday hour sessions :
  CapitalMarkets.in_session weekday hour sessions = Ok true <->
  exists pre s post, sessions = pre ++ s :: post /\ Forall session_well_formed pre /\ session_covers weekday hour s.
Proof.
  unfold session_covers. setoid_rewrite <- parse_day_in_ranges. setoid_rewrite <- parse_hour_in_ranges.
  assert (Hwf : forall s, session_well_formed s <->
    is_ok (parse_day_ranges (ts_days_of_week s)) = true /\ is_ok (parse_hour_ranges (ts_hours_of_day s)) = true).
  { intros s. unfold session_well_formed. by rewrite <- parse_day_well_formed, <- parse_hour_well_formed. }
  induction sessions as [| s sessions IH]; cbn.
  { split; [done | by intros ([] & ? & ? & ? & _)]. }
  destruct (parse_day_ranges (ts_days_of_week s)) as [days | e] eqn:Hd; cbn [map_err result_bind]; cycle 1.
  { split; [done |]. intros (pre & s' & post & Hs & Hpre & (? & Hc & _) & _). destruct pre as [| p pre]; simplify_list_eq; [congruence |].
    apply Forall_cons in Hpre as [Hp _]. apply Hwf in Hp as [Hp _]. by rewrite Hd in Hp. }
  destruct (parse_hour_ranges (ts_hours_of_day s)) as [hours | e] eqn:Hh; cbn [map_err result_bind]; cycle 1.
  { split; [done |]. intros (pre & s' & post & Hs & Hpre & _ & ? & Hc & _). destruct pre as [| p pre]; simplify_list_eq; [congruence |].
    apply Forall_cons in Hpre as [Hp _]. apply Hwf in Hp as [_ Hp]. by rewrite Hh in Hp. }
  destruct (bool_decide (weekday ∈ days) && bool_decide (hour ∈ hours)) eqn:Hb.
  - apply andb_true_iff in Hb as [Hb1 Hb2]. rewrite !bool_decide_eq_true in *. split; [intros _ | done].
    exists [], s, sessions. naive_solver.
  - rewrite IH. split.
    + intros (pre & s' & post & -> & Hpre & Hc). exists (s :: pre), s', post. split_and!; try done; [| naive_solver..].
      constructor; [| done]. apply Hwf. by rewrite Hd, Hh.
    + intros (pre & s' & post & Hs & Hpre & Hc). destruct pre as [| p pre]; simplify_list_eq.
      * destruct Hc as ((d & Hd' & Hin) & (h & Hh' & Hin')). rewrite Hd in Hd'. rewrite Hh in Hh'. simplify_eq.
        by rewrite !bool_decide_true in Hb.
      * apply Forall_cons in Hpre as [_ Hpre]. exists pre, s', post. done.
Qed.

Lemma time_based_open `{TimeZones} spec t :
  TimeBased.is_active_at spec t = Ok true <->
  tb_enabled spec = true /\ exists tz, parse_tz (timezone spec) = Some tz /\
    on_day (days_of_week spec) (local_weekday tz t) /\ in_hours (hours_of_day spec) (local_hour tz t).
Proof.
  setoid_rewrite <- parse_day_in_ranges. setoid_rewrite <- parse_hour_in_ranges.
  unfold TimeBased.is_active_at, get_active_weekdays, get_active_hours, ok_or.
  destruct (tb_enabled spec); cbn [negb]; [| naive_solver].
  destruct (parse_tz (timezone spec)) as [tz |]; cbn [result_bind]; [| naive_solver].
  destruct (parse_day_ranges (days_of_week spec)) as [d |]; cbn [result_bind map_err]; [| naive_solver].
  destruct (parse_hour_ranges (hours_of_day spec)) as [h |]; cbn [result_bind map_err]; [| naive_solver].
  split.
  - intros [= Hb]. apply andb_true_iff in Hb as [Hd Hh]. apply bool_decide_eq_true in Hd, Hh. naive_solver.
  - intros (_ & tz' & [= <-] & (d' & [= <-] & Hd) & (h' & [= <-] & Hh)). by rewrite !bool_decide_true.
Qed.

Lemma find_b_first {A} (f : A -> bool) (l : list A) x :
  find_b f l = Some x <-> exists pre post, l = pre ++ x :: post /\ f x = true /\ Forall (λ y, f y = false) pre.
Proof.
  unfold find_b. induction l as [| y l IH]; cbn; [split; [done | by intros ([] & ? & ? & _)] |].
  destruct (f y) eqn:Hy.
  - split; [intros [= ->]; by exists [], l |]. intros (pre & post & Hl & Hx & Hp).
    destruct pre as [| p pre]; simplify_list_eq; [done |]. apply Forall_cons in Hp as [Hp _]. congruence.
  - rewrite IH. split.
    + intros (pre & post & -> & Hx & Hp). exists (y :: pre), post. split_and!; try done. by constructor.
    + intros (pre & post & Hl & Hx & Hp). destruct pre as [| p pre]; simplify_list_eq; [congruence |].
      apply Forall_cons in Hp as [_ Hp]. by exists pre, post.
Qed.

Lemma capital_markets_open `{TimeZones} spec t :
  CapitalMarkets.is_active_at spec t = Ok true <->
  exists tz, parse_tz (cm_timezone spec) = Some tz /\ local_date tz t ∉ cm_holidays spec /\
    (exists pre s post, cm_sessions spec = pre ++ s :: post /\ Forall session_well_formed pre /\
       session_covers (local_weekday tz t) (local_hour tz t) s) /\
    (forall pre ec post, cm_early_closes spec = pre ++ ec :: post -> ec_date ec = local_date tz t ->
       Forall (λ ec', ec_date ec' <> local_date tz t) pre -> (local_hour tz t <= ec_close_hour ec)%Z).
Proof.
  setoid_rewrite <- in_session_true. unfold CapitalMarkets.is_active_at, ok_or.
  destruct (parse_tz (cm_timezone spec)) as [tz |]; cbn [result_bind]; [| naive_solver].
  set (date := local_date tz t).
  case_bool_decide as Hday; [split; [done | intros (tz' & [= <-] & Hn & _); by destruct Hn] |].
  assert (Hfirst : forall ec pre post, cm_early_closes spec = pre ++ ec :: post -> ec_date ec = date ->
            Forall (λ ec', ec_date ec' <> date) pre ->
            find_b (λ ec, bool_decide (ec_date ec = date)) (cm_early_closes spec) = Some ec).
  { intros ec pre post He Hd Hp. apply find_b_first. exists pre, post. split_and!; [done | by apply bool_decide_eq_true |].
    eapply Forall_impl; [exact Hp |]. intros x Hx. by apply bool_decide_eq_false. }
  split.
  - intros Ha. exists tz. split; [done |]. split; [done |].
    destruct (CapitalMarkets.in_session _ _ _) as [[] | e]; [| done | done]. split; [done |]. cbn in Ha.
    intros pre ec post He Hd Hp. rewrite (Hfirst ec pre post He Hd Hp) in Ha. injection Ha as Ha.
    apply negb_true_iff, bool_decide_eq_false in Ha. lia.
  - intros (tz' & [= <-] & _ & Hin & Hec). rewrite Hin. cbn [result_bind negb].
    destruct (find_b _ _) as [ec |] eqn:Hf; [| done]. apply find_b_first in Hf as (pre & post & He & Hd & Hp).
    apply bool_decide_eq_true in Hd. f_equal. apply negb_true_iff, bool_decide_eq_false.
    assert (local_hour tz t <= ec_close_hour ec)%Z; [| lia]. apply (Hec pre ec post He Hd).
    eapply Forall_impl; [exact Hp |]. intros x Hx. by apply bool_decide_eq_false in Hx.
Qed.

(** When a schedule is open.  A time-based schedule is active exactly when
    it is enabled, its time zone is known, and the local weekday and hour lie in
    its day and hour ranges.  A capital-markets schedule is active exactly when
    its time zone is known, the local date is no holiday, some session covers
    the local weekday and hour with all sessions before it well formed, and the
    first early close listed for the date, if any, is not past. *)
Theorem provider_windows `{TimeZones} t :
  (forall spec, TimeBased.is_active_at spec t = Ok true <->
     tb_enabled spec = true /\ exists tz, parse_tz (timezone spec) = Some tz /\
       on_day (days_of_week spec) (local_weekday tz t) /\ in_hours (hours_of_day spec) (local_hour tz t)) /\
  (forall spec, CapitalMarkets.is_active_at spec t = Ok true <->
     exists tz, parse_tz (cm_timezone spec) = Some tz /\ local_date tz t ∉ cm_holidays spec /\
       (exists pre s post, cm_sessions spec = pre ++ s :: post /\ Forall session_well_formed pre /\
          session_covers (local_weekday tz t) (local_hour tz t) s) /\
       (forall pre ec post, cm_early_closes spec = pre ++ ec :: post -> ec_date ec = local_date tz t ->
          Forall (λ ec', ec_date ec' <> local_date tz t) pre -> (local_hour tz t <= ec_close_hour ec)%Z)).
Proof.
  split; intros spec; [by apply time_based_open | by apply capital_markets_open].
Qed.

(** ** Evaluation *)

Definition utc_only : TimeZones := {|
  Tz := unit;
  parse_tz := λ s, if bool_decide (s = "UTC") then Some tt else None;
  local_weekday := λ _ t, (t / (24 * HOUR) + 3) mod 7;
  local_hour := λ _ t, (t / HOUR) mod 24;
  local_date := λ _ t, pretty (t / (24 * HOUR));
|}%Z.

(** Nights on weekdays: Thursday 1 January 1970, 21:30, is outside, and the
    window opens half an hour later. *)
Example nights_open :
  let spec := {| days_of_week := ["mon-fri"]; hours_of_day := ["22-5"]; timezone := "UTC"; tb_enabled := true |} in
  let at_2130 := (21 * HOUR + HOUR / 2)%Z in
  TimeBased.is_active_at (H := utc_only) spec at_2130 = Ok false /\
  next_transition (TimeBased.is_active_at (H := utc_only) spec) at_2130 = Ok (Some (22 * HOUR)%Z).
Proof. vm_compute. done. Qed.
