(* ===== verification/Netlink.v ===== *)
(** The wire format of the kernel's process events ([src/netlink_proc.rs]): the
    parsers of [cn_msg] and [proc_event] frames, the frame that subscribes, and
    what the subscriber makes of one datagram.

    Slicing out of bounds panics in Rust; here it is [None], so that an
    outermost [None] of a parser is a panic.  The socket calls are I/O. *)

From S2P Require Import Prelude RustStr.

Definition CN_IDX_PROC : Z := 1.
Definition CN_VAL_PROC : Z := 1.
Definition PROC_EVENT_EXEC_RAW : Z := 2.
Definition PROC_CN_MCAST_LISTEN : Z := 1.
Definition CN_MSG_HEADER_LEN : nat := 20.
Definition PROC_EVENT_HEADER_LEN : nat := 16.
Definition PROC_EVENT_EXEC_PAYLOAD_LEN : nat := 8.
Definition NLMSGHDR_LEN : nat := 16.
Definition NLMSG_DONE : Z := 3.

Inductive ProcEvent : Type :=
| Exec (pid tgid : Z)
| Other (what : Z).

Inductive NetlinkError : Type :=
| Truncated (expected actual : nat)
| InvalidId (idx val : Z).

(** ** Bytes *)

(** [&bytes[a..b]]. *)
Definition slice (a b : nat) (bytes : list ascii) : option (list ascii) :=
  if bool_decide (a <= b /\ b <= List.length bytes) then Some (take (b - a) (drop a bytes)) else None.

(** [from_le_bytes] and [to_le_bytes]. *)
Definition from_le_bytes (l : list ascii) : Z := foldr (λ a acc, byte_of a + 256 * acc)%Z 0%Z l.
Fixpoint to_le_bytes (n : nat) (z : Z) : list ascii :=
  match n with
  | 0 => []
  | S n => ascii_of_N (Z.to_N (z mod 256)) :: to_le_bytes n (z / 256)
  end.

(** [uN::from_le_bytes(bytes[a..b].try_into().unwrap())]: the slice has the
    width of the integer. *)
Definition read_le (width a b : nat) (bytes : list ascii) : option Z :=
  s ← slice a b bytes; if bool_decide (List.length s = width) then Some (from_le_bytes s) else None.

(** [frame[a..b].copy_from_slice(v)] on a slice of the List.length of [v]. *)
Definition write_at (a b : nat) (v frame : list ascii) : option (list ascii) :=
  if bool_decide (a <= b /\ b <= List.length frame /\ List.length v = b - a) then Some (take a frame ++ v ++ drop b frame) else None.

(** ** The parsers *)

Definition parse_cn_msg (bytes : list ascii) : option (result (list ascii) NetlinkError) :=
  if bool_decide (List.length bytes < CN_MSG_HEADER_LEN) then Some (Err (Truncated CN_MSG_HEADER_LEN (List.length bytes)))
  else
    idx ← read_le 4 0 4 bytes;
    val ← read_le 4 4 8 bytes;
    if bool_decide (idx <> CN_IDX_PROC \/ val <> CN_VAL_PROC) then Some (Err (InvalidId idx val))
    else
      len ← read_le 2 16 18 bytes;
      let needed := CN_MSG_HEADER_LEN + Z.to_nat len in
      if bool_decide (List.length bytes < needed) then Some (Err (Truncated needed (List.length bytes)))
      else payload ← slice CN_MSG_HEADER_LEN needed bytes; Some (Ok payload).

Definition parse_proc_event (bytes : list ascii) : option (result ProcEvent NetlinkError) :=
  if bool_decide (List.length bytes < PROC_EVENT_HEADER_LEN) then Some (Err (Truncated PROC_EVENT_HEADER_LEN (List.length bytes)))
  else
    what ← read_le 4 0 4 bytes;
    if bool_decide (what <> PROC_EVENT_EXEC_RAW) then Some (Ok (Other what))
    else
      let exec_end := PROC_EVENT_HEADER_LEN + PROC_EVENT_EXEC_PAYLOAD_LEN in
      if bool_decide (List.length bytes < exec_end) then Some (Err (Truncated exec_end (List.length bytes)))
      else
        pid ← read_le 4 PROC_EVENT_HEADER_LEN (PROC_EVENT_HEADER_LEN + 4) bytes;
        tgid ← read_le 4 (PROC_EVENT_HEADER_LEN + 4) exec_end bytes;
        Some (Ok (Exec pid tgid)).

(** ** The subscriber *)

(** [next_event] on the bytes one [recv] returned. *)
Definition next_event (datagram : list ascii) : option (option ProcEvent) :=
  if bool_decide (List.length datagram < NLMSGHDR_LEN) then Some None
  else
    cn_bytes ← slice NLMSGHDR_LEN (List.length datagram) datagram;
    payload ← parse_cn_msg cn_bytes;
    match payload with
    | Err _ => Some None
    | Ok p => evt ← parse_proc_event p; match evt with Ok evt => Some (Some evt) | Err _ => Some None end
    end.

(** The control message [Subscriber::new] sends. *)
Definition subscribe_frame : option (list ascii) :=
  let frame := replicate (NLMSGHDR_LEN + 20 + 4) (ascii_of_N 0) in
  let total_len := Z.of_nat (List.length frame) in
  frame ← write_at 0 4 (to_le_bytes 4 total_len) frame;
  frame ← write_at 4 6 (to_le_bytes 2 NLMSG_DONE) frame;
  frame ← write_at NLMSGHDR_LEN (NLMSGHDR_LEN + 4) (to_le_bytes 4 CN_IDX_PROC) frame;
  frame ← write_at (NLMSGHDR_LEN + 4) (NLMSGHDR_LEN + 8) (to_le_bytes 4 CN_VAL_PROC) frame;
  frame ← write_at (NLMSGHDR_LEN + 16) (NLMSGHDR_LEN + 18) (to_le_bytes 2 4) frame;
  write_at (NLMSGHDR_LEN + 20) (NLMSGHDR_LEN + 24) (to_le_bytes 4 PROC_CN_MCAST_LISTEN) frame.

(** ** Little-endian integers *)

Lemma byte_of_range a : (0 <= byte_of a < 256)%Z.
Proof. unfold byte_of, nat_of_ascii. pose proof (N_ascii_bounded a). lia. Qed.

Lemma byte_of_ascii z : (0 <= z < 256)%Z -> byte_of (ascii_of_N (Z.to_N z)) = z.
Proof.
  intros Hz. unfold byte_of, nat_of_ascii. rewrite N_ascii_embedding by lia. rewrite N_nat_Z. lia.
Qed.

Lemma ascii_of_byte a : ascii_of_N (Z.to_N (byte_of a)) = a.
Proof. unfold byte_of, nat_of_ascii. rewrite N_nat_Z, N2Z.id. apply ascii_N_embedding. Qed.

Lemma to_le_bytes_length n z : List.length (to_le_bytes n z) = n.
Proof. revert z. induction n as [| n IH]; intros z; cbn; [done | by rewrite IH]. Qed.

Lemma from_le_bytes_range l : (0 <= from_le_bytes l < 256 ^ Z.of_nat (List.length l))%Z.
Proof.
  induction l as [| a l IH]; [done |]. pose proof (byte_of_range a). cbn [List.length].
  change (from_le_bytes (a :: l)) with (byte_of a + 256 * from_le_bytes l)%Z.
  rewrite Nat2Z.inj_succ, Z.pow_succ_r by lia. lia.
Qed.

Lemma from_to_le_bytes n z : (0 <= z < 256 ^ Z.of_nat n)%Z -> from_le_bytes (to_le_bytes n z) = z.
Proof.
  revert z. induction n as [| n IH]; intros z Hz; [cbn in *; lia |]. cbn [to_le_bytes].
  match goal with |- from_le_bytes (?a :: ?l) = _ => change (from_le_bytes (a :: l)) with (byte_of a + 256 * from_le_bytes l)%Z end.
  rewrite Nat2Z.inj_succ, Z.pow_succ_r in Hz by lia.
  rewrite byte_of_ascii by (apply Z.mod_pos_bound; lia).
  rewrite IH by (split; [apply Z.div_pos; lia | apply Z.div_lt_upper_bound; lia]).
  pose proof (Z.div_mod z 256 ltac:(lia)). lia.
Qed.

Lemma to_from_le_bytes l : to_le_bytes (List.length l) (from_le_bytes l) = l.
Proof.
  induction l as [| a l IH]; [done |]. pose proof (byte_of_range a). cbn [List.length to_le_bytes].
  change (from_le_bytes (a :: l)) with (byte_of a + 256 * from_le_bytes l)%Z.
  replace ((byte_of a + 256 * from_le_bytes l) mod 256)%Z with (byte_of a)
    by (symmetry; rewrite Z.mul_comm, Z.mod_add by lia; by apply Z.mod_small).
  replace ((byte_of a + 256 * from_le_bytes l) / 256)%Z with (from_le_bytes l)
    by (rewrite Z.mul_comm, Z.div_add by lia; rewrite Z.div_small by done; lia).
  by rewrite ascii_of_byte, IH.
Qed.

Lemma to_from_le_bytes_n n l : List.length l = n -> to_le_bytes n (from_le_bytes l) = l.
Proof. intros <-. apply to_from_le_bytes. Qed.

(** ** Slices *)

Lemma slice_eq a b bytes pre s post :
  bytes = pre ++ s ++ post -> List.length pre = a -> a + List.length s = b -> slice a b bytes = Some s.
Proof.
  intros -> <- <-. unfold slice. rewrite bool_decide_true by (rewrite !length_app; lia).
  rewrite drop_app_length. f_equal. replace (_ - _) with (List.length s) by lia. apply take_app_length.
Qed.

Lemma read_le_eq w a b bytes pre s post :
  bytes = pre ++ s ++ post -> List.length pre = a -> List.length s = w -> a + w = b ->
  read_le w a b bytes = Some (from_le_bytes s).
Proof.
  intros Hb Ha Hs Hw. unfold read_le. rewrite (slice_eq a b bytes pre s post) by (done || lia). cbn.
  by rewrite bool_decide_true.
Qed.

Lemma split_bytes n (l : list ascii) : n <= List.length l -> exists a b, l = a ++ b /\ List.length a = n.
Proof. intros Hn. exists (take n l), (drop n l). rewrite take_drop, length_take. split; [done | lia]. Qed.

(** Cut [l], at least [n] long, and name the pieces. *)
Ltac cut_bytes l n a b :=
  let Hl := fresh "Hl" in
  destruct (split_bytes n l) as (a & b & -> & Hl); [rewrite ?length_app in *; lia |].
Ltac app_eq := by rewrite <- ?app_assoc.
Ltac lens := rewrite ?length_app, ?to_le_bytes_length in *; lia.

(** ** The grammars *)

(** A connector message of the process-event subsystem with its payload. *)
Definition cn_frame (payload bytes : list ascii) : Prop :=
  exists seq_ack flags rest, List.length seq_ack = 8 /\ List.length flags = 2 /\
    (Z.of_nat (List.length payload) < 65536)%Z /\
    bytes = to_le_bytes 4 CN_IDX_PROC ++ to_le_bytes 4 CN_VAL_PROC ++ seq_ack ++
            to_le_bytes 2 (Z.of_nat (List.length payload)) ++ flags ++ payload ++ rest.

(** An [exec] event. *)
Definition exec_event (pid tgid : Z) (bytes : list ascii) : Prop :=
  (0 <= pid < 2 ^ 32)%Z /\ (0 <= tgid < 2 ^ 32)%Z /\
  exists cpu_time rest, List.length cpu_time = 12 /\
    bytes = to_le_bytes 4 PROC_EVENT_EXEC_RAW ++ cpu_time ++ to_le_bytes 4 pid ++ to_le_bytes 4 tgid ++ rest.

Lemma parse_cn_msg_cases bytes :
  exists r, parse_cn_msg bytes = Some r /\ forall payload, r = Ok payload <-> cn_frame payload bytes.
Proof.
  unfold parse_cn_msg, CN_MSG_HEADER_LEN. case_bool_decide as Hlen.
  { eexists. split; [done |]. intros payload. split; [done |]. intros (sa & fl & rest & H1 & H2 & H3 & ->). lens. }
  cut_bytes bytes 4 i b1. cut_bytes b1 4 v b2. cut_bytes b2 8 sa b3. cut_bytes b3 2 ln b4. cut_bytes b4 2 fl body.
  rewrite (read_le_eq 4 0 4 _ [] i (v ++ sa ++ ln ++ fl ++ body)) by (done || app_eq).
  rewrite (read_le_eq 4 4 8 _ i v (sa ++ ln ++ fl ++ body)) by (done || app_eq).
  rewrite (read_le_eq 2 16 18 _ (i ++ v ++ sa) ln (fl ++ body)) by (app_eq || lens). cbn [mbind option_bind].
  assert (Hgram : forall payload, cn_frame payload (i ++ v ++ sa ++ ln ++ fl ++ body) ->
            from_le_bytes i = CN_IDX_PROC /\ from_le_bytes v = CN_VAL_PROC /\
            from_le_bytes ln = Z.of_nat (List.length payload) /\ exists rest, body = payload ++ rest).
  { intros payload (sa' & fl' & rest & H1 & H2 & H3 & Heq).
    apply app_inj_1 in Heq as [-> Heq]; [| lens]. apply app_inj_1 in Heq as [-> Heq]; [| lens].
    apply app_inj_1 in Heq as [-> Heq]; [| lens]. apply app_inj_1 in Heq as [-> Heq]; [| lens].
    apply app_inj_1 in Heq as [-> Heq]; [| lens]. split_and!; [done | done | | by exists rest].
    apply from_to_le_bytes. cbn. lia. }
  case_bool_decide as Hid.
  { eexists. split; [done |]. intros payload. split; [done |]. intros (Hi & Hv & _)%Hgram. naive_solver. }
  assert (from_le_bytes i = CN_IDX_PROC /\ from_le_bytes v = CN_VAL_PROC) as [Hi Hv].
  { destruct (decide (from_le_bytes i = CN_IDX_PROC)), (decide (from_le_bytes v = CN_VAL_PROC)); naive_solver. }
  pose proof (from_le_bytes_range ln) as Hln. rewrite Hl2 in Hln. cbn in Hln.
  case_bool_decide as Hneed.
  { eexists. split; [done |]. intros payload. split; [done |]. intros (_ & _ & Hp & rest & ->)%Hgram. lens. }
  cut_bytes body (Z.to_nat (from_le_bytes ln)) payload rest.
  rewrite (slice_eq 20 _ _ (i ++ v ++ sa ++ ln ++ fl) payload rest) by (app_eq || lens). cbn.
  eexists. split; [done |]. intros payload'. split.
  - intros [= <-]. exists sa, fl, rest. split_and!; try lens.
    rewrite <- Hi, <- Hv. replace (Z.of_nat (List.length payload)) with (from_le_bytes ln) by lia.
    by rewrite !to_from_le_bytes_n by done.
  - intros (_ & _ & Hp & rest' & Heq)%Hgram. apply app_inj_1 in Heq as [-> _]; [done | lia].
Qed.

Lemma parse_proc_event_cases bytes :
  exists r, parse_proc_event bytes = Some r /\ forall pid tgid, r = Ok (Exec pid tgid) <-> exec_event pid tgid bytes.
Proof.
  unfold parse_proc_event, PROC_EVENT_HEADER_LEN, PROC_EVENT_EXEC_PAYLOAD_LEN. case_bool_decide as Hlen.
  { eexists. split; [done |]. intros pid tgid. split; [done |]. intros (_ & _ & ct & rest & H1 & ->). lens. }
  cut_bytes bytes 4 w b1. cut_bytes b1 12 ct body.
  rewrite (read_le_eq 4 0 4 _ [] w (ct ++ body)) by (done || app_eq). cbn [mbind option_bind].
  assert (Hgram : forall pid tgid, exec_event pid tgid (w ++ ct ++ body) ->
            from_le_bytes w = PROC_EVENT_EXEC_RAW /\ (0 <= pid < 2 ^ 32)%Z /\ (0 <= tgid < 2 ^ 32)%Z /\
            exists rest, body = to_le_bytes 4 pid ++ to_le_bytes 4 tgid ++ rest).
  { intros pid tgid (Hp & Ht & ct' & rest & H1 & Heq). apply app_inj_1 in Heq as [-> Heq]; [| lens].
    apply app_inj_1 in Heq as [-> Heq]; [| lens]. split_and!; try done; try lia. by exists rest. }
  case_bool_decide as Hw.
  { eexists. split; [done |]. intros pid tgid. split; [done |]. intros (Hw' & _)%Hgram. done. }
  assert (from_le_bytes w = PROC_EVENT_EXEC_RAW) as Hw' by (by destruct (decide (from_le_bytes w = PROC_EVENT_EXEC_RAW))).
  case_bool_decide as Hend.
  { eexists. split; [done |]. intros pid tgid. split; [done |]. intros (_ & _ & _ & rest & ->)%Hgram. lens. }
  cut_bytes body 4 p b2. cut_bytes b2 4 g rest.
  rewrite (read_le_eq 4 16 _ _ (w ++ ct) p (g ++ rest)) by (app_eq || lens). cbn [mbind option_bind].
  rewrite (read_le_eq 4 _ _ _ (w ++ ct ++ p) g rest) by (app_eq || lens). cbn [mbind option_bind].
  eexists. split; [done |]. intros pid tgid.
  pose proof (from_le_bytes_range p) as Hp. pose proof (from_le_bytes_range g) as Hg. rewrite Hl1 in Hp. rewrite Hl2 in Hg. split.
  - intros [= <- <-]. split; [exact Hp |]. split; [exact Hg |]. exists ct, rest. split; [done |].
    rewrite <- Hw'. by rewrite !to_from_le_bytes_n by done.
  - intros (_ & Hpr & Htr & rest' & Heq)%Hgram. apply app_inj_1 in Heq as [-> Heq]; [| lens].
    apply app_inj_1 in Heq as [-> _]; [| lens]. by rewrite !from_to_le_bytes.
Qed.

Lemma next_event_cases bytes :
  exists r, next_event bytes = Some r /\ forall pid tgid, r = Some (Exec pid tgid) <->
    exists nlmsghdr frame payload, bytes = nlmsghdr ++ frame /\ List.length nlmsghdr = 16 /\
      cn_frame payload frame /\ exec_event pid tgid payload.
Proof.
  unfold next_event, NLMSGHDR_LEN. case_bool_decide as Hlen.
  { eexists. split; [done |]. intros pid tgid. split; [done |]. intros (h & f & p & -> & Hh & _). lens. }
  cut_bytes bytes 16 h f. rewrite (slice_eq 16 _ _ h f []) by (by rewrite ?app_nil_r || lens). cbn [mbind option_bind].
  assert (Hsplit : forall h' f', h ++ f = h' ++ f' -> List.length h' = 16 -> f = f').
  { intros h' f' Heq Hh. apply app_inj_1 in Heq as [_ ->]; [done | lia]. }
  destruct (parse_cn_msg_cases f) as (r & -> & Hr). cbn [mbind option_bind]. destruct r as [payload | e].
  - pose proof (proj1 (Hr payload) eq_refl) as Hf.
    destruct (parse_proc_event_cases payload) as (r' & -> & Hr'). cbn [mbind option_bind].
    exists (match r' with Ok evt => Some evt | Err _ => None end). split; [by destruct r' |]. intros pid tgid. split.
    + intros He. exists h, f, payload. split_and!; try done. apply Hr'. destruct r'; naive_solver.
    + intros (h' & f' & p' & Heq & Hh & Hf' & He). apply Hsplit in Heq as <-; [| done].
      apply Hr in Hf' as [= <-]. apply Hr' in He. by subst r'.
  - exists None. split; [done |]. intros pid tgid. split; [done |]. intros (h' & f' & p' & Heq & Hh & Hf' & _).
    apply Hsplit in Heq as <-; [| done]. by apply Hr in Hf'.
Qed.

(** C40: the kernel's frames: on any bytes whatever, neither parser nor
    [next_event] slices out of bounds; [parse_cn_msg] returns a payload exactly
    for the frames of the process-event subsystem that carry it (what follows
    it is ignored); [next_event] reports an exec with its pid and thread group
    exactly for a datagram that carries that event; and the message sent to
    subscribe is itself such a frame, of its declared length. *)
Theorem netlink_frames bytes :
  (exists r, parse_cn_msg bytes = Some r /\ forall payload, r = Ok payload <-> cn_frame payload bytes) /\
  (exists r, parse_proc_event bytes = Some r /\ forall pid tgid, r = Ok (Exec pid tgid) <-> exec_event pid tgid bytes) /\
  (exists r, next_event bytes = Some r /\ forall pid tgid, r = Some (Exec pid tgid) <->
     exists nlmsghdr frame payload, bytes = nlmsghdr ++ frame /\ List.length nlmsghdr = 16 /\
       cn_frame payload frame /\ exec_event pid tgid payload) /\
  (exists nlmsghdr frame, subscribe_frame = Some (nlmsghdr ++ frame) /\ List.length nlmsghdr = 16 /\
     from_le_bytes (take 4 nlmsghdr) = Z.of_nat (List.length (nlmsghdr ++ frame)) /\
     cn_frame (to_le_bytes 4 PROC_CN_MCAST_LISTEN) frame).
Proof.
  split_and!; [apply parse_cn_msg_cases | apply parse_proc_event_cases | apply next_event_cases |].
  eexists (take 16 (default [] subscribe_frame)), (drop 16 (default [] subscribe_frame)). rewrite take_drop.
  split_and!; try (vm_compute; reflexivity).
  exists (replicate 8 (ascii_of_N 0)), (replicate 2 (ascii_of_N 0)), []. split_and!; vm_compute; reflexivity.
Qed.
