(* ===== verification/NetlinkSocket.v ===== *)
(** The socket side of the process events ([Subscriber] of
    [src/netlink_proc.rs]): opening the socket, who closes it, and the receive
    buffer that every event is read from. *)

From S2P Require Import Prelude RustStr Effects Netlink.

Definition RECV_BUF_LEN : nat := 4096.
Definition AF_NETLINK : Z := 16.
Definition SOCK_DGRAM_CLOEXEC : Z := Z.lor 2 524288.
Definition NETLINK_CONNECTOR : Z := 11.

(** [socket(2)] and [errno] as the two [unsafe] blocks use them; the safe
    wrappers of the others.  [CloseFd] is the drop of an [OwnedFd]. *)
Inductive sock_call : Type :=
| Socket (domain type protocol : Z)
| LastOsError
| Bind (fd pid groups : Z)
| Send (fd : Z) (frame : list ascii)
| Recv (fd : Z) (len : nat)
| CloseFd (fd : Z).
Definition sock_reply (c : sock_call) : Type :=
  match c with
  | Socket _ _ _ | LastOsError => Z
  | Bind _ _ _ => result unit Z
  | Send _ _ => result nat Z
  | Recv _ _ => result (list ascii) Z
  | CloseFd _ => unit
  end%type.
#[local] Notation P := (prog sock_reply).

Definition raw_socket : P Z := call (Socket AF_NETLINK SOCK_DGRAM_CLOEXEC NETLINK_CONNECTOR).
Definition last_os_error : P Z := call LastOsError.
Definition bind_socket fd pid groups : P (result unit Z) := call (Bind fd pid groups).
Definition send_frame fd f : P (result nat Z) := call (Send fd f).
Definition recv fd len : P (result (list ascii) Z) := call (Recv fd len).
Definition close_fd fd : P unit := call (CloseFd fd).

Inductive SocketError : Type := Io (errno : Z) | Unsupported.
Record Subscriber : Type := { sub_fd : Z; sub_buf : list ascii }.

(** On another system than Linux the constructor refuses. [None]: a panic. *)
Definition Subscriber_new (linux : bool) : P (option (result Subscriber SocketError)) :=
  if negb linux then Ret (Some (Err Unsupported))
  else
    raw_fd <- raw_socket ;;
    if bool_decide (raw_fd < 0)%Z then errno <- last_os_error ;; Ret (Some (Err (Io errno)))
    else
      bound <- bind_socket raw_fd 0 CN_IDX_PROC ;;
      match bound with
      | Err e => close_fd raw_fd ;;; Ret (Some (Err (Io e)))
      | Ok _ =>
          match subscribe_frame with
          | None => close_fd raw_fd ;;; Ret None
          | Some frame =>
              sent <- send_frame raw_fd frame ;;
              match sent with
              | Err e => close_fd raw_fd ;;; Ret (Some (Err (Io e)))
              | Ok _ => Ret (Some (Ok {| sub_fd := raw_fd; sub_buf := replicate RECV_BUF_LEN (ascii_of_N 0) |}))
              end
          end
      end.

(** What the kernel leaves in the buffer: a datagram that does not fit is cut,
    the rest of the buffer stays. *)
Definition received (datagram buf : list ascii) : nat * list ascii :=
  let d := take (List.length buf) datagram in (List.length d, d ++ drop (List.length d) buf).

(** The body of [next_event] after [recv], on the buffer and the count. *)
Definition read_event (n : nat) (buf : list ascii) : option (option ProcEvent) :=
  if bool_decide (n < NLMSGHDR_LEN) then Some None
  else
    cn_bytes ← slice NLMSGHDR_LEN n buf;
    payload ← parse_cn_msg cn_bytes;
    match payload with
    | Err _ => Some None
    | Ok p => evt ← parse_proc_event p; match evt with Ok evt => Some (Some evt) | Err _ => Some None end
    end.

Definition Subscriber_next_event (s : Subscriber) : P (option (result (option ProcEvent) SocketError) * Subscriber) :=
  r <- recv (sub_fd s) RECV_BUF_LEN ;;
  match r with
  | Err e => Ret (Some (Err (Io e)), s)
  | Ok datagram =>
      let '(n, buf) := received datagram (sub_buf s) in
      Ret (Ok <$> read_event n buf, {| sub_fd := sub_fd s; sub_buf := buf |})
  end.

(** ** The buffer *)

Lemma received_length d buf : List.length (received d buf).2 = List.length buf.
Proof. unfold received. cbn [snd]. rewrite length_app, length_drop, length_take. lia. Qed.

(** Nothing of an earlier datagram is read. *)
Lemma read_event_fresh d buf :
  read_event (received d buf).1 (received d buf).2 = next_event (take (List.length buf) d).
Proof.
  unfold received, read_event, next_event. cbn [fst snd]. set (d' := take _ d). case_bool_decide; [done |].
  assert (Hs : slice NLMSGHDR_LEN (List.length d') (d' ++ drop (List.length d') buf) = slice NLMSGHDR_LEN (List.length d') d').
  { unfold slice, NLMSGHDR_LEN in *. rewrite !bool_decide_true by (rewrite ?length_app; lia). f_equal.
    rewrite drop_app_le by lia. apply take_app_le. rewrite length_drop. lia. }
  by rewrite Hs.
Qed.

(** A subscriber between two events. *)
Definition subscribed (s : Subscriber) : Prop := (0 <= sub_fd s)%Z /\ List.length (sub_buf s) = RECV_BUF_LEN.

(** The subscriber: it opens one socket, joins the process-event group and asks
    for the events, and keeps the socket; on a failure at any step the socket
    it has opened is closed, once, by its last call.  Every event it reports
    afterwards, in whatever order datagrams and errors come, is read from the
    datagram just received, cut at 4096 bytes, whatever the earlier ones have
    left in the buffer; no datagram makes it panic, and an error leaves it
    ready for the next. *)
Theorem subscriber_sound :
  (forall t o, exec (Subscriber_new true) t o ->
     (exists s, o = Some (Ok s) /\ subscribed s /\ exists frame n,
        subscribe_frame = Some frame /\
        t = [Ev (Socket AF_NETLINK SOCK_DGRAM_CLOEXEC NETLINK_CONNECTOR) (sub_fd s);
             Ev (Bind (sub_fd s) 0 CN_IDX_PROC) (Ok tt); Ev (Send (sub_fd s) frame) (Ok n)]) \/
     (exists errno, o = Some (Err (Io errno)) /\
        ((exists fd, t = [Ev (Socket AF_NETLINK SOCK_DGRAM_CLOEXEC NETLINK_CONNECTOR) fd; Ev LastOsError errno] /\ (fd < 0)%Z) \/
         (exists fd t', t = Ev (Socket AF_NETLINK SOCK_DGRAM_CLOEXEC NETLINK_CONNECTOR) fd :: t' ++ [Ev (CloseFd fd) tt] /\
            (0 <= fd)%Z /\ Forall (λ e, match ev_call e with CloseFd _ | Socket _ _ _ => False | _ => True end) t')))) /\
  (forall s t o s', subscribed s -> exec (Subscriber_next_event s) t (o, s') ->
     subscribed s' /\ sub_fd s' = sub_fd s /\
     exists r, t = [Ev (Recv (sub_fd s) RECV_BUF_LEN) r] /\
       match r with
       | Err e => o = Some (Err (Io e)) /\ s' = s
       | Ok datagram => exists ev, o = Some (Ok ev) /\ next_event (take RECV_BUF_LEN datagram) = Some ev
       end).
Proof.
  split.
  - intros t o He. cbn [Subscriber_new negb] in He. destruct He as (fd & t1 & -> & He). cbn [bind] in He.
    case_bool_decide as Hfd.
    { destruct He as (e & t2 & -> & -> & ->). right. exists e. split; [done |]. left. by exists fd. }
    destruct He as ([u | e] & t2 & -> & He); [destruct u |]; cbn [bind] in He.
    2: { destruct He as ([] & t3 & -> & -> & ->). right. exists e. split; [done |]. right.
         exists fd, [Ev (Bind fd 0 CN_IDX_PROC) (Err e)]. split_and!; [done | lia | by repeat constructor]. }
    destruct subscribe_frame as [frame |] eqn:Hf; [| by vm_compute in Hf].
    destruct He as ([n | e] & t3 & -> & He).
    + destruct He as [-> ->]. left. eexists. split; [done |]. split; [split; [cbn; lia | apply length_replicate] |].
      by exists frame, n.
    + destruct He as ([] & t4 & -> & -> & ->). right. exists e. split; [done |]. right.
      exists fd, [Ev (Bind fd 0 CN_IDX_PROC) (Ok tt); Ev (Send fd frame) (Err e)].
      split_and!; [done | lia | by repeat constructor].
  - intros s t o s' [Hfd Hb] ([datagram | e] & t1 & -> & He).
    + pose proof (received_length datagram (sub_buf s)) as Hl. pose proof (read_event_fresh datagram (sub_buf s)) as Hr.
      destruct He as [-> [= -> ->]].
      split; [split; [done | exact (eq_trans Hl Hb)] |]. split; [done |]. eexists. split; [done |].
      destruct (next_event_cases (take RECV_BUF_LEN datagram)) as (ev & Hev & _). exists ev.
      rewrite <- Hb, <- Hr in Hev. split; [| by rewrite <- Hb, <- Hr].
      change (Ok <$> read_event (received datagram (sub_buf s)).1 (received datagram (sub_buf s)).2 = Some (Ok (E := SocketError) ev)).
      by rewrite Hev.
    + destruct He as [-> [= -> ->]]. split; [done |]. split; [done |]. by eexists.
Qed.
