(* ===== verification/ReclaimAgent.v ===== *)
(** The reclaim agent ([src/reclaim_agent.rs] and the decisions of
    [src/bin/reclaim_agent.rs]): its configuration, process matching, the
    annotation that asks the controller for a reclaim, and the check that the
    node is its own.

    The [/proc] file system is an argument: the directory listing and, per
    process, the two files the agent reads, [None] for a failed read. *)

From S2P Require Import Prelude RustStr Effects Constants Json Crd Externals KubeApi Emergency Provision.

(** ** Configuration *)

Record Config : Type := {
  match_commands : list string;
  match_argv_substrings : list string;
  poll_interval_ms : Z;
}.

Definition default_poll_interval_ms : Z := DEFAULT_POLL_INTERVAL_MS.

Inductive ConfigError : Type :=
| Parse (e : string)
| Invalid (s : string).

(** [toml::from_str] at [Config], with its [serde] defaults. *)
Class TomlConfig : Type := toml_to_config : string -> result Config string.

Section config.
Context `{TomlConfig}.

Definition parse_config (input : string) : result Config ConfigError :=
  let? config := map_err Parse (toml_to_config input) in
  if bool_decide (poll_interval_ms config = 0%Z) then Err (Invalid "poll_interval_ms must be > 0") else Ok config.

(** On what [read_to_string] made of the file. *)
Definition load_config (shown_path : string) (contents : result string string) : result Config ConfigError :=
  let? contents := map_err (λ e, Invalid ("cannot read config " +:+ shown_path +:+ ": " +:+ e)) contents in
  parse_config contents.

(** [data] absent or without the key idles the agent. *)
Definition configmap_to_config (data : option (gmap string string)) : result (option Config) ConfigError :=
  match data with
  | None => Ok None
  | Some data =>
      match data !! RECLAIM_CONFIG_DATA_KEY with
      | None => Ok None
      | Some toml_body => let? c := parse_config toml_body in Ok (Some c)
      end
  end.

(** ** The watch channel *)

Inductive cm_event : Type :=
| Apply (data : option (gmap string string))
| InitApply (data : option (gmap string string))
| Delete
| Init
| InitDone.

(** A malformed configuration keeps the previous one. *)
Definition push_parsed (data : option (gmap string string)) (current : option Config) : option Config :=
  match configmap_to_config data with
  | Ok (Some cfg) => Some cfg
  | Ok None => None
  | Err _ => current
  end.

Definition apply_event (event : cm_event) (current : option Config) : option Config :=
  match event with
  | Apply data | InitApply data => push_parsed data current
  | Delete => None
  | Init | InitDone => current
  end.
End config.

(** ** Matching *)

Inductive MatchSource : Type := Comm | Argv.
Definition tag (s : MatchSource) : string := match s with Comm | Argv => "process-match" end.

Record Match : Type := { m_pid : Z; matched_pattern : string; source : MatchSource }.

Record proc_files : Type := { comm : option string; cmdline : option string }.

Definition newline : ascii := ascii_of_nat 10.
Definition trim_end_newlines (s : string) : string :=
  str_rev (let fix go s := match s with
                           | String a s' => if decide (a = newline) then go s' else s
                           | EmptyString => s
                           end in go (str_rev s)).

(** [b as char] on a byte, in UTF-8: bytes from 128 on become two. *)
Definition byte_as_char (b : ascii) : string :=
  let n := nat_of_ascii b in
  if bool_decide (n < 128) then String b "" else bytes [192 + n / 64; 128 + n mod 64].
Fixpoint argv_text (raw : string) : string :=
  match raw with
  | EmptyString => ""
  | String b raw' => (if bool_decide (nat_of_ascii b = 0) then " " else byte_as_char b) +:+ argv_text raw'
  end.

Definition match_pid (files : Z -> proc_files) (pid : Z) (config : Config) : option Match :=
  let by_comm :=
    match comm (files pid) with
    | Some comm_raw => find_b (λ pattern, bool_decide (trim_end_newlines comm_raw = pattern)) (match_commands config)
    | None => None
    end in
  match by_comm with
  | Some pattern => Some {| m_pid := pid; matched_pattern := pattern; source := Comm |}
  | None =>
      match cmdline (files pid) with
      | Some cmdline_raw =>
          match find_b (λ pattern, str_contains (argv_text cmdline_raw) pattern) (match_argv_substrings config) with
          | Some pattern => Some {| m_pid := pid; matched_pattern := pattern; source := Argv |}
          | None => None
          end
      | None => None
      end
  end.

(** The loop over the directory entries; [None] is an entry whose name cannot
    be read as text. *)
Fixpoint scan_entries (files : Z -> proc_files) (config : Config) (entries : list (option string)) : option Match :=
  match entries with
  | [] => None
  | entry :: rest =>
      match entry ≫= parse_uint U32_MAX with
      | Some pid => match match_pid files pid config with Some m => Some m | None => scan_entries files config rest end
      | None => scan_entries files config rest
      end
  end.

Definition scan_proc (listing : result (list (option string)) string) (files : Z -> proc_files) (config : Config)
    : result (option Match) string :=
  match match_commands config, match_argv_substrings config with
  | [], [] => Ok None
  | _, _ => let? entries := listing in Ok (scan_entries files config entries)
  end.

(** ** The annotation *)

Definition build_patch_body (m : Match) (timestamp : string) : json :=
  let reason := tag (source m) +:+ ": " +:+ matched_pattern m in
  JObj [("metadata", JObj [("annotations", JObj [
    (RECLAIM_REQUESTED_ANNOTATION, JStr RECLAIM_REQUESTED_VALUE);
    (RECLAIM_REASON_ANNOTATION, JStr reason);
    (RECLAIM_REQUESTED_AT_ANNOTATION, JStr timestamp)])])].

Definition already_requested (annotations : gmap string string) : bool :=
  match annotations !! RECLAIM_REQUESTED_ANNOTATION with
  | Some v => bool_decide (v = RECLAIM_REQUESTED_VALUE)
  | None => false
  end.

(** ** Host identity *)

Inductive HostIdentityError : Type :=
| ReadFailed (path source : string)
| Empty (path : string)
| Mismatch (host_id node_id node_name : string)
| NodeMachineIdMissing (node_name : string).

Definition read_host_machine_id (path : string) (contents : result string string) : result string HostIdentityError :=
  let? raw := map_err (ReadFailed path) contents in
  let trimmed := trim raw in
  if str_is_empty trimmed then Err (Empty path) else Ok trimmed.

Definition compare_machine_ids (node : Node) (node_name expected_host_id : string) : result unit HostIdentityError :=
  match n_machine_id node with
  | None => Err (NodeMachineIdMissing node_name)
  | Some raw =>
      let node_id := trim raw in
      if str_is_empty node_id then Err (NodeMachineIdMissing node_name)
      else if bool_decide (node_id <> expected_host_id) then Err (Mismatch expected_host_id node_id node_name)
      else Ok tt
  end.

Inductive AgentError : Type :=
| FetchNode (e : kube_error)
| Identity (e : HostIdentityError)
| PatchFailed (e : kube_error).

Definition AGENT_FIELD_MANAGER : string := "5spot-reclaim-agent".

(** The agent's own client is its cluster's: [MgmtClient] stands for it here. *)
Definition annotate_node `{Externals} (node_name : string) (m : Match) (host_machine_id : option string)
    : M (result unit AgentError) :=
  match host_machine_id with
  | Some expected =>
      n <- get_node MgmtClient node_name ;;
      Ret match n with
          | Err e => Err (FetchNode e)
          | Ok node => map_err Identity (compare_machine_ids node node_name expected)
          end
  | None => Ret (Ok tt)
  end ?;;
  now <- utc_now ;;
  p <- patch_node MgmtClient node_name (ForcedMergePatch AGENT_FIELD_MANAGER (build_patch_body m (to_rfc3339 now))) ;;
  Ret (map_err PatchFailed p).

(** ** Documented behaviour of [toml] *)

Fixpoint comment_text (s : string) : bool :=
  match s with
  | EmptyString => true
  | String a s' =>
      let n := nat_of_ascii a in
      ((bool_decide (32 <= n) && negb (bool_decide (n = 127))) || bool_decide (n = 9)) && comment_text s'
  end.

Class TomlLaws (X : Externals) (T : TomlConfig) : Prop := {
  (** A comment line does not matter (a comment holds no control character). *)
  toml_comment : forall text body, comment_text text = true ->
    toml_to_config (String "#" (text +:+ String newline body)) = toml_to_config body;
  (** A printed table of the configuration's fields is read back. *)
  toml_table : forall cs ss z, (0 <= z <= 9223372036854775807)%Z ->
    toml_to_config (toml_strings_table
      [("match_commands", inl cs); ("match_argv_substrings", inl ss); ("poll_interval_ms", inr z)]) =
    Ok {| match_commands := cs; match_argv_substrings := ss; poll_interval_ms := z |};
}.

(** A concrete pair: tables printed in binary. *)
Fixpoint strip_comments (inside : bool) (s : string) : string :=
  match s with
  | EmptyString => ""
  | String a s' =>
      if inside then strip_comments (negb (bool_decide (a = newline))) s'
      else if decide (a = "#"%char) then strip_comments true s' else s
  end.
Definition binary_toml : Externals := {|
  kube_error_display := kube_error_display (Externals := toy_externals);
  to_rfc3339 := toy_print_time; parse_from_rfc3339 := toy_parse_time;
  json_to_string := json_to_string (Externals := toy_externals); json_from_str := json_from_str (Externals := toy_externals);
  toml_strings_table := λ t, pos_bits (encode t);
  unicode_to_lowercase := λ s, s; unicode_escape_debug := λ s, s; dynamic_object_error := λ _, None;
  kubeconfig_yaml_error := λ _, None; kubeconfig_config_error := λ _, None; kubeconfig_client_error := λ _, None;
  utf8_error := λ _, None;
|}.
Definition binary_toml_config : TomlConfig := λ s,
  match decode (A := list (string * (list string + Z))) (bits_pos (strip_comments false s)) with
  | Some [(_, inl cs); (_, inl ss); (_, inr z)] =>
      Ok {| match_commands := cs; match_argv_substrings := ss; poll_interval_ms := z |}
  | _ => Err "unexpected table"
  end.

Lemma strip_comments_line text : forall body, comment_text text = true ->
  strip_comments true (text +:+ String newline body) = strip_comments false body.
Proof.
  induction text as [| a text IH]; intros body Hn; cbn; [by rewrite bool_decide_true |].
  cbn in Hn. apply andb_prop in Hn as [Ha Hn]. rewrite bool_decide_false; [by apply IH | by intros ->].
Qed.

Lemma strip_comments_bits p : strip_comments false (pos_bits p) = pos_bits p.
Proof. by destruct p. Qed.

#[export] Instance binary_toml_laws : TomlLaws binary_toml binary_toml_config.
Proof.
  constructor.
  - intros text body Hn. unfold toml_to_config, binary_toml_config. cbn. by rewrite strip_comments_line.
  - intros cs ss z _. unfold toml_to_config, binary_toml_config. cbn [toml_strings_table binary_toml].
    by rewrite strip_comments_bits, bits_pos_bits, decode_encode.
Qed.

(** ** Lemmas *)

Lemma match_pid_comm_only files pid cs z :
  is_Some (match_pid files pid {| match_commands := cs; match_argv_substrings := []; poll_interval_ms := z |}) <->
  exists raw, comm (files pid) = Some raw /\ trim_end_newlines raw ∈ cs.
Proof.
  assert (Hargv : forall o : option string,
            match o with Some c => match @find_b string (λ p, str_contains (argv_text c) p) [] with
                                   | Some p => Some {| m_pid := pid; matched_pattern := p; source := Argv |} | None => None end
            | None => None end = None) by (by intros [c |]).
  unfold match_pid. cbn [match_commands match_argv_substrings].
  destruct (comm (files pid)) as [raw |]; [| rewrite Hargv; split; [by intros [] | by intros (? & ? & _)]].
  destruct (find_b (λ pattern, bool_decide (trim_end_newlines raw = pattern)) cs) as [p |] eqn:Hf; [| rewrite Hargv].
  - split; [intros _ | by eexists]. apply find_b_Some in Hf as [Hp Heq]. apply bool_decide_eq_true in Heq as <-. by exists raw.
  - split; [by intros [] |]. intros (raw' & [= <-] & Hin). rewrite find_b_None in Hf. specialize (Hf _ Hin).
    by apply bool_decide_eq_false in Hf.
Qed.

Lemma scan_entries_spec files config entries :
  is_Some (scan_entries files config entries) <->
  exists e pid, Some e ∈ entries /\ parse_uint U32_MAX e = Some pid /\ is_Some (match_pid files pid config).
Proof.
  induction entries as [| entry rest IH]; cbn; [split; [by intros [] | set_solver] |].
  destruct (entry ≫= parse_uint U32_MAX) as [pid |] eqn:He.
  - destruct entry as [e |]; [| done]. cbn in He. destruct (match_pid files pid config) as [m |] eqn:Hm.
    + split; [intros _ | by eexists]. exists e, pid. rewrite Hm. split_and!; [left | done | by eexists].
    + rewrite IH. split; [intros (e' & p & Hin & Hr); exists e', p; split; [by right | done] |].
      intros (e' & p & Hin & Hp & Hr). apply elem_of_cons in Hin as [[= ->] | Hin]; [| eauto 10].
      rewrite He in Hp. injection Hp as ->. rewrite Hm in Hr. by destruct Hr.
  - rewrite IH. split; [intros (e' & p & Hin & Hr); exists e', p; split; [by right | done] |].
    intros (e' & p & Hin & Hp & Hr). apply elem_of_cons in Hin as [<- | Hin]; [| eauto 10]. cbn in He. congruence.
Qed.

Lemma rendered_config `{TomlLaws} commands :
  parse_config (render_reclaim_toml commands) =
    Ok {| match_commands := commands; match_argv_substrings := []; poll_interval_ms := DEFAULT_POLL_INTERVAL_MS |}.
Proof.
  unfold parse_config, render_reclaim_toml. set (body := toml_strings_table _).
  match goal with |- context [toml_to_config ?s] =>
    assert (Hs : toml_to_config s = toml_to_config body) end.
  { etrans; [apply (toml_comment " Auto-generated by 5-spot controller from spec.killIfCommands"); by vm_compute |].
    apply (toml_comment " DO NOT EDIT — changes will be overwritten on next reconcile."); by vm_compute. }
  rewrite Hs. unfold body. by rewrite toml_table by (unfold DEFAULT_POLL_INTERVAL_MS; lia).
Qed.

Lemma patched_annotation m ts stored k v :
  (k, JStr v) ∈ [(RECLAIM_REQUESTED_ANNOTATION, JStr RECLAIM_REQUESTED_VALUE);
                 (RECLAIM_REASON_ANNOTATION, JStr (tag (source m) +:+ ": " +:+ matched_pattern m));
                 (RECLAIM_REQUESTED_AT_ANNOTATION, JStr ts)] ->
  obj_get k (annotations_of (merge_patch (build_patch_body m ts) stored)) = Some (JStr v).
Proof.
  intros Hk. unfold annotations_of, build_patch_body. rewrite !jread_merge_single by done. rewrite obj_get_merge.
  rewrite !elem_of_cons, elem_of_nil in Hk. destruct Hk as [[= -> ->] | [[= -> ->] | [[= -> ->] | []]]];
    (erewrite merge_patch_get; [| nodup_keys | reflexivity | done]; done).
Qed.

(** The annotation of the agent, on any stored node, is a request. *)
Lemma annotated_requests m ts stored node :
  annotations_agree node (merge_patch (build_patch_body m ts) stored) ->
  node_reclaim_request node =
    Some {| reason := Some ("process-match: " +:+ matched_pattern m); requested_at := Some ts |} /\
  already_requested (default ∅ (n_annotations node)) = true.
Proof.
  intros Hag.
  assert (Hget : forall k v, (k, JStr v) ∈ [(RECLAIM_REQUESTED_ANNOTATION, JStr RECLAIM_REQUESTED_VALUE);
               (RECLAIM_REASON_ANNOTATION, JStr (tag (source m) +:+ ": " +:+ matched_pattern m));
               (RECLAIM_REQUESTED_AT_ANNOTATION, JStr ts)] -> n_annotations node ≫= lookup k = Some v).
  { intros k v Hk. rewrite Hag. by rewrite (patched_annotation m ts stored k v Hk). }
  unfold node_reclaim_request, already_requested. destruct (n_annotations node) as [a |]; cbn in Hget |- *;
    [| by specialize (Hget RECLAIM_REQUESTED_ANNOTATION RECLAIM_REQUESTED_VALUE ltac:(left))].
  rewrite (Hget RECLAIM_REQUESTED_ANNOTATION RECLAIM_REQUESTED_VALUE) by left.
  rewrite (Hget RECLAIM_REASON_ANNOTATION _) by (right; left). rewrite (Hget RECLAIM_REQUESTED_AT_ANNOTATION ts) by (right; right; left).
  rewrite !bool_decide_true by done. cbn [negb]. by destruct (source m).
Qed.

(** C34: the reclaim handshake, end to end: the agent reads back the commands of
    the ConfigMap the controller renders from [killIfCommands]; it then finds a
    match exactly when some process of the listing has one of these commands as
    its name; and the annotation it writes for a match, on any stored node, is
    the request the controller detects, with the matched command as the
    reason and the agent's time stamp. *)
Theorem reclaim_handshake `{TomlLaws} node_name commands :
  (exists cfg, configmap_to_config (Some (cm_data (build_reclaim_agent_configmap node_name commands))) = Ok (Some cfg) /\
     forall entries files, exists found, scan_proc (Ok entries) files cfg = Ok found /\
       (is_Some found <-> exists e pid raw, Some e ∈ entries /\ parse_uint U32_MAX e = Some pid /\
          comm (files pid) = Some raw /\ trim_end_newlines raw ∈ commands)) /\
  (forall m ts stored node, annotations_agree node (merge_patch (build_patch_body m ts) stored) ->
     node_reclaim_request node =
       Some {| reason := Some ("process-match: " +:+ matched_pattern m); requested_at := Some ts |} /\
     already_requested (default ∅ (n_annotations node)) = true).
Proof.
  split.
  - eexists. unfold configmap_to_config, build_reclaim_agent_configmap. cbn [cm_data]. rewrite lookup_insert_eq, rendered_config.
    split; [reflexivity |]. intros entries files. unfold scan_proc. cbn [match_commands match_argv_substrings].
    set (cfg := {| match_commands := commands; match_argv_substrings := []; poll_interval_ms := _ |}).
    assert (Hspec : is_Some (scan_entries files cfg entries) <-> exists e pid raw, Some e ∈ entries /\
              parse_uint U32_MAX e = Some pid /\ comm (files pid) = Some raw /\ trim_end_newlines raw ∈ commands).
    { rewrite scan_entries_spec.
      assert (Hm : forall pid, _) by exact (λ pid, match_pid_comm_only files pid commands DEFAULT_POLL_INTERVAL_MS).
      fold cfg in Hm. setoid_rewrite Hm. naive_solver. }
    destruct commands as [| c cs]; [| by eexists]. eexists. split; [done |]. split; [by intros [] |].
    intros (? & ? & ? & _ & _ & _ & Hin). by apply elem_of_nil in Hin.
  - intros m ts stored node. apply annotated_requests.
Qed.

(** The node the agent fetched reports this machine id. *)
Definition reports_machine_id (node : Node) (host : string) : Prop :=
  exists raw, n_machine_id node = Some raw /\ trim raw = host /\ host <> "".

Lemma compare_machine_ids_spec node n host :
  compare_machine_ids node n host = Ok tt /\ reports_machine_id node host \/
  (exists e, compare_machine_ids node n host = Err e) /\ ~ reports_machine_id node host.
Proof.
  unfold compare_machine_ids, reports_machine_id. destruct (n_machine_id node) as [raw |]; [| right; naive_solver].
  destruct (str_is_empty (trim raw)) eqn:He; [right; split; [by eexists |]; intros (r & [= <-] & <- & Hn); by destruct (trim raw) |].
  case_bool_decide as Hd; [right; naive_solver |]. left. split; [done |]. exists raw.
  split_and!; [done.. |]. intros ->. by rewrite Hd in He.
Qed.

(** The agent checks who it is: with a host machine id, it writes to the
    node only after it has read that node under its own name and found the same
    machine id there; a node it could not read, or one with another or no machine
    id, gets no write and the matching error. The write is one forced merge
    patch of that node, the last call. *)
Theorem annotate_node_identity `{Externals} n m id :
  let writes t r := exists (now : Z) (p : result unit kube_error),
    t = [Ev UtcNow now; Ev (PatchNode MgmtClient n (ForcedMergePatch AGENT_FIELD_MANAGER (build_patch_body m (to_rfc3339 now)))) p] /\
    r = map_err PatchFailed p in
  wp (annotate_node n m id) (λ t r,
    match id with
    | None => writes t r
    | Some host => exists (g : result Node kube_error) rest, t = Ev (GetNode MgmtClient n) g :: rest /\
        match g with
        | Err e => rest = [] /\ r = Err (FetchNode e)
        | Ok node => reports_machine_id node host /\ writes rest r \/
                     ~ reports_machine_id node host /\ rest = [] /\ exists e, r = Err (Identity e)
        end
    end).
Proof.
  intros writes. unfold annotate_node. destruct id as [host |].
  - pstep as g. destruct g as [node | e]; [| pret; eexists _, _; split; [reflexivity |]; done].
    destruct (compare_machine_ids_spec node n host) as [[Hc Hr] | [[e Hc] Hr]]; prog_hnf; rewrite Hc.
    + pstep as now. pstep as p. pret. eexists _, _. split; [reflexivity |]. left. split; [done |]. by exists now, p.
    + pret. eexists _, _. split; [reflexivity |]. right. eauto.
  - pstep as now. pstep as p. pret. by exists now, p.
Qed.

Definition sample_match : Match := {| m_pid := 42; matched_pattern := "java"; source := Comm |}.
Definition sample_annotated : Node := {|
  n_name := Some "n1"; n_labels := None;
  n_annotations := Some {[ RECLAIM_REQUESTED_ANNOTATION := RECLAIM_REQUESTED_VALUE;
                           RECLAIM_REASON_ANNOTATION := "process-match: java"; RECLAIM_REQUESTED_AT_ANNOTATION := "now" ]};
  n_spec_taints := None; n_status_conditions := None; n_machine_id := None |}.

Lemma sample_agrees : annotations_agree sample_annotated (merge_patch (build_patch_body sample_match "now") (JObj [])).
Proof.
  intros k. destruct (decide (k = RECLAIM_REQUESTED_ANNOTATION)) as [-> |]; [by vm_compute |].
  destruct (decide (k = RECLAIM_REASON_ANNOTATION)) as [-> |]; [by vm_compute |].
  destruct (decide (k = RECLAIM_REQUESTED_AT_ANNOTATION)) as [-> |]; [by vm_compute |].
  cbn [n_annotations sample_annotated option_bind mbind]. rewrite !lookup_insert_ne, lookup_singleton_ne by done.
  unfold obj_get. set (o := annotations_of _). vm_compute in o. subst o. cbn.
  repeat (case_decide || case_bool_decide; [by subst |]). done.
Qed.

Lemma reclaim_handshake_witness :
  node_reclaim_request sample_annotated = Some {| reason := Some "process-match: java"; requested_at := Some "now" |} /\
  (exists cfg, @configmap_to_config binary_toml_config
     (Some (cm_data (@build_reclaim_agent_configmap binary_toml "n1" ["java"; "idea"]))) = Ok (Some cfg) /\
   exists found, scan_proc (Ok [Some "self"; None; Some "42"])
     (λ pid, if bool_decide (pid = 42%Z) then {| comm := Some (bytes [106; 97; 118; 97; 10]); cmdline := None |}
             else {| comm := None; cmdline := None |}) cfg = Ok found /\ is_Some found).
Proof.
  destruct (@reclaim_handshake binary_toml binary_toml_config binary_toml_laws "n1" ["java"; "idea"]) as [(cfg & Hc & Hs) Hm].
  split; [exact (proj1 (Hm sample_match "now" (JObj []) sample_annotated sample_agrees)) |].
  exists cfg. split; [exact Hc |].
  destruct (Hs [Some "self"; None; Some "42"]
     (λ pid, if bool_decide (pid = 42%Z) then {| comm := Some (bytes [106; 97; 118; 97; 10]); cmdline := None |}
             else {| comm := None; cmdline := None |})) as (found & Hf & Hiff).
  exists found. split; [exact Hf |]. apply Hiff. exists "42", 42%Z, (bytes [106; 97; 118; 97; 10]).
  split; [set_solver |]. split; [reflexivity |]. split; [reflexivity |]. replace (trim_end_newlines _) with "java" by reflexivity. left.
Defined.
