(* ===== verification/Fs.v ===== *)
(** [std::path] and [std::io::Error], as far as the crate uses them: a path is
    its list of components, which is how [Path] compares paths. *)

From S2P Require Import Prelude RustStr.

(** ** Paths *)

Record path : Type := { p_absolute : bool; p_segments : list string }.
#[export] Instance path_eq_dec : EqDecision path.
Proof. solve_decision. Defined.
#[export] Instance path_countable : Countable path.
Proof.
  refine (inj_countable' (λ p, (p_absolute p, p_segments p)) (λ q, {| p_absolute := q.1; p_segments := q.2 |}) _).
  by intros [].
Defined.

(** Joining a relative path; empty and [.] segments are not components. *)
Definition path_components (s : string) : list string :=
  List.filter (λ seg, negb (bool_decide (seg = "") || bool_decide (seg = "."))) (split_char "/" s).
Definition path_join (p : path) (relative : string) : path :=
  {| p_absolute := p_absolute p; p_segments := p_segments p ++ path_components relative |}.
Definition path_push (p : path) (name : string) : path :=
  {| p_absolute := p_absolute p; p_segments := p_segments p ++ [name] |}.
#[global] Arguments path_push : simpl never.
Definition parent (p : path) : option path :=
  match p_segments p with
  | [] => None
  | segs => Some {| p_absolute := p_absolute p; p_segments := removelast segs |}
  end.
Definition file_name (p : path) : option string :=
  match last (p_segments p) with
  | Some s => if bool_decide (s = "..") || bool_decide (s = ".") then None else Some s
  | None => None
  end.
Definition path_starts_with (p base : path) : bool :=
  bool_decide (p_absolute p = p_absolute base) && bool_decide (take (List.length (p_segments base)) (p_segments p) = p_segments base).
Definition path_is_empty (p : path) : bool := negb (p_absolute p) && bool_decide (p_segments p = []).
Definition current_dir : path := {| p_absolute := false; p_segments := ["."] |}.

Fixpoint trim_start_slashes (s : string) : string :=
  match s with
  | String a s' => if decide (a = "/"%char) then trim_start_slashes s' else s
  | EmptyString => ""
  end.
(** The part of the name after the last dot, unless the name starts there. *)
Definition extension (p : path) : option string :=
  '(stem, ext) ← file_name p ≫= rsplit_once "."; if str_is_empty stem then None else Some ext.

(** ** Errors *)

Inductive io_error : Type :=
| NotFoundIo
| PermissionDeniedIo (why : string)
| OtherIo (text : string).
