(* ===== verification/KataAgent.v ===== *)
(** The Kata configuration agent ([src/kata_config_agent.rs] and
    [src/bin/kata_config_agent.rs]): it keeps one file of its host equal to a
    ConfigMap or Secret that an annotation of its node names, and restarts a
    host service when that file changes.

    File system and process calls are calls of their own; a path is its list of
    components, which is how [std::path] compares paths. *)

From S2P Require Import Prelude RustStr Effects Constants Json Crd Externals KubeApi Metrics Assignment Fs.
From S2P Require Import Provision.

(** ** Calls of the agent *)

Record exit_status : Type := { es_success : bool; es_text : string }.

Inductive host_call : Type :=
| Api (c : call_t)
| GetOptConfigMap (ns name : string)
| GetOptSecret (ns name : string)
| FsRead (p : path)
| FsCreateDirAll (p : path)
| FsRemove (p : path)
| FsWrite (p : path) (content : string)
| FsSetMode (p : path) (mode : Z)
| FsRename (from to : path)
| FsCanonicalize (p : path)
| ProcessId
| RunCommand (argv : list string).

(** Of a ConfigMap or Secret, its optional [data]. *)
Definition host_reply (c : host_call) : Type :=
  match c with
  | Api c => reply c
  | GetOptConfigMap _ _ | GetOptSecret _ _ => result (option (option (gmap string string))) kube_error
  | FsRead _ => result string io_error
  | FsCreateDirAll _ | FsRemove _ | FsWrite _ _ | FsSetMode _ _ | FsRename _ _ => result unit io_error
  | FsCanonicalize _ => result path io_error
  | ProcessId => Z
  | RunCommand _ => result exit_status io_error
  end%type.
Notation K := (prog host_reply).

Definition api {A} (p : M A) : K A := embed (λ c, call (R := host_reply) (Api c)) p.

Definition fs_read p : K (result string io_error) := call (FsRead p).
Definition fs_create_dir_all p : K (result unit io_error) := call (FsCreateDirAll p).
Definition fs_remove_file p : K (result unit io_error) := call (FsRemove p).
Definition fs_write p c : K (result unit io_error) := call (FsWrite p c).
Definition fs_set_mode p m : K (result unit io_error) := call (FsSetMode p m).
Definition fs_rename a b : K (result unit io_error) := call (FsRename a b).
Definition fs_canonicalize p : K (result path io_error) := call (FsCanonicalize p).
Definition process_id : K Z := call ProcessId.
Definition run_command argv : K (result exit_status io_error) := call (RunCommand argv).
Definition get_opt_config_map ns n : K (result (option (option (gmap string string))) kube_error) := call (GetOptConfigMap ns n).
Definition get_opt_secret ns n : K (result (option (option (gmap string string))) kube_error) := call (GetOptSecret ns n).

(** ** The synchronisation engine *)

Record KataRef : Type := {
  kr_namespace : string;
  kr_kind : string;
  kr_name : string;
  kr_key : string;
  kr_restart_service : string;
}.

(** [serde_json::from_str] at [KataRef]. *)
Class KataRefJson : Type := kata_ref_from_str : string -> result KataRef string.
(** [sha2::Sha256] on a byte string. *)
Class Sha256 : Type := sha256_digest : string -> string.

Definition DEST_FILE_MODE : Z := 420. (** 0o644 *)
Definition TEMP_SUFFIX : string := "5spot-tmp".
Definition DEST_FILE_SUFFIX : string := ".toml".
Definition ABSENT_HASH_MARKER : string := "absent".

Inductive SyncAction : Type := Write | Delete | NoOp.
Inductive SyncOutcome : Type :=
| Wrote (hash : string)
| Deleted
| Unchanged (hash : option string).
#[export] Instance SyncOutcome_eq_dec : EqDecision SyncOutcome.
Proof. solve_decision. Defined.

Section engine.
Context `{Externals} `{KataRefJson} `{Sha256}.

Definition parse_kata_ref (annotation : string) : result KataRef string := kata_ref_from_str annotation.

(** [{byte:02x}] for every byte. *)
Fixpoint hex_bytes (s : string) : string :=
  match s with
  | EmptyString => ""
  | String b s' => String (hex_digit (byte_of b / 16)) (String (hex_digit (byte_of b mod 16)) (hex_bytes s'))
  end.
Definition sha256_hex (content : string) : string := hex_bytes (sha256_digest content).

Definition file_sha256 (p : path) : K (result (option string) io_error) :=
  r <- fs_read p ;;
  Ret match r with
      | Ok content => Ok (Some (sha256_hex content))
      | Err NotFoundIo => Ok None
      | Err e => Err e
      end.

Definition decide_action (source dest_hash : option string) : SyncAction :=
  match source with
  | Some content => if bool_decide (dest_hash = Some (sha256_hex content)) then NoOp else Write
  | None => if bool_decide (is_Some dest_hash) then Delete else NoOp
  end.

Definition temp_name (dest : path) (pid : Z) : string :=
  match file_name dest with Some n => from_utf8_lossy n | None => "kata-config" end +:+ "." +:+ TEMP_SUFFIX +:+ "." +:+ pretty pid.
Definition temp_path_for (parent dest : path) : K path :=
  pid <- process_id ;;
  Ret (path_push parent (temp_name dest pid)).

Definition dest_dir (dest : path) : path :=
  match parent dest with
  | Some p => if path_is_empty p then current_dir else p
  | None => current_dir
  end.

Definition atomic_write (dest : path) (content : string) : K (result unit io_error) :=
  let dir := dest_dir dest in
  fs_create_dir_all dir ?;;
  tmp <- temp_path_for dir dest ;;
  _stale <- fs_remove_file tmp ;;
  fs_write tmp content ?;;
  fs_set_mode tmp DEST_FILE_MODE ?;;
  r <- fs_rename tmp dest ;;
  match r with
  | Ok _ => Ret (Ok tt)
  | Err e => _leak <- fs_remove_file tmp ;; Ret (Err e)
  end.

Definition remove_if_present (dest : path) : K (result bool io_error) :=
  r <- fs_remove_file dest ;;
  Ret match r with
      | Ok _ => Ok true
      | Err NotFoundIo => Ok false
      | Err e => Err e
      end.

(** [content.expect] cannot fail: [Write] is decided for a present content. *)
Definition sync_content (content : option string) (dest_path : path) : K (result SyncOutcome io_error) :=
  dest_hash <-? file_sha256 dest_path ;;
  match decide_action content dest_hash with
  | Write =>
      let bytes := opt_string content in
      atomic_write dest_path bytes ?;;
      Ret (Ok (Wrote (sha256_hex bytes)))
  | Delete => remove_if_present dest_path ?;; Ret (Ok Deleted)
  | NoOp => Ret (Ok (Unchanged dest_hash))
  end.

Definition sync_once (source_path dest_path : path) : K (result SyncOutcome io_error) :=
  r <- fs_read source_path ;;
  match r with
  | Ok content => sync_content (Some content) dest_path
  | Err NotFoundIo => sync_content None dest_path
  | Err e => Ret (Err e)
  end.

Definition deny (dest_path why : string) : io_error :=
  PermissionDeniedIo ("refusing destPath " +:+ str_debug dest_path +:+ ": " +:+ why +:+
    " (ADR 0005 confines kata writes to " +:+ KATA_CONFIG_DEST_BASE +:+ "*.toml)").

Definition confine_dest_path (host_root : path) (dest_path : string) : K (result path io_error) :=
  if negb (starts_with dest_path KATA_CONFIG_DEST_BASE) then Ret (Err (deny dest_path "outside the allowed base"))
  else if negb (ends_with dest_path DEST_FILE_SUFFIX) then Ret (Err (deny dest_path "not a .toml drop-in"))
  else if List.existsb (λ seg, bool_decide (seg = "") || bool_decide (seg = ".") || bool_decide (seg = ".."))
            (List.skipn 1 (split_char "/" dest_path))
  then Ret (Err (deny dest_path "non-canonical path segment"))
  else
    let full := path_join host_root (trim_start_slashes dest_path) in
    dir <-? lift (ok_or (parent full) (deny dest_path "no parent directory")) ;;
    name <-? lift (ok_or (file_name full) (deny dest_path "no file name")) ;;
    let base := path_join host_root (trim_start_slashes KATA_CONFIG_DEST_BASE) in
    fs_create_dir_all dir ?;;
    fs_create_dir_all base ?;;
    canon_parent <-? fs_canonicalize dir ;;
    canon_base <-? fs_canonicalize base ;;
    if negb (path_starts_with canon_parent canon_base) then
      Ret (Err (deny dest_path "resolves outside the allowed base (symlink?)"))
    else Ret (Ok (path_push canon_parent name)).
End engine.

(** ** Restarting the host service *)

Definition nsenter_restart_argv (service : string) : list string :=
  ["nsenter"; "-t"; "1"; "-m"; "-u"; "-i"; "-n"; "-p"; "--"; "systemctl"; "restart"; service].

(** The trait [RestartExecutor], and the one of the binary. *)
Class RestartExecutor : Type := restart : string -> K (result unit io_error).

(** The ellipsis of the message is U+2026. *)
Definition nsenter_restart_executor : RestartExecutor := λ service,
  status <-? run_command (nsenter_restart_argv service) ;;
  Ret (if es_success status then Ok tt
       else Err (OtherIo ("`nsenter " +:+ bytes [226; 128; 166] +:+ " systemctl restart " +:+ service +:+
                          "` exited with " +:+ es_text status))).

Definition intended_hash_for (outcome : SyncOutcome) : string :=
  match outcome with
  | Wrote hash | Unchanged (Some hash) => hash
  | Deleted | Unchanged None => ABSENT_HASH_MARKER
  end.

Definition is_drift_correction (outcome : SyncOutcome) (prev_applied_hash : option string) : bool :=
  match outcome with
  | Wrote hash => bool_decide (prev_applied_hash = Some hash)
  | Deleted | Unchanged _ => false
  end.

Definition needs_restart (prev_applied_hash : option string) (intended_hash : string) : bool :=
  bool_decide (prev_applied_hash <> Some intended_hash).

Definition restart_if_needed (executor : RestartExecutor) (prev_applied_hash : option string) (intended_hash service : string)
    : K (result bool io_error) :=
  if negb (needs_restart prev_applied_hash intended_hash) then Ret (Ok false)
  else executor service ?;; Ret (Ok true).

(** ** The binary *)

(** [anyhow::Error]: the contexts added, and the cause. *)
Inductive KataAgentError : Type :=
| KubeCause (e : kube_error)
| IoCause (e : io_error)
| JsonCause (e : string)
| Bail (s : string)
| WithContext (s : string) (e : KataAgentError).

Record NodeState : Type := { kata_ref : option KataRef; applied : option string }.

Section binary.
Context `{Externals} `{KataRefJson} `{Sha256}.

Definition read_node_state (node_name : string) : K (result NodeState KataAgentError) :=
  r <- api (get_node MgmtClient node_name) ;;
  node <-? lift (map_err (λ e, WithContext ("GET Node " +:+ node_name) (KubeCause e)) r) ;;
  let anns := default ∅ (n_annotations node) in
  kref <-? lift match anns !! KATA_CONFIG_REF_ANNOTATION with
                | Some raw =>
                    let? k := map_err (λ e, WithContext ("parsing " +:+ KATA_CONFIG_REF_ANNOTATION +:+ " on Node " +:+ node_name)
                                              (JsonCause e)) (parse_kata_ref raw) in
                    Ok (Some k)
                | None => Ok None
                end ;;
  Ret (Ok {| kata_ref := kref; applied := anns !! KATA_CONFIG_APPLIED_ANNOTATION |}).

Definition applied_patch (hash : string) : json :=
  JObj [("metadata", JObj [("annotations", JObj [(KATA_CONFIG_APPLIED_ANNOTATION, JStr hash)])])].
Definition record_applied (node_name hash : string) : K (result unit KataAgentError) :=
  r <- api (patch_node MgmtClient node_name (MergePatch (applied_patch hash))) ;;
  Ret (map_err (λ e, WithContext ("recording applied hash on Node " +:+ node_name) (KubeCause e)) r).

Definition optout_patch : json :=
  JObj [("metadata", JObj [("annotations", JObj [(KATA_CONFIG_APPLIED_ANNOTATION, JNull)]);
                           ("labels", JObj [(KATA_CONFIG_LABEL, JNull)])])].
Definition clear_optin (node_name : string) : K (result unit KataAgentError) :=
  r <- api (patch_node MgmtClient node_name (MergePatch optout_patch)) ;;
  Ret (map_err (λ e, WithContext ("clearing kata opt-in on Node " +:+ node_name) (KubeCause e)) r).

Definition fetch_content (kref : KataRef) : K (result (option string) KataAgentError) :=
  if decide (kr_kind kref = "ConfigMap") then
    r <- get_opt_config_map (kr_namespace kref) (kr_name kref) ;;
    Ret (let? o := map_err KubeCause r in
         Ok (data ← o; d ← data; d !! kr_key kref))
  else if decide (kr_kind kref = "Secret") then
    r <- get_opt_secret (kr_namespace kref) (kr_name kref) ;;
    Ret (let? o := map_err KubeCause r in
         Ok (data ← o; d ← data; from_utf8_lossy <$> d !! kr_key kref))
  else Ret (Err (Bail ("unknown kata source kind " +:+ str_debug (kr_kind kref) +:+ " (expected ConfigMap or Secret)"))).

Definition io_ok {A} (p : K (result A io_error)) : K (result A KataAgentError) :=
  r <- p ;; Ret (map_err IoCause r).

Definition record_outcome (outcome : SyncOutcome) (prev_hash : option string) : K unit :=
  match outcome with
  | Wrote _ => api (record_kata_config_write (is_drift_correction outcome prev_hash))
  | Deleted => api record_kata_config_delete
  | Unchanged _ => api record_kata_config_sync_unchanged
  end.

Definition reconcile_once (node_name : string) (host_root : path) (executor : RestartExecutor)
    : K (result unit KataAgentError) :=
  state <-? read_node_state node_name ;;
  match kata_ref state with
  | None =>
      dest <-? io_ok (confine_dest_path host_root KATA_CONFIG_DEST_PATH) ;;
      outcome <-? io_ok (sync_content None dest) ;;
      (if bool_decide (outcome = Deleted) then api record_kata_config_delete else Ret tt) ;;;
      clear_optin node_name
  | Some kref =>
      dest <-? io_ok (confine_dest_path host_root KATA_CONFIG_DEST_PATH) ;;
      content <-? fetch_content kref ;;
      outcome <-? io_ok (sync_content content dest) ;;
      let prev_hash := applied state in
      record_outcome outcome prev_hash ;;;
      let intended_hash := intended_hash_for outcome in
      if needs_restart prev_hash intended_hash then
        record_applied node_name intended_hash ?;;
        r <- restart_if_needed executor prev_hash intended_hash (kr_restart_service kref) ;;
        restarted <-? lift (map_err (λ e, WithContext ("restarting host service " +:+ kr_restart_service kref) (IoCause e)) r) ;;
        (if restarted : bool then api record_kata_config_restart else Ret tt) ;;;
        Ret (Ok tt)
      else Ret (Ok tt)
  end.
End binary.

(** One turn of the loop of [main]. *)
Definition kata_tick `{Externals} `{KataRefJson} `{Sha256} (node_name : string) (host_root : path) (executor : RestartExecutor) : K unit :=
  r <- reconcile_once node_name host_root executor ;;
  match r with
  | Ok _ => Ret tt
  | Err _ => api record_kata_config_sync_error
  end.
