(* ===== verification/KataSafety.v ===== *)
(** What the Kata configuration agent may do to its host, in any environment:
    crash safety of the file it writes, the restart guard, containment. *)

From S2P Require Import Prelude RustStr Effects Constants Json Crd Externals KubeApi Metrics Assignment Fs.
From S2P Require Import Emergency Provision KataAgent.

(** ** The host

    Files (without aliasing links), the annotations of the agent's node and
    the objects of the workload cluster.  Nobody else writes them during a run,
    except that the restart command may do anything to the files. *)

Record host : Type := {
  files : gmap path string;
  annots : gmap string string;
  config_maps : gmap (string * string) (option (gmap string string));
  secrets : gmap (string * string) (option (gmap string string));
  commands : list (list string);  (** run to success, last first *)
}.
Definition set_files (f : gmap path string) (s : host) : host :=
  {| files := f; annots := annots s; config_maps := config_maps s; secrets := secrets s; commands := commands s |}.
Definition set_annots (a : gmap string string) (s : host) : host :=
  {| files := files s; annots := a; config_maps := config_maps s; secrets := secrets s; commands := commands s |}.

(** A merge patch on the annotations: strings are set, nulls removed. *)
Definition patch_annotation (m : gmap string string) (kv : string * json) : gmap string string :=
  match kv.2 with
  | JStr v => <[kv.1 := v]> m
  | JNull => delete kv.1 m
  | _ => m
  end.
Definition patched_annots (p : patch) (m : gmap string string) : gmap string string :=
  match p with
  | MergePatch body => foldl patch_annotation m (as_obj (jread "annotations" (jread "metadata" body)))
  | _ => m
  end.

(** A write that fails has written a prefix; a patch that fails may have been
    applied; what fails otherwise has changed nothing. *)
Definition host_after (s : host) (e : event host_reply) (s' : host) : Prop :=
  match e with
  | Ev c r =>
      match c return host_reply c -> Prop with
      | Api c => λ r,
          match c return reply c -> Prop with
          | GetNode _ _ => λ r, s' = s /\ match r with Ok n => default ∅ (n_annotations n) = annots s | Err _ => True end
          | PatchNode _ _ p => λ r,
              match r with
              | Ok _ => s' = set_annots (patched_annots p (annots s)) s
              | Err _ => s' = s \/ s' = set_annots (patched_annots p (annots s)) s
              end
          | _ => λ _, s' = s
          end r
      | GetOptConfigMap ns n => λ r, s' = s /\ match r with Ok o => o = config_maps s !! (ns, n) | Err _ => True end
      | GetOptSecret ns n => λ r, s' = s /\ match r with Ok o => o = secrets s !! (ns, n) | Err _ => True end
      | FsRead p => λ r, s' = s /\
          match r with
          | Ok c => files s !! p = Some c
          | Err NotFoundIo => files s !! p = None
          | Err _ => True
          end
      | FsRemove p => λ r,
          match r with
          | Ok _ => is_Some (files s !! p) /\ s' = set_files (delete p (files s)) s
          | Err NotFoundIo => files s !! p = None /\ s' = s
          | Err _ => s' = s
          end
      | FsWrite p c => λ r,
          match r with
          | Ok _ => s' = set_files (<[p := c]> (files s)) s
          | Err _ => s' = s \/ exists c', String.prefix c' c = true /\ s' = set_files (<[p := c']> (files s)) s
          end
      | FsRename a b => λ r,
          match r with
          | Ok _ => exists c, files s !! a = Some c /\ s' = set_files (<[b := c]> (delete a (files s))) s
          | Err _ => s' = s
          end
      | FsCreateDirAll _ | FsSetMode _ _ | FsCanonicalize _ | ProcessId => λ _, s' = s
      | RunCommand argv => λ r, annots s' = annots s /\
          commands s' = match r with Ok st => if es_success st then argv :: commands s else commands s | Err _ => commands s end
      end r
  end.

(** What a crash in the middle of a call can leave of the files: a rename is
    atomic, a write is not. *)
Definition host_during (s : host) (c : host_call) (f : gmap path string) : Prop :=
  f = files s \/
  match c with
  | FsRemove p => f = delete p (files s)
  | FsWrite p content => exists c', String.prefix c' content = true /\ f = <[p := c']> (files s)
  | FsRename a b => exists c, files s !! a = Some c /\ f = <[b := c]> (delete a (files s))
  | RunCommand _ => True
  | _ => False
  end.

(** What the referenced object holds under the key. *)
Definition source_content (s : host) (k : KataRef) : option string :=
  if decide (kr_kind k = "ConfigMap") then
    data ← config_maps s !! (kr_namespace k, kr_name k); d ← data; d !! kr_key k
  else data ← secrets s !! (kr_namespace k, kr_name k); d ← data; from_utf8_lossy <$> d !! kr_key k.
(** The hash the agent records for a content. *)
Definition content_hash `{Sha256} (content : option string) : string :=
  match content with Some c => sha256_hex c | None => ABSENT_HASH_MARKER end.

(** ** Crash safety of the synchronisation *)

Section sync.
Context `{Sha256}.

Definition is_temp (dest p : path) : Prop := exists pid, p = path_push (dest_dir dest) (temp_name dest pid).

(** At any moment the destination holds what it held or what it is to hold, and
    nothing else but the temporary file has changed. *)
Definition intact (dest : path) (content : option string) (before now : gmap path string) : Prop :=
  (now !! dest = before !! dest \/ now !! dest = content) /\
  forall p, p <> dest -> now !! p = before !! p \/ is_temp dest p.

Definition same_cluster (before now : host) : Prop :=
  annots now = annots before /\ config_maps now = config_maps before /\ secrets now = secrets before /\
  commands now = commands before.
Definition sync_done (dest : path) (content : option string) (before : host) (s : host) (r : result SyncOutcome io_error) : Prop :=
  same_cluster before s /\
  match r with
  | Ok o => sha256_hex <$> files s !! dest = sha256_hex <$> content /\ intended_hash_for o = content_hash content
  | Err _ => files s !! dest = files before !! dest
  end.

(** A destination whose name is UTF-8. *)
Definition named (dest : path) : Prop := exists n, file_name dest = Some n /\ from_utf8_lossy n = n.

Lemma is_temp_ne dest p : named dest -> is_temp dest p -> p <> dest.
Proof.
  intros (n & Hn & Hl) (pid & ->) Heq. unfold temp_name in Heq. rewrite Hn, Hl in Heq.
  assert (Hlast : last (p_segments dest) = Some n).
  { unfold file_name in Hn. destruct (last (p_segments dest)); [| done]. by destruct (_ || _). }
  rewrite <- Heq in Hlast. unfold path_push in Hlast. cbn in Hlast. rewrite last_snoc in Hlast. injection Hlast as Hlen.
  apply (f_equal String.length) in Hlen. rewrite str_length_app in Hlen. cbn in Hlen. lia.
Qed.

(** Only temporary files differ from [before]. *)
Definition untouched (dest : path) (before now : host) : Prop :=
  files now !! dest = files before !! dest /\
  (forall p, p <> dest -> files now !! p = files before !! p \/ is_temp dest p) /\
  same_cluster before now.

Lemma untouched_intact dest content before now :
  untouched dest before now -> intact dest content (files before) (files now).
Proof. intros (Hd & Hp & _). split; [by left | done]. Qed.

Lemma untouched_temp dest before now tmp f : named dest -> is_temp dest tmp ->
  untouched dest before now -> (forall p, p <> tmp -> f !! p = files now !! p) -> untouched dest before (set_files f now).
Proof.
  intros Hn Ht (Hd & Hp & Hr) Hf. split; [| split; [| done]]; cbn.
  - rewrite Hf; [done |]. intros ->. by eapply is_temp_ne.
  - intros p Hne. destruct (decide (p = tmp)) as [-> |]; [by right |]. rewrite Hf by done. by apply Hp.
Qed.
End sync.

(** Bring the program of a [hoare] to a call or a result; make one call. *)
Ltac hoare_hnf :=
  lazymatch goal with
  | |- hoare ?a ?I ?s ?p ?Q => let p' := eval hnf in p in change (hoare a I s p' Q)
  end.
Tactic Notation "hstep" "as" simple_intropattern(r) simple_intropattern(s) simple_intropattern(H) :=
  hoare_hnf; apply hoare_Vis; [| intros r s H; cbn in H].

Section crash.
Context `{Sha256}.

Definition crash_safe (dest : path) (content : option string) (before : host) (s : host) (c : host_call) : Prop :=
  forall f, host_during s c f -> intact dest content (files before) f.

(** A call that does not write is crash safe. *)
Lemma quiet_crash_safe dest content before s c :
  untouched dest before s -> match c with FsRemove _ | FsWrite _ _ | FsRename _ _ | RunCommand _ => False | _ => True end ->
  crash_safe dest content before s c.
Proof. intros Hu Hc f [-> | Hd]; [by apply untouched_intact | by destruct c]. Qed.

Lemma temp_crash_safe dest content before s tmp c : named dest -> is_temp dest tmp -> untouched dest before s ->
  match c with FsRemove p | FsWrite p _ => p = tmp | _ => False end -> crash_safe dest content before s c.
Proof.
  intros Hn Ht Hu Hc f [-> | Hd]; [by apply untouched_intact |].
  change f with (files (set_files f s)). apply untouched_intact. eapply untouched_temp; [done.. |].
  destruct c; try done; subst; intros p Hne; [by rewrite lookup_delete_ne |].
  destruct Hd as (c' & _ & ->). by rewrite lookup_insert_ne.
Qed.

Lemma remove_temp_after dest before s tmp r s' : named dest -> is_temp dest tmp -> untouched dest before s ->
  host_after s (Ev (FsRemove tmp) r) s' -> untouched dest before s'.
Proof.
  intros Hn Ht Hu Ha. destruct r as [u | e].
  - destruct Ha as [_ ->]. eapply untouched_temp; [done.. |]. intros p Hne. by rewrite lookup_delete_ne.
  - destruct e; cbn in Ha; [by destruct Ha as [_ ->] | by subst..].
Qed.

Lemma atomic_write_hoare dest content before s : named dest -> untouched dest before s ->
  hoare host_after (crash_safe dest (Some content) before) s (atomic_write dest content)
    (λ s' r, same_cluster before s' /\ files s' !! dest = match r with Ok _ => Some content | Err _ => files before !! dest end).
Proof.
  intros Hn Hu. unfold atomic_write.
  assert (Hend : forall s1, untouched dest before s1 -> same_cluster before s1 /\ files s1 !! dest = files before !! dest)
    by (by intros s1 (? & _ & ?)).
  hstep as r s1 Ha; [by apply quiet_crash_safe |]. subst s1. destruct r as [u | e]; [| by apply Hend].
  hstep as pid s1 Ha; [by apply quiet_crash_safe |]. subst s1.
  set (tmp := path_push (dest_dir dest) (temp_name dest pid)).
  assert (Ht : is_temp dest tmp) by (by exists pid).
  hstep as r s1 Ha; [by eapply temp_crash_safe |]. apply (remove_temp_after dest before) in Ha; [| done..]. clear Hu s. rename Ha into Hu.
  hstep as w s2 Ha; [by eapply temp_crash_safe |].
  assert (Hu2 : untouched dest before s2).
  { destruct w as [u1 | e]; [| destruct Ha as [-> | (c' & _ & ->)]; [done |]]; subst; (eapply untouched_temp; [done.. |]);
      intros p Hne; by rewrite lookup_insert_ne. }
  destruct w as [u1 | e]; [| by apply Hend]. assert (Htmp : files s2 !! tmp = Some content) by (subst s2; apply lookup_insert_eq). clear Ha.
  hstep as m s3 Ha; [by apply quiet_crash_safe |]. subst s3. destruct m as [u2 | e]; [| by apply Hend].
  hstep as m s3 Ha.
  { intros f [-> | (c & Hc & ->)]; [by apply untouched_intact |]. change (files s2 !! tmp = Some c) in Hc. rewrite Htmp in Hc. injection Hc as <-.
    destruct Hu2 as (_ & Hp & _). split; [right; apply lookup_insert_eq |]. intros p Hne. rewrite lookup_insert_ne by done.
    destruct (decide (p = tmp)) as [-> |]; [by right |]. rewrite lookup_delete_ne by done. by apply Hp. }
  destruct m as [u3 | e].
  - destruct Ha as (c & Hc & ->). change (files s2 !! tmp = Some c) in Hc. rewrite Htmp in Hc. injection Hc as <-. destruct Hu2 as (_ & _ & Hr).
    split; [exact Hr | apply lookup_insert_eq].
  - subst s3. hstep as m s3 Ha; [by eapply temp_crash_safe |]. apply (remove_temp_after dest before) in Ha; [| done..]. by apply Hend.
Qed.
End crash.

Section engine_safety.
Context `{Sha256}.

Lemma sync_content_hoare dest content before s : named dest -> untouched dest before s ->
  hoare host_after (crash_safe dest content before) s (sync_content content dest) (sync_done dest content before).
Proof.
  intros Hn Hu. assert (Hframe : untouched dest before s) by done. destruct Hframe as (Hd & _ & Hr).
  unfold sync_content. hstep as r s1 Ha; [by apply quiet_crash_safe |]. destruct Ha as [-> Ha].
  assert (Hsame : forall e, sync_done dest content before s (Err e)) by (intros e; unfold sync_done; naive_solver).
  assert (Hwrite : forall c, content = Some c -> hoare host_after (crash_safe dest content before) s
            (atomic_write dest (opt_string content) ?;; Ret (Ok (Wrote (sha256_hex (opt_string content))))) (sync_done dest content before)).
  { intros c ->. apply hoare_bind_ok. cbn [opt_string default from_option id].
    eapply hoare_mono; [done | | by apply atomic_write_hoare].
    intros s1 [u | e] (? & Hf); unfold sync_done; cbn; rewrite Hf; naive_solver. }
  destruct r as [old | e].
  - hoare_hnf. destruct content as [c |]; cbn [decide_action].
    + case_bool_decide as Hh; [| by eapply Hwrite]. unfold sync_done; cbn. rewrite Ha. injection Hh as Hh.
      cbn. rewrite Hh. naive_solver.
    + rewrite bool_decide_true by done. hstep as r s1 Hx.
      * intros f [-> | ->]; [by apply untouched_intact |]. split; [right; apply lookup_delete_eq |]. intros p Hne.
        rewrite lookup_delete_ne by done. by apply Hu.
      * destruct r as [u | e]; [destruct Hx as [_ ->] | destruct e; [destruct Hx as [Hx _]; congruence | subst..]]; hoare_hnf;
          unfold sync_done; cbn; rewrite ?lookup_delete_eq; naive_solver.
  - destruct e; [| by apply Hsame..]. hoare_hnf. destruct content as [c |]; cbn [decide_action].
    + rewrite bool_decide_false by done. by eapply Hwrite.
    + rewrite bool_decide_false by (by intros [? ?]). unfold sync_done; cbn. rewrite Ha. naive_solver.
Qed.
End engine_safety.

(** C16: crash safety of the synchronisation: stop the agent at any point of
    [sync_content], in the middle of any system call; the destination then
    holds exactly what it held before or exactly what it is to hold, never a
    part of it, and no other file but the agent's temporary one has changed.
    A run that ends well leaves a file with the hash of the content (no file
    for no content) and answers that hash; one that fails leaves the old file. *)
Theorem sync_content_crash_safe `{Sha256} dest content before :
  named dest ->
  (forall t c now f, reaches (sync_content content dest) t c -> evolve host_after before t now ->
     host_during now c f -> intact dest content (files before) f) /\
  (forall t r now, exec (sync_content content dest) t r -> evolve host_after before t now ->
     sync_done dest content before now r).
Proof.
  intros Hn. assert (Hu : untouched dest before before) by (unfold untouched, same_cluster; naive_solver).
  pose proof (sync_content_hoare dest content before before Hn Hu) as Hh. split.
  - intros t c now f Ht He. exact (hoare_reaches _ _ _ _ _ _ _ _ Hh Ht He f).
  - intros t r now Ht He. exact (hoare_exec _ _ _ _ _ _ _ _ Hh Ht He).
Qed.

(** ** One reconcile *)

(** A program of Kubernetes calls that neither read nor write the host. *)
Lemma hoare_api {A} after (I : host -> host_call -> Prop) (p : M A) (P : call_t -> Prop) s (Q : host -> A -> Prop) :
  calls P p -> (forall c, P c -> I s (Api c)) ->
  (forall c r s', P c -> after s (Ev (Api c) r) s' -> s' = s) ->
  (forall a, Q s a) -> hoare after I s (api p) Q.
Proof.
  intros Hp HI Hs HQ. induction p as [a | c k IH]; cbn in *; [apply HQ |].
  destruct Hp as [Hc Hk]. split; [by apply HI |]. intros r s' Ha. apply Hs in Ha as ->; [| done]. by apply IH.
Qed.

(** The metrics and the clock. *)
Definition observes (c : call_t) : Prop := match c with UtcNow | MetricOp _ => True | _ => False end.
Lemma observes_after s c r s' : observes c -> host_after s (Ev (Api c) r) s' -> s' = s.
Proof. by destruct c. Qed.

Lemma stamp_observes : calls observes stamp_kata_config_last_sync.
Proof. unfold stamp_kata_config_last_sync. pstep as now; [done |]. prog_hnf. by case_bool_decide. Qed.
Lemma record_write_observes b : calls observes (record_kata_config_write b).
Proof.
  unfold record_kata_config_write. apply calls_bind; [done |]. intros _. apply calls_bind; [by destruct b |].
  intros _. apply stamp_observes.
Qed.
Lemma record_delete_observes : calls observes record_kata_config_delete.
Proof. unfold record_kata_config_delete. apply calls_bind; [done |]. intros _. apply stamp_observes. Qed.

Section restart.
Context `{Externals} `{KataRefJson} `{Sha256}.

(** The calls of the engine run no command. *)
Definition no_command (c : host_call) : Prop := match c with RunCommand _ => False | _ => True end.

Lemma hoare_calls {A} (I : host -> host_call -> Prop) (P : host_call -> Prop) (p : K A) Q : forall s,
  calls P p -> hoare host_after I s p Q -> hoare host_after (λ s c, I s c /\ P c) s p Q.
Proof.
  induction p as [a | c k IH]; cbn; intros s Hp Hh; [done |]. destruct Hp as [Hc Hk], Hh as [HI Hh].
  split; [done |]. intros r s' Ha. by apply IH; [| apply Hh].
Qed.

Lemma sync_content_no_command content dest : calls no_command (sync_content content dest).
Proof.
  assert (Hw : forall c, calls no_command (atomic_write dest c)).
  { intros c. unfold atomic_write. pstep as r; [done |]. destruct r; [| by pret]. pstep as pid; [done |].
    pstep as r; [done |]. pstep as r2; [done |]. destruct r2; [| by pret]. pstep as r3; [done |].
    destruct r3; [| by pret]. pstep as r4; [done |]. destruct r4; [by pret |]. pstep as r5; [done |]. by pret. }
  unfold sync_content. pstep as r; [done |]. prog_hnf.
  assert (Hd : forall h, calls no_command match decide_action content h with
     | Write => atomic_write dest (opt_string content) ?;; Ret (Ok (Wrote (sha256_hex (opt_string content))))
     | Delete => remove_if_present dest ?;; Ret (Ok Deleted) | NoOp => Ret (Ok (Unchanged h)) end).
  { intros h. destruct (decide_action content h); [| | done].
    - by apply calls_bind_ok.
    - pstep as r'; [done |]. by destruct r' as [| []]. }
  destruct r as [c | []]; cbn; try done; apply Hd.
Qed.

(** The fixed destination under a canonical directory. *)
Definition drop_in (dest : path) : Prop := exists dir, dest = path_push dir "kata.toml".
Lemma drop_in_named dest : drop_in dest -> named dest.
Proof.
  intros (dir & ->). exists "kata.toml".
  split; [| by vm_compute]. unfold file_name, path_push. cbn [p_segments]. by rewrite last_snoc.
Qed.

Lemma drop_in_file_name root : file_name (path_join root (trim_start_slashes KATA_CONFIG_DEST_PATH)) = Some "kata.toml".
Proof.
  unfold file_name, path_join. cbn [p_segments]. set (l := path_components _). vm_compute in l. subst l.
  by rewrite (assoc app _ ["etc"; "k0s"; "containerd.d"] ["kata.toml"]), last_snoc.
Qed.

Lemma confine_hoare (I : host -> host_call -> Prop) root s Q :
  (forall p, I s (FsCreateDirAll p) /\ I s (FsCanonicalize p)) ->
  (forall dest, drop_in dest -> Q s (Ok dest)) -> (forall e, Q s (Err e)) ->
  hoare host_after I s (confine_dest_path root KATA_CONFIG_DEST_PATH) Q.
Proof.
  intros HI Hok Herr. unfold confine_dest_path.
  change (starts_with KATA_CONFIG_DEST_PATH KATA_CONFIG_DEST_BASE) with true.
  change (ends_with KATA_CONFIG_DEST_PATH DEST_FILE_SUFFIX) with true. cbn [negb].
  match goal with |- context [List.existsb ?f ?l] => change (List.existsb f l) with false end. cbv iota.
  set (full := path_join root (trim_start_slashes KATA_CONFIG_DEST_PATH)).
  cbv zeta. destruct (parent full) as [dir |]; [| hoare_hnf; apply Herr]. unfold full. rewrite drop_in_file_name. cbn [lift ok_or].
  assert (Hstep : forall c, I s c -> forall (k : host_reply c -> K (result path io_error)),
            (forall r s', host_after s (Ev c r) s' -> s' = s) -> (forall r, hoare host_after I s (k r) Q) ->
            hoare host_after I s (Vis c k) Q)
    by (intros c Hc k Hs Hk; split; [done |]; intros r s' Ha; apply Hs in Ha as ->; apply Hk).
  hoare_hnf. apply Hstep; [apply HI | done |]. intros [u | e]; [| hoare_hnf; apply Herr].
  hoare_hnf. apply Hstep; [apply HI | done |]. intros [u1 | e]; [| hoare_hnf; apply Herr].
  hoare_hnf. apply Hstep; [apply HI | done |]. intros [cp | e]; [| hoare_hnf; apply Herr].
  hoare_hnf. apply Hstep; [apply HI | done |]. intros [cb | e]; [| hoare_hnf; apply Herr].
  hoare_hnf. destruct (negb _); [apply Herr |]. apply Hok. by exists cp.
Qed.
(** What the annotations of the node say. *)
Definition recorded (s : host) : option string := annots s !! KATA_CONFIG_APPLIED_ANNOTATION.
Definition due_hash (s : host) (k : KataRef) : string := content_hash (source_content s k).

Definition restart_due (before now : host) (argv : list string) : Prop := exists raw k dest,
  annots before !! KATA_CONFIG_REF_ANNOTATION = Some raw /\ parse_kata_ref raw = Ok k /\ drop_in dest /\
  argv = nsenter_restart_argv (kr_restart_service k) /\
  recorded before <> Some (due_hash before k) /\ recorded now = Some (due_hash before k) /\
  content_hash (files now !! dest) = due_hash before k.

Definition tick_done (before now : host) : Prop :=
  match annots before !! KATA_CONFIG_REF_ANNOTATION with
  | None => recorded now = None /\ commands now = commands before
  | Some raw => exists k, parse_kata_ref raw = Ok k /\ recorded now = Some (due_hash before k) /\
      commands now = if decide (recorded before = Some (due_hash before k)) then commands before
                     else nsenter_restart_argv (kr_restart_service k) :: commands before
  end.

Definition guard (before now : host) (c : host_call) : Prop :=
  match c with RunCommand argv => restart_due before now argv | _ => True end.

Lemma hoare_io_ok {A} I s (p : K (result A io_error)) (Q : host -> result A KataAgentError -> Prop) :
  hoare host_after I s p (λ s r, Q s (map_err IoCause r)) -> hoare host_after I s (io_ok p) Q.
Proof. intros Hp. apply hoare_bind. exact Hp. Qed.

Lemma observe_hoare {A} before s (p : M A) (Q : host -> A -> Prop) : calls observes p -> (forall a, Q s a) ->
  hoare host_after (guard before) s (api p) Q.
Proof. intros Hp HQ. eapply hoare_api; [done | by intros c Hc | intros c r s'; apply observes_after | done]. Qed.

Lemma read_node_state_hoare before n :
  hoare host_after (guard before) before (read_node_state n) (λ s r, s = before /\
    match r with
    | Ok st => applied st = recorded before /\
        match annots before !! KATA_CONFIG_REF_ANNOTATION with
        | Some raw => exists k, parse_kata_ref raw = Ok k /\ kata_ref st = Some k
        | None => kata_ref st = None
        end
    | Err _ => True
    end).
Proof.
  unfold read_node_state. hstep as r s1 Ha; [done |]. destruct Ha as [-> Ha]. destruct r as [node | e]; [| done].
  hoare_hnf. rewrite Ha. unfold recorded. destruct (annots before !! KATA_CONFIG_REF_ANNOTATION) as [raw |]; [| done].
  destruct (parse_kata_ref raw) as [k | e] eqn:Hk; cbn; [| done]. eauto 10.
Qed.

Lemma fetch_content_hoare before s k :
  hoare host_after (guard before) s (fetch_content k) (λ s' r, s' = s /\ forall c, r = Ok c -> c = source_content s k).
Proof.
  unfold fetch_content, source_content. destruct (decide (kr_kind k = "ConfigMap")); [| destruct (decide (kr_kind k = "Secret"))];
    [hstep as r s1 Ha; [done |].. |]; try by split.
  all: destruct Ha as [-> Ha]; destruct r as [o | err]; hoare_hnf; (split; [done |]); [by intros c [= <-]; subst | done].
Qed.

Lemma sync_guarded before s content dest : drop_in dest ->
  hoare host_after (guard before) s (sync_content content dest) (λ s' r, same_cluster s s' /\
    forall o, r = Ok o -> content_hash (files s' !! dest) = content_hash content /\ intended_hash_for o = content_hash content).
Proof.
  intros Hd. eapply hoare_mono;
    [| | exact (hoare_calls _ no_command _ _ _ (sync_content_no_command content dest)
                  (sync_content_hoare dest content s s (drop_in_named dest Hd) ltac:(unfold untouched, same_cluster; naive_solver)))].
  - by intros s1 [] [_ Hc].
  - intros s1 [o | e] [Hc Hr]; (split; [exact Hc |]); intros o' [= <-]. destruct Hr as [Hf Ho]. split; [| done].
    unfold content_hash. destruct (files s1 !! dest), content; cbn in Hf; congruence.
Qed.

Lemma record_applied_hoare before s n h (Q : host -> result unit KataAgentError -> Prop) :
  Q (set_annots (<[KATA_CONFIG_APPLIED_ANNOTATION := h]> (annots s)) s) (Ok tt) -> (forall s' e, Q s' (Err e)) ->
  hoare host_after (guard before) s (record_applied n h) Q.
Proof.
  intros Hok Herr. unfold record_applied. hstep as r s1 Ha; [done |]. destruct r as [[] | e]; hoare_hnf; [| apply Herr].
  subst s1. exact Hok.
Qed.
Lemma record_outcome_hoare before s o prev (Q : host -> unit -> Prop) : (forall a, Q s a) ->
  hoare host_after (guard before) s (record_outcome o prev) Q.
Proof.
  intros HQ. unfold record_outcome.
  destruct o; (apply observe_hoare; [| done]); [apply record_write_observes | apply record_delete_observes | apply stamp_observes].
Qed.

Lemma reconcile_once_hoare root n before :
  hoare host_after (guard before) before (reconcile_once n root nsenter_restart_executor) (λ now r, r = Ok tt -> tick_done before now).
Proof.
  unfold reconcile_once. apply hoare_bind_ok. eapply hoare_mono; [done | | apply read_node_state_hoare].
  intros s [st | e] [-> Hst]; [| done]. destruct Hst as [Happ Hst]. unfold tick_done.
  destruct (annots before !! KATA_CONFIG_REF_ANNOTATION) as [raw |] eqn:Hraw.
  - destruct Hst as (k & Hk & ->). apply hoare_bind_ok, hoare_io_ok, confine_hoare; [done | | done].
    intros dest Hd. cbn [map_err]. apply hoare_bind_ok. eapply hoare_mono; [done | | apply fetch_content_hoare].
    intros s [c | e] [-> Hc]; [| done]. specialize (Hc c eq_refl) as ->. apply hoare_bind_ok, hoare_io_ok.
    eapply hoare_mono; [done | | by apply sync_guarded]. intros s [o | e] [Hs Ho]; [| done]. cbn [map_err].
    destruct (Ho o eq_refl) as [Hf Hi]. fold (due_hash before k) in Hf, Hi. rewrite Hi, Happ. clear Ho.
    destruct Hs as (Ha & _ & _ & Hcmd). apply hoare_bind, record_outcome_hoare. intros _. cbv zeta.
    assert (Hrec : recorded s = recorded before) by (unfold recorded; by rewrite Ha).
    unfold needs_restart at 1. case_bool_decide as Hne.
    + apply hoare_bind_ok, record_applied_hoare; [| done]. set (s1 := set_annots _ s).
      assert (Hrec1 : recorded s1 = Some (due_hash before k)) by apply lookup_insert_eq.
      unfold restart_if_needed, needs_restart. rewrite bool_decide_true by done. cbn [negb].
      apply hoare_bind, hoare_bind_ok. hstep as r s2 Hr.
      { exists raw, k, dest. split_and!; done. }
      destruct Hr as [Ha2 Hc2]. destruct r as [st2 | e]; hoare_hnf; [| done]. destruct (es_success st2); hoare_hnf; [| done].
      hstep as u s3 Hu; [done |]. subst s3. hoare_hnf. intros _. exists k. split; [done |].
      unfold recorded. rewrite Ha2. split; [exact Hrec1 |]. rewrite decide_False by done. rewrite Hc2. cbn. by rewrite Hcmd.
    + hoare_hnf. intros _. exists k. rewrite decide_True by done. split_and!; [done | congruence | done].
  - rewrite Hst. apply hoare_bind_ok, hoare_io_ok, confine_hoare; [done | | done].
    intros dest Hd. cbn [map_err]. apply hoare_bind_ok, hoare_io_ok.
    eapply hoare_mono; [done | | by apply sync_guarded]. intros s [o | e] [Hs _]; [| done]. cbn [map_err].
    destruct Hs as (_ & _ & _ & Hcmd). apply hoare_bind.
    assert (Hclear : forall u : unit, hoare host_after (guard before) s (clear_optin n) (λ now r, r = Ok tt ->
              recorded now = None /\ commands now = commands before)).
    { intros _. unfold clear_optin. hstep as r s1 Ha; [done |]. destruct r as [[] | e]; hoare_hnf; [| done]. subst s1. intros _.
      split; [apply lookup_delete_eq | done]. }
    case_bool_decide; [| apply (Hclear tt)]. apply observe_hoare; [apply record_delete_observes | exact Hclear].
Qed.

(** C23: the restart guard.  A host service is restarted only when the source's
    content is not the one the node records as applied, and only once the host
    file holds that content and the node records it; so a restart that kills the
    agent, or one that fails, is not repeated for that content.  A reconcile
    that ends well has recorded the content and has restarted the service
    exactly when it was not recorded before; without a reference it has cleared
    the record and restarted nothing. *)
Theorem restart_once root n before :
  let p := reconcile_once n root nsenter_restart_executor in
  (forall t argv now, reaches p t (RunCommand argv) -> evolve host_after before t now -> restart_due before now argv) /\
  (forall t now, exec p t (Ok tt) -> evolve host_after before t now -> tick_done before now).
Proof.
  intros p. pose proof (reconcile_once_hoare root n before) as Hp. fold p in Hp.
  split.
  - intros t argv now Ht He. exact (hoare_reaches _ _ _ _ _ _ _ _ Hp Ht He).
  - intros t now Ht He. exact (hoare_exec _ _ _ _ _ _ _ _ Hp Ht He eq_refl).
Qed.
End restart.

(** ** Confinement *)

Section confinement.
Context `{Externals} `{KataRefJson} `{Sha256} (root : path) (node : string).

(** The directory of the drop-in and the base it must stay under. *)
Definition drop_in_dir : path := {| p_absolute := p_absolute root; p_segments := p_segments root ++ ["etc"; "k0s"; "containerd.d"] |}.
Definition base_dir : path := {| p_absolute := p_absolute root; p_segments := p_segments root ++ ["etc"; "k0s"] |}.
Definition the_file (dir : path) : path := path_push dir "kata.toml".
Definition the_temp (dir : path) (pid : Z) : path := path_push (dest_dir (the_file dir)) (temp_name (the_file dir) pid).

(** Only its own record and label of its own node. *)
Definition own_metadata (body : json) : bool :=
  match body with
  | JObj [("metadata", JObj [("annotations", JObj [(k, _)])])] => bool_decide (k = KATA_CONFIG_APPLIED_ANNOTATION)
  | JObj [("metadata", JObj [("annotations", JObj [(k, _)]); ("labels", JObj [(l, JNull)])])] =>
      bool_decide (k = KATA_CONFIG_APPLIED_ANNOTATION) && bool_decide (l = KATA_CONFIG_LABEL)
  | _ => false
  end.
Definition api_confined (c : call_t) : bool :=
  match c with
  | GetNode MgmtClient n => bool_decide (n = node)
  | PatchNode MgmtClient n (MergePatch body) => bool_decide (n = node) && own_metadata body
  | UtcNow | MetricOp _ => true
  | _ => false
  end.

(** [Inside dir pid]: [dir] is the canonical drop-in directory, found below the
    canonical base; [pid] is the last process id read. *)
Inductive containment : Type :=
| Outside
| Seen (dir : path)
| Inside (dir : path) (pid : option Z).

Definition file_allowed (s : containment) (c : host_call) : bool :=
  match s with
  | Inside dir pid =>
      let temp p := match pid with Some i => bool_decide (p = the_temp dir i) | None => false end in
      match c with
      | FsRead p => bool_decide (p = the_file dir)
      | FsRemove p => bool_decide (p = the_file dir) || temp p
      | FsWrite p _ => temp p
      | FsSetMode p m => temp p && bool_decide (m = DEST_FILE_MODE)
      | FsRename a b => temp a && bool_decide (b = the_file dir)
      | RunCommand argv => bool_decide (argv = nsenter_restart_argv (List.last argv ""))
      | _ => false
      end
  | _ => false
  end.

Definition containment_step (s : containment) (e : event host_reply) : option containment :=
  match e with
  | Ev c r =>
      match c return host_reply c -> option containment with
      | Api c => λ _, if api_confined c then Some s else None
      | GetOptConfigMap _ _ | GetOptSecret _ _ => λ _, Some s
      | FsCreateDirAll p => λ _,
          let own := match s with Inside dir _ => bool_decide (p = dest_dir (the_file dir)) | _ => false end in
          if bool_decide (p = drop_in_dir) || bool_decide (p = base_dir) || own then Some s else None
      | FsCanonicalize p => λ r,
          match s, r with
          | Outside, Ok dir => if bool_decide (p = drop_in_dir) then Some (Seen dir) else None
          | Seen dir, Ok base =>
              if bool_decide (p = base_dir) then Some (if path_starts_with dir base then Inside dir None else Outside) else None
          | Inside _ _, _ => None
          | _, Err _ => Some Outside
          end
      | ProcessId => λ pid, match s with Inside dir _ => Some (Inside dir (Some pid)) | _ => None end
      | c => λ _, if file_allowed s c then Some s else None
      end r
  end.

Notation cmon := (mon containment_step).

Lemma api_mon {A} s (p : M A) (Φ : containment -> A -> Prop) : calls observes p -> (forall a, Φ s a) -> cmon s (api p) Φ.
Proof.
  intros Hp HΦ. induction p as [a | c k IH]; [apply HΦ |]. destruct Hp as [Hc Hk].
  assert (Hs : api_confined c = true) by (by destruct c). change (api (Vis c k)) with (Vis (Api c) (λ r, api (k r))).
  apply mon_Vis. intros r. cbn. rewrite Hs. by apply IH.
Qed.

Lemma path_join_drop_in :
  parent (path_join root (trim_start_slashes KATA_CONFIG_DEST_PATH)) = Some drop_in_dir /\
  path_join root (trim_start_slashes KATA_CONFIG_DEST_BASE) = base_dir.
Proof.
  split; [| unfold path_join; set (l := path_components _); by vm_compute in l].
  unfold path_join. set (l := path_components _). vm_compute in l. subst l.
  rewrite (assoc app _ ["etc"; "k0s"; "containerd.d"] ["kata.toml"]). unfold parent. cbn [p_segments p_absolute].
  destruct (_ ++ ["kata.toml"]) eqn:E; [by apply app_eq_nil in E as [_ ?] |]. by rewrite <- E, removelast_last.
Qed.

(** One call of a containment monitor. *)
Ltac cstep r := prog_hnf; apply mon_Vis; intros r; cbn [containment_step file_allowed];
  repeat match goal with |- context [bool_decide (?x = ?y)] => rewrite (bool_decide_true (x = y)) by reflexivity end;
  rewrite ?orb_true_r; cbn [orb andb].

Lemma sync_contained content dir (Φ : containment -> result SyncOutcome io_error -> Prop) :
  (forall pid r, Φ (Inside dir pid) r) -> cmon (Inside dir None) (sync_content content (the_file dir)) Φ.
Proof.
  intros HΦ.
  assert (Hw : forall c, cmon (Inside dir None) (atomic_write (the_file dir) c) (λ s _, exists pid, s = Inside dir pid)).
  { intros c. unfold atomic_write. cstep r. destruct r as [u | e]; [| by (prog_hnf; apply mon_Ret; eexists)].
    cstep pid. cstep r. cstep r2. destruct r2 as [u2 | e]; [| by (prog_hnf; apply mon_Ret; eexists)].
    cstep r3. destruct r3 as [u3 | e]; [| by (prog_hnf; apply mon_Ret; eexists)].
    cstep r4. destruct r4 as [u4 | e]; [by (prog_hnf; apply mon_Ret; eexists) |].
    cstep r5. by (prog_hnf; apply mon_Ret; eexists). }
  unfold sync_content. cstep r.
  assert (Hd : forall h, cmon (Inside dir None) match decide_action content h with
     | Write => atomic_write (the_file dir) (opt_string content) ?;; Ret (Ok (Wrote (sha256_hex (opt_string content))))
     | Delete => remove_if_present (the_file dir) ?;; Ret (Ok Deleted) | NoOp => Ret (Ok (Unchanged h)) end Φ).
  { intros h. destruct (decide_action content h); [| | apply HΦ].
    - apply mon_bind_ok. eapply mon_mono; [| apply Hw]. intros s [u | e] [pid ->]; apply HΦ.
    - cstep r'. destruct r' as [u | []]; apply HΦ. }
  destruct r as [c | []]; prog_hnf; try apply HΦ; apply Hd.
Qed.

Lemma confine_contained (Φ : containment -> result path io_error -> Prop) :
  (forall dir, Φ (Inside dir None) (Ok (the_file dir))) -> (forall s e, Φ s (Err e)) ->
  cmon Outside (confine_dest_path root KATA_CONFIG_DEST_PATH) Φ.
Proof.
  intros Hok Herr. unfold confine_dest_path.
  change (starts_with KATA_CONFIG_DEST_PATH KATA_CONFIG_DEST_BASE) with true.
  change (ends_with KATA_CONFIG_DEST_PATH DEST_FILE_SUFFIX) with true. cbn [negb].
  match goal with |- context [List.existsb ?f ?l] => change (List.existsb f l) with false end. cbv iota zeta.
  destruct path_join_drop_in as [Hp Hb]. rewrite Hp, Hb, drop_in_file_name. cbn [lift ok_or].
  cstep r. destruct r as [u | e]; [| apply Herr].
  cstep r. destruct r as [u1 | e]; [| apply Herr].
  cstep r. destruct r as [dir | e]; [| apply Herr].
  cstep r. destruct r as [base | e]; [| apply Herr].
  prog_hnf. destruct (path_starts_with dir base); cbn [negb]; [apply Hok | apply Herr].
Qed.
Lemma io_ok_mon {A} s (p : K (result A io_error)) (Φ : containment -> result A KataAgentError -> Prop) :
  cmon s p (λ s r, Φ s (map_err IoCause r)) -> cmon s (io_ok p) Φ.
Proof. intros Hp. apply mon_bind. exact Hp. Qed.

Lemma read_node_state_contained (Φ : containment -> result NodeState KataAgentError -> Prop) :
  (forall r, Φ Outside r) -> cmon Outside (read_node_state node) Φ.
Proof.
  intros HΦ. unfold read_node_state. prog_hnf. apply mon_Vis. intros r. cbn [containment_step api_confined].
  rewrite bool_decide_true by done. destruct r as [n | e]; [| apply HΦ]. prog_hnf.
  destruct (_ !! KATA_CONFIG_REF_ANNOTATION) as [raw |]; [| apply HΦ]. destruct (parse_kata_ref raw); apply HΦ.
Qed.

Lemma fetch_content_contained s k (Φ : containment -> result (option string) KataAgentError -> Prop) :
  (forall r, Φ s r) -> cmon s (fetch_content k) Φ.
Proof.
  intros HΦ. unfold fetch_content. destruct (decide (kr_kind k = "ConfigMap")); [| destruct (decide (kr_kind k = "Secret"))];
    [cstep r; apply HΦ.. | apply HΦ].
Qed.

Lemma record_outcome_contained s o prev (Φ : containment -> unit -> Prop) :
  (forall u, Φ s u) -> cmon s (record_outcome o prev) Φ.
Proof.
  intros HΦ. destruct o; (apply api_mon; [| exact HΦ]);
    [apply record_write_observes | apply record_delete_observes | apply stamp_observes].
Qed.

Lemma patch_contained s (c : host_call) (f : host_reply c -> result unit KataAgentError) (Φ : containment -> result unit KataAgentError -> Prop) :
  (exists body, c = Api (PatchNode MgmtClient node (MergePatch body)) /\ own_metadata body = true) ->
  (forall r, Φ s r) -> cmon s (Vis c (λ r, Ret (f r))) Φ.
Proof.
  intros (body & -> & Hb) HΦ. apply mon_Vis. intros r. cbn [containment_step api_confined].
  rewrite bool_decide_true, Hb by done. apply HΦ.
Qed.

(** C25: containment of the privileged agent: on every run, whatever the API
    and the file system answer, the only file it writes, renames or removes is
    [kata.toml], or its temporary file beside it, in the drop-in directory
    below [/etc/k0s] as canonicalised in that run and found below the canonical
    base; it creates no other directory; it runs no command but the restart of
    a service; and it writes nothing but its own record and label on its own
    node. *)
Theorem kata_contained : mon containment_step Outside (reconcile_once node root nsenter_restart_executor) (λ _ _, True).
Proof.
  unfold reconcile_once. apply mon_bind_ok, read_node_state_contained. intros [st | e]; [| done].
  destruct (kata_ref st) as [k |].
  - apply mon_bind_ok, io_ok_mon, confine_contained; [| done]. intros dir. apply mon_bind_ok, fetch_content_contained.
    intros [c | e]; [| done]. apply mon_bind_ok, io_ok_mon, sync_contained. intros pid [o | e]; [| done]. cbn [map_err].
    apply mon_bind, record_outcome_contained. intros _. cbv zeta. destruct (needs_restart _ _) eqn:Hr; [| done].
    apply mon_bind_ok. prog_hnf. apply patch_contained; [eexists; split; [done | by vm_compute] |]. intros [[] | e]; [| done].
    apply mon_bind. unfold restart_if_needed. rewrite Hr. cbn [negb]. apply mon_bind_ok. cstep r.
    destruct r as [st2 | e]; [| done]. prog_hnf. destruct (es_success st2); [| done]. prog_hnf. by apply mon_Vis.
  - apply mon_bind_ok, io_ok_mon, confine_contained; [| done]. intros dir.
    apply mon_bind_ok, io_ok_mon, sync_contained. intros pid [o | e]; [| done]. cbn [map_err]. apply mon_bind.
    assert (Hc : forall u : unit, cmon (Inside dir pid) (clear_optin node) (λ _ _, True)).
    { intros _. prog_hnf. apply patch_contained; [eexists; split; [done | by vm_compute] | done]. }
    case_bool_decide; [| apply (Hc tt)]. apply api_mon; [apply record_delete_observes | exact Hc].
Qed.
End confinement.
