(* ===== verification/KataProgress.v ===== *)
(** The Kata configuration agent with the rest of the world: its agreement with
    the controller that writes the annotation it reads, and what it achieves on
    a host that works. *)

From S2P Require Import Prelude RustStr Effects Constants Json Crd Externals KubeApi Metrics Assignment Fs.
From S2P Require Import Emergency Provision KataAgent KataSafety.

(** ** The agreement with the controller *)

(** Documented behaviour of [serde_json]: an object of the five string fields is
    read back as the structure. *)
Class KataRefLaws (X : Externals) (T : KataRefJson) : Prop := {
  kata_ref_printed : forall ns kind name key service,
    kata_ref_from_str (json_to_string (JObj [("namespace", JStr ns); ("kind", JStr kind); ("name", JStr name);
      ("key", JStr key); ("restartService", JStr service)])) =
    Ok {| kr_namespace := ns; kr_kind := kind; kr_name := name; kr_key := key; kr_restart_service := service |};
}.

(** What the agent reads of a node. *)
Definition reads_state `{KataRefJson} (n : string) (node : Node) (st : NodeState) : Prop :=
  exec (read_node_state n) [Ev (Api (GetNode MgmtClient n)) (Ok node)] (Ok st).

Definition ref_of (k : KataConfig) : KataRef := {|
  kr_namespace := kata_namespace k; kr_kind := KataConfigSourceKind_str (kata_kind k); kr_name := kata_name k;
  kr_key := kata_key k; kr_restart_service := kata_restart_service k |}.

Lemma agree_lookup node stored k : annotations_agree node stored ->
  default ∅ (n_annotations node) !! k = obj_get k (node_annotations stored) ≫= as_str.
Proof.
  intros Ha. transitivity (n_annotations node ≫= lookup k); [| exact (Ha k)].
  destruct (n_annotations node); cbn; [done | apply lookup_empty].
Qed.

Lemma reads_state_of `{KataRefJson} n node k st : applied st = default ∅ (n_annotations node) !! KATA_CONFIG_APPLIED_ANNOTATION ->
  match default ∅ (n_annotations node) !! KATA_CONFIG_REF_ANNOTATION with
  | Some raw => parse_kata_ref raw = Ok k /\ kata_ref st = Some k
  | None => kata_ref st = None
  end -> reads_state n node st.
Proof.
  intros Ha Hk. eexists _, _. split; [reflexivity |]. cbn. destruct (_ !! KATA_CONFIG_REF_ANNOTATION) as [raw |]; cbn in *.
  - destruct Hk as [-> Hk]. cbn. split; [done |]. f_equal. destruct st; cbn in *; congruence.
  - split; [done |]. f_equal. destruct st; cbn in *; congruence.
Qed.

(** The record survives the controller's patches, the reference the agent's. *)
Lemma applied_effect h node :
  obj_get KATA_CONFIG_APPLIED_ANNOTATION (node_annotations (merge_patch (applied_patch h) node)) = Some (JStr h) /\
  forall a, a <> KATA_CONFIG_APPLIED_ANNOTATION ->
    obj_get a (node_annotations (merge_patch (applied_patch h) node)) = obj_get a (node_annotations node).
Proof.
  unfold node_annotations, applied_patch. rewrite !jread_merge_single by done. split.
  - rewrite obj_get_merge. by apply merge_patch_single.
  - intros a Ha. rewrite obj_get_merge, merge_patch_frame; [done |]. cbn. set_solver.
Qed.

Lemma optout_effect node :
  obj_get KATA_CONFIG_APPLIED_ANNOTATION (node_annotations (merge_patch optout_patch node)) = None /\
  obj_get KATA_CONFIG_LABEL (node_labels (merge_patch optout_patch node)) = None.
Proof.
  unfold node_annotations, node_labels, optout_patch. rewrite !jread_merge_single by done.
  rewrite (jread_merge_get "annotations" (JObj [(KATA_CONFIG_APPLIED_ANNOTATION, JNull)])) by (first [nodup_keys | done]).
  rewrite (jread_merge_get "labels" (JObj [(KATA_CONFIG_LABEL, JNull)])) by (first [nodup_keys | done]).
  split; rewrite obj_get_merge; (apply merge_patch_null; [apply NoDup_singleton |]); by rewrite obj_get_cons, decide_True.
Qed.

(** C24: the Kata handshake: on any stored node, what the controller writes to
    deliver a configuration is read by the agent as exactly that reference, and
    what it writes to tear down as no reference; neither touches the agent's
    record. What the agent records is read back by it, with the reference kept,
    and its clean-up removes the record and the opt-in label the controller
    set. *)
Theorem kata_handshake `{KataRefLaws} n stored :
  let record s := obj_get KATA_CONFIG_APPLIED_ANNOTATION (node_annotations s) ≫= as_str in
  (forall kata node, annotations_agree node (merge_patch (deliver_patch kata) stored) ->
     reads_state n node {| kata_ref := Some (ref_of kata); applied := record stored |}) /\
  (forall node, annotations_agree node (merge_patch (build_kata_config_ref_annotation_patch None) stored) ->
     reads_state n node {| kata_ref := None; applied := record stored |}) /\
  (forall kata h node, annotations_agree node (merge_patch (applied_patch h) (merge_patch (deliver_patch kata) stored)) ->
     reads_state n node {| kata_ref := Some (ref_of kata); applied := Some h |}) /\
  record (merge_patch optout_patch stored) = None /\
  obj_get KATA_CONFIG_LABEL (node_labels (merge_patch optout_patch stored)) = None.
Proof.
  intros record. assert (Hne : KATA_CONFIG_APPLIED_ANNOTATION <> KATA_CONFIG_REF_ANNOTATION) by done.
  assert (Hp : forall k, parse_kata_ref (json_to_string (kata_ref_json k)) = Ok (ref_of k)) by (intros k; apply kata_ref_printed).
  split_and!.
  - intros kata node Ha. destruct (deliver_effect kata stored) as (_ & Hr & _ & Hf).
    apply (reads_state_of _ _ (ref_of kata)); rewrite (agree_lookup node _ _ Ha); [by rewrite Hf | by rewrite Hr].
  - intros node Ha. destruct (teardown_effect stored) as (Hr & Hf & _).
    apply (reads_state_of _ _ (ref_of (Build_KataConfig KindSecret "" "" "" ""))); rewrite (agree_lookup node _ _ Ha); [by rewrite Hf | by rewrite Hr].
  - intros kata h node Ha. destruct (deliver_effect kata stored) as (_ & Hr & _ & _).
    destruct (applied_effect h (merge_patch (deliver_patch kata) stored)) as [Hh Hf].
    apply (reads_state_of _ _ (ref_of kata)); rewrite (agree_lookup node _ _ Ha); [by rewrite Hh | by rewrite Hf, Hr].
  - unfold record. by rewrite (proj1 (optout_effect stored)).
  - apply optout_effect.
Qed.

(** ** A host that works

    Every call succeeds, directories are canonical, and a restart leaves the
    files alone. *)

Definition node_of (s : host) : Node := {|
  n_name := None; n_labels := None; n_annotations := Some (annots s); n_spec_taints := None;
  n_status_conditions := None; n_machine_id := None |}.

Definition host_ok (c : host_call) (s : host) : host * host_reply c :=
  match c return host * host_reply c with
  | Api c =>
      match c return host * reply c with
      | GetNode _ _ => (s, Ok (node_of s))
      | PatchNode _ _ p => (set_annots (patched_annots p (annots s)) s, Ok tt)
      | c => (s, (ok_handler c 0%Z).2)
      end
  | GetOptConfigMap ns n => (s, Ok (config_maps s !! (ns, n)))
  | GetOptSecret ns n => (s, Ok (secrets s !! (ns, n)))
  | FsRead p => (s, match files s !! p with Some c => Ok c | None => Err NotFoundIo end)
  | FsRemove p => match files s !! p with
                  | Some _ => (set_files (delete p (files s)) s, Ok tt)
                  | None => (s, Err NotFoundIo)
                  end
  | FsWrite p c => (set_files (<[p := c]> (files s)) s, Ok tt)
  | FsRename a b => match files s !! a with
                    | Some c => (set_files (<[b := c]> (delete a (files s))) s, Ok tt)
                    | None => (s, Err NotFoundIo)
                    end
  | FsCanonicalize p => (s, Ok p)
  | FsCreateDirAll _ | FsSetMode _ _ => (s, Ok tt)
  | ProcessId => (s, 7%Z)
  | RunCommand argv =>
      ({| files := files s; annots := annots s; config_maps := config_maps s; secrets := secrets s; commands := argv :: commands s |},
       Ok {| es_success := true; es_text := "exit status: 0" |})
  end.
Definition ok_after (s : host) (e : event host_reply) (s' : host) : Prop := let 'Ev c r := e in host_ok c s = (s', r).

Lemma host_ok_after c s : host_after s (Ev c (host_ok c s).2) (host_ok c s).1.
Proof.
  destruct c; cbn; try done.
  - by destruct c.
  - destruct (files s !! p) eqn:Hf; done.
  - destruct (files s !! p) eqn:Hf; cbn; [split; [by eexists | done] | done].
  - destruct (files s !! from) eqn:Hf; cbn; [by eexists | done].
Qed.
Lemma ok_after_after s e s' : ok_after s e s' -> host_after s e s'.
Proof. destruct e as [c r]. intros Hc. pose proof (host_ok_after c s) as Ha. cbn in Hc. by rewrite Hc in Ha. Qed.

Section progress.
Context `{Externals} `{KataRefJson} `{Sha256}.
Notation live := (hoare ok_after (λ _ _, True)).

(** One call of a run on the working host. *)
Ltac lstep := hoare_hnf; apply hoare_Vis; [done |]; intros ? ? [= <- <-].

Lemma sub_live {A} I s (p : K A) Q : hoare host_after I s p Q -> live s p Q.
Proof. intros Hp. apply (hoare_mono _ I _ _ Q Q); [by intros; split | done |]. eapply hoare_sub; [apply ok_after_after | exact Hp]. Qed.

Lemma live_and {A} I s (p : K A) (Q Q' : host -> A -> Prop) :
  hoare host_after I s p Q -> live s p Q' -> live s p (λ s a, Q s a /\ Q' s a).
Proof. intros Hp Hl. eapply hoare_mono; [| | apply hoare_and; [exact (sub_live I s p Q Hp) | exact Hl]]; by intros. Qed.

Lemma atomic_write_live dest content s : live s (atomic_write dest content) (λ _ r, r = Ok tt).
Proof.
  unfold atomic_write. do 2 lstep.
  hoare_hnf. match goal with |- context [FsRemove ?p] => set (tmp := p) end. apply hoare_Vis; [done |]. intros r s1 _. clear s. lstep. lstep. hoare_hnf. apply hoare_Vis; [done |].
  intros r2 s2 Ha. change (match files (set_files (<[tmp := content]> (files s1)) s1) !! tmp with
      | Some c => (set_files (<[dest := c]> (delete tmp (<[tmp := content]> (files s1)))) (set_files (<[tmp := content]> (files s1)) s1), Ok tt)
      | None => (set_files (<[tmp := content]> (files s1)) s1, Err NotFoundIo) end = (s2, r2)) in Ha.
  cbn [set_files files] in Ha. rewrite lookup_insert_eq in Ha. by injection Ha as <- <-.
Qed.

Lemma sync_content_live dest content s : live s (sync_content content dest) (λ _ r, exists o, r = Ok o).
Proof.
  unfold sync_content. lstep.
  assert (Hd : forall h, live s match decide_action content h with
     | Write => atomic_write dest (opt_string content) ?;; Ret (Ok (Wrote (sha256_hex (opt_string content))))
     | Delete => remove_if_present dest ?;; Ret (Ok Deleted) | NoOp => Ret (Ok (Unchanged h)) end (λ _ r, exists o, r = Ok o)).
  { intros h. destruct (decide_action content h); [| | by eexists].
    - apply hoare_bind_ok. eapply hoare_mono; [done | | apply atomic_write_live]. intros s1 r ->. by eexists.
    - hoare_hnf. apply hoare_Vis; [done |]. intros r s1 Ha. cbn [ok_after host_ok] in Ha.
      destruct (files s !! dest); injection Ha as <- <-; by eexists. }
  hoare_hnf. destruct (files s !! dest) as [c |]; apply Hd.
Qed.

Lemma confine_live root s (Q : host -> result path io_error -> Prop) :
  Q s (Ok (the_file (drop_in_dir root))) -> live s (confine_dest_path root KATA_CONFIG_DEST_PATH) Q.
Proof.
  intros HQ. unfold confine_dest_path.
  change (starts_with KATA_CONFIG_DEST_PATH KATA_CONFIG_DEST_BASE) with true.
  change (ends_with KATA_CONFIG_DEST_PATH DEST_FILE_SUFFIX) with true. cbn [negb].
  match goal with |- context [List.existsb ?f ?l] => change (List.existsb f l) with false end. cbv iota zeta.
  destruct (path_join_drop_in root) as [Hp Hb]. rewrite Hp, Hb, drop_in_file_name. cbn [lift ok_or].
  do 4 lstep. hoare_hnf.
  assert (Hs : path_starts_with (drop_in_dir root) (base_dir root) = true).
  { unfold path_starts_with, drop_in_dir, base_dir. cbn [p_absolute p_segments].
    apply andb_true_intro; split; apply bool_decide_true; [done |].
    change ["etc"; "k0s"; "containerd.d"] with (["etc"; "k0s"] ++ ["containerd.d"]). by rewrite (assoc app), take_app_length. }
  rewrite Hs. exact HQ.
Qed.

Lemma observe_live {A} s (p : M A) (Q : host -> A -> Prop) : calls observes p -> (forall a, Q s a) -> live s (api p) Q.
Proof. intros Hp HQ. eapply sub_live, (observe_hoare s); done. Qed.

Lemma read_node_state_live n s raw k : annots s !! KATA_CONFIG_REF_ANNOTATION = Some raw -> parse_kata_ref raw = Ok k ->
  live s (read_node_state n) (λ s' r, s' = s /\ r = Ok {| kata_ref := Some k; applied := recorded s |}).
Proof.
  intros Hraw Hk. unfold read_node_state. lstep. hoare_hnf. cbn [node_of n_annotations default from_option id].
  change (annots s !! KATA_CONFIG_REF_ANNOTATION = Some raw) in Hraw. rewrite Hraw. unfold result_bind. by rewrite Hk.
Qed.

Lemma fetch_content_live s k : kr_kind k = "ConfigMap" \/ kr_kind k = "Secret" ->
  live s (fetch_content k) (λ s' r, s' = s /\ r = Ok (source_content s k)).
Proof.
  intros Hk. unfold fetch_content, source_content. destruct (decide (kr_kind k = "ConfigMap")) as [| Hn]; [by lstep |].
  destruct (decide (kr_kind k = "Secret")); [by lstep | by destruct Hk].
Qed.

Lemma reconcile_live root n before raw k :
  annots before !! KATA_CONFIG_REF_ANNOTATION = Some raw -> parse_kata_ref raw = Ok k ->
  kr_kind k = "ConfigMap" \/ kr_kind k = "Secret" ->
  live before (reconcile_once n root nsenter_restart_executor) (λ now r, r = Ok tt /\
    content_hash (files now !! the_file (drop_in_dir root)) = due_hash before k /\
    config_maps now = config_maps before /\ secrets now = secrets before /\
    annots now !! KATA_CONFIG_REF_ANNOTATION = Some raw).
Proof.
  intros Hraw Hk Hkind. unfold reconcile_once. apply hoare_bind_ok.
  eapply hoare_mono; [done | | by eapply read_node_state_live]. intros ? ? [-> ->]. cbn [kata_ref applied].
  apply hoare_bind_ok, hoare_bind, confine_live. cbn [map_err]. hoare_hnf. apply hoare_bind_ok.
  eapply hoare_mono; [done | | by apply fetch_content_live]. intros ? ? [-> ->]. apply hoare_bind_ok, hoare_bind.
  eapply hoare_mono; [done | | eapply live_and; [apply (sync_guarded before before); by eexists | apply sync_content_live]].
  intros s r [[Hc Ho] [o ->]]. cbn [map_err]. hoare_hnf. destruct (Ho o eq_refl) as [Hf Hi]. destruct Hc as (Ha & Hcm & Hsec & _).
  apply hoare_bind. eapply (hoare_mono _ _ _ _ (λ s' _, s' = s)); [done | |
    destruct o; (apply observe_live; [| done]); [apply record_write_observes | apply record_delete_observes | apply stamp_observes]].
  intros ? _ ->. cbv zeta. destruct (needs_restart _ _) eqn:Hr; [| cbn [hoare]; rewrite Ha; by split_and!].
  apply hoare_bind_ok. unfold record_applied. lstep. hoare_hnf. apply hoare_bind. unfold restart_if_needed. rewrite Hr. cbn [negb].
  apply hoare_bind_ok. lstep. hoare_hnf. lstep. hoare_hnf. split_and!; [done | exact Hf | exact Hcm | exact Hsec |].
  change (<[KATA_CONFIG_APPLIED_ANNOTATION := intended_hash_for o]> (annots s) !! KATA_CONFIG_REF_ANNOTATION = Some raw).
  by rewrite lookup_insert_ne, Ha.
Qed.

End progress.

(** C22: progress and self-healing of the agent: on a host whose calls succeed,
    one reconcile makes the host file agree with the referenced source, records
    it and, if it was not recorded, restarts the service once; every later
    reconcile of the same source, from whatever state the files have drifted
    to, restores the file and restarts nothing. *)
Theorem kata_converges `{Externals} `{KataRefJson} `{Sha256} root n before raw k :
  annots before !! KATA_CONFIG_REF_ANNOTATION = Some raw -> parse_kata_ref raw = Ok k ->
  kr_kind k = "ConfigMap" \/ kr_kind k = "Secret" ->
  let tick s := run host_ok s (reconcile_once n root nsenter_restart_executor) in
  let agrees s := content_hash (files s !! the_file (drop_in_dir root)) = due_hash before k in
  let now := (tick before).1.1 in
  (tick before).2 = Ok tt /\ agrees now /\ recorded now = Some (due_hash before k) /\
  (commands now = if decide (recorded before = Some (due_hash before k)) then commands before
                  else nsenter_restart_argv (kr_restart_service k) :: commands before) /\
  forall drifted, let later := set_files drifted now in
    (tick later).2 = Ok tt /\ agrees (tick later).1.1 /\ commands (tick later).1.1 = commands now.
Proof.
  intros Hraw Hk Hkind tick agrees now.
  assert (Hrun : forall s, annots s !! KATA_CONFIG_REF_ANNOTATION = Some raw ->
    (tick_done s (tick s).1.1) /\ (tick s).2 = Ok tt /\ content_hash (files (tick s).1.1 !! the_file (drop_in_dir root)) = due_hash s k /\
    config_maps (tick s).1.1 = config_maps s /\ secrets (tick s).1.1 = secrets s /\
    annots (tick s).1.1 !! KATA_CONFIG_REF_ANNOTATION = Some raw).
  { intros s Hs. pose proof (hoare_run host_ok _ _ _ _ (live_and _ _ _ _ _ (reconcile_once_hoare root n s) (reconcile_live root n s raw k Hs Hk Hkind))) as [Hd Hl].
    split; [exact (Hd (proj1 Hl)) | exact Hl]. }
  destruct (Hrun before Hraw) as (Hd & Hr & Hf & Hcm & Hsec & Ha). fold now in Hd, Hf, Hcm, Hsec, Ha.
  unfold tick_done in Hd. rewrite Hraw in Hd. destruct Hd as (k' & Hk' & Hrec & Hcmd).
  rewrite Hk in Hk'. injection Hk' as <-. split_and!; [done | exact Hf | exact Hrec | exact Hcmd |].
  intros drifted later. assert (Hdue : due_hash later k = due_hash before k).
  { unfold due_hash, source_content. cbn. by rewrite Hcm, Hsec. }
  destruct (Hrun later Ha) as (Hd2 & Hr2 & Hf2 & _). unfold tick_done in Hd2. change (annots later) with (annots now) in Hd2.
  rewrite Ha in Hd2. destruct Hd2 as (k2 & Hk2 & _ & Hcmd2). rewrite Hk in Hk2. injection Hk2 as <-.
  rewrite Hdue in Hf2, Hcmd2. split_and!; [done | exact Hf2 |]. rewrite Hcmd2.
  by rewrite decide_True by exact Hrec.
Qed.

(** ** A concrete host *)

(** JSON of a reference, printed in binary. *)
Definition print_fields (v : json) : string :=
  match v with
  | JObj [(_, JStr a); (_, JStr b); (_, JStr c); (_, JStr d); (_, JStr e)] => pos_bits (encode [a; b; c; d; e])
  | _ => "{}"
  end.
Definition binary_json : Externals := {|
  kube_error_display := kube_error_display (Externals := toy_externals);
  to_rfc3339 := toy_print_time; parse_from_rfc3339 := toy_parse_time;
  json_to_string := print_fields; json_from_str := json_from_str (Externals := toy_externals);
  toml_strings_table := λ _, ""; unicode_to_lowercase := λ s, s; unicode_escape_debug := λ s, s;
  dynamic_object_error := λ _, None; kubeconfig_yaml_error := λ _, None; kubeconfig_config_error := λ _, None;
  kubeconfig_client_error := λ _, None; utf8_error := λ _, None;
|}.
Definition binary_ref : KataRefJson := λ s,
  match decode (A := list string) (bits_pos s) with
  | Some [a; b; c; d; e] =>
      Ok {| kr_namespace := a; kr_kind := b; kr_name := c; kr_key := d; kr_restart_service := e |}
  | _ => Err "expected five fields"
  end.
#[export] Instance binary_ref_laws : KataRefLaws binary_json binary_ref.
Proof.
  constructor. intros. unfold kata_ref_from_str, binary_ref. cbn [json_to_string binary_json print_fields].
  by rewrite bits_pos_bits, decode_encode.
Qed.
(** A digest that keeps everything. *)
Definition plain_digest : Sha256 := λ s, s.

Definition sample_kata : KataConfig := Build_KataConfig KindConfigMap "kata" "team" "kata.toml" "k0sworker".
Definition sample_host : host := {|
  files := ∅;
  annots := {[ KATA_CONFIG_REF_ANNOTATION := @json_to_string binary_json (kata_ref_json sample_kata) ]};
  config_maps := {[ ("team", "kata") := Some {[ "kata.toml" := "[plugins]" ]} ]};
  secrets := ∅; commands := [] |}.
Definition sample_root : path := {| p_absolute := true; p_segments := ["host"] |}.

Lemma sample_parses : @parse_kata_ref binary_ref (@json_to_string binary_json (kata_ref_json sample_kata)) = Ok (ref_of sample_kata).
Proof. apply kata_ref_printed. Qed.

Lemma kata_converges_witness :
  let now := (run host_ok sample_host (@reconcile_once binary_json binary_ref plain_digest "n1" sample_root nsenter_restart_executor)).1.1 in
  commands now = [nsenter_restart_argv "k0sworker"] /\
  @content_hash plain_digest (files now !! the_file (drop_in_dir sample_root)) = @sha256_hex plain_digest "[plugins]".
Proof.
  destruct (@kata_converges binary_json binary_ref plain_digest sample_root "n1" sample_host _ (ref_of sample_kata)
              (lookup_singleton_eq _ _) sample_parses (or_introl eq_refl)) as (_ & Hf & _ & Hc & _).
  split; [| exact Hf]. etrans; [exact Hc |]. by vm_compute.
Defined.

Lemma sync_content_crash_safe_witness :
  let dest := path_push sample_root "kata.toml" in
  let '(now, _, r) := run host_ok sample_host (@sync_content plain_digest (Some "[plugins]") dest) in
  @sync_done plain_digest dest (Some "[plugins]") sample_host now r.
Proof.
  destruct (run_evolve host_after host_ok (@sync_content plain_digest (Some "[plugins]") (path_push sample_root "kata.toml"))
              host_ok_after sample_host) as [He Hv].
  cbv zeta. destruct (run _ _ _) as [[now t] r].
  exact (proj2 (@sync_content_crash_safe plain_digest _ (Some "[plugins]") sample_host (drop_in_named _ (ex_intro _ sample_root eq_refl))) t r now He Hv).
Defined.

Definition delivered_node : Node := {|
  n_name := Some "n1"; n_labels := None;
  n_annotations := Some {[ KATA_CONFIG_REF_ANNOTATION := @json_to_string binary_json (kata_ref_json sample_kata) ]};
  n_spec_taints := None; n_status_conditions := None; n_machine_id := None |}.

Lemma delivered_agrees : annotations_agree delivered_node (merge_patch (@deliver_patch binary_json sample_kata) (JObj [])).
Proof.
  intros k. destruct (@deliver_effect binary_json sample_kata (JObj [])) as (_ & Hr & _ & Hf).
  change (annotations_of ?x) with (node_annotations x).
  destruct (decide (k = KATA_CONFIG_REF_ANNOTATION)) as [-> | Hne]; [rewrite Hr; apply lookup_singleton_eq |].
  rewrite Hf by done. by apply lookup_singleton_ne.
Qed.

Lemma kata_handshake_witness :
  @reads_state binary_ref "n1" delivered_node {| kata_ref := Some (ref_of sample_kata); applied := None |}.
Proof.
  exact (proj1 (@kata_handshake binary_json binary_ref binary_ref_laws "n1" (JObj [])) sample_kata delivered_node delivered_agrees).
Defined.
