(* ===== verification/Processes.v ===== *)
(** The processes around the Kata agent and the schedule providers ([main] of
    [src/bin/kata_config_agent.rs], [src/bin/spot_schedule_time_based.rs] and
    [src/bin/spot_schedule_capital_markets.rs], [run] of the two providers),
    and the metrics endpoint every process serves ([serve_metrics] of
    [src/metrics.rs]); and the generator of the CRDs ([src/bin/crdgen.rs]). *)

From S2P Require Import Prelude RustStr Effects Constants Json Crd Externals KubeApi Metrics Fs Provision KataAgent.

(** The answer of [/metrics], from what the encoder made of the registry. *)
Definition metrics_reply (encoded : result string string) : Z * string :=
  match encoded with
  | Ok buffer => (200%Z, from_utf8_lossy buffer)
  | Err e => (500%Z, "# Error encoding metrics: " +:+ e +:+ String (ascii_of_nat 10) "")
  end.

Inductive ProviderKind : Type := TimeBasedKind | CapitalMarketsKind.

(** [RunProvider]: a controller over all the objects of the kind, with the
    provider's [reconcile] and [error_policy], until a signal. *)
Inductive proc_call : Type :=
| Host (c : host_call)
| TryDefaultClient
| SpawnMetricsServer (port : Z)
| SleepSecs (n : Z)
| RunProvider (kind : ProviderKind).
Definition proc_reply (c : proc_call) : Type :=
  match c with
  | Host c => host_reply c
  | TryDefaultClient => result unit string
  | SpawnMetricsServer _ | SleepSecs _ | RunProvider _ => unit
  end%type.
#[local] Notation P := (prog proc_reply).

(** [Client::try_default().await.context(..)?] *)
Definition try_default_client : P (result unit string) :=
  r <- (call TryDefaultClient : P (result unit string)) ;;
  Ret (map_err (λ e, "building in-cluster kube client: " +:+ e) r).
Definition spawn_metrics (port : Z) : P unit := call (SpawnMetricsServer port).
Definition sleep_secs (n : Z) : P unit := call (SleepSecs n).
Definition on_host {A} (p : prog host_reply A) : P A := embed (λ c, call (R := proc_reply) (Host c)) p.

(** ** The providers *)

Definition run_provider (kind : ProviderKind) : P unit := call (RunProvider kind).
Definition time_based_run : P (result unit string) := run_provider TimeBasedKind ;;; Ret (Ok tt).
Definition capital_markets_run : P (result unit string) := run_provider CapitalMarketsKind ;;; Ret (Ok tt).

Definition time_based_main (metrics_port : Z) : P (result unit string) :=
  _client <-? try_default_client ;;
  spawn_metrics metrics_port ;;;
  time_based_run.
Definition capital_markets_main (metrics_port : Z) : P (result unit string) :=
  _client <-? try_default_client ;;
  spawn_metrics metrics_port ;;;
  capital_markets_run.

(** ** The Kata agent *)

Record KataCli : Type := {
  kc_node_name : string;
  kc_host_root : path;
  kc_poll_interval_secs : Z;
  kc_metrics_port : Z;
  kc_oneshot : bool;
}.

Section kata.
Context `{Externals} `{KataRefJson} `{Sha256} (cli : KataCli).

Definition interval : Z := Z.max 1 (kc_poll_interval_secs cli).

Definition kata_turn (_ : unit) : P (unit + result unit string) :=
  on_host (kata_tick (kc_node_name cli) (kc_host_root cli) nsenter_restart_executor) ;;;
  if kc_oneshot cli then Ret (inr (Ok tt)) else sleep_secs interval ;;; Ret (inl tt).

(** [n] bounds the turns of the endless loop. *)
Definition kata_main (n : nat) : P (option (result unit string)) :=
  client <- try_default_client ;;
  match client with
  | Err e => Ret (Some (Err e))
  | Ok _ =>
      (if kc_oneshot cli then Ret tt else spawn_metrics (kc_metrics_port cli)) ;;;
      iterate n kata_turn tt
  end.

(** What the process did itself, the calls of the ticks left out. *)
Definition own (e : event proc_reply) : bool := match ev_call e with Host _ => false | _ => true end.

Lemma on_host_own {A} (p : prog host_reply A) : forall t a, exec (on_host p) t a -> List.filter own t = [].
Proof.
  unfold on_host. induction p as [a | c k IH]; cbn; intros t a' He; [by destruct He as [-> _] |].
  destruct He as (r & t' & -> & He). cbn. by eapply IH.
Qed.

Lemma exec_turns n : kc_oneshot cli = false -> forall t o,
  exec (iterate n kata_turn tt) t o -> o = None /\ List.filter own t = replicate n (Ev (SleepSecs interval) tt).
Proof.
  intros Ho. induction n as [| n IH]; intros t o He; cbn [iterate] in He.
  - by destruct He as [-> ->].
  - apply exec_bind in He as (t1 & r & t2 & -> & Hb & He). unfold kata_turn in Hb.
    apply exec_bind in Hb as (t3 & [] & t4 & -> & Htick & Hb). rewrite Ho in Hb.
    destruct Hb as ([] & t5 & -> & -> & ->). apply IH in He as [-> Ht2]. split; [done |].
    rewrite !List.filter_app, (on_host_own _ _ _ Htick), Ht2. done.
Qed.
End kata.

(** The Kata agent's process: once it has a client it never ends by itself,
    whatever its ticks meet, and sleeps at least a second after each; as a
    one-shot it serves nothing, makes one tick and ends with success. *)
Theorem kata_process `{Externals} `{KataRefJson} `{Sha256} cli n t o :
  exec (kata_main cli (S n)) t o ->
  (exists e, List.filter own t = [Ev TryDefaultClient (Err e)] /\ o = Some (Err ("building in-cluster kube client: " +:+ e))) \/
  (kc_oneshot cli = true /\ o = Some (Ok tt) /\ List.filter own t = [Ev TryDefaultClient (Ok tt)]) \/
  (kc_oneshot cli = false /\ o = None /\ exists secs, (1 <= secs)%Z /\
     List.filter own t = Ev TryDefaultClient (Ok tt) :: Ev (SpawnMetricsServer (kc_metrics_port cli)) tt ::
                         replicate (S n) (Ev (SleepSecs secs) tt)).
Proof.
  unfold kata_main. intros He. apply exec_bind in He as (t1 & r & t2 & -> & Hc & He).
  destruct Hc as (r' & t3 & -> & [-> ->]). destruct r' as [[] | e]; cbn [map_err] in He.
  2: { destruct He as [-> ->]. left. by exists e. }
  right. destruct (kc_oneshot cli) eqn:Ho.
  - left. cbn [bind iterate] in He. apply exec_bind in He as (t4 & o' & t5 & -> & Hb & He). unfold kata_turn in Hb.
    apply exec_bind in Hb as (t6 & [] & t7 & -> & Htick & Hb). rewrite Ho in Hb. destruct Hb as [-> ->]. destruct He as [-> ->].
    split_and!; [done | done |]. cbn. by rewrite !List.filter_app, (on_host_own _ _ _ Htick).
  - right. destruct He as ([] & t4 & -> & He). apply exec_turns in He as [-> Ht]; [| done].
    split_and!; [done | done |]. exists (interval cli). split; [unfold interval; lia |]. cbn. by rewrite Ht.
Qed.

(** ** [crdgen] ([src/bin/crdgen.rs]): what it prints, from the derived YAML of
    each type *)

Inductive CrdSelector : Type := SelScheduledMachine | SelTimeBasedSpotSchedule | SelCapitalMarketsSchedule.
Definition all_selectors : list CrdSelector := [SelScheduledMachine; SelTimeBasedSpotSchedule; SelCapitalMarketsSchedule].

(** The loop over [ALL], from index [i]. *)
Fixpoint print_all (render : CrdSelector -> string) (i : nat) (l : list CrdSelector) : string :=
  match l with
  | [] => ""
  | s :: l => (if bool_decide (0 < i) then "---" +:+ String (ascii_of_nat 10) "" else "") +:+ render s +:+ print_all render (S i) l
  end.
Definition crdgen_main (render : CrdSelector -> string) (crd : option CrdSelector) : string :=
  match crd with Some s => render s | None => print_all render 0 all_selectors end.

(** Without a selector: every type once, between document markers. *)
Lemma crdgen_stream render :
  crdgen_main render None = str_join ("---" +:+ String (ascii_of_nat 10) "") (render <$> all_selectors).
Proof. cbn. by rewrite ?str_app_assoc, ?str_app_nil. Qed.
