(* ===== verification/Vex.v ===== *)
(** The VEX generators ([src/auto_vex_presence.rs] and
    [src/auto_vex_reachability.rs]): which findings of a scan are declared not
    to affect the product.

    What the tools read from files is an argument: the parsed reports, the
    directory listing with the contents of its files, the text of [nm]. *)

From S2P Require Import Prelude RustStr Json Fs.

(** ** Inputs *)

Record GrypeMatch : Type := { gm_id : string; gm_purl : option string }.
Record GrypeReport : Type := { matches : list GrypeMatch }.
Record SbomComponent : Type := { sc_purl : option string }.
Record Sbom : Type := { components : option (list SbomComponent) }.

(** ** OpenVEX documents *)

Record Statement : Type := {
  vulnerability : string;
  products : list string;
  status : string;
  justification : option string;
  impact_statement : option string;
  st_timestamp : string;
}.
Record Document : Type := {
  doc_context : string;
  doc_id : string;
  author : string;
  doc_timestamp : string;
  version : Z;
  statements : list Statement;
}.

Definition OPENVEX_CONTEXT : string := "https://openvex.dev/ns/v0.2.0".
Definition OPENVEX_VERSION : Z := 1.
Definition AUTO_IMPACT_STATEMENT : string :=
  "Auto-derived by auto-vex-presence: the vulnerable component's package URL is not present in any release SBOM, so the CVE cannot be exploited against this product.".
Definition AUTO_IMPACT_PREFIX : string :=
  "Auto-derived by auto-vex-reachability: the Rust controller binary's dynamic symbol-import table contains none of the documented entry points for this CVE".

Definition build_document (statements : list Statement) (id author timestamp : string) : Document := {|
  doc_context := OPENVEX_CONTEXT; doc_id := id; author := author; doc_timestamp := timestamp;
  version := OPENVEX_VERSION; statements := statements |}.

(** ** [BTreeMap::into_values] *)

Definition str_le (a b : string) : Prop := String.leb a b = true.
#[export] Instance str_le_dec : RelDecision str_le.
Proof. intros a b. unfold str_le. apply _. Defined.
Definition into_values {V} (m : gmap string V) : list V := omap (λ k, m !! k) (merge_sort str_le (elements (dom m))).

(** ** Presence *)

Definition presence_statement (cve product_purl timestamp : string) : Statement := {|
  vulnerability := cve; products := [product_purl]; status := "not_affected";
  justification := Some "component_not_present"; impact_statement := Some AUTO_IMPACT_STATEMENT;
  st_timestamp := timestamp |}.

Definition sbom_purls (sboms : list Sbom) : gset string :=
  list_to_set (omap sc_purl (sboms ≫= λ s, default [] (components s))).

Fixpoint presence_loop (purls already_triaged : gset string) (product_purl timestamp : string)
    (ms : list GrypeMatch) (emitted : gmap string Statement) : gmap string Statement :=
  match ms with
  | [] => emitted
  | m :: ms =>
      let continue := presence_loop purls already_triaged product_purl timestamp ms in
      let cve := gm_id m in
      if bool_decide (cve ∈ already_triaged) then continue emitted
      else if bool_decide (is_Some (emitted !! cve)) then continue emitted
      else match gm_purl m with
           | Some p =>
               if str_is_empty p then continue emitted
               else if bool_decide (p ∈ purls) then continue emitted
               else continue (<[cve := presence_statement cve product_purl timestamp]> emitted)
           | None => continue emitted
           end
  end.

Definition compute_presence_vex (grype : GrypeReport) (sboms : list Sbom) (already_triaged : gset string)
    (product_purl statement_timestamp : string) : list Statement :=
  into_values (presence_loop (sbom_purls sboms) already_triaged product_purl statement_timestamp (matches grype) ∅).

(** ** Reachability *)

Definition reachability_impact (fns : list string) : string :=
  AUTO_IMPACT_PREFIX +:+ " (" +:+ str_join ", " fns +:+
  "). The dynamic symbol-import table was inspected via `nm -D --undefined-only` against the release artifact; none of the listed entry points were found.".
Definition reachability_statement (cve : string) (fns : list string) (product_purl timestamp : string) : Statement := {|
  vulnerability := cve; products := [product_purl]; status := "not_affected";
  justification := Some "vulnerable_code_not_in_execute_path"; impact_statement := Some (reachability_impact fns);
  st_timestamp := timestamp |}.

Fixpoint reachability_loop (imported_symbols : gset string) (affected_functions : gmap string (list string))
    (already_triaged : gset string) (product_purl timestamp : string) (ms : list GrypeMatch)
    (emitted : gset string) (acc : gmap string Statement) : gmap string Statement :=
  match ms with
  | [] => acc
  | m :: ms =>
      let continue := reachability_loop imported_symbols affected_functions already_triaged product_purl timestamp ms in
      let cve := gm_id m in
      if bool_decide (cve ∈ already_triaged) then continue emitted acc
      else if bool_decide (cve ∈ emitted) then continue emitted acc
      else match affected_functions !! cve with
           | None | Some [] => continue emitted acc
           | Some fns =>
               if List.existsb (λ f, bool_decide (f ∈ imported_symbols)) fns then continue emitted acc
               else continue ({[cve]} ∪ emitted) (<[cve := reachability_statement cve fns product_purl timestamp]> acc)
           end
  end.

Definition compute_reachability_vex (grype : GrypeReport) (imported_symbols : gset string)
    (affected_functions : gmap string (list string)) (already_triaged : gset string)
    (product_purl statement_timestamp : string) : list Statement :=
  into_values (reachability_loop imported_symbols affected_functions already_triaged product_purl statement_timestamp
                 (matches grype) ∅ ∅).

(** ** Reading the inputs *)

Definition newline : ascii := ascii_of_nat 10.
Definition carriage_return : ascii := ascii_of_nat 13.

(** [str::lines]: a line ends with a newline, before which a carriage return
    goes; what follows the last newline is a line if it is not empty. *)
Definition strip_cr (s : string) : string :=
  if bool_decide (str_last s = Some carriage_return) then str_init s else s.
Fixpoint close_lines (pieces : list string) : list string :=
  match pieces with
  | [] => []
  | [last] => if str_is_empty last then [] else [last]
  | p :: pieces => strip_cr p :: close_lines pieces
  end.
Definition lines (s : string) : list string := close_lines (split_char newline s).

(** [str::split_whitespace]; each step removes a byte at least. *)
Definition flush (token : string) (l : list string) : list string := if str_is_empty token then l else token :: l.
Fixpoint split_ws (fuel : nat) (token s : string) : list string :=
  match fuel with
  | O => flush token []
  | S n =>
      match strip_one white_space s with
      | Some s' => flush token (split_ws n "" s')
      | None => match s with
                | EmptyString => flush token []
                | String a s' => split_ws n (token +:+ String a "") s'
                end
      end
  end.
Definition split_whitespace (s : string) : list string := split_ws (String.length s) "" s.

Definition type_column (t : string) : bool :=
  match t with String a EmptyString => is_ascii_alphabetic a | _ => false end.

(** The tokens from the type column on. *)
Fixpoint from_type_column (tokens : list string) : list string :=
  match tokens with
  | [] => []
  | t :: rest => if type_column t then tokens else from_type_column rest
  end.

Definition nm_symbol (line : string) : option string :=
  let trimmed := trim line in
  if str_is_empty trimmed || starts_with trimmed "#" then None
  else match from_type_column (split_whitespace trimmed) with
       | t :: name :: _ =>
           if bool_decide (t <> "U") then None
           else let bare := match split_once "@" name with Some (b, _) => b | None => name end in
                if str_is_empty bare then None else Some bare
       | _ => None
       end.
Definition parse_nm_output (input : string) : gset string := list_to_set (omap nm_symbol (lines input)).

(** [load_affected_functions_from_path], on the parsed file. *)
Definition affected_functions_of (path : string) (raw : json) : result (gmap string (list string)) string :=
  match as_object raw with
  | None => Err (path +:+ ": top level must be a JSON object")
  | Some obj =>
      Ok (foldl (λ out kv,
            if starts_with kv.1 "_" then out
            else match as_array kv.2 with
                 | None => out
                 | Some arr => match mapM as_str arr with
                               | Some fns => <[kv.1 := fns]> out
                               | None => out
                               end
                 end) ∅ obj)
  end.

(** [OsStr::to_str]: only UTF-8 names. *)
Definition to_str (s : string) : option string := if bool_decide (from_utf8_lossy s = s) then Some s else None.

Section triaged.
(** [std::fs::read] of a path, and [serde_json::from_slice] at [Document]. *)
Context (read : path -> result string io_error) (document_from_slice : string -> result Document string) (display : path -> string).

Definition is_statement_file (p : path) : bool :=
  bool_decide (extension p ≫= to_str = Some "json") &&
  negb (match file_name p ≫= to_str with Some n => starts_with n "." | None => false end).

Fixpoint load_entries (entries : list (result path io_error)) (triaged : gset string) : result (gset string) io_error :=
  match entries with
  | [] => Ok triaged
  | entry :: entries =>
      let? p := entry in
      if negb (is_statement_file p) then load_entries entries triaged
      else
        let? bytes := read p in
        let? doc := map_err (λ e, OtherIo (display p +:+ ": " +:+ e)) (document_from_slice bytes) in
        load_entries entries (list_to_set (vulnerability <$> statements doc) ∪ triaged)
  end.

Definition load_triaged_from_vex_dir (listing : result (list (result path io_error)) io_error) : result (gset string) io_error :=
  match listing with
  | Ok entries => load_entries entries ∅
  | Err NotFoundIo => Ok ∅
  | Err e => Err e
  end.
End triaged.

(** ** Order of the output *)

Lemma ascii_compare_lt_trans a b c : Ascii.compare a b = Lt -> Ascii.compare b c = Lt -> Ascii.compare a c = Lt.
Proof. unfold Ascii.compare. rewrite !N.compare_lt_iff. apply N.lt_trans. Qed.
Lemma ascii_compare_eq a b : Ascii.compare a b = Eq <-> a = b.
Proof.
  unfold Ascii.compare. rewrite N.compare_eq_iff. split; [| by intros ->].
  intros Hn. rewrite <- (ascii_N_embedding a), <- (ascii_N_embedding b). by rewrite Hn.
Qed.

Lemma str_compare_lt_trans a : forall b c, String.compare a b = Lt -> String.compare b c = Lt -> String.compare a c = Lt.
Proof.
  induction a as [| x a IH]; intros [| y b] [| z c]; cbn; try done. intros H1 H2.
  destruct (Ascii.compare x y) eqn:Hxy; [| | done].
  - apply ascii_compare_eq in Hxy as ->. destruct (Ascii.compare y z); [by eapply IH | done | done].
  - destruct (Ascii.compare y z) eqn:Hyz; [| | done].
    + apply ascii_compare_eq in Hyz as ->. by rewrite Hxy.
    + by rewrite (ascii_compare_lt_trans x y z).
Qed.

Lemma str_le_spec a b : str_le a b <-> String.compare a b = Lt \/ a = b.
Proof.
  unfold str_le, String.leb. destruct (String.compare a b) eqn:Hc.
  - apply String.compare_eq_iff in Hc. naive_solver.
  - naive_solver.
  - split; [done |]. intros [? | ->]; [done |]. pose proof (String.compare_antisym b b) as Ha. by rewrite Hc in Ha.
Qed.

#[export] Instance str_le_total : Total str_le.
Proof. intros a b. destruct (String.leb_total a b) as [Hl | Hl]; [by left | by right]. Qed.
#[export] Instance str_le_trans : Transitive str_le.
Proof.
  intros a b c. rewrite !str_le_spec. intros [H1 | ->] [H2 | ->]; auto. left. by eapply str_compare_lt_trans.
Qed.

(** Strictly increasing names. *)
Definition by_name (l : list Statement) : Prop := StronglySorted (λ a b, String.compare (vulnerability a) (vulnerability b) = Lt) l.

Lemma into_values_spec (m : gmap string Statement) : (forall k s, m !! k = Some s -> vulnerability s = k) ->
  by_name (into_values m) /\ forall s, s ∈ into_values m <-> m !! vulnerability s = Some s.
Proof.
  intros Hm. unfold into_values. set (keys := merge_sort str_le (elements (dom m))).
  assert (Hperm : keys ≡ₚ elements (dom m)) by apply merge_sort_Permutation.
  assert (Hdom : forall k, k ∈ keys -> is_Some (m !! k)).
  { intros k Hk. rewrite Hperm, elem_of_elements in Hk. by apply elem_of_dom. }
  assert (Hnd : NoDup keys) by (rewrite Hperm; apply NoDup_elements).
  assert (Hs : StronglySorted str_le keys) by (apply Sorted_StronglySorted; [apply _ | apply (Sorted_merge_sort _)]).
  split.
  - clear Hperm. unfold by_name. induction keys as [| k keys IH]; [constructor |].
    apply NoDup_cons in Hnd as [Hni Hnd]. apply StronglySorted_inv in Hs as [Hs Hk]. cbn.
    destruct (Hdom k) as [s Hsk]; [by left |]. rewrite Hsk. constructor; [apply IH; [| done..]; intros; apply Hdom; by right |].
    apply Forall_forall. intros s' (k' & Hk' & Hs')%list_elem_of_omap. rewrite (Hm k s Hsk), (Hm k' s' Hs').
    destruct (proj1 (str_le_spec k k') (proj1 (Forall_forall _ _) Hk k' Hk')) as [? | ->]; done.
  - intros s. rewrite list_elem_of_omap. split.
    + intros (k & _ & Hk). by rewrite (Hm k s Hk).
    + intros Hk. exists (vulnerability s). split; [| done]. rewrite Hperm, elem_of_elements, elem_of_dom. by eexists.
Qed.

(** ** The loops against a reference: the first finding of an identifier that
    passes a test decides its statement *)

Fixpoint emit (test : GrypeMatch -> option Statement) (ms : list GrypeMatch) (emitted : gmap string Statement) : gmap string Statement :=
  match ms with
  | [] => emitted
  | m :: ms => emit test ms match emitted !! gm_id m, test m with
                            | None, Some s => <[gm_id m := s]> emitted
                            | _, _ => emitted
                            end
  end.

Lemma emit_spec test (f : string -> Statement) ms : (forall m s, test m = Some s -> s = f (gm_id m)) -> forall emitted k s,
  emit test ms emitted !! k = Some s <->
  emitted !! k = Some s \/ (emitted !! k = None /\ exists m, m ∈ ms /\ gm_id m = k /\ test m = Some s).
Proof.
  intros Hf. induction ms as [| m ms IH]; intros emitted k s; cbn [emit]; [set_solver |]. rewrite IH. clear IH.
  setoid_rewrite elem_of_cons.
  destruct (emitted !! gm_id m) as [s0 |] eqn:He; [| destruct (test m) as [s0 |] eqn:Ht].
  - split; [naive_solver |]. intros [? | (Hk & m' & [-> | ?] & <- & Hm)]; [by left | congruence | right; eauto 10].
  - destruct (decide (gm_id m = k)) as [<- | Hne].
    + rewrite lookup_insert_eq, He. split; [naive_solver |]. intros [? | (_ & m' & Hm & Hid & Ht')]; [done |].
      left. f_equal. rewrite (Hf m s0 Ht), (Hf m' s Ht'). congruence.
    + rewrite lookup_insert_ne by done. naive_solver.
  - naive_solver.
Qed.

Definition presence_test (purls triaged : gset string) (product_purl ts : string) (m : GrypeMatch) : option Statement :=
  if bool_decide (gm_id m ∈ triaged) then None
  else p ← gm_purl m; if str_is_empty p || bool_decide (p ∈ purls) then None else Some (presence_statement (gm_id m) product_purl ts).

Lemma presence_loop_emit purls triaged purl ts ms : forall emitted,
  presence_loop purls triaged purl ts ms emitted = emit (presence_test purls triaged purl ts) ms emitted.
Proof.
  induction ms as [| m ms IH]; intros emitted; cbn [presence_loop emit]; [done |]. unfold presence_test at 2.
  case_bool_decide; [rewrite IH; by destruct (emitted !! gm_id m) |].
  destruct (emitted !! gm_id m) as [s |]; [by rewrite bool_decide_true by eauto | rewrite bool_decide_false by (by intros [])].
  destruct (gm_purl m) as [p |]; cbn; [| done]. destruct (str_is_empty p); cbn; [done |]. by case_bool_decide.
Qed.

Definition reachability_test (imported : gset string) (affected : gmap string (list string)) (triaged : gset string)
    (product_purl ts : string) (m : GrypeMatch) : option Statement :=
  if bool_decide (gm_id m ∈ triaged) then None
  else fns ← affected !! gm_id m;
       if bool_decide (fns = []) || List.existsb (λ f, bool_decide (f ∈ imported)) fns then None
       else Some (reachability_statement (gm_id m) fns product_purl ts).

Lemma reachability_loop_emit imported affected triaged purl ts ms : forall emitted acc,
  (forall k, k ∈ emitted <-> is_Some (acc !! k)) ->
  reachability_loop imported affected triaged purl ts ms emitted acc = emit (reachability_test imported affected triaged purl ts) ms acc.
Proof.
  induction ms as [| m ms IH]; intros emitted acc Hacc; cbn [reachability_loop emit]; [done |]. unfold reachability_test at 2.
  case_bool_decide; [rewrite IH by done; by destruct (acc !! gm_id m) |].
  case_bool_decide as Hin; rewrite Hacc in Hin; [destruct Hin as [s ->]; by apply IH | apply eq_None_not_Some in Hin; rewrite Hin].
  destruct (affected !! gm_id m) as [[| f fns] |]; cbn [mbind option_bind]; [by apply IH | | by apply IH].
  rewrite bool_decide_false by done. cbn [orb]. destruct (List.existsb _ _); [by apply IH |]. apply IH. intros k.
  rewrite elem_of_union, elem_of_singleton, Hacc. destruct (decide (k = gm_id m)) as [-> | Hne];
    [rewrite lookup_insert_eq | rewrite lookup_insert_ne by done]; naive_solver.
Qed.

Lemma emit_exact test (f : string -> Statement) ms :
  (forall m s, test m = Some s -> s = f (gm_id m)) -> (forall k, vulnerability (f k) = k) ->
  by_name (into_values (emit test ms ∅)) /\
  forall s, s ∈ into_values (emit test ms ∅) <-> exists m, m ∈ ms /\ test m = Some s.
Proof.
  intros Hf Hn. pose proof (emit_spec test f ms Hf ∅) as He.
  assert (Hiff : forall k s, emit test ms ∅ !! k = Some s <-> exists m, m ∈ ms /\ gm_id m = k /\ test m = Some s).
  { intros k s. rewrite He, lookup_empty. naive_solver. }
  destruct (into_values_spec (emit test ms ∅)) as [Hs Hi].
  { intros k s (m & _ & <- & Ht)%Hiff. by rewrite (Hf m s Ht), Hn. }
  split; [exact Hs |]. intros s. rewrite Hi, Hiff. split; [naive_solver |]. intros (m & Hm & Ht). exists m.
  split_and!; [done | by rewrite (Hf m s Ht), Hn | done].
Qed.

Lemma presence_test_Some purls triaged product ts m s :
  presence_test purls triaged product ts m = Some s <-> exists p,
    s = presence_statement (gm_id m) product ts /\ gm_id m ∉ triaged /\ gm_purl m = Some p /\ p <> "" /\ p ∉ purls.
Proof.
  unfold presence_test. case_bool_decide; [naive_solver |]. destruct (gm_purl m) as [p |]; cbn; [| naive_solver].
  destruct p as [| a p]; cbn; [naive_solver |]. case_bool_decide; naive_solver.
Qed.

Lemma reachability_test_Some imported affected triaged product ts m s :
  reachability_test imported affected triaged product ts m = Some s <-> exists fns,
    s = reachability_statement (gm_id m) fns product ts /\ gm_id m ∉ triaged /\ affected !! gm_id m = Some fns /\
    fns <> [] /\ forall f, f ∈ fns -> f ∉ imported.
Proof.
  unfold reachability_test. case_bool_decide; [naive_solver |]. destruct (affected !! gm_id m) as [fns |]; cbn; [| naive_solver].
  case_bool_decide; cbn [orb]; [naive_solver |]. destruct (List.existsb _ fns) eqn:Hx.
  - split; [done |]. intros (fns' & _ & _ & [= <-] & _ & Hf). apply List.existsb_exists in Hx as (f & Hin & Hd).
    apply bool_decide_eq_true in Hd. by destruct (Hf f (proj2 (list_elem_of_In _ _) Hin)).
  - split; [intros [= <-]; exists fns; split_and!; try done |].
    + intros f Hf Hin. assert (Ht : List.existsb (λ f, bool_decide (f ∈ imported)) fns = true); [| congruence].
      apply List.existsb_exists. exists f. split; [by apply list_elem_of_In | by apply bool_decide_eq_true].
    + naive_solver.
Qed.

Lemma elem_of_sbom_purls p sboms :
  p ∈ sbom_purls sboms <-> exists sbom c, sbom ∈ sboms /\ c ∈ default [] (components sbom) /\ sc_purl c = Some p.
Proof.
  unfold sbom_purls. rewrite elem_of_list_to_set, list_elem_of_omap. setoid_rewrite list_elem_of_bind. naive_solver.
Qed.

(** ** Properties *)

(** Both generators declare exactly the findings their rule allows, each
    identifier once and in increasing order: presence, those not triaged with a
    finding whose package is in no SBOM; reachability, those not triaged with a
    mapping to functions none of which is imported. What is declared for an
    identifier does not depend on the order of the report. *)
Theorem vex_statements_exact grype sboms imported affected triaged product ts :
  let presence := compute_presence_vex grype sboms triaged product ts in
  let reach := compute_reachability_vex grype imported affected triaged product ts in
  by_name presence /\ by_name reach /\
  (forall s, s ∈ presence <-> exists m p, m ∈ matches grype /\ s = presence_statement (gm_id m) product ts /\
     gm_id m ∉ triaged /\ gm_purl m = Some p /\ p <> "" /\
     forall sbom c, sbom ∈ sboms -> c ∈ default [] (components sbom) -> sc_purl c <> Some p) /\
  (forall s, s ∈ reach <-> exists m fns, m ∈ matches grype /\ s = reachability_statement (gm_id m) fns product ts /\
     gm_id m ∉ triaged /\ affected !! gm_id m = Some fns /\ fns <> [] /\ forall f, f ∈ fns -> f ∉ imported).
Proof.
  intros presence reach. unfold presence, reach, compute_presence_vex, compute_reachability_vex.
  rewrite presence_loop_emit, (reachability_loop_emit _ _ _ _ _ _ ∅ ∅) by (intros k; rewrite lookup_empty; set_solver).
  destruct (emit_exact (presence_test (sbom_purls sboms) triaged product ts) (λ k, presence_statement k product ts) (matches grype)) as [Sp Ip];
    [by intros m s (p & -> & _)%presence_test_Some | done |].
  destruct (emit_exact (reachability_test imported affected triaged product ts)
              (λ k, reachability_statement k (default [] (affected !! k)) product ts) (matches grype)) as [Sr Ir];
    [by intros m s (fns & -> & _ & -> & _)%reachability_test_Some | done |].
  split_and!; [exact Sp | exact Sr | |]; intros s.
  - rewrite Ip. setoid_rewrite presence_test_Some. setoid_rewrite elem_of_sbom_purls. naive_solver.
  - rewrite Ir. setoid_rewrite reachability_test_Some. naive_solver.
Qed.

(** ** Printed symbol tables *)

(** A line of [nm -D --undefined-only]: padding, the type, the name and its
    version. *)
Record nm_entry : Type := { ne_pad : nat; ne_name : string; ne_version : string }.
Fixpoint spaces (n : nat) (s : string) : string := match n with O => s | S n => String " " (spaces n s) end.
Definition nm_line (e : nm_entry) : string := spaces (ne_pad e) ("U " +:+ ne_name e +:+ ne_version e).
Fixpoint nm_text (l : list nm_entry) : string :=
  match l with [] => "" | e :: l => nm_line e +:+ String newline (nm_text l) end.

Definition name_char (a : ascii) : bool := visible a && negb (bool_decide (a = "@"%char)).
Definition nm_entry_ok (e : nm_entry) : Prop :=
  ne_name e <> "" /\ str_all name_char (ne_name e) = true /\
  (ne_version e = "" \/ exists v, ne_version e = String "@" v /\ str_all visible v = true).

Section nm.

Lemma strip_one_plain a s : visible a = true -> strip_one white_space (String a s) = None.
Proof. apply strip_one_visible. by vm_compute. Qed.

Lemma strip_one_space s : strip_one white_space (String " " s) = Some s.
Proof. reflexivity. Qed.

Lemma split_ws_visible v : forall fuel token rest, str_all visible v = true ->
  split_ws (String.length v + fuel) token (v +:+ rest) = split_ws fuel (token +:+ v) rest.
Proof.
  induction v as [| a v IH]; intros fuel token rest Hv; cbn [String.length Nat.add String.append]; [by rewrite str_app_nil |].
  cbn in Hv. apply andb_prop in Hv as [Ha Hv]. cbn [split_ws]. rewrite strip_one_plain, IH by done.
  by rewrite str_app_assoc.
Qed.

Lemma str_all_last f s : s <> "" -> str_all f s = true -> exists m z, s = m +:+ String z "" /\ f z = true.
Proof.
  intros Hne Hs. induction s as [| b s IH]; [done |]. cbn in Hs. apply andb_prop in Hs as [Hb Hs].
  destruct s as [| c s]; [by exists "", b |]. destruct IH as (m & z & Heq & Hz); [done.. |].
  exists (String b m), z. by rewrite Heq.
Qed.

Lemma trim_spaces n s : trim (spaces n s) = trim s.
Proof.
  unfold trim. f_equal. induction n as [| n IH]; [done |]. rewrite <- IH. clear IH.
  cbn [spaces]. set (t := spaces n s). unfold trim_start at 1. cbn [String.length strip_many].
  by rewrite strip_one_space.
Qed.

Lemma entry_visible e : nm_entry_ok e -> str_all visible (ne_name e +:+ ne_version e) = true.
Proof.
  intros (_ & Hn & Hv). rewrite str_all_app. apply andb_true_intro. split.
  - eapply str_all_mono; [| exact Hn]. intros a Ha. unfold name_char in Ha. by apply andb_prop in Ha as [? _].
  - destruct Hv as [-> | (v & -> & Hv)]; [done |]. cbn. by rewrite Hv.
Qed.

Lemma split_once_plain s v : str_all name_char s = true -> split_once "@" (s +:+ String "@" v) = Some (s, v).
Proof.
  induction s as [| a s IH]; cbn; [done |]. intros [Ha Hs]%andb_prop. unfold name_char in Ha.
  apply andb_prop in Ha as [_ Ha]. apply negb_true_iff, bool_decide_eq_false in Ha. rewrite decide_False by done. by rewrite IH.
Qed.
Lemma split_once_none s : str_all name_char s = true -> split_once "@" s = None.
Proof.
  induction s as [| a s IH]; cbn; [done |]. intros [Ha Hs]%andb_prop. unfold name_char in Ha.
  apply andb_prop in Ha as [_ Ha]. apply negb_true_iff, bool_decide_eq_false in Ha. rewrite decide_False by done. by rewrite IH.
Qed.

Lemma nm_line_symbol e : nm_entry_ok e -> nm_symbol (nm_line e) = Some (ne_name e).
Proof.
  intros He. pose proof (entry_visible e He) as Hvis. destruct He as (Hne & Hn & Hv).
  unfold nm_symbol, nm_line. rewrite trim_spaces. set (w := ne_name e +:+ ne_version e) in *.
  assert (Hw : w <> "") by (subst w; destruct (ne_name e); [done | by intros [=]]).
  destruct (str_all_last visible w Hw Hvis) as (m & z & Hmz & Hz).
  assert (Ht : trim ("U " +:+ w) = "U " +:+ w).
  { rewrite Hmz. change ("U " +:+ (m +:+ String z "")) with (String "U" ((" " +:+ m) +:+ String z "")). by apply trim_visible. }
  rewrite Ht. cbn [str_is_empty orb]. change (starts_with ("U " +:+ w) "#") with false. cbv iota.
  assert (Htok : split_whitespace ("U " +:+ w) = ["U"; w]).
  { unfold split_whitespace. change (String.length ("U " +:+ w)) with (S (S (String.length w))).
    change ("U " +:+ w) with (String "U" (String " " w)). cbn [split_ws]. rewrite strip_one_plain by done.
    cbn [split_ws]. rewrite strip_one_space.
    unfold flush at 1. cbn [String.append str_is_empty]. f_equal.
    pose proof (split_ws_visible w 0 "" "" Hvis) as Hs. rewrite str_app_nil, Nat.add_0_r in Hs. rewrite Hs. cbn.
    unfold flush. destruct w; [done | done]. }
  rewrite Htok. cbn [from_type_column]. change (type_column "U") with true. cbv iota. rewrite bool_decide_false by naive_solver.
  assert (Hb : match split_once "@" w with Some (b, _) => b | None => w end = ne_name e).
  { subst w. destruct Hv as [Hv | (v & Hv & _)]; rewrite Hv; [rewrite str_app_nil; by rewrite split_once_none | by rewrite split_once_plain]. }
  rewrite Hb. by destruct (ne_name e).
Qed.

Lemma nm_line_plain e : nm_entry_ok e -> contains_char newline (nm_line e) = false /\ strip_cr (nm_line e) = nm_line e.
Proof.
  intros He. pose proof (entry_visible e He) as Hvis. destruct He as (Hne & _ & _).
  set (w := ne_name e +:+ ne_version e) in *. unfold nm_line. fold w.
  assert (Hnl : forall s, str_all visible s = true -> contains_char newline s = false).
  { induction s as [| a s IH]; cbn; [done |]. intros [Ha Hs]%andb_prop. case_decide; [subst; done | by apply IH]. }
  split.
  - assert (Hs : forall n s, contains_char newline s = false -> contains_char newline (spaces n s) = false)
      by (induction n as [| n IH]; intros s Hs; [done | by apply IH]).
    apply Hs. cbn. by apply Hnl.
  - assert (Hw : w <> "") by (subst w; destruct (ne_name e); [done | by intros [=]]).
    destruct (str_all_last visible w Hw Hvis) as (m & z & Hmz & Hz). rewrite Hmz.
    assert (Hs : forall n s, spaces n s = spaces n "" +:+ s) by (induction n as [| n IH]; intros s; cbn; [done | by rewrite <- IH]).
    rewrite Hs. rewrite <- str_app_assoc, <- str_app_assoc. unfold strip_cr. rewrite str_last_snoc.
    rewrite bool_decide_false; [done |]. intros [= ->]. done.
Qed.

Lemma split_char_line c s rest : contains_char c s = false -> split_char c (s +:+ String c rest) = s :: split_char c rest.
Proof.
  induction s as [| a s IH]; cbn; [by rewrite decide_True |]. case_decide; [done |]. intros Hs. by rewrite IH.
Qed.
End nm.

(** The symbol table: every printed table of imported symbols, whatever the
    padding and the version suffixes, is read back as exactly its names. *)
Theorem nm_roundtrip entries : Forall nm_entry_ok entries ->
  parse_nm_output (nm_text entries) = list_to_set (ne_name <$> entries).
Proof.
  intros Hok. unfold parse_nm_output. f_equal. unfold lines.
  induction Hok as [| e l He Hok IH]; [done |]. cbn [nm_text fmap list_fmap]. destruct (nm_line_plain e He) as [Hn Hc].
  rewrite split_char_line by done. destruct (split_char_cons newline (nm_text l)) as (h & t & Hs). rewrite Hs in IH |- *.
  cbn [close_lines]. rewrite Hc. cbn [omap list_omap]. rewrite (nm_line_symbol e He). by f_equal.
Qed.

Lemma nm_roundtrip_witness :
  parse_nm_output (nm_text [{| ne_pad := 17; ne_name := "scanf"; ne_version := "@GLIBC_2.7" |};
                            {| ne_pad := 0; ne_name := "x"; ne_version := "" |}]) = {["scanf"; "x"]}.
Proof.
  rewrite nm_roundtrip; [by vm_compute |].
  apply Forall_cons; split; [| apply Forall_cons; split; [| by apply Forall_nil]].
  - split_and!; [done | by vm_compute | right; by exists "GLIBC_2.7"].
  - split_and!; [done | by vm_compute | by left].
Defined.
