(* ===== verification/VexTools.v ===== *)
(** The two VEX command-line tools ([src/bin/auto_vex_presence.rs] and
    [src/bin/auto_vex_reachability.rs]), with the directory reader they share
    ([load_triaged_from_vex_dir]): what they read, and the one document they
    write. *)

From S2P Require Import Prelude RustStr Effects Json Fs Vex.

(** [serde_json] at the types of the tools, and the texts of paths and errors. *)
Class VexCodec : Type := {
  grype_from_slice : string -> result GrypeReport string;
  sbom_from_slice : string -> result Sbom string;
  document_from_slice : string -> result Document string;
  value_from_slice : string -> result json string;
  to_string_pretty : Document -> result string string;
  path_display : path -> string;
  io_error_display : io_error -> string;
}.

(** ** Calls *)

Inductive tool_call : Type :=
| ReadFile (p : path)
| ReadDir (p : path)
| NowUtc
| WriteFile (p : path) (text : string)
| PrintOut (text : string)
| PrintErr (text : string).
Definition tool_reply (c : tool_call) : Type :=
  match c with
  | ReadFile _ => result string io_error
  | ReadDir _ => result (list (result path io_error)) io_error
  | NowUtc => string
  | WriteFile _ _ => result unit io_error
  | PrintOut _ | PrintErr _ => unit
  end%type.
Notation T := (prog tool_reply).

Definition fs_read (p : path) : T (result string io_error) := call (ReadFile p).
Definition read_dir (p : path) : T (result (list (result path io_error)) io_error) := call (ReadDir p).
(** [Utc::now().format("%Y-%m-%dT%H:%M:%SZ")] *)
Definition now_utc : T string := call NowUtc.
Definition fs_write (p : path) (text : string) : T (result unit io_error) := call (WriteFile p text).
Definition print_out (text : string) : T unit := call (PrintOut text).
Definition print_err (text : string) : T unit := call (PrintErr text).

Inductive ExitCode : Type := SUCCESS | FAILURE.

(** ** Reading *)

Section tools.
Context `{VexCodec}.

(** [map_err] with [anyhow!], on an awaited result. *)
Definition failed_to {A E} (what : string) (p : path) (show : E -> string) (r : T (result A E)) : T (result A string) :=
  r <- r ;; Ret (map_err (λ e, "failed to " +:+ what +:+ " " +:+ path_display p +:+ ": " +:+ show e) r).

Definition read_parsed {A} (flag : string) (from_slice : string -> result A string) (p : path) : T (result A string) :=
  bytes <-? failed_to ("read " +:+ flag) p io_error_display (fs_read p) ;;
  failed_to ("parse " +:+ flag) p id (lift (from_slice bytes)).

Fixpoint read_sboms (paths : list path) (sboms : list Sbom) : T (result (list Sbom) string) :=
  match paths with
  | [] => Ret (Ok sboms)
  | p :: paths =>
      sbom <-? read_parsed "--sbom" sbom_from_slice p ;;
      read_sboms paths (sboms ++ [sbom])
  end.

Fixpoint read_entries (entries : list (result path io_error)) (triaged : gset string) : T (result (gset string) io_error) :=
  match entries with
  | [] => Ret (Ok triaged)
  | entry :: entries =>
      p <-? lift entry ;;
      if negb (is_statement_file p) then read_entries entries triaged
      else
        bytes <-? fs_read p ;;
        doc <-? lift (map_err (λ e, OtherIo (path_display p +:+ ": " +:+ e)) (document_from_slice bytes)) ;;
        read_entries entries (list_to_set (vulnerability <$> statements doc) ∪ triaged)
  end.
Definition read_triaged (vex_dir : path) : T (result (gset string) io_error) :=
  listing <- read_dir vex_dir ;;
  match listing with
  | Ok entries => read_entries entries ∅
  | Err NotFoundIo => Ret (Ok ∅)
  | Err e => Ret (Err e)
  end.

(** [std::fs::read_to_string] *)
Definition read_to_string (p : path) : T (result string io_error) :=
  bytes <-? fs_read p ;;
  Ret (ok_or (to_str bytes) (OtherIo "stream did not contain valid UTF-8")).

Definition load_affected_functions_from_path (p : path) : T (result (gmap string (list string)) io_error) :=
  bytes <-? fs_read p ;;
  raw <-? lift (map_err (λ e, OtherIo (path_display p +:+ ": " +:+ e)) (value_from_slice bytes)) ;;
  Ret (map_err OtherIo (affected_functions_of (path_display p) raw)).

(** ** The common end: stamp, render, write *)

Definition stamp (timestamp : option string) : T string :=
  match timestamp with Some t => Ret t | None => now_utc end.

Definition emit_document (output : option path) (doc : Document) : T (result unit string) :=
  rendered <-? lift (to_string_pretty doc) ;;
  let rendered := rendered +:+ String newline "" in
  match output with
  | Some p => failed_to "write --output" p io_error_display (fs_write p rendered)
  | None => print_out rendered ;;; Ret (Ok tt)
  end.

(** [main]: the result of [run] as an exit code. *)
Definition exit_with (tool : string) (run : T (result unit string)) : T ExitCode :=
  r <- run ;;
  match r with
  | Ok _ => Ret SUCCESS
  | Err err => print_err (tool +:+ ": " +:+ err) ;;; Ret FAILURE
  end.

(** ** [auto-vex-presence] *)

Record PresenceCli : Type := {
  pc_grype_json : path;
  pc_sbom : list path;
  pc_vex_dir : path;
  pc_product_purl : string;
  pc_id : string;
  pc_author : string;
  pc_timestamp : option string;
  pc_output : option path;
}.

Definition presence_run (cli : PresenceCli) : T (result unit string) :=
  grype <-? read_parsed "--grype-json" grype_from_slice (pc_grype_json cli) ;;
  sboms <-? read_sboms (pc_sbom cli) [] ;;
  triaged <-? failed_to "load --vex-dir" (pc_vex_dir cli) io_error_display (read_triaged (pc_vex_dir cli)) ;;
  timestamp <- stamp (pc_timestamp cli) ;;
  let doc := build_document (compute_presence_vex grype sboms triaged (pc_product_purl cli) timestamp)
               (pc_id cli) (pc_author cli) timestamp in
  emit_document (pc_output cli) doc ?;;
  print_err ("auto-vex-presence: " +:+ pretty (List.length (matches grype)) +:+ " grype match(es) -> " +:+
    pretty (List.length (statements doc)) +:+ " statement(s) emitted (" +:+ pretty (size triaged) +:+
    " already triaged in " +:+ path_display (pc_vex_dir cli) +:+ ")") ;;;
  Ret (Ok tt).
Definition presence_main (cli : PresenceCli) : T ExitCode := exit_with "auto-vex-presence" (presence_run cli).

(** ** [auto-vex-reachability] *)

Record ReachabilityCli : Type := {
  rc_grype_json : path;
  rc_binary_symbols : path;
  rc_affected_functions : path;
  rc_vex_dir : path;
  rc_product_purl : string;
  rc_id : string;
  rc_author : string;
  rc_timestamp : option string;
  rc_output : option path;
}.

Definition reachability_run (cli : ReachabilityCli) : T (result unit string) :=
  grype <-? read_parsed "--grype-json" grype_from_slice (rc_grype_json cli) ;;
  nm_text <-? failed_to "read --binary-symbols" (rc_binary_symbols cli) io_error_display (read_to_string (rc_binary_symbols cli)) ;;
  let imported_symbols := parse_nm_output nm_text in
  affected <-? failed_to "load --affected-functions" (rc_affected_functions cli) io_error_display
                 (load_affected_functions_from_path (rc_affected_functions cli)) ;;
  triaged <-? failed_to "load --vex-dir" (rc_vex_dir cli) io_error_display (read_triaged (rc_vex_dir cli)) ;;
  timestamp <- stamp (rc_timestamp cli) ;;
  let doc := build_document (compute_reachability_vex grype imported_symbols affected triaged (rc_product_purl cli) timestamp)
               (rc_id cli) (rc_author cli) timestamp in
  emit_document (rc_output cli) doc ?;;
  print_err ("auto-vex-reachability: " +:+ pretty (List.length (matches grype)) +:+ " grype match(es), " +:+
    pretty (size imported_symbols) +:+ " symbol(s) imported, " +:+ pretty (size affected) +:+ " mapped CVE(s), " +:+
    pretty (List.length (statements doc)) +:+ " statement(s) emitted (" +:+ pretty (size triaged) +:+
    " already triaged in " +:+ path_display (rc_vex_dir cli) +:+ ")") ;;;
  Ret (Ok tt).
Definition reachability_main (cli : ReachabilityCli) : T ExitCode :=
  exit_with "auto-vex-reachability" (reachability_run cli).
End tools.

(** ** What a run has read and written *)

Definition is_output (e : event tool_reply) : bool :=
  match ev_call e with WriteFile _ _ | PrintOut _ => true | _ => false end.
Definition outputs (t : list (event tool_reply)) : list (event tool_reply) := List.filter is_output t.
Definition no_output (c : tool_call) : Prop := match c with WriteFile _ _ | PrintOut _ => False | _ => True end.

(** [p] was read, and what was read is [a]. *)
Definition read_as {A} (t : list (event tool_reply)) (p : path) (from_slice : string -> result A string) (a : A) : Prop :=
  exists bytes, Ev (ReadFile p) (Ok bytes) ∈ t /\ from_slice bytes = Ok a.

Lemma read_as_app_l {A} t1 t2 p (f : string -> result A string) a : read_as t1 p f a -> read_as (t1 ++ t2) p f a.
Proof. intros (b & Hb & Hf). exists b. set_solver. Qed.
Lemma read_as_app_r {A} t1 t2 p (f : string -> result A string) a : read_as t2 p f a -> read_as (t1 ++ t2) p f a.
Proof. intros (b & Hb & Hf). exists b. set_solver. Qed.
#[export] Hint Resolve read_as_app_l read_as_app_r : fivespot.

Section spec.
Context `{VexCodec}.

(** [triaged] is what the statement files of [dir] name, each of them read. *)
Definition triaged_in (t : list (event tool_reply)) (dir : path) (triaged : gset string) : Prop :=
  (Ev (ReadDir dir) (Err NotFoundIo) ∈ t /\ triaged = ∅) \/
  exists entries, Ev (ReadDir dir) (Ok entries) ∈ t /\ (forall entry, entry ∈ entries -> exists p, entry = Ok p) /\
    (forall p, Ok p ∈ entries -> is_statement_file p = true -> exists doc, read_as t p document_from_slice doc /\
       forall st, st ∈ statements doc -> vulnerability st ∈ triaged) /\
    (forall cve, cve ∈ triaged -> exists p doc st, Ok p ∈ entries /\ is_statement_file p = true /\
       read_as t p document_from_slice doc /\ st ∈ statements doc /\ vulnerability st = cve).

(** The one document of a run: a successful run has written it, once and where
    it was asked to; a failed run has written nothing, or failed to write it. *)
Definition writes_one (output : option path) (is_doc : Document -> Prop) (t : list (event tool_reply)) (code : ExitCode) : Prop :=
  let written doc text := is_doc doc /\ exists s, to_string_pretty doc = Ok s /\ text = s +:+ String newline "" in
  match code, output with
  | SUCCESS, Some p => exists doc text, written doc text /\ outputs t = [Ev (WriteFile p text) (Ok tt)]
  | SUCCESS, None => exists doc text, written doc text /\ outputs t = [Ev (PrintOut text) tt]
  | FAILURE, _ => outputs t = [] \/
      exists p doc text err, output = Some p /\ written doc text /\ outputs t = [Ev (WriteFile p text) (Err err)]
  end.

(** ** The steps *)

Lemma exec_failed_to {A E} what p (show : E -> string) (q : T (result A E)) t a :
  exec (failed_to what p show q) t (Ok a) -> exec q t (Ok a).
Proof.
  unfold failed_to. intros He. apply exec_bind in He as (t1 & r & t2 & -> & Hq & [-> Hr]).
  rewrite app_nil_r. by destruct r as [b | e]; cbn in Hr; [injection Hr as -> |].
Qed.

Lemma exec_read_parsed {A} flag (from_slice : string -> result A string) p t a :
  exec (read_parsed flag from_slice p) t (Ok a) -> read_as t p from_slice a.
Proof.
  unfold read_parsed. intros He. apply exec_bind_ok in He as [(e & _ & ?) | (t1 & bytes & t2 & -> & Hr & He)]; [done |].
  apply exec_failed_to, (exec_call (R := tool_reply) (ReadFile _)) in Hr as ->. apply exec_failed_to in He as [-> Hf]. exists bytes. set_solver.
Qed.

Lemma exec_read_sboms paths : forall sboms t l,
  exec (read_sboms paths sboms) t (Ok l) ->
  exists l', l = sboms ++ l' /\ Forall2 (λ p s, read_as t p sbom_from_slice s) paths l'.
Proof.
  induction paths as [| p paths IH]; cbn [read_sboms]; intros sboms t l He.
  - destruct He as [_ [= ->]]. exists []. by rewrite app_nil_r.
  - apply exec_bind_ok in He as [(e & _ & ?) | (t1 & s & t2 & -> & Hr & He)]; [done |].
    apply exec_read_parsed in Hr. apply IH in He as (l' & -> & Hl). exists (s :: l').
    rewrite <- app_assoc. split; [done |]. constructor; [eauto with fivespot |].
    eapply Forall2_impl; [exact Hl |]. cbn. eauto with fivespot.
Qed.

Lemma exec_read_entries entries : forall acc t triaged,
  exec (read_entries entries acc) t (Ok triaged) ->
  (forall entry, entry ∈ entries -> exists p, entry = Ok p) /\
  (forall p, Ok p ∈ entries -> is_statement_file p = true -> exists doc, read_as t p document_from_slice doc /\
     forall st, st ∈ statements doc -> vulnerability st ∈ triaged) /\
  acc ⊆ triaged /\
  (forall cve, cve ∈ triaged -> cve ∈ acc \/ exists p doc st, Ok p ∈ entries /\ is_statement_file p = true /\
     read_as t p document_from_slice doc /\ st ∈ statements doc /\ vulnerability st = cve).
Proof.
  induction entries as [| entry entries IH]; cbn [read_entries]; intros acc t triaged He.
  { destruct He as [_ [= ->]]. split_and!; [set_solver | set_solver | done | by left]. }
  apply exec_bind_ok in He as [(e & _ & ?) | (t1 & p & t2 & -> & [-> Hp] & He)]; [done |]. subst entry. cbn [app].
  destruct (is_statement_file p) eqn:Hf; cbn [negb] in He.
  - apply exec_bind_ok in He as [(e & _ & ?) | (t3 & bytes & t4 & -> & Hr & He)]; [done |].
    apply (exec_call (R := tool_reply) (ReadFile _)) in Hr as ->.
    apply exec_bind_ok in He as [(e & _ & ?) | (t5 & doc & t6 & -> & [-> Hd] & He)]; [done |]. cbn [app] in *.
    assert (Hd' : document_from_slice bytes = Ok doc) by (by destruct (document_from_slice bytes); cbn in Hd; [injection Hd as -> |]).
    clear Hd. apply IH in He as (Hall & Hin & Hsub & Hback).
    assert (Hread : read_as (Ev (ReadFile p) (Ok bytes) :: t6) p document_from_slice doc) by (exists bytes; set_solver).
    assert (Hlift : forall q d, read_as t6 q document_from_slice d -> read_as (Ev (ReadFile p) (Ok bytes) :: t6) q document_from_slice d)
      by (intros; by apply (read_as_app_r [_])).
    split_and!.
    + intros entry [-> | Hin']%elem_of_cons; [by eexists | by apply Hall].
    + intros q [[= ->] | Hq]%elem_of_cons Hqf.
      * exists doc. split; [done |]. intros st Hst. apply Hsub, elem_of_union_l, elem_of_list_to_set, list_elem_of_fmap. by exists st.
      * destruct (Hin q Hq Hqf) as (d & Hd & Hst). exists d. auto.
    + set_solver.
    + intros cve Hcve. apply Hback in Hcve as [[Hcve | Hcve]%elem_of_union | (q & d & st & Hq & Hqf & Hd & Hst & <-)]; [| by left |].
      * right. apply elem_of_list_to_set, list_elem_of_fmap in Hcve as (st & -> & Hst). exists p, doc, st. set_solver.
      * right. exists q, d, st. split_and!; [set_solver | done | auto | done | done].
  - apply IH in He as (Hall & Hin & Hsub & Hback). split_and!; [| | done |].
    + intros entry [-> | Hin']%elem_of_cons; [by eexists | by apply Hall].
    + intros q [[= ->] | Hq]%elem_of_cons Hqf; [congruence | auto].
    + intros cve [? | (q & d & st & ? & ?)]%Hback; [by left | right]. exists q, d, st. set_solver.
Qed.

Lemma exec_read_triaged dir t triaged : exec (read_triaged dir) t (Ok triaged) -> triaged_in t dir triaged.
Proof.
  unfold read_triaged. intros He. apply exec_bind in He as (t1 & r & t2 & -> & Hr & He).
  apply (exec_call (R := tool_reply) (ReadDir _)) in Hr as ->.
  destruct r as [entries | []]; [right | left | by destruct He..].
  - apply exec_read_entries in He as (Hall & Hin & _ & Hback). exists entries. split_and!; [set_solver | done | |].
    + intros p Hp Hf. destruct (Hin p Hp Hf) as (d & Hd & Hst). exists d. eauto with fivespot.
    + intros cve [? | (p & d & st & ? & ? & ? & ?)]%Hback; [set_solver |]. exists p, d, st. eauto with fivespot.
  - destruct He as [-> [= ->]]. set_solver.
Qed.
End spec.

(** ** The whole runs *)

Section runs.
Context `{VexCodec}.
Definition code_of (r : result unit string) : ExitCode := match r with Ok _ => SUCCESS | Err _ => FAILURE end.

Lemma outputs_app t1 t2 : outputs (t1 ++ t2) = outputs t1 ++ outputs t2.
Proof. apply List.filter_app. Qed.
Lemma quiet_outputs {A} (p : T A) t a : calls no_output p -> exec p t a -> outputs t = [].
Proof.
  intros Hp He. pose proof (calls_exec _ _ _ _ Hp He) as Hq. clear He. induction Hq as [| [c r] t Hc _ IH]; [done |].
  unfold outputs in *. cbn [List.filter]. destruct c; done.
Qed.

Lemma failed_quiet {A E} what p (show : E -> string) (q : T (result A E)) : calls no_output q -> calls no_output (failed_to what p show q).
Proof. intros Hq. by apply calls_bind. Qed.
Lemma parsed_quiet {A} flag (f : string -> result A string) p : calls no_output (read_parsed flag f p).
Proof. apply calls_bind_ok; [by apply failed_quiet | intros b; by apply failed_quiet]. Qed.
Lemma sboms_quiet paths : forall l, calls no_output (read_sboms paths l).
Proof.
  induction paths as [| p paths IH]; intros l; cbn [read_sboms]; [done |].
  apply calls_bind_ok; [apply parsed_quiet | intros s; apply IH].
Qed.
Lemma entries_quiet entries : forall acc, calls no_output (read_entries entries acc).
Proof.
  induction entries as [| e entries IH]; intros acc; cbn [read_entries]; [done |].
  apply calls_bind_ok; [done | intros p]. destruct (negb _); [apply IH |].
  apply calls_bind_ok; [done | intros b]. apply calls_bind_ok; [done | intros d]. apply IH.
Qed.
Lemma triaged_quiet dir : calls no_output (read_triaged dir).
Proof. apply calls_bind; [done |]. intros [entries | []]; [apply entries_quiet | done ..]. Qed.
Lemma functions_quiet p : calls no_output (load_affected_functions_from_path p).
Proof. apply calls_bind_ok; [done | intros b]. by apply calls_bind_ok. Qed.
Lemma stamp_quiet o : calls no_output (stamp o).
Proof. by destruct o. Qed.

(** The first step may fail, before anything is written. *)
Lemma run_bind_ok {A} output (is_doc : Document -> Prop) (p : T (result A string)) (k : A -> T (result unit string)) t r :
  calls no_output p -> exec (bind_ok p k) t r ->
  (forall t1 a t2, exec p t1 (Ok a) -> exec (k a) t2 r -> t = t1 ++ t2 -> writes_one output is_doc t2 (code_of r)) ->
  writes_one output is_doc t (code_of r).
Proof.
  intros Hq He Hk. apply exec_bind_ok in He as [(e & He & ->) | (t1 & a & t2 & -> & Hp & He)].
  - left. by eapply quiet_outputs.
  - specialize (Hk t1 a t2 Hp He eq_refl). unfold writes_one in *. rewrite outputs_app, (quiet_outputs p t1 (Ok a) Hq Hp). exact Hk.
Qed.

Lemma run_emit output (is_doc : Document -> Prop) doc summary t r :
  is_doc doc -> exec (emit_document output doc ?;; print_err summary ;;; Ret (Ok tt)) t r ->
  writes_one output is_doc t (code_of r).
Proof.
  intros Hd He. apply exec_bind_ok in He as [(e & He & ->) | (t1 & u & t2 & -> & Hp & He)].
  - unfold emit_document in He. apply exec_bind_ok in He as [(e' & [-> _] & _) | (t1 & s & t2 & -> & [-> Hs] & He)]; [by left |].
    symmetry in Hs. destruct output as [p |]; [| by destruct He as (? & ? & -> & _ & [=])].
    unfold failed_to in He. apply exec_bind in He as (t3 & w & t4 & -> & Hw & [-> Hr]).
    apply (exec_call (R := tool_reply) (WriteFile _ _)) in Hw as ->. destruct w as [[] | w]; [done |]. right.
    exists p, doc, (s +:+ String newline ""), w. split_and!; [done | done | by exists s | done].
  - destruct He as (v & t3 & -> & [-> ->]). cbn [code_of]. unfold writes_one. rewrite outputs_app. cbn [outputs List.filter is_output ev_call].
    unfold emit_document in Hp. apply exec_bind_ok in Hp as [(e' & _ & ?) | (t3 & s & t4 & -> & [-> Hs] & He)]; [done |].
    symmetry in Hs. destruct output as [p |].
    + apply exec_failed_to, (exec_call (R := tool_reply) (WriteFile _ _)) in He as ->. destruct u.
      exists doc, (s +:+ String newline ""). split; [split; [done | by exists s] | done].
    + destruct He as ([] & t5 & -> & [-> _]). exists doc, (s +:+ String newline ""). split; [split; [done | by exists s] | done].
Qed.

Lemma main_writes tool output (is_doc : list (event tool_reply) -> Document -> Prop) run t code :
  (forall t1 t2 doc, is_doc t1 doc -> is_doc (t1 ++ t2) doc) ->
  (forall t r, exec run t r -> writes_one output (is_doc t) t (code_of r)) ->
  exec (exit_with tool run) t code -> writes_one output (is_doc t) t code.
Proof.
  intros Hm Hr He. unfold exit_with in He. apply exec_bind in He as (t1 & r & t2 & -> & Hrun & He).
  apply Hr in Hrun. assert (Hw : writes_one output (is_doc (t1 ++ t2)) t1 (code_of r)).
  { unfold writes_one in *. destruct (code_of r), output; naive_solver. }
  assert (Ho : outputs t2 = [] /\ code = code_of r).
  { destruct r as [[] | e]; [by destruct He as [-> ->] | by destruct He as ([] & t3 & -> & -> & ->)]. }
  destruct Ho as [Ho ->]. unfold writes_one in *. by rewrite outputs_app, Ho, app_nil_r.
Qed.

(** ** What the documents declare *)

Definition enveloped (doc : Document) (id author' : string) : Prop :=
  doc_context doc = OPENVEX_CONTEXT /\ doc_id doc = id /\ author doc = author' /\ by_name (statements doc).

(** The documents a run of the presence tool may write. *)
Definition presence_doc (cli : PresenceCli) (t : list (event tool_reply)) (doc : Document) : Prop :=
  exists grype sboms triaged,
    read_as t (pc_grype_json cli) grype_from_slice grype /\
    Forall2 (λ p s, read_as t p sbom_from_slice s) (pc_sbom cli) sboms /\
    triaged_in t (pc_vex_dir cli) triaged /\ enveloped doc (pc_id cli) (pc_author cli) /\
    forall s, s ∈ statements doc <-> exists m p,
      m ∈ matches grype /\ s = presence_statement (gm_id m) (pc_product_purl cli) (doc_timestamp doc) /\
      gm_id m ∉ triaged /\ gm_purl m = Some p /\ p <> "" /\
      forall sbom c, sbom ∈ sboms -> c ∈ default [] (components sbom) -> sc_purl c <> Some p.

Definition reachability_doc (cli : ReachabilityCli) (t : list (event tool_reply)) (doc : Document) : Prop :=
  exists grype text affected triaged,
    read_as t (rc_grype_json cli) grype_from_slice grype /\
    read_as t (rc_binary_symbols cli) (λ b, ok_or (to_str b) "") text /\
    read_as t (rc_affected_functions cli)
      (λ b, let? raw := value_from_slice b in affected_functions_of (path_display (rc_affected_functions cli)) raw) affected /\
    triaged_in t (rc_vex_dir cli) triaged /\ enveloped doc (rc_id cli) (rc_author cli) /\
    forall s, s ∈ statements doc <-> exists m fns,
      m ∈ matches grype /\ s = reachability_statement (gm_id m) fns (rc_product_purl cli) (doc_timestamp doc) /\
      gm_id m ∉ triaged /\ affected !! gm_id m = Some fns /\ fns <> [] /\ forall f, f ∈ fns -> f ∉ parse_nm_output text.

Lemma triaged_in_mono t t' dir triaged : t ⊆ t' -> triaged_in t dir triaged -> triaged_in t' dir triaged.
Proof.
  intros Hs. assert (Hr : forall p d, read_as t p document_from_slice d -> read_as t' p document_from_slice d)
    by (intros p d (b & ? & ?); exists b; auto).
  intros [[? ->] | (es & ? & Hall & Hin & Hb)]; [left; auto | right]. exists es. split_and!; [auto | done | |].
  - intros p Hp Hf. destruct (Hin p Hp Hf) as (d & ? & ?). eauto.
  - intros cve Hc. destruct (Hb cve Hc) as (p & d & st & ? & ? & ? & ?). exists p, d, st. auto.
Qed.

Lemma presence_writes cli t r : exec (presence_run cli) t r -> writes_one (pc_output cli) (presence_doc cli t) t (code_of r).
Proof.
  intros He. eapply run_bind_ok; [| exact He |]; [apply parsed_quiet |]. clear He. intros t1 grype t2 Hg He Ht.
  eapply run_bind_ok; [| exact He |]; [apply sboms_quiet |]. clear He. intros t3 sboms t4 Hs He Ht2.
  eapply run_bind_ok; [| exact He |]; [apply failed_quiet, triaged_quiet |]. clear He. intros t5 triaged t6 Hd He Ht4.
  apply exec_bind in He as (t7 & ts & t8 & -> & Hts & He).
  assert (Hw : forall P, writes_one (pc_output cli) P t8 (code_of r) -> writes_one (pc_output cli) P (t7 ++ t8) (code_of r)).
  { intros P HP. unfold writes_one in *. by rewrite outputs_app, (quiet_outputs _ _ _ (stamp_quiet _) Hts). }
  apply Hw. eapply run_emit; [| exact He]. subst.
  apply exec_read_parsed in Hg. apply exec_read_sboms in Hs as (l & -> & Hs). apply exec_failed_to, exec_read_triaged in Hd.
  exists grype, l, triaged. split_and!; [by apply read_as_app_l | | | |].
  - eapply Forall2_impl; [exact Hs |]. cbn. intros p s Hps. by apply read_as_app_r, read_as_app_l.
  - eapply triaged_in_mono; [| exact Hd]. set_solver.
  - split_and!; [done .. |]. exact (proj1 (vex_statements_exact grype l ∅ ∅ triaged (pc_product_purl cli) ts)).
  - exact (proj1 (proj2 (proj2 (vex_statements_exact grype l ∅ ∅ triaged (pc_product_purl cli) ts)))).
Qed.

Lemma exec_read_to_string p t text :
  exec (read_to_string p) t (Ok text) -> read_as t p (λ b, ok_or (to_str b) "") text.
Proof.
  unfold read_to_string. intros He. apply exec_bind_ok in He as [(e & _ & ?) | (t1 & b & t2 & -> & Hr & [-> Hb])]; [done |].
  apply (exec_call (R := tool_reply) (ReadFile _)) in Hr as ->. exists b. split; [set_solver |].
  destruct (to_str b); cbn in *; [by injection Hb as -> | done].
Qed.
Lemma exec_load_functions p t affected :
  exec (load_affected_functions_from_path p) t (Ok affected) ->
  read_as t p (λ b, let? raw := value_from_slice b in affected_functions_of (path_display p) raw) affected.
Proof.
  unfold load_affected_functions_from_path. intros He.
  apply exec_bind_ok in He as [(e & _ & ?) | (t1 & b & t2 & -> & Hr & He)]; [done |].
  apply (exec_call (R := tool_reply) (ReadFile _)) in Hr as ->.
  apply exec_bind_ok in He as [(e & _ & ?) | (t3 & raw & t4 & -> & [-> Hv] & [-> Ha])]; [done |].
  exists b. split; [set_solver |]. destruct (value_from_slice b); cbn in *; [injection Hv as -> | done].
  destruct (affected_functions_of _ _); cbn in *; [by injection Ha as -> | done].
Qed.

Lemma reachability_writes cli t r :
  exec (reachability_run cli) t r -> writes_one (rc_output cli) (reachability_doc cli t) t (code_of r).
Proof.
  intros He. eapply run_bind_ok; [| exact He |]; [apply parsed_quiet |]. clear He. intros t1 grype t2 Hg He Ht.
  eapply run_bind_ok; [| exact He |]; [by apply failed_quiet, calls_bind_ok |]. clear He. intros t3 text t4 Hn He Ht2.
  eapply run_bind_ok; [| exact He |]; [apply failed_quiet, functions_quiet |]. clear He. intros t5 affected t6 Hf He Ht4.
  eapply run_bind_ok; [| exact He |]; [apply failed_quiet, triaged_quiet |]. clear He. intros t7 triaged t8 Hd He Ht6.
  apply exec_bind in He as (t9 & ts & t10 & -> & Hts & He).
  assert (Hw : forall P, writes_one (rc_output cli) P t10 (code_of r) -> writes_one (rc_output cli) P (t9 ++ t10) (code_of r)).
  { intros P HP. unfold writes_one in *. by rewrite outputs_app, (quiet_outputs _ _ _ (stamp_quiet _) Hts). }
  apply Hw. eapply run_emit; [| exact He]. subst.
  apply exec_read_parsed in Hg. apply exec_failed_to, exec_read_to_string in Hn.
  apply exec_failed_to, exec_load_functions in Hf. apply exec_failed_to, exec_read_triaged in Hd.
  exists grype, text, affected, triaged. split_and!; [by apply read_as_app_l | eauto with fivespot | eauto 6 with fivespot | | |].
  - eapply triaged_in_mono; [| exact Hd]. set_solver.
  - split_and!; [done .. |].
    exact (proj1 (proj2 (vex_statements_exact grype [] (parse_nm_output text) affected triaged (rc_product_purl cli) ts))).
  - exact (proj2 (proj2 (proj2 (vex_statements_exact grype [] (parse_nm_output text) affected triaged (rc_product_purl cli) ts)))).
Qed.
End runs.

(** C39: both tools write one document or none, whatever they read: a run exits
    with success exactly when it has written its document, once and where it
    was asked to; a run that could not read or parse an input has written
    nothing.  The document declares exactly, each once and in order: presence,
    the findings of the report it read, not named by a statement file of the
    directory, whose package is in none of the SBOMs it read; reachability,
    those with a non-empty list of functions none of which is imported. *)
Theorem vex_tools_exact `{VexCodec} :
  (forall cli t code, exec (presence_main cli) t code -> writes_one (pc_output cli) (presence_doc cli t) t code) /\
  (forall cli t code, exec (reachability_main cli) t code -> writes_one (rc_output cli) (reachability_doc cli t) t code).
Proof.
  split; intros cli t code; apply main_writes.
  - intros t1 t2 doc (grype & sboms & triaged & Hg & Hs & Hd & Hrest). exists grype, sboms, triaged.
    split_and!; [by apply read_as_app_l | | by eapply triaged_in_mono; [| exact Hd]; set_solver | apply Hrest | apply Hrest].
    eapply Forall2_impl; [exact Hs |]. cbn. intros p s Hps. by apply read_as_app_l.
  - apply presence_writes.
  - intros t1 t2 doc (grype & text & affected & triaged & Hg & Hn & Hf & Hd & Hrest). exists grype, text, affected, triaged.
    split_and!; [by apply read_as_app_l .. | by eapply triaged_in_mono; [| exact Hd]; set_solver | apply Hrest | apply Hrest].
  - apply reachability_writes.
Qed.

(** ** A concrete run *)

(** Reports and SBOMs as lists of words, documents as the names they declare. *)
Definition words (s : string) : list string := split_whitespace s.
Definition toy_codec : VexCodec := {|
  grype_from_slice := λ s, Ok {| matches := (λ w, {| gm_id := "CVE-" +:+ w; gm_purl := Some ("pkg:" +:+ w) |}) <$> words s |};
  sbom_from_slice := λ s, Ok {| components := Some ((λ w, {| sc_purl := Some ("pkg:" +:+ w) |}) <$> words s) |};
  document_from_slice := λ s, Ok (build_document ((λ w, presence_statement w "" "") <$> words s) "" "" "");
  value_from_slice := λ s, Ok (JObj [(s, JArr [JStr "gets"])]);
  to_string_pretty := λ d, Ok (str_join " " (vulnerability <$> statements d));
  path_display := λ p, str_join "/" (p_segments p);
  io_error_display := λ e, match e with NotFoundIo => "not found" | PermissionDeniedIo s | OtherIo s => s end;
|}.
Definition file (name : string) : path := {| p_absolute := false; p_segments := [name] |}.
Definition toy_files (c : tool_call) (s : list string) : list string * tool_reply c :=
  match c return list string * tool_reply c with
  | ReadFile p => (s, if decide (p = file "grype.json") then Ok "3 1 2 1 4"
                      else if decide (p = file "sbom.json") then Ok "2 9"
                      else if decide (p = file "done.json") then Ok "CVE-4"
                      else if decide (p = file "symbols.txt") then Ok "U puts"
                      else if decide (p = file "functions.json") then Ok "CVE-3" else Err NotFoundIo)
  | ReadDir _ => (s, Ok [Ok (file "done.json"); Ok (file ".hidden.json")])
  | NowUtc => (s, "now")
  | WriteFile _ text => (text :: s, Ok tt)
  | PrintOut text => (text :: s, tt)
  | PrintErr _ => (s, tt)
  end.
Definition toy_presence : PresenceCli := {|
  pc_grype_json := file "grype.json"; pc_sbom := [file "sbom.json"]; pc_vex_dir := file ".vex";
  pc_product_purl := "pkg:oci/5-spot"; pc_id := "run"; pc_author := "auto-vex-presence";
  pc_timestamp := None; pc_output := Some (file "out.json") |}.
Definition toy_reachability : ReachabilityCli := {|
  rc_grype_json := file "grype.json"; rc_binary_symbols := file "symbols.txt"; rc_affected_functions := file "functions.json";
  rc_vex_dir := file ".vex"; rc_product_purl := "pkg:oci/5-spot"; rc_id := "run"; rc_author := "auto-vex-reachability";
  rc_timestamp := Some "then"; rc_output := None |}.

Lemma vex_tools_exact_witness :
  (exists t, exec (presence_main (H := toy_codec) toy_presence) t SUCCESS /\
     outputs t = [Ev (WriteFile (file "out.json") ("CVE-1 CVE-3" +:+ String newline "")) (Ok tt)] /\
     writes_one (H := toy_codec) (Some (file "out.json")) (presence_doc (H := toy_codec) toy_presence t) t SUCCESS) /\
  (exists t, exec (reachability_main (H := toy_codec) toy_reachability) t SUCCESS /\
     outputs t = [Ev (PrintOut ("CVE-3" +:+ String newline "")) tt] /\
     writes_one (H := toy_codec) None (reachability_doc (H := toy_codec) toy_reachability t) t SUCCESS).
Proof.
  split.
  - pose proof (run_exec toy_files (presence_main (H := toy_codec) toy_presence) []) as He.
    replace (run toy_files [] (presence_main (H := toy_codec) toy_presence)).2 with SUCCESS in He by (vm_compute; reflexivity).
    eexists. split; [exact He |]. split; [vm_compute; reflexivity |].
    exact (proj1 (vex_tools_exact (H := toy_codec)) toy_presence _ _ He).
  - pose proof (run_exec toy_files (reachability_main (H := toy_codec) toy_reachability) []) as He.
    replace (run toy_files [] (reachability_main (H := toy_codec) toy_reachability)).2 with SUCCESS in He by (vm_compute; reflexivity).
    eexists. split; [exact He |]. split; [vm_compute; reflexivity |].
    exact (proj2 (vex_tools_exact (H := toy_codec)) toy_reachability _ _ He).
Defined.
