(* ===== verification/Convergence.v ===== *)
(** Convergence of the reconcile loop: with the wish of the spec and of the
    schedule constant, the machine settles in the phase they ask for after a
    bounded number of productive reconciles, however many fail in between
    ([reconcile_inner] of [src/reconcilers/scheduled_machine.rs]). *)

From S2P Require Import Prelude RustStr Effects Constants Json Crd Externals KubeApi Samples Metrics.
From S2P Require Import Validation Duration SpotSchedule Status Capi ChildClient Emergency.
From S2P Require Import Phases Reconcile Confinement Footprint Lifecycle.

(** ** The abstract loop *)

(** The phase a productive reconcile leaves, from [s], for a machine that is
    enabled or not and a schedule that is active or not. *)
Definition next_phase (en active : bool) (s : string) : string :=
  if decide (s = PHASE_PENDING) then
    if en then if active then PHASE_ACTIVE else PHASE_INACTIVE else PHASE_DISABLED
  else if decide (s = PHASE_ACTIVE) then if en && active then PHASE_ACTIVE else PHASE_SHUTTING_DOWN
  else if decide (s = PHASE_SHUTTING_DOWN) then PHASE_INACTIVE
  else if decide (s = PHASE_INACTIVE) then if en && active then PHASE_PENDING else PHASE_INACTIVE
  else if decide (s = PHASE_DISABLED) then if en then PHASE_PENDING else PHASE_DISABLED
  else if decide (s = PHASE_EMERGENCY_REMOVE) then PHASE_DISABLED
  else s.

(** The number of productive reconciles left. *)
Definition rank (en active : bool) (s : string) : nat :=
  if decide (s = PHASE_PENDING) then 1
  else if decide (s = PHASE_ACTIVE) then if en && active then 0 else 2
  else if decide (s = PHASE_SHUTTING_DOWN) then if en && active then 3 else 1
  else if decide (s = PHASE_INACTIVE) then if en && active then 2 else 0
  else if decide (s = PHASE_DISABLED) then if en then 2 else 0
  else if decide (s = PHASE_EMERGENCY_REMOVE) then if en then 3 else 1
  else 0.

(** What a machine is wished to be. *)
Definition wished (en active : bool) (s : string) : Prop :=
  if en then s = (if active then PHASE_ACTIVE else PHASE_INACTIVE) else s = PHASE_DISABLED \/ s = PHASE_INACTIVE.

(** What any reconcile, productive or not, may do to the phase. *)
Definition moves (en active : bool) (s s' : string) : Prop :=
  s' = s \/ s' = next_phase en active s \/ s' = PHASE_ERROR /\ (s = PHASE_PENDING \/ s = PHASE_SHUTTING_DOWN).

Ltac each_phase Hs :=
  unfold all_phases in Hs; rewrite !elem_of_cons, elem_of_nil in Hs;
  repeat (destruct Hs as [-> | Hs]; [| ]); try done.

Lemma next_phase_rank en active s :
  s ∈ all_phases ->
  next_phase en active s ∈ all_phases /\ rank en active (next_phase en active s) = pred (rank en active s) /\
  rank en active s <= 3 /\ (s <> PHASE_ERROR -> next_phase en active s <> PHASE_ERROR).
Proof.
  intros Hs. each_phase Hs; destruct en, active;
    (split; [apply (bool_decide_unpack _); by vm_compute |]; split; [by vm_compute |]; split; [vm_compute; lia | by vm_compute]).
Qed.

Lemma rank_0 en active s :
  s ∈ all_phases -> rank en active s = 0 -> s = PHASE_ERROR \/ s = PHASE_TERMINATED \/ wished en active s.
Proof.
  intros Hs. each_phase Hs; destruct en, active; vm_compute; intros Hr; try done; auto.
Qed.

Section abstract.
Context (en active : bool).

(** [n] productive reconciles out of a sequence from [s] to [s']. *)
Inductive loop : nat -> string -> string -> Prop :=
| loop_end s : loop 0 s s
| loop_productive n s s' :
    s <> PHASE_ERROR -> loop n (next_phase en active s) s' -> loop (S n) s s'
| loop_other n s s1 s' : moves en active s s1 -> loop n s1 s' -> loop n s s'.

Lemma loop_rank n s s' :
  loop n s s' -> s ∈ all_phases ->
  s' ∈ all_phases /\ (s = PHASE_ERROR -> n = 0 /\ s' = PHASE_ERROR) /\
  (s <> PHASE_ERROR -> rank en active s' <= rank en active s - n /\ (s' = PHASE_ERROR -> n < rank en active s)).
Proof.
  induction 1 as [s | n s s' He Hl IH | n s s1 s' Hm Hl IH]; intros Hs.
  - split; [done |]. split; [done |]. intros Hne. split; [lia | done].
  - destruct (next_phase_rank en active s Hs) as (Hn & Hr & _ & Hne). destruct (IH Hn) as (Hs' & _ & Hk).
    split; [done |]. split; [done |]. intros _. destruct (Hk (Hne He)) as [H1 H2]. rewrite Hr in *.
    split; [lia |]. intros Hx. specialize (H2 Hx). lia.
  - destruct (next_phase_rank en active s Hs) as (Hn & Hr & _ & Hne).
    destruct Hm as [-> | [-> | [-> Hp]]]; [by apply IH | |].
    + destruct (IH Hn) as (Hs' & He & Hk). split; [done |]. split.
      * intros ->. by apply He.
      * intros Hse. destruct (Hk (Hne Hse)) as [H1 H2]. rewrite Hr in *. split; [lia |]. intros Hx. specialize (H2 Hx). lia.
    + destruct IH as (Hs' & He & _); [by apply (bool_decide_unpack _); vm_compute |].
      destruct (He eq_refl) as [-> ->]. split; [done |]. split; [done |]. intros _.
      change (rank en active PHASE_ERROR) with 0. split; [lia |]. intros _.
      destruct Hp as [-> | ->]; destruct en, active; vm_compute; lia.
Qed.

Lemma loop_terminated n s s' : loop n s s' -> s' = PHASE_TERMINATED -> s ∈ all_phases -> s = PHASE_TERMINATED.
Proof.
  induction 1 as [s | n s s' He Hl IH | n s s1 s' Hm Hl IH]; intros Ht Hs; [done | |].
  - specialize (IH Ht (proj1 (next_phase_rank en active s Hs))). revert IH. each_phase Hs; destruct en, active; by vm_compute.
  - destruct Hm as [-> | [-> | [-> Hp]]]; [by apply IH | |].
    + specialize (IH Ht (proj1 (next_phase_rank en active s Hs))). revert IH. each_phase Hs; destruct en, active; by vm_compute.
    + assert (PHASE_ERROR = PHASE_TERMINATED) by (apply IH; [done | by apply (bool_decide_unpack _); vm_compute]). done.
Qed.

Lemma loop_settles n s s' :
  loop n s s' -> s ∈ all_phases -> s <> PHASE_TERMINATED -> 3 <= n -> wished en active s'.
Proof.
  intros Hl Hs Ht Hn. destruct (loop_rank n s s' Hl Hs) as (Hs' & He & Hk).
  destruct (next_phase_rank en active s Hs) as (_ & _ & Hr & _).
  destruct (decide (s = PHASE_ERROR)) as [Hx | Hx]; [destruct (He Hx); lia |]. destruct (Hk Hx) as [H1 H2].
  destruct (rank_0 en active s' Hs') as [-> | [Hx' | Hw]]; [lia | specialize (H2 eq_refl); lia | | done].
  by destruct Ht; eapply loop_terminated.
Qed.

Lemma loop_stays n s s' : loop n s s' -> s ∈ all_phases -> wished en active s -> s' = s.
Proof.
  induction 1 as [s | n s s' He Hl IH | n s s1 s' Hm Hl IH]; intros Hs Hw; [done | |].
  - assert (Hn : next_phase en active s = s) by (revert Hw; each_phase Hs; destruct en, active; vm_compute; naive_solver).
    rewrite Hn in IH. by apply IH.
  - assert (s1 = s) as ->; [| by apply IH]. clear IH Hl. revert Hw Hm.
    each_phase Hs; destruct en, active; vm_compute; naive_solver.
Qed.
End abstract.

(** ** The cluster of a settled wish *)

Definition last_active (sm : ScheduledMachine) : bool := default false (last_known_spot_active sm).

(** When the clock reads [t0] or later, the grace period of [sm] is over. *)
Definition grace_over `{Externals} (sm : ScheduledMachine) (t0 : Z) : Prop :=
  forall st c start timeout,
    status sm = Some st -> find_b (λ c, bool_decide (c_reason c = REASON_GRACE_PERIOD)) (conditions st) = Some c ->
    parse_from_rfc3339 (c_last_transition_time c) = Ok start ->
    parse_duration (graceful_shutdown_timeout (spec sm)) = Ok timeout ->
    (timeout <= num_seconds (t0 - start))%Z.

(** One event, seen from the machine's phase.  A write that succeeds stores its
    phase, and one that is answered with an error may have; the schedule decides [active], or fails to answer while [active] is
    the last known decision; no node is asked to be reclaimed; the clock reads
    [t0] or later.  Any other call is answered in any way. *)
Definition decides (sm : ScheduledMachine) (active : bool) (t0 : Z) (s : string) (e : event reply) (s' : string) : Prop :=
  match e with
  | Ev (PatchSMStatus c ns n body) r =>
      match patch_phase body with
      | Some p => if bool_decide (Crd.namespace sm = Some ns /\ name_any sm = n) then written r s p s' else s' = s
      | None => s' = s
      end
  | Ev (PinnedKind _ _ _ _) r => s' = s /\ (is_ok r = false -> last_active sm = active)
  | Ev (GetOptDyn _ _ _ _) r =>
      s' = s /\ match r with
                | Ok (Some d) =>
                    compose_should_be_active (verdict_from_status (jget "status" (d_data d))) (last_known_spot_active sm) = active
                | Ok None => last_active sm = active
                | Err _ => True
                end
  | Ev (GetNode _ _) r => s' = s /\ forall node, r = Ok node -> node_reclaim_request node = None
  | Ev UtcNow now => s' = s /\ (t0 <= now)%Z
  | _ => s' = s
  end.

Definition decided (active : bool) (sm : ScheduledMachine) : Z -> string -> event reply -> string -> Prop := decides sm active.

Section rounds.
Context `{Externals} `{ResolverLaws} (env : ScheduledMachine -> Z -> string -> event reply -> string -> Prop)
  (ctx : Context) (ns name : string) (en : bool).

(** [rounds n s s']: a sequence of reconciles of the machine, each of the
    object as stored at its start and in the environment [env], that takes its
    phase from [s] to [s']; [n] of them are productive: they return the regular
    requeue and, in ShuttingDown, run when the grace period is over.  The others
    fail, wait or are cut short.  Anything but the phase may change in between. *)
Inductive rounds : nat -> string -> string -> Prop :=
| rounds_end s : rounds 0 s s
| rounds_next n (productive : bool) sm t0 t r s s1 s' :
    Crd.namespace sm = Some ns -> name_any sm = name ->
    is_enabled (spec sm) = en -> kill_switch (spec sm) = false -> observed_phase sm = s ->
    exec (reconcile_inner ctx sm) t r -> evolve (env sm t0) s t s1 ->
    (productive = true -> r = Ok (Requeue TIMER_REQUEUE_SECS) /\ (s = PHASE_SHUTTING_DOWN -> grace_over sm t0)) ->
    rounds n s1 s' -> rounds (if productive then S n else n) s s'.
End rounds.

Lemma evolve_mono {S} (after after' : S -> event reply -> S -> Prop) (t : trace) : forall s s',
  (forall s e s', after s e s' -> after' s e s') -> evolve after s t s' -> evolve after' s t s'.
Proof. induction t as [| e t IH]; cbn; [done |]. intros s s' Ha (s1 & He & Hv). exists s1. split; [by apply Ha | by apply IH]. Qed.
Lemma rounds_mono `{Externals} `{ChildResolver} env env' ctx ns name en n s s' :
  (forall sm t0 s e s', env sm t0 s e s' -> env' sm t0 s e s') ->
  rounds env ctx ns name en n s s' -> rounds env' ctx ns name en n s s'.
Proof.
  intros He. induction 1 as [s | n b sm t0 t r s s1 s' Hns Hn Hen Hk Hs Hx Hv Hp _ IH]; [constructor |].
  eapply rounds_next; [done .. | exact Hx | | exact Hp | exact IH]. eapply evolve_mono; [| exact Hv]. apply He.
Qed.

(** ** One reconcile *)

Section round.
Context `{Externals} `{ResolverLaws} (ctx : Context) (sm : ScheduledMachine) (ns : string) (active : bool) (t0 : Z).
Context (Hns : Crd.namespace sm = Some ns) (Hk : kill_switch (spec sm) = false).
Notation en := (is_enabled (spec sm)).
Notation triple s p Q := (hoare (decides sm active t0) (λ _ _, True) s p Q).

(** What a reconcile from phase [s] does to it. *)
Definition advances (s s' : string) (r : rresult Action) : Prop :=
  moves en active s s' /\
  (r = Ok (Requeue TIMER_REQUEUE_SECS) -> (s = PHASE_SHUTTING_DOWN -> grace_over sm t0) ->
   s <> PHASE_ERROR /\ s' = next_phase en active s).

Lemma decides_quiet s c r s' : quiet c -> decides sm active t0 s (Ev c r) s' -> s' = s.
Proof. destruct c; cbn; try naive_solver. intros ->. done. Qed.

Lemma triple_quiet {A} s (p : M A) : calls quiet p -> triple s p (λ s' _, s' = s).
Proof.
  induction p as [a | c k IH]; cbn; [done |]. intros [Hc Hq]. split; [done |].
  intros r s' Hs. apply decides_quiet in Hs as ->; [| done]. by apply IH.
Qed.
Lemma triple_bind {A B} s (p : M A) (k : A -> M B) Q : calls quiet p -> (forall a, triple s (k a) Q) -> triple s (bind p k) Q.
Proof. intros Hp Hq. apply hoare_bind. eapply hoare_mono; [done | | by apply triple_quiet]. cbn. intros s' a ->. apply Hq. Qed.
Lemma triple_bind_ok {A B} s (p : M (rresult A)) (k : A -> M (rresult B)) Q :
  calls quiet p -> (forall e, Q s (Err e)) -> (forall a, triple s (k a) Q) -> triple s (bind_ok p k) Q.
Proof. intros Hp He Hq. apply triple_bind; [done |]. intros [a | e]; cbn; [apply Hq | apply He]. Qed.

(** A phase write. *)
Lemma triple_write {A} s p from reason msg i (k : unit -> M (rresult A)) Q :
  (forall s' e, s' = s \/ s' = p -> Q s' (Err e)) -> triple p (k tt) Q ->
  triple s (update_phase ns (name_any sm) from p reason msg i ?;; k tt) Q.
Proof using Hns.
  intros He Hq. cbn -[status_patch phase_status patch_phase]. split; [done |]. intros _r s' ->. split; [done |].
  intros now s' [-> _]. split; [done |]. intros r s' Hs. rewrite patch_phase_status, bool_decide_true in Hs by done.
  destruct r as [[] | e]; destruct Hs as [-> | [? ->]]; [exact Hq | done | |]; apply He; auto.
Qed.
Lemma triple_write_grace {A} s p from reason msg i (k : unit -> M (rresult A)) Q :
  (forall s' e, s' = s \/ s' = p -> Q s' (Err e)) -> triple p (k tt) Q ->
  triple s (update_phase_with_grace_period ns (name_any sm) from p reason msg i ?;; k tt) Q.
Proof using Hns.
  intros He Hq. cbn -[status_patch phase_status patch_phase]. split; [done |]. intros _r s' ->. split; [done |].
  intros now s' [-> _]. split; [done |]. intros r s' Hs. rewrite patch_phase_status, bool_decide_true in Hs by done.
  destruct r as [[] | e]; destruct Hs as [-> | [? ->]]; [exact Hq | done | |]; apply He; auto.
Qed.

(** The schedule decides. *)
Lemma triple_schedule s :
  triple s (resolve_spot_schedule MgmtClient ns (schedule (spec sm))) (λ s' r,
    s' = s /\ forall v, r = Ok v -> compose_should_be_active v (last_known_spot_active sm) = active).
Proof.
  unfold resolve_spot_schedule. destruct (match split_once _ _ with Some gv => gv | None => _ end) as [g v].
  cbn. split; [done |]. intros [ar | e] s' [-> Hd]; cbn; [split; [done |] | by split; [| intros ? [= <-]; apply Hd]].
  intros [[d |] | e] s' [-> Hr]; cbn; (split; [done |]); by intros ? [= <-].
Qed.

Lemma num_seconds_mono a b : (a <= b)%Z -> (num_seconds a <= num_seconds b)%Z.
Proof. intros Hab. unfold num_seconds. by apply Z.quot_le_mono. Qed.

(** The grace period, once over, is found over. *)
Lemma triple_grace s :
  triple s (check_grace_period_elapsed sm) (λ s' r, s' = s /\ (grace_over sm t0 -> forall b, r = Ok b -> b = true)).
Proof.
  unfold check_grace_period_elapsed, grace_over. destruct (status sm) as [st |]; cbn; [| done].
  destruct (find_b _ _) as [c |] eqn:Hf; cbn; [| by split; [| intros _ ? [= <-]]].
  destruct (parse_from_rfc3339 _) as [start | e] eqn:Hp; cbn; [| done].
  destruct (parse_duration _) as [timeout | e] eqn:Hd; cbn; [| done].
  split; [done |]. intros now s' [-> Hnow]. destruct (bool_decide (_ < 0)%Z); cbn; (split; [done |]); [by intros _ ? [= <-] |].
  intros Hg b [= <-]. apply bool_decide_eq_true. specialize (Hg st c start timeout eq_refl Hf Hp eq_refl).
  etrans; [exact Hg |]. apply num_seconds_mono. lia.
Qed.

Lemma triple_emergency s : triple s (check_emergency_reclaim ctx sm) (λ s' r, s' = s /\ forall x, r = Ok x -> x = None).
Proof.
  unfold check_emergency_reclaim. destruct (status sm ≫= node_ref) as [nref |]; cbn; [| by split; [| intros ? [= <-]]].
  destruct (str_is_empty _); cbn; [by split; [| intros ? [= <-]] |]. split; [done |].
  intros [node | e] s' [-> Hr]; [rewrite (Hr node eq_refl) | destruct (is_api_error _ _)]; cbn; (split; [done |]); by intros ? [= <-].
Qed.
(** An outcome that leaves the phase, or takes it where the loop goes. *)
Lemma advances_err s s' e : moves en active s s' -> advances s s' (Err e).
Proof. by split. Qed.
Lemma advances_none s e : advances s s (Err e).
Proof. apply advances_err. by left. Qed.
Lemma advances_wait s a : a <> Requeue TIMER_REQUEUE_SECS -> advances s s (Ok a).
Proof. intros Ha. split; [by left |]. by intros [= ->]. Qed.
Lemma advances_next s s' r : s <> PHASE_ERROR -> s' = next_phase en active s -> advances s s' r.
Proof. intros He ->. split; [by right; left |]. done. Qed.
Lemma advances_failed s : s = PHASE_PENDING \/ s = PHASE_SHUTTING_DOWN -> advances s PHASE_ERROR (Ok (Requeue ERROR_REQUEUE_SECS)).
Proof. intros Hs. split; [by right; right | done]. Qed.

Lemma triple_ns {A} s (k : string -> M (rresult A)) Q :
  triple s (k ns) Q -> triple s (bind_ok (lift (require_namespace sm)) k) Q.
Proof using Hns. unfold require_namespace. by rewrite Hns. Qed.

Lemma triple_update s p from reason msg i (Q : string -> rresult Action -> Prop) (a : Action) :
  (forall s' e, s' = s \/ s' = p -> Q s' (Err e)) -> Q p (Ok a) ->
  triple s (update_phase ns (name_any sm) from p reason msg i ?;; Ret (Ok a)) Q.
Proof using Hns. intros He Hq. by apply (triple_write _ _ _ _ _ _ (λ _, Ret _)). Qed.
Lemma triple_advance s p from reason msg i (a : Action) :
  s <> PHASE_ERROR -> p = next_phase en active s ->
  triple s (update_phase ns (name_any sm) from p reason msg i ?;; Ret (Ok a)) (advances s).
Proof using Hns.
  intros Hs ->. apply triple_update; [| by apply advances_next]. intros s' e [-> | ->]; apply advances_err; [by left | by right; left].
Qed.
Lemma unwritten s p s' e : moves en active s p -> s' = s \/ s' = p -> advances s s' (Err e).
Proof. intros Hm [-> | ->]; apply advances_err; [by left | done]. Qed.

Lemma triple_pending : triple PHASE_PENDING (handle_pending_phase ctx sm active) (advances PHASE_PENDING).
Proof using Hns H0.
  clear Hk. unfold handle_pending_phase. apply triple_ns. cbv zeta.
  assert (Hn : next_phase en active PHASE_PENDING = if en then if negb active then PHASE_INACTIVE else PHASE_ACTIVE else PHASE_DISABLED)
    by (by destruct en, active).
  destruct (is_enabled (spec sm)) eqn:He; cbn [negb]; [| by apply triple_advance; rewrite ?He].
  destruct (negb active) eqn:Ha; [by apply triple_advance; rewrite ?He |].
  apply triple_bind; [quieten | intros [u | e]]; [by apply triple_advance; rewrite ?He |].
  apply triple_update; [| by apply advances_failed; left]. intros s' e'. apply unwritten. right; right. auto.
Qed.

Lemma triple_active : triple PHASE_ACTIVE (handle_active_phase ctx sm active) (advances PHASE_ACTIVE).
Proof using Hns H0.
  clear Hk. unfold handle_active_phase. apply triple_ns. cbv zeta.
  assert (Hn : next_phase en active PHASE_ACTIVE = if negb en then PHASE_SHUTTING_DOWN else if negb active then PHASE_SHUTTING_DOWN else PHASE_ACTIVE)
    by (by destruct en, active).
  destruct (negb (is_enabled (spec sm))) eqn:He.
  { apply (triple_write_grace _ _ _ _ _ _ (λ _, Ret _)); [| by apply advances_next]. intros s' e. apply unwritten. by right; left. }
  destruct (negb active) eqn:Ha.
  { apply (triple_write_grace _ _ _ _ _ _ (λ _, Ret _)); [| by apply advances_next]. intros s' e. apply unwritten. by right; left. }
  pose proof (foot_enrich sm) as Hf. unfold background in Hf.
  apply triple_bind; [quieten | intros machine]. apply triple_bind; [quieten | intros u].
  by apply advances_next.
Qed.

Lemma triple_shutting_down : triple PHASE_SHUTTING_DOWN (handle_shutting_down_phase ctx sm) (advances PHASE_SHUTTING_DOWN).
Proof using Hns H0.
  clear Hk. unfold handle_shutting_down_phase. apply triple_ns. cbv zeta. apply hoare_bind_ok.
  eapply hoare_mono; [done | | apply triple_grace]. cbn beta. intros s' [b | e] [-> Hg]; [| apply advances_none].
  destruct b.
  - apply triple_bind_ok; [unfold get_node_from_machine; quieten | apply advances_none | intros node].
    apply triple_bind_ok; [unfold drain_bound_node; quieten | apply advances_none | intros []].
    apply triple_bind; [quieten | intros [u | e]]; [by apply triple_advance |].
    apply triple_update; [| by apply advances_failed; right]. intros s' e'. apply unwritten. right; right. auto.
  - split; [by left |]. intros _ Ho. by specialize (Hg (Ho eq_refl) false eq_refl).
Qed.

Lemma triple_inactive : triple PHASE_INACTIVE (handle_inactive_phase sm active) (advances PHASE_INACTIVE).
Proof using Hns.
  unfold handle_inactive_phase. apply triple_ns.
  assert (Hn : next_phase en active PHASE_INACTIVE = if negb en then PHASE_INACTIVE else if negb active then PHASE_INACTIVE else PHASE_PENDING)
    by (by destruct en, active).
  destruct (negb (is_enabled (spec sm))) eqn:He; [by apply advances_next |].
  destruct (negb active) eqn:Ha; [by apply advances_next | by apply triple_advance].
Qed.

Lemma triple_disabled : triple PHASE_DISABLED (handle_disabled_phase sm active) (advances PHASE_DISABLED).
Proof using Hns.
  unfold handle_disabled_phase. apply triple_ns.
  assert (Hn : next_phase en active PHASE_DISABLED = if en then PHASE_PENDING else PHASE_DISABLED) by (by destruct en, active).
  destruct (is_enabled (spec sm)) eqn:He; [apply triple_advance | apply advances_next]; by rewrite ?He, ?Hn.
Qed.

Lemma triple_dispatch :
  triple (observed_phase sm) (dispatch ctx sm (default PHASE_PENDING (sm_phase sm)) active) (advances (observed_phase sm)).
Proof using Hns H0.
  clear Hk. unfold dispatch, observed_phase. cbv zeta. set (p := default PHASE_PENDING (sm_phase sm)). clearbody p.
  repeat case_decide; subst; try rewrite bool_decide_true by (apply (bool_decide_unpack _); by vm_compute);
    auto using triple_active, triple_shutting_down, triple_inactive, triple_disabled.
  all: try by apply advances_next.
  all: try (unfold handle_emergency_remove_phase; apply triple_ns; by apply triple_advance).
  all: try (unfold handle_error_phase, require_namespace; rewrite Hns; by apply advances_wait).
  all: replace (if bool_decide (p ∈ all_phases) then p else PHASE_PENDING) with PHASE_PENDING; [apply triple_pending |].
  all: case_bool_decide as Hp; [| done]; unfold all_phases in Hp; rewrite !elem_of_cons, elem_of_nil in Hp; naive_solver.
Qed.

Lemma triple_reconcile : triple (observed_phase sm) (reconcile_inner ctx sm) (advances (observed_phase sm)).
Proof using Hns H0 Hk.
  unfold reconcile_inner. apply triple_ns. apply triple_bind_ok; [done | apply advances_none | intros []]. rewrite Hk.
  apply hoare_bind_ok. eapply hoare_mono; [done | | apply triple_emergency]. cbn beta.
  intros s' [x | e] [-> Hx]; [rewrite (Hx x eq_refl) | apply advances_none].
  unfold evaluate_and_dispatch. cbv zeta. apply hoare_bind_ok. eapply hoare_mono; [done | | apply triple_schedule]. cbn beta.
  intros s' [v | e] [-> Hv]; [| apply advances_none]. rewrite (Hv v eq_refl).
  apply triple_bind; [quieten | intros []]. apply triple_bind_ok; [quieten | apply advances_none | intros []].
  apply triple_bind; [by cbn | intros []]. apply triple_dispatch.
Qed.
End round.

(** ** Convergence *)

Lemma observed_known sm : observed_phase sm ∈ all_phases.
Proof. unfold observed_phase. cbv zeta. case_bool_decide; [done |]. by apply (bool_decide_unpack _); vm_compute. Qed.

Lemma rounds_loop `{Externals} `{ResolverLaws} ctx ns name en active n s s' :
  rounds (decided active) ctx ns name en n s s' -> loop en active n s s'.
Proof.
  induction 1 as [s | n b sm t0 t r s s1 s' Hns Hn He Hk Hs Hx Hv Hp _ IH]; [constructor |]. subst s.
  destruct (hoare_exec _ _ _ _ _ _ _ _ (triple_reconcile ctx sm ns active t0 Hns Hk) Hx Hv) as [Hm Hd]. rewrite He in Hm, Hd.
  destruct b; [| by eapply loop_other]. destruct (Hp eq_refl) as [-> Hg]. destruct (Hd eq_refl Hg) as [Hne ->].
  by apply loop_productive.
Qed.

(** C4: convergence, for reconciles past leadership, sharding and the finalizer
    ([reconcile_inner]), each of the object as stored, where nobody else writes
    the phase.  While [spec.enabled] and the verdict of the schedule stay the same
    (an unreadable provider keeps the last decision, which must be that verdict),
    the kill switch is off, the node carries no reclaim request and the clock
    does not go back before the start of a reconcile, three productive reconciles
    take the machine from any phase but Terminated and Error to the phase they
    ask for (Active, Inactive, or off service when it is disabled), however many
    reconciles fail, wait or are cut short in between, status writes answered
    with an error being applied or not; from that phase no reconcile, productive
    or not, takes it away; and Error is a dead end, in which no reconcile is
    productive and which none leaves. *)
Theorem machine_converges `{Externals} `{ResolverLaws} ctx ns name en active n s s' :
  rounds (decided active) ctx ns name en n s s' -> s ∈ all_phases -> s <> PHASE_TERMINATED ->
  (3 <= n -> wished en active s') /\ (wished en active s -> s' = s) /\
  (s = PHASE_ERROR -> n = 0 /\ s' = PHASE_ERROR).
Proof.
  intros Hr%rounds_loop Hs Ht.
  split_and!; intros Hx; [by eapply loop_settles | by eapply loop_stays | by eapply loop_rank].
Qed.

(** The schedule is active and every call succeeds. *)
Definition agreeable (sm : ScheduledMachine) (c : call_t) (s : string) : string * reply c :=
  (match c with PatchSMStatus _ ns n body => 
     match patch_phase body with
     | Some p => if bool_decide (Crd.namespace sm = Some ns /\ name_any sm = n) then p else s
     | None => s
     end | _ => s end,
   match c return reply c with
   | GetOptDyn _ _ _ _ => Ok (Some {| d_name := None; d_namespace := None; d_labels := None;
       d_data := JObj [("status", JObj [("active", JBool true)])] |})
   | c => (ok_handler c 0%Z).2
   end).

Lemma agreeable_decides sm c s : decides sm true 0 s (Ev c (agreeable sm c s).2) (agreeable sm c s).1.
Proof.
  destruct c; cbn -[patch_phase]; try done.
  - split; [done |]. intros node [= <-]. reflexivity.
  - destruct (patch_phase body); [| done]. case_bool_decide; [by left | done].
Qed.

Lemma agreeable_round ph q n s' :
  let sm := with_phase ph sample_sm in
  let p := reconcile_inner (H := toy_externals) (H0 := cache_resolver (H := toy_externals)) sample_ctx sm in
  observed_phase sm = ph ->
  (run (agreeable sm) ph p).1.1 = q /\ (run (agreeable sm) ph p).2 = Ok (Requeue TIMER_REQUEUE_SECS) ->
  rounds (H := toy_externals) (R := cache_resolver (H := toy_externals)) (decided true) sample_ctx "team" "sm" true n q s' ->
  rounds (H := toy_externals) (R := cache_resolver (H := toy_externals)) (decided true) sample_ctx "team" "sm" true (S n) ph s'.
Proof.
  intros sm p Ho [Hq Hr] Hn. destruct (run_evolve _ _ p (λ c s, agreeable_decides sm c s) ph) as [He Hv]. rewrite Hr in He. rewrite Hq in Hv.
  apply (rounds_next (decided true) _ _ _ _ n true sm 0 _ _ ph q s' eq_refl eq_refl eq_refl eq_refl Ho He Hv); [| done].
  intros _. split; [done |]. intros _ st c start timeout [= <-]. discriminate.
Qed.

Lemma machine_converges_witness :
  rounds (H := toy_externals) (R := cache_resolver (H := toy_externals)) (decided true) sample_ctx "team" "sm" true 3 "ShuttingDown" "Active" /\
  wished true true "Active".
Proof.
  assert (Hr : rounds (H := toy_externals) (R := cache_resolver (H := toy_externals)) (decided true) sample_ctx "team" "sm" true 3 "ShuttingDown" "Active").
  { do 3 (eapply agreeable_round; [by vm_compute | split; vm_compute; reflexivity |]). apply rounds_end. }
  split; [exact Hr |].
  refine (proj1 (machine_converges (H := toy_externals) (R := cache_resolver (H := toy_externals)) sample_ctx "team" "sm" true true 3 _ _ Hr _ _) _);
    [apply (bool_decide_unpack _); by vm_compute | by vm_compute | lia].
Defined.
