(* ===== verification/EndToEnd.v ===== *)
(** From a schedule to a machine: the provider ([src/providers/]) that evaluates
    the schedule and publishes a status, and the controller that reads it
    ([src/reconcilers/]), composed.

    The controller knows a provider by the status it publishes only, which is
    the interface [SpotProvider] and its laws; both providers implement it. *)

From S2P Require Import Prelude RustStr Effects Constants Json Crd Externals KubeApi Samples Metrics.
From S2P Require Import Duration SpotSchedule Status Capi Drain NodeTaints ChildClient Emergency Finalizer.
From S2P Require Import Provision Assignment Phases Reconcile Confinement Footprint Lifecycle Providers Convergence.

(** A kind of provider: what its schedule says at an instant, and its reconcile. *)
Class SpotProvider (Spec Er : Type) : Type := {
  sp_kind : string;
  sp_active : Spec -> Z -> result bool Er;
  sp_reconcile : ProviderObject Spec -> M (result ProviderAction Er);
}.

(** What a provider promises: a reconcile reads the clock once and publishes at
    most one status, which the controller reads as what the schedule says at
    that instant. *)
Class SpotProviderLaws {Spec Er} (P : SpotProvider Spec Er) : Prop := {
  publishes o t r : exec (sp_reconcile o) t r -> exists now rest, t = Ev UtcNow now :: rest /\
    (rest = [] /\ is_ok r = false \/
     exists active ns body rep metrics,
       rest = Ev (PatchProviderStatus MgmtClient sp_kind ns (opt_string (om_name (po_metadata o))) body) rep :: metrics /\
       om_namespace (po_metadata o) = Some ns /\ sp_active (po_spec o) now = Ok active /\
       Forall (λ e, metric_call (ev_call e)) metrics /\
       forall stored, verdict_from_status (jget "status" (merge_patch body stored)) =
         (if active then Active else Inactive) (om_generation (po_metadata o) ≫= λ g, as_i64 (JInt g)))
}.

Section implementations.
Context `{Externals} `{TimeZones}.

#[export] Instance time_based : SpotProvider TimeBasedSpotScheduleSpec TimeBased.ProviderError := {|
  sp_kind := "TimeBasedSpotSchedule"; sp_active := TimeBased.is_active_at; sp_reconcile := TimeBased.reconcile |}.
#[export] Instance capital_markets : SpotProvider CapitalMarketsScheduleSpec CapitalMarkets.ProviderError := {|
  sp_kind := "CapitalMarketsSchedule"; sp_active := CapitalMarkets.is_active_at; sp_reconcile := CapitalMarkets.reconcile |}.

Lemma provider_publishes {Spec Er} (active_at : Spec -> Z -> result bool Er) unnamespaced kube_err kind describe set_active record_transition
    (o : ProviderObject Spec) t r :
  (forall ns n b, calls metric_call (set_active ns n b)) -> (forall ns n, calls metric_call (record_transition ns n)) ->
  exec (reconcile_provider (active_at (po_spec o)) unnamespaced kube_err kind describe set_active record_transition (po_metadata o) (po_status o)) t r ->
  exists now rest, t = Ev UtcNow now :: rest /\
    (rest = [] /\ is_ok r = false \/
     exists active ns body rep metrics,
       rest = Ev (PatchProviderStatus MgmtClient kind ns (opt_string (om_name (po_metadata o))) body) rep :: metrics /\
       om_namespace (po_metadata o) = Some ns /\ active_at (po_spec o) now = Ok active /\
       Forall (λ e, metric_call (ev_call e)) metrics /\
       forall stored, verdict_from_status (jget "status" (merge_patch body stored)) =
         (if active then Active else Inactive) (om_generation (po_metadata o) ≫= λ g, as_i64 (JInt g))).
Proof.
  intros Hs Hr He.
  pose proof (reconcile_provider_publishes (active_at (po_spec o)) unnamespaced kube_err kind describe set_active record_transition
    Hs Hr (po_metadata o) (po_status o)) as Hw. rewrite wp_exec in Hw.
  destruct (Hw t r He) as (now & rest & -> & [(e & -> & -> & _) | (active & next & ns & body & rep & metrics & -> & Hns & Ha & _ & Hm & Hv & _)]);
    exists now; eexists; (split; [reflexivity |]); [by left | right]. exists active, ns, body, rep, metrics.
  split_and!; try done. intros stored. apply Hv.
Qed.

#[export] Instance time_based_laws : SpotProviderLaws time_based.
Proof. constructor. intros o t r He. eapply (provider_publishes TimeBased.is_active_at); [| | exact He]; by repeat constructor. Qed.
#[export] Instance capital_markets_laws : SpotProviderLaws capital_markets.
Proof. constructor. intros o t r He. eapply (provider_publishes CapitalMarkets.is_active_at); [| | exact He]; by repeat constructor. Qed.
End implementations.

(** ** The machine follows the schedule *)

Section follows.
Context `{Externals} {Spec Er : Type} {P : SpotProvider Spec Er} {L : SpotProviderLaws P}.

(** What a read of the provider returns when the last of its reconciles, at an
    instant of [T], has published: whatever was stored, with that status merged
    into it.  Its earlier status and its generation are arbitrary. *)
Definition published (spec : Spec) (T : Z -> Prop) (d : DynamicObject) : Prop :=
  exists o now rest r ns name body stored,
    po_spec o = spec /\ T now /\ exec (sp_reconcile o) (Ev UtcNow now :: rest) r /\
    Ev (PatchProviderStatus MgmtClient sp_kind ns name body) (Ok tt) ∈ rest /\ d_data d = merge_patch body stored.

Lemma metric_no_publish metrics kind ns name body (r : result unit kube_error) :
  Forall (λ e : event reply, metric_call (ev_call e)) metrics -> Ev (PatchProviderStatus MgmtClient kind ns name body) r ∉ metrics.
Proof. rewrite Forall_forall. intros Hm He%Hm. done. Qed.

Lemma published_verdict spec T d b last :
  (forall now, T now -> sp_active spec now = Ok b) -> published spec T d ->
  compose_should_be_active (verdict_from_status (jget "status" (d_data d))) last = b.
Proof.
  intros HT (o & now & rest & r & ns & name & body & stored & Ho & Hnow & He & Hin & ->).
  destruct (publishes o _ r He) as (now' & rest' & Heq & Hcases).
  apply (f_equal (λ t : trace, (match t with Ev UtcNow z :: _ => z | _ => 0%Z end, tail t))) in Heq. injection Heq as <- <-. subst spec.
  destruct Hcases as [[-> _] | (active & ns' & body' & rep & metrics & -> & _ & Ha & Hm & Hv)]; [by apply elem_of_nil in Hin |].
  rewrite (HT now Hnow) in Ha. injection Ha as <-.
  apply elem_of_cons in Hin as [Heq' | Hin]; [| by apply metric_no_publish in Hin].
  apply (f_equal ev_call) in Heq'. cbn in Heq'. simplify_eq. rewrite Hv. by destruct b.
Qed.

(** The environment of [Convergence.decides], where the schedule is that of a
    provider that publishes at instants of [T]; when the provider cannot be
    read, [b] is the last known decision. *)
Definition driven (spec : Spec) (T : Z -> Prop) (b : bool) (sm : ScheduledMachine) (t0 : Z) (s : string) (e : event reply) (s' : string) : Prop :=
  match e with
  | Ev (GetOptDyn _ _ _ _) (Ok (Some d)) => s' = s /\ published spec T d
  | _ => decides sm b t0 s e s'
  end.

Lemma driven_decides spec T b sm t0 s e s' :
  (forall now, T now -> sp_active spec now = Ok b) -> driven spec T b sm t0 s e s' -> decides sm b t0 s e s'.
Proof.
  intros HT. destruct e as [c r]. destruct c; try done. destruct r as [[d |] | e]; [| done | done].
  intros [-> Hp]. split; [done |]. by eapply published_verdict.
Qed.

(** C5: a machine follows its schedule: in a time zone of whole hours, let the
    schedule of a provider, of either kind, say [b] at [from] and let [t] be the
    next transition it announces then.  As long as the statuses the controller
    reads were published by the provider between [from] and [t] (and, as in
    [Convergence], [spec.enabled] does not change, the kill switch is off, the
    node carries no reclaim request and the clock does not go back before the
    start of a reconcile), three productive reconciles bring the machine from any
    phase but Terminated and Error to the phase that [b] and the spec ask for,
    however many reconciles fail in between; from that phase none takes it away,
    and none leaves Error. *)
Theorem machine_follows_schedule `{ResolverLaws} ctx ns name en spec from t b n s s' :
  whole_hours (sp_active spec) -> sp_active spec from = Ok b -> next_transition (sp_active spec) from = Ok (Some t) ->
  rounds (driven spec (λ now, from <= now < t)%Z b) ctx ns name en n s s' -> s ∈ all_phases -> s <> PHASE_TERMINATED ->
  (3 <= n -> wished en b s') /\ (wished en b s -> s' = s) /\ (s = PHASE_ERROR -> n = 0 /\ s' = PHASE_ERROR).
Proof.
  intros Hw Hf Ht Hr Hs Hne. pose proof (next_transition_cases (sp_active spec) from b Hf) as Hc. rewrite Ht in Hc.
  destruct Hc as (_ & _ & _ & _ & _ & Hb). specialize (Hb Hw).
  assert (Hl : loop en b n s s').
  { apply (rounds_loop ctx ns name). eapply rounds_mono; [| exact Hr]. intros sm t0 s1 e s2. by apply driven_decides. }
  split_and!; intros Hx; [by eapply loop_settles | by eapply loop_stays | by eapply loop_rank].
Qed.
End follows.

(** ** Office hours *)

Definition utc : TimeZones := {|
  Tz := unit; parse_tz := λ s, if bool_decide (s = "UTC") then Some tt else None;
  local_weekday := λ _ u, ((u / (24 * HOUR) + 3) mod 7)%Z; local_hour := λ _ u, ((u / HOUR) mod 24)%Z;
  local_date := λ _ _, "1970-01-05" |}.
Definition office : ProviderObject TimeBasedSpotScheduleSpec := {|
  po_metadata := {| om_name := Some "nights"; om_namespace := Some "team"; om_uid := None; om_generation := Some 1%Z;
    om_finalizers := None; om_deletion_timestamp := None |};
  po_spec := {| days_of_week := ["mon-fri"]; hours_of_day := ["9-17"]; timezone := "UTC"; tb_enabled := true |};
  po_status := None |}.
(** Monday at 10, and at 18. *)
Definition monday_at (hour : Z) : Z := (4 * 24 + hour) * HOUR.
Definition office_run := run ok_handler (monday_at 10) (TimeBased.reconcile (H := toy_externals) (H0 := utc) office).
Definition office_status : json :=
  match office_run.1.2 with _ :: Ev (PatchProviderStatus _ _ _ _ body) _ :: _ => body | _ => JNull end.

Lemma utc_whole_hours tz : whole_hour_zone (H := utc) tz.
Proof.
  intros u. cbn. pose proof HOUR_pos. pose proof (Z.div_mod u HOUR ltac:(lia)) as Hu. pose proof (Z.mod_pos_bound u HOUR ltac:(lia)).
  assert (Hd : ((u - u mod HOUR) / HOUR = u / HOUR)%Z).
  { replace (u - u mod HOUR)%Z with (u / HOUR * HOUR)%Z by lia. by apply Z.div_mul; lia. }
  rewrite (Z.mul_comm 24), <- !Z.div_div, Hd by lia. done.
Qed.

Lemma office_published :
  published (P := time_based (H := toy_externals) (H0 := utc)) (po_spec office) (λ now, monday_at 10 <= now < monday_at 18)%Z
    {| d_name := Some "nights"; d_namespace := Some "team"; d_labels := None; d_data := merge_patch office_status (JObj []) |}.
Proof.
  pose proof (run_exec ok_handler (TimeBased.reconcile (H := toy_externals) (H0 := utc) office) (monday_at 10)) as He.
  fold office_run in He. remember office_run.2 as r eqn:Hr. clear Hr.
  assert (Ht : exists metrics, office_run.1.2 = Ev UtcNow (monday_at 10) ::
    Ev (PatchProviderStatus MgmtClient "TimeBasedSpotSchedule" "team" "nights" office_status) (Ok tt) :: metrics)
    by (eexists; vm_compute; reflexivity).
  destruct Ht as [metrics Ht]. rewrite Ht in He.
  exists office, (monday_at 10), (Ev (PatchProviderStatus MgmtClient "TimeBasedSpotSchedule" "team" "nights" office_status) (Ok tt) :: metrics), r, "team", "nights", office_status, (JObj []).
  split_and!; [done | by vm_compute | by vm_compute | exact He | by left | done].
Qed.

Definition following (sm : ScheduledMachine) (c : call_t) (s : string) : string * reply c :=
  ((agreeable sm c s).1,
   match c return reply c with
   | GetOptDyn _ _ _ _ => Ok (Some {| d_name := Some "nights"; d_namespace := Some "team"; d_labels := None;
       d_data := merge_patch office_status (JObj []) |})
   | c => (agreeable sm c s).2
   end).

Notation office_rounds := (rounds (H := toy_externals) (R := cache_resolver (H := toy_externals))
  (driven (P := time_based (H := toy_externals) (H0 := utc)) (po_spec office) (λ now, monday_at 10 <= now < monday_at 18)%Z true)
  sample_ctx "team" "sm" true).

Lemma following_driven sm c s :
  driven (P := time_based (H := toy_externals) (H0 := utc)) (po_spec office) (λ now, monday_at 10 <= now < monday_at 18)%Z true
    sm 0 s (Ev c (following sm c s).2) (following sm c s).1.
Proof.
  pose proof (agreeable_decides sm c s) as Hd. destruct c; try exact Hd. split; [done | exact office_published].
Qed.

Lemma following_round ph q n s' :
  let sm := with_phase ph sample_sm in
  let p := reconcile_inner (H := toy_externals) (H0 := cache_resolver (H := toy_externals)) sample_ctx sm in
  observed_phase sm = ph ->
  (run (following sm) ph p).1.1 = q /\ (run (following sm) ph p).2 = Ok (Requeue TIMER_REQUEUE_SECS) ->
  office_rounds n q s' -> office_rounds (S n) ph s'.
Proof.
  intros sm p Ho [Hq Hr] Hn. destruct (run_evolve _ _ p (λ c s, following_driven sm c s) ph) as [He Hv]. rewrite Hr in He. rewrite Hq in Hv.
  apply (rounds_next _ _ _ _ _ n true sm 0 _ _ ph q s' eq_refl eq_refl eq_refl eq_refl Ho He Hv); [| done].
  intros _. split; [done |]. intros _ st c start timeout [= <-]. discriminate.
Qed.

Lemma machine_follows_schedule_witness :
  whole_hours (TimeBased.is_active_at (H := utc) (po_spec office)) /\
  next_transition (TimeBased.is_active_at (H := utc) (po_spec office)) (monday_at 10) = Ok (Some (monday_at 18)) /\
  office_rounds 3 "Inactive" "Active" /\ wished true true "Active".
Proof.
  assert (Hw : whole_hours (TimeBased.is_active_at (H := utc) (po_spec office))).
  { apply time_based_whole_hours. intros tz _. apply utc_whole_hours. }
  assert (Ht : next_transition (TimeBased.is_active_at (H := utc) (po_spec office)) (monday_at 10) = Ok (Some (monday_at 18)))
    by (vm_compute; reflexivity).
  assert (Hr : office_rounds 3 "Inactive" "Active").
  { do 3 (eapply following_round; [by vm_compute | split; vm_compute; reflexivity |]). apply rounds_end. }
  split; [exact Hw |]. split; [exact Ht |]. split; [exact Hr |].
  refine (proj1 (machine_follows_schedule (P := time_based (H := toy_externals) (H0 := utc))
    (L := time_based_laws (H := toy_externals) (H0 := utc)) (R := cache_resolver (H := toy_externals)) sample_ctx "team" "sm" true
    (po_spec office) (monday_at 10) (monday_at 18) true 3 _ _ Hw _ Ht Hr _ _) _);
    [by vm_compute | apply (bool_decide_unpack _); by vm_compute | by vm_compute | lia].
Defined.
