(* ===== verification/Reclaim.v ===== *)
(** From a process to a machine taken out of service: the request of the reclaim
    agent ([src/bin/reclaim_agent.rs]) and the reconcile that meets it
    ([check_emergency_reclaim], [handle_emergency_remove]), composed.

    [Emergency.emergency_ordering] says that nothing is done out of order; here,
    that it is done. *)

From S2P Require Import Prelude RustStr Effects Constants Json Crd Externals KubeApi Samples Metrics.
From S2P Require Import Duration SpotSchedule Status Capi Drain NodeTaints ChildClient Emergency Finalizer.
From S2P Require Import Provision Assignment Phases Reconcile Confinement Footprint Ledger Deletion ReclaimAgent.

(** The node as the API serves it, with the annotation the agent wrote for a
    match. *)
Definition requested_by_agent (node : Node) : Prop :=
  exists m ts stored, annotations_agree node (merge_patch (build_patch_body m ts) stored).

(** What the reconcile needs of its environment: to lead and to be the instance
    of the machine; the node read with the agent's annotation; the status writes,
    the deletions and the two patches accepted.  The drain, which may also time
    out (its deadline is not that of a finalizer's cleanup, of which a reconcile
    that meets a request has none), the events and the rest may be answered in
    any way. *)
Definition meets_request (ctx : Context) (sm : ScheduledMachine) (ns node : string) (e : event reply) : Prop :=
  match e with
  | Ev IsLeader leader => leader = true
  | Ev (EnvVar _) v => assigned_instance (name_any sm) ns (priority (spec sm)) (ctx_instance_count ctx) = instance_of_env v
  | Ev (GetNode _ n) r => n = node -> exists stored, r = Ok stored /\ requested_by_agent stored
  | Ev (DeleteDyn _ _ _ _) r => delete_ok r = true
  | Ev (PatchSMStatus _ _ _ _) r | Ev (PatchSM _ _ _ _) r => r = Ok tt
  | Ev (PatchNode _ _ p) r => clears_request p = true -> r = Ok tt
  | Ev (DeadlinePassed secs) passed => secs = FINALIZER_CLEANUP_TIMEOUT_SECS -> passed = false
  | _ => True
  end.

(** What the cluster holds of it: the machine's life, the switch of its spec, and
    whether the node [node], in the management cluster, carries the request. *)
Record standing : Type := { s_life : life; s_enabled : bool; s_requested : bool }.
Definition standing_after (ns name node : string) (s : standing) (e : event reply) (s' : standing) : Prop :=
  life_after ns name (s_life s) e (s_life s') /\
  match e with
  | Ev (PatchSM _ ns' n body) (Ok _) =>
      s_enabled s' = (if bool_decide (ns' = ns /\ n = name) && disables body then false else s_enabled s)
  | _ => s_enabled s' = s_enabled s
  end /\
  match e with
  | Ev (PatchNode c n p) (Ok _) =>
      s_requested s' = (if bool_decide (c = MgmtClient /\ n = node) && clears_request p then false else s_requested s)
  | _ => s_requested s' = s_requested s
  end.

Section reclaim.
Context `{Externals} `{ResolverLaws} (ctx : Context) (sm : ScheduledMachine) (ns node : string) (good : event reply -> Prop).
Context (Hns : Crd.namespace sm = Some ns) (Hgood : forall e, good e -> meets_request ctx sm ns node e).
Context (Hresolve : under good (λ _, True) (resolve sm) (λ r, r = Ok (Management MgmtClient))).
Notation name := (name_any sm).
Notation under := (under good (λ _, True)).
Notation world := (λ s e s', standing_after ns name node s e s' /\ good e).
Notation triple := (hoare world (λ _ _, True)).

Lemma under_update from p reason msg b : under (update_phase ns name from p reason msg b) (λ r, r = Ok tt).
Proof using Hgood. cbn -[status_patch]. split; [done |]. intros _ [] _. split; [done |]. intros now [] _. split; [done |]. by intros r [] ->%Hgood. Qed.

Lemma under_any {A} (p : M A) : under p (λ _, True).
Proof. unfold Effects.under. induction p as [a | c k IH]; cbn; [done |]. split; [done |]. intros r [] _. apply IH. Qed.

(** The result. *)
Lemma under_emergency request : under (handle_emergency_remove ctx sm node request) (λ r, r = Ok (Requeue TIMER_REQUEUE_SECS)).
Proof using Hns Hgood Hresolve.
  unfold handle_emergency_remove, require_namespace. rewrite Hns. apply (under_bind_ok _ _ _ _ (λ r, r = Ok ns)); [done | | done].
  intros ? [= ->]. cbv zeta.
  apply (under_bind _ _ _ _ (λ _, True)); [apply under_any | intros _ _].
  eapply under_bind_ok; [apply under_update | intros [] _ | done].
  apply (under_bind _ _ _ _ (λ _, True)); [apply under_any | intros _ _].
  apply (under_bind _ _ _ _ (λ _, True)); [apply under_any | intros now _].
  apply (under_bind _ _ _ _ (λ _, True)); [apply under_any | intros breach _].
  apply (under_bind _ _ _ _ (λ _, True)); [apply under_any | intros _ _].
  eapply under_bind_ok; [apply Hresolve | intros rc [= ->] | done].
  apply (under_bind _ _ _ _ (λ _, True)); [apply under_any | intros start _].
  apply (under_bind _ _ _ _ (λ _, True)); [apply under_any | intros drained _].
  apply (under_bind _ _ _ _ (λ _, True)); [apply under_any | intros spent _].
  apply (under_bind _ _ _ _ (λ _, True)); [apply under_any | intros _ _].
  eapply under_bind_ok; [apply under_remove; intros c ns' ar n r Hr; apply (Hgood _ Hr) | intros [] _ | done].
  apply (under_bind_ok _ _ _ _ (λ r, r = Ok tt)); [cbn; split; [done |]; by intros r [] ->%Hgood | intros [] _ | done].
  apply (under_bind _ _ _ _ (λ _, True)); [apply under_any | intros _ _].
  apply (under_bind _ _ _ _ (λ _, True)); [apply under_any | intros _ _].
  by eapply under_bind_ok; [apply under_update | intros [] _ |].
Qed.

(** ** What it leaves *)

(** The machine is out of service: Disabled, its schedule switched off, and the
    request withdrawn. *)
Definition settled (s : standing) : Prop :=
  l_phase (s_life s) = Some PHASE_DISABLED /\ s_enabled s = false /\ s_requested s = false.

Lemma settled_keeps {A} (p : M A) : forall s, calls keeps p -> settled s -> triple s p (λ s' _, settled s').
Proof.
  induction p as [a | c k IH]; cbn [hoare calls]; intros s; [done |]. intros [Hc Hk] (Hp & He & Hr). split; [done |].
  intros r s' [(Hl & He' & Hr') _]. apply IH; [done |]. unfold settled.
  assert (Hq : l_phase (s_life s') = l_phase (s_life s)).
  { destruct c; cbn in Hc, Hl; try done; try tauto. rewrite Hc in Hl. tauto. }
  rewrite Hq. split; [done |]. split.
  - destruct c; cbn in Hc, He'; try done; congruence.
  - destruct c; cbn in Hr'; try congruence. destruct r; [| congruence]. rewrite Hr', Hr. by destruct (_ && _).
Qed.

(** Steps whose effect does not matter. *)
Lemma skip {A B} s (p : M A) (k : A -> M B) (Q : A -> Prop) Q' :
  under p Q -> (forall s' a, Q a -> triple s' (k a) Q') -> triple s (bind p k) Q'.
Proof. intros Hp Hk. apply hoare_bind. eapply hoare_mono; [done | intros s' a; apply Hk | by apply hoare_under]. Qed.
Lemma skip_any {A B} s (p : M A) (k : A -> M B) Q' : (forall s' a, triple s' (k a) Q') -> triple s (bind p k) Q'.
Proof. intros Hk. eapply skip; [apply under_any |]. intros s' a _. apply Hk. Qed.

Definition settles (s : standing) (r : rresult Action) : Prop := is_ok r = true -> settled s.
Lemma skip_ok {A} s (p : M (rresult A)) (k : A -> M (rresult Action)) :
  (forall s' a, triple s' (k a) settles) -> triple s (bind_ok p k) settles.
Proof. intros Hk. apply skip_any. by intros s' [a | e]. Qed.

Lemma emergency_settles s request : triple s (handle_emergency_remove ctx sm node request) settles.
Proof using Hns Hgood Hresolve.
  unfold handle_emergency_remove, require_namespace. rewrite Hns. cbn [lift bind_ok bind]. cbv zeta.
  apply skip_any; intros s1 _. apply skip_ok; intros s2 _. apply skip_any; intros s3 _. apply skip_any; intros s4 now.
  apply skip_any; intros s5 breach. apply skip_any; intros s6 _.
  eapply skip; [apply Hresolve | intros s7 _ ->]. cbn [bind_ok bind].
  apply skip_any; intros s8 start. apply skip_any; intros s9 drained. apply skip_any; intros s10 spent. apply skip_any; intros s11 _.
  apply skip_ok; intros s12 _.
  assert (Hd : disables build_disable_schedule_patch = true) by (vm_compute; reflexivity).
  assert (Hc : clears_request (MergePatch build_clear_reclaim_patch) = true) by (vm_compute; reflexivity).
  unfold clear_reclaim_annotations_best_effort, patch_disable_schedule, update_phase.
  cbn -[status_patch phase_status patch_phase disables clears_request]. split; [done |].
  intros r s13 [(_ & He & _) Hg]. apply Hgood in Hg. cbn in Hg. subst r.
  rewrite bool_decide_true, Hd in He by done. cbn -[status_patch phase_status patch_phase disables clears_request] in *. split; [done |].
  intros r s14 [(_ & He1 & _) _]. split; [done |]. intros r' s15 [(_ & He2 & Hr) Hg]. apply Hgood in Hg.
  rewrite (Hg Hc), bool_decide_true, Hc in Hr by done. cbn in Hr. split; [done |]. clear Hg. intros r2 s16 [(_ & He3 & Hr1) _]. split; [done |].
  intros t s17 [(_ & He4 & Hr2) _]. split; [done |]. intros r3 s18 [((_ & _ & Hp) & He5 & Hr3) Hg]. apply Hgood in Hg. cbn in Hg. subst r3.
  rewrite patch_phase_status, bool_decide_true in Hp by done. destruct Hp as [Hp | [? _]]; [| done].
  cbn in *. intros _. split_and!; congruence.
Qed.

(** ** The reconcile that meets the request *)

Definition reclaimed (s : standing) (r : rresult Action) : Prop := r = Ok (Requeue TIMER_REQUEUE_SECS) /\ settled s.

Lemma emergency_reclaims s request : triple s (handle_emergency_remove ctx sm node request) reclaimed.
Proof using Hns Hgood Hresolve.
  eapply hoare_mono; [| | apply hoare_and; [apply emergency_settles | apply hoare_under, under_emergency]]; [done |].
  cbn. intros s' r [Hs ->]. split; [done |]. by apply Hs.
Qed.

Context (Hnode : nr_name <$> (status sm ≫= node_ref) = Some node) (Hnonempty : node <> "").
Context (Hkill : kill_switch (spec sm) = false) (Hvalid : validate_spec sm = Ok tt).

Lemma check_reclaims s : triple s (check_emergency_reclaim ctx sm) (λ s' r, exists a, r = Ok (Some a) /\ reclaimed s' (Ok a)).
Proof using Hns Hgood Hresolve Hnode Hnonempty.
  unfold check_emergency_reclaim. destruct (status sm ≫= node_ref) as [nref |]; [| done]. cbn in Hnode. injection Hnode as ->. cbv zeta.
  destruct (str_is_empty node) eqn:He; [by destruct node |]. split; [done |]. intros r s1 [_ Hg]. apply Hgood in Hg.
  destruct (Hg eq_refl) as (stored & -> & m & ts & body & Hag). destruct (annotated_requests m ts body stored Hag) as [Hreq _].
  cbn [bind]. rewrite Hreq. apply hoare_bind. eapply hoare_mono; [| | apply emergency_reclaims]; [done |].
  cbn beta. intros s2 r [-> Hs]. cbn. eexists. split; [reflexivity |]. by split.
Qed.

Lemma inner_reclaims s : triple s (reconcile_inner ctx sm) reclaimed.
Proof using Hns Hgood Hresolve Hnode Hnonempty Hkill Hvalid.
  unfold reconcile_inner, require_namespace. rewrite Hns, Hvalid, Hkill. cbn [lift bind_ok bind].
  apply hoare_bind. eapply hoare_mono; [done | | apply check_reclaims]. cbn. by intros s' r (a & -> & Hr).
Qed.

Lemma reconcile_reclaims s :
  om_deletion_timestamp (metadata sm) = None -> has_finalizer sm = true ->
  triple s (reconcile_scheduled_machine ctx sm) reclaimed.
Proof using Hns Hgood Hresolve Hnode Hnonempty Hkill Hvalid.
  intros Hd Hf. unfold reconcile_scheduled_machine. rewrite Hns. cbv zeta. apply skip_any; intros s1 id. unfold reconcile_guarded.
  apply skip_any; intros s2 start. eapply (skip _ _ _ (λ b, b = true)); [by split; [| intros b [] ?%Hgood] | intros s3 leader ->]. cbn [negb].
  eapply (skip _ _ _ (λ b, b = true)); [| intros s4 mine ->].
  { unfold should_process_resource. destruct (bool_decide (_ <= 1)%Z); [done |]. cbn. split; [done |]. intros v [] Hv%Hgood.
    by apply bool_decide_eq_true. }
  cbn [negb]. rewrite Hd, Hf. cbn [negb]. apply hoare_bind. eapply hoare_mono; [done | | apply inner_reclaims].
  cbn beta. intros s5 r [-> Hs]. eapply hoare_mono; [| | apply hoare_returns; [apply settled_keeps; [| exact Hs] |]].
  - done.
  - cbn beta. intros s6 r [Hs6 Hr]. split; [exact Hr | exact Hs6].
  - by repeat split.
  - by repeat intros ?.
Qed.
End reclaim.

(** ** A match ends in a machine out of service *)

(** The stored copy of a machine that serves on [node]: valid, under the
    finalizer, neither being deleted nor killed. *)
Definition serving `{Externals} (ctx : Context) (ns name node : string) (owned : list ApiResource) (l : life) (sm : ScheduledMachine) : Prop :=
  Crd.namespace sm = Some ns /\ name_any sm = name /\ owned_resources ctx sm = owned /\ sm_phase sm = l_phase l /\
  has_finalizer sm = true /\ l_finalizer l = true /\ om_deletion_timestamp (metadata sm) = None /\
  nr_name <$> (status sm ≫= node_ref) = Some node /\ node <> "" /\
  kill_switch (spec sm) = false /\ validate_spec sm = Ok tt.

Lemma standing_life ns name node : forall t s s',
  evolve (standing_after ns name node) s t s' -> evolve (life_after ns name) (s_life s) t (s_life s').
Proof.
  induction t as [| e t IH]; cbn; intros s s'; [by intros -> |]. intros (s1 & [Hl _] & Hv). exists (s_life s1). split; [done |]. by apply IH.
Qed.

Lemma meets_unforced ctx sm ns node e : meets_request ctx sm ns node e -> unforced ctx e.
Proof. destruct e as [[] r]; cbn; try done. destruct r; [| done]. by intros Hp ?%Hp. Qed.

(** C9: a process match takes the machine out of service.  For a machine whose
    nodes are in the management cluster (its kubeconfig resolution answers the
    management client), valid, under the finalizer, neither being deleted nor
    under the kill switch, that has lived as in [lived_accounted] (reconciles on
    the stored object, none failed, no finalizer forced, provider references
    constant, Cluster API version without a slash): when the annotation the agent
    writes for a match is on its node, the next reconcile of the stored object on
    the leading instance it is assigned to, whose node read, status writes,
    patches and deletions succeed, whatever the drain and the rest do, ends with
    the machine Disabled, its schedule switched off, the request withdrawn and
    none of its CAPI objects left. *)
Theorem match_disables_machine `{Externals} `{ResolverLaws} ctx ns name node owned good s sm t r s' :
  discovered_ok ctx -> lived ctx (clean ctx) ns name owned (s_life s) -> serving ctx ns name node owned (s_life s) sm ->
  (forall e, good e -> meets_request ctx sm ns node e) ->
  under good (λ _, True) (resolve sm) (λ a, a = Ok (Management MgmtClient)) ->
  exec (reconcile_scheduled_machine ctx sm) t r -> evolve (standing_after ns name node) s t s' -> Forall good t ->
  r = Ok (Requeue TIMER_REQUEUE_SECS) /\ l_phase (s_life s') = Some PHASE_DISABLED /\ s_enabled s' = false /\
  s_requested s' = false /\ forall ar, ~ l_objects (s_life s') ar.
Proof.
  intros Hd Hl (Hns & <- & <- & Hp & Hf & Hf' & Hdt & Hnode & Hne & Hk & Hv) Hg Hr He Hev Ho.
  pose proof (reconcile_reclaims ctx sm ns node good Hns Hg Hr Hnode Hne Hk Hv s Hdt Hf) as Ht.
  pose proof (hoare_exec _ _ _ _ _ _ _ _ Ht He (evolve_and _ _ _ _ _ Hev Ho)) as [-> (Hph & Hen & Hrq)].
  split_and!; [done.. |]. intros ar Har.
  assert (Ha : accounted (owned_resources ctx sm) (s_life s')).
  { refine (hoare_exec _ _ _ _ _ _ _ _ (reconcile_leaves ctx sm ns Hns (s_life s) Hd _ Hp _) He _ _).
    - by apply (lived_is_accounted ctx ns (name_any sm)).
    - by rewrite Hf.
    - apply evolve_and; [by apply (standing_life _ _ node) |]. eapply Forall_impl; [exact Ho |]. intros e Hge.
      by eapply meets_unforced, Hg.
    - by eexists. }
  destruct (Ha ar Har) as (_ & _ & [Hq | Hq]); by rewrite Hph in Hq.
Qed.

(** A node busy with [java], under a machine that serves on it. *)
Definition reclaiming (c : call_t) : reply c :=
  match c return reply c with
  | GetNode _ _ => Ok sample_annotated
  | GetSecret _ _ _ => Err (ApiError HTTP_NOT_FOUND "")
  | c => cluster true true c
  end.
Definition standing_env (c : call_t) (s : standing) : standing * reply c :=
  ({| s_life := (life_env "team" "sm" reclaiming c (s_life s)).1;
      s_enabled :=
        match c with
        | PatchSM _ ns n body => if bool_decide (ns = "team" /\ n = "sm") && disables body then false else s_enabled s
        | _ => s_enabled s
        end;
      s_requested :=
        match c with
        | PatchNode m n p => if bool_decide (m = MgmtClient /\ n = "n1") && clears_request p then false else s_requested s
        | _ => s_requested s
        end |}, reclaiming c).
Definition on_n1 : ScheduledMachine :=
  let sm := stored true (Some PHASE_ACTIVE) false in
  {| metadata := metadata sm; spec := spec sm;
     status := (λ st, {| phase := phase st; message := message st; last_scheduled_time := last_scheduled_time st;
       machine_ref := machine_ref st; bootstrap_ref := bootstrap_ref st; infrastructure_ref := infrastructure_ref st;
       node_ref := Some {| nr_api_version := "v1"; nr_kind := "Node"; nr_name := "n1"; nr_uid := None |};
       provider_id := provider_id st; conditions := conditions st; observed_generation := observed_generation st;
       in_schedule := in_schedule st; ready := ready st; next_activation := next_activation st; next_cleanup := next_cleanup st;
       applied_node_taints := applied_node_taints st; spot_schedule := spot_schedule st |}) <$> status sm |}.
Definition local_nodes (e : event reply) : Prop :=
  meets_request sample_ctx on_n1 "team" "n1" e /\
  match e with Ev (GetSecret _ _ _) r => r = Err (ApiError HTTP_NOT_FOUND "") | _ => True end.
Definition busy : standing := {| s_life := started; s_enabled := true; s_requested := true |}.

Lemma standing_env_after c s : standing_after "team" "sm" "n1" s (Ev c (standing_env c s).2) (standing_env c s).1.
Proof. split; [apply life_env_after |]. by destruct c. Qed.

Lemma reclaiming_local c : local_nodes (Ev c (reclaiming c)).
Proof.
  split; [| by destruct c]. destruct c; cbn -[patch_phase]; try done.
  - intros ->. eexists. split; [reflexivity |]. exists sample_match, "now", (JObj []). exact sample_agrees.
  - by destruct (patch_phase body).
Qed.

Lemma local_resolution :
  under local_nodes (λ _, True) (cache_resolve (H := toy_externals) MgmtClient on_n1) (λ a, a = Ok (Management MgmtClient)).
Proof. cbn. split; [done |]. intros r [] [_ ->]. cbn. by repeat split. Qed.

Lemma match_disables_machine_witness :
  lived (H := toy_externals) (H0 := cache_resolver (H := toy_externals)) sample_ctx (clean sample_ctx) "team" "sm"
    (owned_resources (H := toy_externals) sample_ctx sample_sm) (s_life busy) /\
  serving (H := toy_externals) sample_ctx "team" "sm" "n1" (owned_resources (H := toy_externals) sample_ctx sample_sm) (s_life busy) on_n1 /\
  let s' := (run standing_env busy (sm_reconcile on_n1)).1.1 in
  l_phase (s_life s') = Some PHASE_DISABLED /\ s_enabled s' = false /\ s_requested s' = false /\ forall ar, ~ l_objects (s_life s') ar.
Proof.
  assert (Hs : serving (H := toy_externals) sample_ctx "team" "sm" "n1"
    (owned_resources (H := toy_externals) sample_ctx sample_sm) (s_life busy) on_n1) by (split_and!; by vm_compute).
  split; [exact started_lived |]. split; [exact Hs |]. cbv zeta.
  destruct (run_evolve (standing_after "team" "sm" "n1") standing_env (sm_reconcile on_n1) standing_env_after busy) as [He Hv].
  refine (proj2 (match_disables_machine (H := toy_externals) (R := cache_resolver (H := toy_externals)) sample_ctx "team" "sm" "n1"
    (owned_resources (H := toy_externals) sample_ctx sample_sm) local_nodes busy on_n1 _ _ _ eq_refl started_lived Hs _ local_resolution He Hv _)).
  - by intros e [].
  - apply run_Forall. intros c s. apply reclaiming_local.
Defined.
