(* ===== verification/ApiDoc.v ===== *)
(** The generator of the API reference ([src/bin/crddoc.rs]): what it prints,
    section by section, and how far it agrees with the code it documents.

    The generator is a sequence of [println!] with fixed texts, kept apart from
    the types by hand.  Its text is read back here as a reader does (headings,
    defaults, bullet lists, the values of the YAML examples) and compared with
    the definitions of the development. *)

From S2P Require Import Prelude RustStr Effects Constants Json Crd Externals KubeApi.
From S2P Require Import Ranges TaintValidation Validation Duration Status Capi ChildClient Reconcile.

Definition crddoc_title : list string := [
  "# 5Spot API Reference";
  "";
  "## ScheduledMachine";
  "";
  "The `ScheduledMachine` custom resource defines a machine that should be";
  "automatically added to and removed from a k0smotron cluster based on a time schedule.";
  ""].

Definition crddoc_group_version : list string := [
  "### API Group and Version";
  "";
  "- **API Group**: `5spot.finos.org`";
  "- **API Version**: `v1beta1` (single served/storage version)";
  "- **Kind**: `ScheduledMachine`";
  "";
  "> Since ADR 0009, `spec.schedule` is a **required reference** to a spot-schedule";
  "> provider object (in the `spotschedules.5spot.finos.org` group) that owns the";
  "> machine's active/inactive decision. The former inline time window is now the";
  "> first-party `TimeBasedSpotSchedule` provider; `CapitalMarketsSchedule` and";
  "> third-party providers are referenced the same way. The pre-release `v1alpha1`";
  "> `ScheduledMachine` version was dropped (ADR 0009 amends ADR 0007).";
  ""].

Definition crddoc_example : list string := [
  "### Example";
  "";
  "```yaml";
  "apiVersion: 5spot.finos.org/v1beta1";
  "kind: ScheduledMachine";
  "metadata:";
  "  name: example-spot-machine";
  "  namespace: default";
  "spec:";
  "  clusterName: my-cluster";
  "  enabled: true";
  "  # Required: reference the spot-schedule provider that owns the";
  "  # active/inactive decision (ADR 0009). The default is TimeBasedSpotSchedule.";
  "  schedule:";
  "    apiVersion: spotschedules.5spot.finos.org/v1alpha1";
  "    kind: TimeBasedSpotSchedule";
  "    name: weekdays-9-5";
  "  bootstrapSpec:";
  "    apiVersion: bootstrap.cluster.x-k8s.io/v1beta1";
  "    kind: K0sWorkerConfig";
  "    spec:";
  "      version: v1.32.8+k0s.0";
  "      downloadURL: https://github.com/k0sproject/k0s/releases/download/v1.32.8+k0s.0/k0s-v1.32.8+k0s.0-amd64";
  "  infrastructureSpec:";
  "    apiVersion: infrastructure.cluster.x-k8s.io/v1beta1";
  "    kind: RemoteMachine";
  "    spec:";
  "      address: 192.168.1.100";
  "      port: 22";
  "      user: root";
  "      sshKeyRef:";
  "        name: my-ssh-key";
  "  machineTemplate:";
  "    labels:";
  "      node-role.kubernetes.io/worker: spot";
  "    annotations:";
  "      example.com/scheduled-by: 5spot";
  "  priority: 50";
  "  gracefulShutdownTimeout: 5m";
  "  nodeDrainTimeout: 5m";
  "  killSwitch: false";
  "  killIfCommands:";
  "    - java";
  "    - idea";
  "  nodeTaints:";
  "    - key: workload";
  "      value: batch";
  "      effect: NoSchedule";
  "  kata:";
  "    kind: ConfigMap";
  "    name: kata-drop-in";
  "```";
  "";
  "The referenced provider object lives in the same namespace. The default,";
  "first-party provider is `TimeBasedSpotSchedule`:";
  "";
  "```yaml";
  "apiVersion: spotschedules.5spot.finos.org/v1alpha1";
  "kind: TimeBasedSpotSchedule";
  "metadata:";
  "  name: weekdays-9-5";
  "  namespace: default";
  "spec:";
  "  daysOfWeek:";
  "    - mon-fri";
  "  hoursOfDay:";
  "    - 9-17";
  "  timezone: America/New_York";
  "  enabled: true";
  "```";
  ""].

Definition crddoc_spec : list string := [
  "### Spec Fields";
  ""].

Definition crddoc_spec_schedule : list string := [
  "#### schedule";
  "";
  "(required, object) Reference to the spot-schedule provider object that owns this";
  "machine's active/inactive decision (ADR 0009). The 5-Spot controller watches the";
  "referenced object and reads only its duck-typed `status.active` (and `Ready` condition)";
  "— never the provider `spec`, and it never writes the provider object. The provider";
  "verdict is the machine's should-be-active decision; `spec.enabled` and `killSwitch`";
  "override it.";
  "";
  "- **apiVersion** (required, string): `group/version` of the provider. The group MUST";
  "  be `spotschedules.5spot.finos.org` (CEL-pinned); any served version is accepted.";
  "- **kind** (required, string): Provider kind, e.g. `TimeBasedSpotSchedule` (the";
  "  default) or `CapitalMarketsSchedule`.";
  "- **name** (required, string): Provider object name in **this machine's namespace**.";
  "  Cross-namespace references are not supported.";
  "";
  "See the [Spot Schedule Provider Contract](spot-schedule-contract.md) for the full";
  "contract a provider implements, plus the `TimeBasedSpotSchedule` and";
  "`CapitalMarketsSchedule` first-party providers.";
  ""].

Definition crddoc_spec_enabled : list string := [
  "#### enabled";
  "";
  "(optional, boolean, default: `true`) Administrative master switch for this machine";
  "(ADR 0009). When `false` the machine is held **Disabled** regardless of what its";
  "`schedule` provider reports — the SM-scoped on/off operators reach for, and the";
  "loop-breaker the emergency-reclaim flow sets. Distinct from the provider's own";
  "`status.active` and from `killSwitch` (immediate, terminal teardown).";
  ""].

Definition crddoc_spec_clusterName : list string := [
  "#### clusterName";
  "";
  "(required, string) Name of the CAPI cluster this machine belongs to.";
  ""].

Definition crddoc_spec_bootstrapSpec : list string := [
  "#### bootstrapSpec";
  "";
  "(required, object) Inline bootstrap configuration that will be created when the schedule is active.";
  "This is a fully unstructured object that must contain:";
  "";
  "- **apiVersion** (required, string): API version of the bootstrap resource (e.g., `bootstrap.cluster.x-k8s.io/v1beta1`)";
  "- **kind** (required, string): Kind of the bootstrap resource (e.g., `K0sWorkerConfig`, `KubeadmConfig`)";
  "- **spec** (required, object): Provider-specific configuration for the bootstrap resource";
  "";
  "The controller validates that the apiVersion belongs to an allowed bootstrap API group.";
  "";
  "It may also include an optional `metadata` block:";
  "";
  "- **metadata.labels** (optional, map of string to string): merged onto the created bootstrap resource";
  "- **metadata.annotations** (optional, map of string to string): merged onto the created bootstrap resource";
  "";
  "`metadata.name` and `metadata.namespace` are **not** permitted — the controller";
  "names the resource after the ScheduledMachine and creates it in the SM's own";
  "namespace. Labels/annotations using reserved prefixes (`5spot.finos.org/`,";
  "`cluster.x-k8s.io/`, `kubernetes.io/`, `k8s.io/`) are rejected.";
  ""].

Definition crddoc_spec_infrastructureSpec : list string := [
  "#### infrastructureSpec";
  "";
  "(required, object) Inline infrastructure configuration that will be created when the schedule is active.";
  "This is a fully unstructured object that must contain:";
  "";
  "- **apiVersion** (required, string): API version of the infrastructure resource (e.g., `infrastructure.cluster.x-k8s.io/v1beta1`)";
  "- **kind** (required, string): Kind of the infrastructure resource (e.g., `RemoteMachine`, `AWSMachine`)";
  "- **spec** (required, object): Provider-specific configuration for the infrastructure resource";
  "";
  "The controller validates that the apiVersion belongs to an allowed infrastructure API group.";
  "";
  "It may also include an optional `metadata` block:";
  "";
  "- **metadata.labels** (optional, map of string to string): merged onto the created infrastructure resource";
  "- **metadata.annotations** (optional, map of string to string): merged onto the created infrastructure resource";
  "";
  "`metadata.name` and `metadata.namespace` are **not** permitted — the controller";
  "names the resource after the ScheduledMachine and creates it in the SM's own";
  "namespace. Labels/annotations using reserved prefixes (`5spot.finos.org/`,";
  "`cluster.x-k8s.io/`, `kubernetes.io/`, `k8s.io/`) are rejected.";
  ""].

Definition crddoc_spec_machineTemplate : list string := [
  "#### machineTemplate";
  "";
  "(optional, object) Configuration for the created CAPI Machine resource.";
  "";
  "- **labels** (optional, map of string to string): Labels to apply to the created Machine";
  "- **annotations** (optional, map of string to string): Annotations to apply to the created Machine";
  "";
  "Note: Labels and annotations using reserved prefixes (`5spot.finos.org/`, `cluster.x-k8s.io/`) are rejected.";
  ""].

Definition crddoc_spec_priority : list string := [
  "#### priority";
  "";
  "(optional, integer 0-255, default: `50`) Priority for machine scheduling.";
  "Higher values indicate higher priority. Used for resource distribution across";
  "operator instances.";
  ""].

Definition crddoc_spec_gracefulShutdownTimeout : list string := [
  "#### gracefulShutdownTimeout";
  "";
  "(optional, string, default: `5m`) Timeout for graceful machine shutdown.";
  "Format: `<number><unit>` where unit is `s` (seconds), `m` (minutes), or `h` (hours).";
  ""].

Definition crddoc_spec_nodeDrainTimeout : list string := [
  "#### nodeDrainTimeout";
  "";
  "(optional, string, default: `5m`) Timeout for draining the node before deletion.";
  "Format: `<number><unit>` where unit is `s` (seconds), `m` (minutes), or `h` (hours).";
  ""].

Definition crddoc_spec_killSwitch : list string := [
  "#### killSwitch";
  "";
  "(optional, boolean, default: `false`) When true, immediately removes the machine";
  "from the cluster and takes it out of rotation, bypassing the grace period.";
  ""].

Definition crddoc_spec_killIfCommands : list string := [
  "#### killIfCommands";
  "";
  "(optional, array of strings) Process patterns that trigger an emergency node reclaim.";
  "When non-empty, the 5-Spot controller installs the `5spot-reclaim-agent` DaemonSet";
  "on every Node backing this `ScheduledMachine`. The agent watches `/proc` for any";
  "process whose basename or argv matches one of these patterns and, on first match,";
  "annotates the Node to request immediate (non-graceful) removal from the cluster.";
  "";
  "When absent or empty, no agent is installed and behaviour is time-based scheduling only.";
  "Patterns are evaluated against both `/proc/<pid>/comm` (exact basename) and";
  "`/proc/<pid>/cmdline` (substring).";
  ""].

Definition crddoc_spec_nodeTaints : list string := [
  "#### nodeTaints";
  "";
  "(optional, array of NodeTaint, default: `[]`) User-defined taints applied to the";
  "Kubernetes Node once it is Ready. The controller owns and reconciles only the";
  "taints it applied (tracked in `status.appliedNodeTaints` plus the";
  "`5spot.finos.org/applied-taints` annotation on the Node). Admin-added taints on";
  "the same Node are left untouched. Taint identity is the tuple `(key, effect)`;";
  "`value` is mutable.";
  "";
  "Each `NodeTaint` has the following fields:";
  "";
  "- **key** (required, string): RFC-1123 qualified name. Max 253 chars total;";
  "  name-part ≤ 63. Reserved prefixes rejected at admission: `5spot.finos.org/`,";
  "  `kubernetes.io/`, `node.kubernetes.io/`, `node-role.kubernetes.io/`.";
  "- **value** (optional, string): Optional value, ≤ 63 chars. Mutable — changing";
  "  the value on an existing taint triggers an update, not an add/remove.";
  "- **effect** (required, enum): One of `NoSchedule`, `PreferNoSchedule`, `NoExecute`.";
  "";
  "Duplicate `(key, effect)` pairs are rejected at admission. Admin-added taints";
  "colliding on `(key, effect)` are surfaced as a `TaintOwnershipConflict` condition";
  "rather than overwritten.";
  ""].

Definition crddoc_spec_kata : list string := [
  "#### kata";
  "";
  "(optional, KataConfig) Reference to a `Secret` or `ConfigMap` **on the workload";
  "cluster** holding a Kata containerd drop-in to deliver to the node(s) this resource";
  "owns. When set, the controller resolves the object on the workload cluster (via the";
  "`kubeconfig-<clusterName>` Secret) in `kata.namespace` (default `5spot-system`). If";
  "present, it stamps the `5spot.finos.org/kata-config=enabled` opt-in label plus a";
  "reference annotation on the Node; the `5spot-kata-config-agent` DaemonSet reads the";
  "object from the workload API, writes the drop-in to the fixed host path";
  "`/etc/k0s/containerd.d/kata.toml` (not configurable — ADR 0005), and restarts";
  "`restartService` so containerd reloads it. If the object (or its namespace) is";
  "absent, the controller does NOT label the Node and reports a fail-fast status";
  "condition — 5-Spot never creates the object (it must pre-exist, Flux-delivered).";
  "This is config delivery, not a Kata install — `/opt/kata` binaries remain";
  "`kata-deploy`'s job. See ADR 0002 and ADR 0003.";
  "";
  "`KataConfig` has the following fields:";
  "";
  "- **kind** (required, enum): One of `ConfigMap`, `Secret` — the source kind.";
  "- **name** (required, string): Source object name on the workload cluster,";
  "  RFC-1123 DNS subdomain (≤ 253 chars).";
  "- **namespace** (optional, string, default: `5spot-system`): workload-cluster";
  "  namespace the agent reads the object from. Override for per-tenant placement.";
  "- **key** (optional, string, default: `kata-containers.toml`): `data` key whose";
  "  value is the drop-in content.";
  "- **restartService** (optional, string, default: `k0sworker.service`): systemd";
  "  unit restarted via `nsenter` so containerd reloads the drop-in. Override with";
  "  `k0scontroller.service` on single-node layouts.";
  ""].

Definition crddoc_status : list string := [
  "### Status Fields";
  ""].

Definition crddoc_status_phase : list string := [
  "#### phase";
  "";
  "Current phase of the machine lifecycle. Possible values:";
  "";
  "- **Pending**: Initial state, awaiting schedule evaluation";
  "- **Active**: Machine is running and part of the cluster";
  "- **ShuttingDown**: Machine is being gracefully removed (draining, etc.)";
  "- **Inactive**: Machine is outside scheduled time window and has been removed";
  "- **Disabled**: Schedule is disabled, machine is not active";
  "- **Terminated**: Machine has been permanently removed";
  "- **Error**: An error occurred during processing";
  ""].

Definition crddoc_status_conditions : list string := [
  "#### conditions";
  "";
  "Array of condition objects with the following fields:";
  "";
  "- **type**: Condition type (e.g., `Ready`, `Scheduled`, `MachineReady`)";
  "- **status**: `True`, `False`, or `Unknown`";
  "- **reason**: One-word reason in CamelCase";
  "- **message**: Human-readable message";
  "- **lastTransitionTime**: Last time the condition transitioned";
  ""].

Definition crddoc_status_inSchedule : list string := [
  "#### inSchedule";
  "";
  "(boolean) Whether the machine is currently within its scheduled time window.";
  ""].

Definition crddoc_status_ready : list string := [
  "#### ready";
  "";
  "(boolean) `True` only when `phase` is `Active`. Surfaced as the `Ready` printer column";
  "for fast operator triage — any other phase (`Pending`, `ShuttingDown`, `Inactive`,";
  "`Disabled`, `Terminated`, `Error`) is reported as `False`.";
  ""].

Definition crddoc_status_message : list string := [
  "#### message";
  "";
  "(string) Human-readable message describing the current state.";
  ""].

Definition crddoc_status_observedGeneration : list string := [
  "#### observedGeneration";
  "";
  "(integer) The generation observed by the controller. Used for change detection.";
  ""].

Definition crddoc_status_providerID : list string := [
  "#### providerID";
  "";
  "(optional, string) Provider-assigned machine identifier, copied from the CAPI Machine's";
  "`spec.providerID`. Stable for the life of the machine and unique across the cluster.";
  "Examples: `libvirt:///uuid-abc-123`, `aws:///us-east-1a/i-0abcd1234`.";
  ""].

Definition crddoc_status_nodeRef : list string := [
  "#### nodeRef";
  "";
  "(optional, object) Reference to the Kubernetes Node once the Machine is provisioned.";
  "Mirrors the shape of CAPI's `Machine.status.nodeRef`:";
  "";
  "- **apiVersion** (required, string): API version of the Node resource (typically `v1`)";
  "- **kind** (required, string): Kind of the referenced object (typically `Node`)";
  "- **name** (required, string): Name of the Node";
  "- **uid** (optional, string): UID of the Node, protecting against name reuse";
  ""].

Definition crddoc_status_appliedNodeTaints : list string := [
  "#### appliedNodeTaints";
  "";
  "(optional, array of NodeTaint, default: `[]`) The controller's record of truth";
  "for which taints it applied to the Node. Only entries in this list are eligible";
  "for removal on a subsequent reconcile — admin-added taints colliding on";
  "`(key, effect)` are surfaced as a `TaintOwnershipConflict` condition rather than";
  "overwritten.";
  "";
  "See `spec.nodeTaints` for the `NodeTaint` field schema."].

(** [main]: one [println!] per line. *)
Definition crddoc_main : list string :=
  crddoc_title ++ crddoc_group_version ++ crddoc_example ++ crddoc_spec ++ crddoc_spec_schedule ++
  crddoc_spec_enabled ++ crddoc_spec_clusterName ++ crddoc_spec_bootstrapSpec ++ crddoc_spec_infrastructureSpec ++
  crddoc_spec_machineTemplate ++ crddoc_spec_priority ++ crddoc_spec_gracefulShutdownTimeout ++
  crddoc_spec_nodeDrainTimeout ++ crddoc_spec_killSwitch ++ crddoc_spec_killIfCommands ++ crddoc_spec_nodeTaints ++
  crddoc_spec_kata ++ crddoc_status ++ crddoc_status_phase ++ crddoc_status_conditions ++ crddoc_status_inSchedule
  ++ crddoc_status_ready ++ crddoc_status_message ++ crddoc_status_observedGeneration ++ crddoc_status_providerID ++
  crddoc_status_nodeRef ++ crddoc_status_appliedNodeTaints.

(** ** Reading the document *)

Fixpoint after_line (f : string -> bool) (doc : list string) : list string :=
  match doc with
  | [] => []
  | l :: doc => if f l then doc else after_line f doc
  end.
Fixpoint until_line (f : string -> bool) (doc : list string) : list string :=
  match doc with
  | [] => []
  | l :: doc => if f l then [] else l :: until_line f doc
  end.
Definition section (title : string) (doc : list string) : list string :=
  until_line (λ l, starts_with l "### ") (after_line (λ l, bool_decide (l = "### " +:+ title)) doc).

(** The fields a section documents, and the text of one of them. *)
Definition fields_of (title : string) (doc : list string) : list string := omap (strip_prefix "#### ") (section title doc).
Definition field_text (title field : string) (doc : list string) : list string :=
  until_line (λ l, starts_with l "#### ") (after_line (λ l, bool_decide (l = "#### " +:+ field)) (section title doc)).

(** What stands between the first [opening] of a line and the next [closing]. *)
Fixpoint after_text (p s : string) : option string :=
  match strip_prefix p s with
  | Some s' => Some s'
  | None => match s with EmptyString => None | String _ s' => after_text p s' end
  end.
Definition quoted (opening : string) (closing : ascii) (l : string) : option string :=
  s ← after_text opening l; fst <$> split_once closing s.
Definition documented_default (field : string) : option string :=
  head (omap (quoted "default: `" "`") (field_text "Spec Fields" field crddoc_main)).
Definition bullets (text : list string) : list string := omap (quoted "- **" "*") text.

(** The YAML examples: the first value of a key, under the keys before it, and
    the items of a list. *)
Fixpoint yaml_value (path : list string) (doc : list string) : option string :=
  match path with
  | [] => None
  | [key] => head (omap (λ l, strip_prefix (key +:+ ": ") (trim l)) doc)
  | key :: path => yaml_value path (after_line (λ l, bool_decide (trim l = key +:+ ":")) doc)
  end.
Definition yaml_items (key : string) (doc : list string) : list string :=
  omap (λ l, strip_prefix "- " (trim l))
    (until_line (λ l, negb (starts_with (trim l) "- ")) (after_line (λ l, bool_decide (trim l = key +:+ ":")) doc)).
Definition yaml (path : list string) : string := default "" (yaml_value path crddoc_example).

(** ** The types it documents *)

(** The fields of [ScheduledMachineSpec], by their serialised names. *)
Definition ScheduledMachineSpec_fields : list string := [
  "schedule"; "enabled"; "clusterName"; "bootstrapSpec"; "infrastructureSpec"; "machineTemplate"; "priority";
  "gracefulShutdownTimeout"; "nodeDrainTimeout"; "killSwitch"; "nodeTaints"; "killIfCommands"; "kubeconfigSecretRef"; "kata"].

(** The machine of the example, with the values the YAML gives; of the two
    provider resources only what names their type, their [spec] being passed on
    as it is. *)
Definition example_embedded (key : string) : EmbeddedResource := {|
  inner := JObj [("apiVersion", JStr (yaml [key; "apiVersion"])); ("kind", JStr (yaml [key; "kind"]))] |}.
Definition example_taints : list (option NodeTaint) :=
  [effect ← TaintEffect_of_str (yaml ["nodeTaints"; "effect"]);
   Some {| nt_key := default "" (head (omap (strip_prefix "key: ") (yaml_items "nodeTaints" crddoc_example)));
           nt_value := yaml_value ["nodeTaints"; "value"] crddoc_example; nt_effect := effect |}].
Definition example_spec : ScheduledMachineSpec := {|
  schedule := {| ssr_api_version := yaml ["schedule"; "apiVersion"]; ssr_kind := yaml ["schedule"; "kind"];
                 ssr_name := yaml ["schedule"; "name"] |};
  enabled := bool_decide (yaml ["enabled"] = "true");
  cluster_name := yaml ["clusterName"];
  bootstrap_spec := example_embedded "bootstrapSpec";
  infrastructure_spec := example_embedded "infrastructureSpec";
  machine_template := Some {|
    mt_labels := {[ "node-role.kubernetes.io/worker" := yaml ["labels"; "node-role.kubernetes.io/worker"] ]};
    mt_annotations := {[ "example.com/scheduled-by" := yaml ["annotations"; "example.com/scheduled-by"] ]} |};
  priority := default 0%Z (parse_uint U8_MAX (yaml ["priority"]));
  graceful_shutdown_timeout := yaml ["gracefulShutdownTimeout"];
  node_drain_timeout := yaml ["nodeDrainTimeout"];
  kill_switch := bool_decide (yaml ["killSwitch"] = "true");
  node_taints := omap id example_taints;
  kill_if_commands := Some (yaml_items "killIfCommands" crddoc_example);
  kubeconfig_secret_ref := None;
  kata := Some {| kata_kind := KindConfigMap; kata_name := yaml ["kata"; "name"]; kata_namespace := default_kata_config_namespace;
                  kata_key := default_kata_config_key; kata_restart_service := default_kata_config_restart_service |} |}.
Definition example : ScheduledMachine := {|
  metadata := {| om_name := Some (yaml ["metadata"; "name"]); om_namespace := Some (yaml ["metadata"; "namespace"]);
    om_uid := None; om_generation := None; om_finalizers := None; om_deletion_timestamp := None |};
  spec := example_spec; status := None |}.

(** ** What agrees *)

(** The controller accepts the example: no check of a reconcile, nor of a
    creation, rejects it, its durations and the ranges of its schedule parse,
    and so do its taints. *)
Theorem documented_example_accepted `{Externals} :
  validate_spec example = Ok tt /\ validate_template example = Ok tt /\
  validate_api_group (yaml ["bootstrapSpec"; "apiVersion"]) ALLOWED_BOOTSTRAP_API_GROUPS "bootstrap" = Ok tt /\
  validate_api_group (yaml ["infrastructureSpec"; "apiVersion"]) ALLOWED_INFRASTRUCTURE_API_GROUPS "infrastructure" = Ok tt /\
  validate_node_taints (node_taints example_spec) = Ok tt /\
  (exists d, parse_duration (graceful_shutdown_timeout example_spec) = Ok d /\ parse_duration (node_drain_timeout example_spec) = Ok d /\
     d = 300%Z) /\
  node_taints example_spec = [{| nt_key := "workload"; nt_value := Some "batch"; nt_effect := NoSchedule |}] /\
  priority example_spec = default_priority /\
  (exists days hours, parse_day_ranges (yaml_items "daysOfWeek" crddoc_example) = Ok days /\
     parse_hour_ranges (yaml_items "hoursOfDay" crddoc_example) = Ok hours /\
     days = list_to_set (seqZ 0 5) /\ hours = list_to_set (seqZ 9 9)).
Proof.
  split_and!; try (vm_compute; reflexivity).
  - eexists. split_and!; vm_compute; reflexivity.
  - do 2 eexists. split_and!; vm_compute; reflexivity.
Qed.

(** The defaults it gives are those of the types. *)
Theorem documented_defaults :
  documented_default "enabled" = Some (if default_enabled then "true" else "false") /\
  documented_default "priority" = Some (pretty default_priority) /\
  documented_default "gracefulShutdownTimeout" = Some default_graceful_shutdown_timeout /\
  documented_default "nodeDrainTimeout" = Some default_node_drain_timeout /\
  documented_default "killSwitch" = Some "false" /\
  omap (quoted "default: `" "`") (field_text "Spec Fields" "kata" crddoc_main) =
    [default_kata_config_namespace; default_kata_config_key; default_kata_config_restart_service].
Proof. split_and!; vm_compute; reflexivity. Qed.

(** ** What does not *)

(** Every documented field exists; one of the spec, and seven of the status, are
    not documented. *)
Definition undocumented_status : list string :=
  ["lastScheduledTime"; "machineRef"; "bootstrapRef"; "infrastructureRef"; "nextActivation"; "nextCleanup"; "spotSchedule"].
Definition full_status : ScheduledMachineStatus :=
  let r := {| or_api_version := ""; or_kind := ""; or_name := ""; or_namespace := None |} in {|
  phase := Some ""; message := Some ""; last_scheduled_time := Some ""; machine_ref := Some r; bootstrap_ref := Some r;
  infrastructure_ref := Some r; node_ref := Some {| nr_api_version := ""; nr_kind := ""; nr_name := ""; nr_uid := None |};
  provider_id := Some ""; conditions := []; observed_generation := Some 0%Z; in_schedule := false; ready := false;
  next_activation := Some ""; next_cleanup := Some ""; applied_node_taints := node_taints example_spec;
  spot_schedule := Some {| sss_resolved := false; sss_active := None; sss_reason := None; sss_message := None;
    sss_provider_generation := None; sss_last_transition_time := None |} |}.

Lemma opt_field_key {A} k (f : A -> json) o x : x ∈ (opt_field k f o).*1 -> x = k.
Proof. unfold opt_field. destruct o; set_solver. Qed.
Lemma list_field_key {A} k (f : A -> json) l x : x ∈ (list_field k f l).*1 -> x = k.
Proof. unfold list_field. destruct l; set_solver. Qed.

Theorem documented_fields :
  fields_of "Spec Fields" crddoc_main ++ ["kubeconfigSecretRef"] ≡ₚ ScheduledMachineSpec_fields /\
  (ScheduledMachineStatus_fields full_status).*1 ≡ₚ fields_of "Status Fields" crddoc_main ++ undocumented_status /\
  forall s, (ScheduledMachineStatus_fields s).*1 ⊆ (ScheduledMachineStatus_fields full_status).*1.
Proof.
  split_and!; [apply (bool_decide_unpack _); by vm_compute .. |].
  intros s x. set (l := (ScheduledMachineStatus_fields full_status).*1). vm_compute in l. subst l.
  unfold ScheduledMachineStatus_fields. rewrite !fmap_app, !elem_of_app. intros Hx.
  repeat match type of Hx with _ \/ _ => destruct Hx as [Hx | Hx] end;
    first [apply opt_field_key in Hx as -> | apply list_field_key in Hx as -> | cbn in Hx]; set_solver.
Qed.

(** The phase of an emergency removal is missing from the documented phases. *)
Theorem documented_phases :
  bullets (field_text "Status Fields" "phase" crddoc_main) ++ [PHASE_EMERGENCY_REMOVE] ≡ₚ all_phases.
Proof. apply (bool_decide_unpack _). by vm_compute. Qed.

(** The Kata section names the Secret of the workload cluster after a prefix;
    the code takes a suffix. *)
Theorem documented_kubeconfig `{Externals} :
  existsb (λ l, str_contains l "`kubeconfig-<clusterName>` Secret") (field_text "Spec Fields" "kata" crddoc_main) = true /\
  exists k, cache_resolve MgmtClient example = Vis (GetSecret MgmtClient "default" "my-cluster-kubeconfig") k.
Proof. split; [by vm_compute |]. eexists. reflexivity. Qed.
