(* ===== verification/Startup.v ===== *)
(** The controller's process: its start-up sequence, leader-election task and
    the watches it wires together ([src/main.rs]), the record of the Cluster
    API version ([src/constants.rs]) and the health server ([src/health.rs]). *)

From stdpp Require Import pretty.
From S2P Require Import Prelude RustStr Effects Constants Json Crd Externals KubeApi Labels Capi SpotWatch Watchers.

(** ** Health *)

Module Health.
(** The two flags, shared by the clones of the state. *)
Record HealthState : Type := { k8s_connected : bool; ready : bool }.
Record HealthStatus : Type := { hs_healthy : bool; hs_ready : bool; hs_k8s_connected : bool }.

Definition new : HealthState := {| k8s_connected := false; ready := false |}.
Definition set_k8s_connected (connected : bool) (h : HealthState) : HealthState :=
  {| k8s_connected := connected; ready := ready h |}.
Definition set_ready (ready : bool) (h : HealthState) : HealthState :=
  {| k8s_connected := k8s_connected h; ready := ready |}.
Definition is_healthy (_ : HealthState) : bool := true.
Definition is_ready (h : HealthState) : bool := k8s_connected h && ready h.
Definition get_status (h : HealthState) : HealthStatus :=
  {| hs_healthy := is_healthy h; hs_ready := is_ready h; hs_k8s_connected := k8s_connected h |}.
Definition HealthStatus_json (s : HealthStatus) : json :=
  JObj [("healthy", JBool (hs_healthy s)); ("ready", JBool (hs_ready s)); ("k8s_connected", JBool (hs_k8s_connected s))].

(** The paths of the filters: [warp::path(a)], [warp::path!(a / b)].  How they
    match a request is the library's. *)
Inductive path_filter : Type := PathPrefix (a : string) | PathExact (l : list string).

Inductive http_reply : Type := HttpText (code : Z) (body : string) | HttpJson (body : json).
Definition OK : http_reply := HttpText 200 "OK".

Definition routes (h : HealthState) : list (path_filter * http_reply) :=
  [(PathPrefix "healthz", if is_healthy h then OK else HttpText 503 "UNHEALTHY");
   (PathPrefix "readyz", if is_ready h then OK else HttpText 503 "NOT READY");
   (PathExact ["health"; "status"], HttpJson (HealthStatus_json (get_status h)));
   (PathPrefix "health", OK);
   (PathPrefix "ready", OK)].

(** [a.or(b)]: the first filter that matches answers. *)
Definition start_health_server {request : Type} (matches : path_filter -> request -> bool)
    (h : HealthState) (r : request) : option http_reply :=
  snd <$> find_b (λ '(p, _), matches p r) (routes h).
End Health.

(** ** The recorded Cluster API version *)

(** [OnceLock]: only the first [set] takes effect. *)
Definition set_capi_machine_api_version (version : string) (cell : option string) : option string :=
  Some (default version cell).
(** [None]: the panic. *)
Definition capi_machine_api_version (cell : option string) : option string := cell.

(** ** What start-up talks to *)

Record Cli : Type := {
  instance_id : Z;
  instance_count : Z;
  metrics_port : Z;
  health_port : Z;
  enable_leader_election : bool;
  lease_name : string;
  lease_namespace : string;
  lease_duration_secs : Z;
  lease_renew_deadline_secs : Z;
  force_finalizer_on_timeout : bool;
}.
(** The defaults of the flags. *)
Definition default_cli : Cli := {|
  instance_id := 0; instance_count := 1; metrics_port := METRICS_PORT; health_port := HEALTH_PORT;
  enable_leader_election := false; lease_name := DEFAULT_LEASE_NAME; lease_namespace := DEFAULT_LEASE_NAMESPACE;
  lease_duration_secs := DEFAULT_LEASE_DURATION_SECS; lease_renew_deadline_secs := DEFAULT_LEASE_RENEW_DEADLINE_SECS;
  force_finalizer_on_timeout := true |}.

(** [DiscoverKind group kind]: the version of the recommended kind of a group.
    [RunController ctx machines label]: run until shutdown, with the context and
    the resource and label of the Machine watches. *)
Inductive start_call : Type :=
| ControllerInfo (id : Z)
| InferConfig
| NewClient (read_timeout write_timeout : Z)
| SetK8sConnected (b : bool)
| ReadEnv (name : string)
| DiscoverKind (group kind : string)
| Sleep (secs : Z)
| StoreLeader (b : bool)
| BuildLease (name namespace : string) (duration grace : Z) (identity : string)
| SpawnLeaderTask
| ListMachines (limit : Z)
| SpawnHealthServer (port : Z)
| SpawnMetricsServer (port : Z)
| SetReady (b : bool)
| SpawnMachineReflector (ar : ApiResource) (label : string)
| SetChildHook (channel_cap : nat)
| SpawnSpotReflector (channel_cap : nat)
| RunController (ctx : Context) (ar : ApiResource) (label : string).
Definition start_reply (c : start_call) : Type :=
  match c with
  | InferConfig | NewClient _ _ | BuildLease _ _ _ _ _ | ListMachines _ => result unit string
  | ReadEnv _ => option string
  | DiscoverKind _ _ => result (option string) string
  | _ => unit
  end%type.
#[local] Notation P := (prog start_reply).

Definition scall (c : start_call) : P (start_reply c) := call c.
Definition infer_config : P (result unit string) := scall InferConfig.
Definition new_client r w : P (result unit string) := scall (NewClient r w).
Definition read_env n : P (option string) := scall (ReadEnv n).
Definition discover_kind g k : P (result (option string) string) := scall (DiscoverKind g k).
Definition build_lease n ns d g i : P (result unit string) := scall (BuildLease n ns d g i).
Definition list_machines n : P (result unit string) := scall (ListMachines n).

(** ** Start-up *)

Definition ATTEMPTS : nat := 6.

Fixpoint discover_loop (attempts : nat) (last_reason : string) : P (result string string) :=
  match attempts with
  | 0 =>
      Ret (Err ("could not resolve the CAPI Machine API version after " +:+ pretty ATTEMPTS +:+ " attempts (" +:+ last_reason +:+
        "); is Cluster API installed? set the CAPI_MACHINE_API_VERSION env var to override discovery"))
  | S attempts =>
      apigroup <- discover_kind CAPI_GROUP "Machine" ;;
      match apigroup with
      | Ok (Some version) => Ret (Ok version)
      | Ok None =>
          scall (Sleep 5) ;;;
          discover_loop attempts ("group '" +:+ CAPI_GROUP +:+ "' is served but exposes no Machine kind")
      | Err error =>
          scall (Sleep 5) ;;;
          discover_loop attempts ("discovery of '" +:+ CAPI_GROUP +:+ "' failed: " +:+ error)
      end
  end.

Definition resolve_capi_machine_version : P (result string string) :=
  pinned <- read_env "CAPI_MACHINE_API_VERSION" ;;
  match trim <$> pinned with
  | Some pinned =>
      if negb (str_is_empty pinned) then Ret (Ok pinned) else discover_loop ATTEMPTS "discovery not attempted"
  | None => discover_loop ATTEMPTS "discovery not attempted"
  end.

Definition check_crd_installed : P (result unit string) :=
  r <- list_machines 1 ;;
  Ret (map_err (λ e, "Failed to access ScheduledMachine resources: " +:+ e +:+
                     ". This usually means the CRD is not installed.") r).

(** [duration.checked_sub(deadline).filter(|g| *g > 0).unwrap_or(default)]. *)
Definition grace_secs (cli : Cli) : Z :=
  let g := (lease_duration_secs cli - lease_renew_deadline_secs cli)%Z in
  if bool_decide (0 < g)%Z then g else DEFAULT_LEASE_GRACE_SECS.

Definition leader_election (cli : Cli) : P (result unit string) :=
  if enable_leader_election cli then
    pod_name <- read_env "POD_NAME" ;;
    let holder_id := default ("5spot-" +:+ pretty (instance_id cli)) pod_name in
    scall (StoreLeader false) ;;;
    manager <- build_lease (lease_name cli) (lease_namespace cli) (lease_duration_secs cli) (grace_secs cli) holder_id ;;
    match manager with
    | Ok _ => scall SpawnLeaderTask ;;; Ret (Ok tt)
    | Err e => Ret (Err ("Failed to initialise leader election: " +:+ e))
    end
  else Ret (Ok tt).

(** [Context::new]; the Cluster API version lives in a cell of the process, which
    is set by then. *)
Definition Context_new (instance_id instance_count : Z) (version : string) : Context := {|
  ctx_instance_id := instance_id; ctx_instance_count := instance_count;
  ctx_force_finalizer_on_timeout := true; ctx_capi_version := version |}.
Definition with_force_finalizer_on_timeout (force : bool) (ctx : Context) : Context := {|
  ctx_instance_id := ctx_instance_id ctx; ctx_instance_count := ctx_instance_count ctx;
  ctx_force_finalizer_on_timeout := force; ctx_capi_version := ctx_capi_version ctx |}.
Definition controller_context (cli : Cli) (version : string) : Context :=
  with_force_finalizer_on_timeout (force_finalizer_on_timeout cli)
    (Context_new (instance_id cli) (instance_count cli) version).

Definition machine_ar (version : string) : ApiResource :=
  {| ar_group := CAPI_GROUP; ar_version := version; ar_kind := "Machine"; ar_plural := CAPI_RESOURCE_MACHINES |}.

(** How the process ends: [main] returns, or panics. *)
Inductive ending : Type := Exit (r : result unit string) | Panic.

Definition run_controller (cli : Cli) (cell : option string) : P ending :=
  match capi_machine_api_version cell with
  | None => Ret Panic
  | Some version =>
      scall (SpawnMachineReflector (machine_ar version) LABEL_SCHEDULED_MACHINE) ;;;
      scall (SetChildHook CHILD_NODE_EVENT_CHANNEL_CAP) ;;;
      scall (SpawnSpotReflector SPOT_SCHEDULE_EVENT_CHANNEL_CAP) ;;;
      scall (RunController (controller_context cli version) (machine_ar version) LABEL_SCHEDULED_MACHINE) ;;;
      Ret (Exit (Ok tt))
  end.

(** [p?] in [main]. *)
Definition or_exit {A} (p : P (result A string)) (k : A -> P ending) : P ending :=
  r <- p ;; match r with Ok a => k a | Err e => Ret (Exit (Err e)) end.

Definition main (cli : Cli) : P ending :=
  scall (ControllerInfo (instance_id cli)) ;;;
  or_exit infer_config (λ _,
  or_exit (new_client K8S_API_TIMEOUT_SECS K8S_API_TIMEOUT_SECS) (λ _,
  scall (SetK8sConnected true) ;;;
  or_exit resolve_capi_machine_version (λ capi_machine_version,
  let cell := set_capi_machine_api_version capi_machine_version None in
  or_exit (leader_election cli) (λ _,
  crd <- check_crd_installed ;;
  match crd with
  | Err _ => Ret (Exit (Err "Required CRD 'scheduledmachines.5spot.finos.org' is not installed in the cluster"))
  | Ok _ =>
      scall (SpawnHealthServer (health_port cli)) ;;;
      scall (SpawnMetricsServer (metrics_port cli)) ;;;
      scall (SetReady true) ;;;
      run_controller cli cell
  end)))).

(** ** The tasks it spawns *)

(** The leader task: each change of the lease is stored; a closed channel
    ([None]) ends it. *)
Fixpoint leader_task (changes : list (option bool)) (is_leader : bool) : bool :=
  match changes with
  | Some acquired :: changes => leader_task changes acquired
  | None :: _ | [] => is_leader
  end.

(** One item of the reflector stream of ScheduledMachines; an item that is an
    error never reaches the manager. *)
Definition spot_reflector_event (item : result (watcher_event ScheduledMachine) string) (m : Manager) : Manager :=
  match item with
  | Ok (Apply sm) | Ok (InitApply sm) => observe_scheduled_machine sm m
  | Ok (Delete sm) => forget_scheduled_machine sm m
  | Ok Init | Ok InitDone | Err _ => m
  end.

(** The Machine reflector: every event is applied to the store the mappers read
    ([apply_watcher_event] of the library), until the first item that is an
    error ([try_for_each]); the text is that of the error it ended with. *)
Fixpoint machine_reflector {store : Type} (apply_watcher_event : watcher_event DynamicObject -> store -> store)
    (items : list (result (watcher_event DynamicObject) string)) (machine_store : store) : store * option string :=
  match items with
  | [] => (machine_store, None)
  | Ok event :: items => machine_reflector apply_watcher_event items (apply_watcher_event event machine_store)
  | Err e :: _ => (machine_store, Some e)
  end.

(** The mapper of the Node watch, over a snapshot of the Machine store. *)
Definition node_watch_mapper (machine_store : list DynamicObject) (node : Node) : list SmRef :=
  node_to_scheduled_machines_via_machine node machine_store.

(** ** The gates of start-up *)

Record gate : Type := {
  g_client : bool;              (** a client was built *)
  g_found : option string;      (** the version pinned or discovered *)
  g_slept : Z;                  (** seconds slept *)
  g_standby : bool;             (** the leader flag was cleared *)
  g_lease : bool;               (** the lease manager was built *)
  g_crd : bool;                 (** the custom resource answers *)
  g_served : bool;              (** the health server runs *)
  g_health : Health.HealthState;
  g_running : bool;             (** the controller ran *)
}.
Definition gate_start : gate := {|
  g_client := false; g_found := None; g_slept := 0; g_standby := false; g_lease := false; g_crd := false;
  g_served := false; g_health := Health.new; g_running := false |}.

Definition pin (v : option string) : option string :=
  match trim <$> v with Some v => if str_is_empty v then None else Some v | None => None end.

Definition need {A} (b : bool) (a : A) : option A := if b then Some a else None.

#[export] Instance Context_eq_dec : EqDecision Context.
Proof. solve_decision. Defined.

(** The order of start-up, as a monitor: a call that comes too early, or with
    other data, is rejected. *)
Definition gate_step (cli : Cli) (g : gate) (e : event start_reply) : option gate :=
  let '{| g_client := client; g_found := found; g_slept := slept; g_standby := standby; g_lease := lease;
          g_crd := crd; g_served := served; g_health := health; g_running := running |} := g in
  let elected := negb (enable_leader_election cli) || standby && lease in
  match e with
  | Ev (NewClient r w) rep =>
      need (bool_decide (r = K8S_API_TIMEOUT_SECS /\ w = K8S_API_TIMEOUT_SECS))
        (Build_gate (is_ok rep) found slept standby lease crd served health running)
  | Ev (SetK8sConnected b) _ =>
      need (client && b) (Build_gate client found slept standby lease crd served (Health.set_k8s_connected b health) running)
  | Ev (ReadEnv n) rep =>
      if bool_decide (n = "CAPI_MACHINE_API_VERSION") then
        need (bool_decide (found = None)) (Build_gate client (pin rep) slept standby lease crd served health running)
      else Some g
  | Ev (DiscoverKind gr k) rep =>
      need (Health.k8s_connected health && bool_decide (found = None /\ gr = CAPI_GROUP /\ k = "Machine"))
        (Build_gate client (match rep with Ok v => v | Err _ => None end) slept standby lease crd served health running)
  | Ev (Sleep n) _ =>
      need (negb served && bool_decide (found = None)) (Build_gate client found (slept + n) standby lease crd served health running)
  | Ev (StoreLeader b) _ =>
      need (enable_leader_election cli && negb b && negb running) (Build_gate client found slept true lease crd served health running)
  | Ev (BuildLease n ns d gr _) rep =>
      need (standby && bool_decide (n = lease_name cli /\ ns = lease_namespace cli /\ d = lease_duration_secs cli /\ 0 < gr)%Z)
        (Build_gate client found slept standby (is_ok rep) crd served health running)
  | Ev SpawnLeaderTask _ => need lease g
  | Ev (ListMachines _) rep =>
      need (bool_decide (is_Some found) && elected) (Build_gate client found slept standby lease (is_ok rep) served health running)
  | Ev (SpawnHealthServer p) _ =>
      need (crd && bool_decide (p = health_port cli)) (Build_gate client found slept standby lease crd true health running)
  | Ev (SetReady b) _ =>
      need (served && b) (Build_gate client found slept standby lease crd served (Health.set_ready b health) running)
  | Ev (RunController ctx ar label) _ =>
      match found with
      | Some v =>
          need (Health.is_ready health && crd && elected && negb running &&
                bool_decide (ctx = controller_context cli v) && bool_decide (ar = machine_ar v) &&
                bool_decide (label = LABEL_SCHEDULED_MACHINE))
            (Build_gate client found slept standby lease crd served health true)
      | None => None
      end
  | _ => Some g
  end.

(** How start-up ends: the controller ran, or an error stopped the process
    before it was ready; without a version that is after six attempts, 30 seconds
    of waiting and no health server.  It never panics. *)
Definition start_end (cli : Cli) (g : gate) (r : ending) : Prop :=
  (0 <= g_slept g <= 30)%Z /\
  match r with
  | Panic => False
  | Exit (Ok _) => g_running g = true
  | Exit (Err _) =>
      g_running g = false /\ Health.is_ready (g_health g) = false /\
      (Health.k8s_connected (g_health g) = true -> g_found g = None -> g_slept g = 30 /\ g_served g = false)%Z
  end.

Section gates.
Context (cli : Cli).
Notation mon := (mon (gate_step cli)).

(** After the client: nothing else happened. *)
Definition connected (found : option string) (slept : Z) : gate :=
  Build_gate true found slept false false false false (Health.set_k8s_connected true Health.new) false.

Lemma mon_discover n : forall reason slept Φ,
  (forall v slept', (slept <= slept' <= slept + 5 * Z.of_nat n)%Z -> Φ (connected (Some v) slept') (Ok v)) ->
  (forall e, Φ (connected None (slept + 5 * Z.of_nat n)%Z) (Err e)) ->
  mon (connected None slept) (discover_loop n reason) Φ.
Proof.
  induction n as [| n IH]; intros reason slept Φ Ho He.
  - cbn -[Z.mul String.append]. specialize (He ("could not resolve the CAPI Machine API version after " +:+ pretty ATTEMPTS +:+ " attempts (" +:+ reason +:+
        "); is Cluster API installed? set the CAPI_MACHINE_API_VERSION env var to override discovery")).
    by rewrite Z.add_0_r in He.
  - assert (Hs : forall reason', mon (connected None (slept + 5)%Z) (discover_loop n reason') Φ).
    { intros reason'. apply IH; [intros v s' Hs; apply Ho; lia | intros e'].
      replace (slept + 5 + 5 * Z.of_nat n)%Z with (slept + 5 * Z.of_nat (S n))%Z by lia. apply He. }
    cbn -[Z.mul Z.add]. intros [[v |] | e]; cbn -[Z.mul Z.add]; [apply Ho; lia | |]; intros []; by apply Hs.
Qed.

Lemma mon_version Φ :
  (forall v slept, (0 <= slept <= 30)%Z -> Φ (connected (Some v) slept) (Ok v)) ->
  (forall e, Φ (connected None 30) (Err e)) ->
  mon (connected None 0) resolve_capi_machine_version Φ.
Proof.
  intros Ho He. unfold resolve_capi_machine_version. cbn -[discover_loop trim]. intros pinned.
  assert (Hd : forall reason, mon (connected None 0) (discover_loop ATTEMPTS reason) Φ).
  { intros reason. apply mon_discover; [intros v s Hs; apply Ho; unfold ATTEMPTS in Hs; lia | apply He]. }
  change (mon (connected (pin pinned) 0)
    match trim <$> pinned with
    | Some pinned => if negb (str_is_empty pinned) then Ret (Ok pinned) else discover_loop ATTEMPTS "discovery not attempted"
    | None => discover_loop ATTEMPTS "discovery not attempted"
    end Φ).
  unfold pin. destruct (trim <$> pinned) as [v |]; [| apply Hd]. destruct (str_is_empty v); cbn [negb]; [apply Hd |].
  cbn. by apply Ho.
Qed.

Lemma grace_secs_pos : (0 < grace_secs cli)%Z.
Proof. unfold grace_secs. by case_bool_decide. Qed.

Lemma mon_leader v slept Φ :
  (forall standby lease, negb (enable_leader_election cli) || standby && lease = true ->
     Φ (Build_gate true (Some v) slept standby lease false false (Health.set_k8s_connected true Health.new) false) (Ok tt)) ->
  (forall e standby, Φ (Build_gate true (Some v) slept standby false false false (Health.set_k8s_connected true Health.new) false) (Err e)) ->
  mon (connected (Some v) slept) (leader_election cli) Φ.
Proof.
  intros Ho He. unfold leader_election. destruct (enable_leader_election cli) eqn:Hl; [| by apply Ho].
  assert (Hs : gate_step cli (connected (Some v) slept) (Ev (StoreLeader false) tt) =
    Some (Build_gate true (Some v) slept true false false false (Health.set_k8s_connected true Health.new) false))
    by (cbn; by rewrite Hl).
  cbn -[grace_secs pretty gate_step String.append]. intros pod []. rewrite Hs. cbn -[grace_secs pretty String.append]. intros r. pose proof grace_secs_pos as Hg. rewrite bool_decide_true by done.
  destruct r as [[] | e]; cbn; [intros _; by apply Ho | apply He].
Qed.
End gates.

(** C26: start-up is gated: the controller runs, and readiness is reported, only
    after a client with both timeouts, a Cluster API version that was pinned
    or discovered (the one its context and its watches use), the lease manager
    with the leader flag cleared first when leader election is on, and a
    successful access to the custom resource; any failure before that ends the
    process with an error and without readiness, and it never panics on a
    missing version.  The version is waited for at most six times, 30 seconds,
    all of them before the health server answers. *)
Theorem startup_gated cli : mon (gate_step cli) gate_start (main cli) (start_end cli).
Proof.
  unfold main. cbn -[resolve_capi_machine_version leader_election run_controller check_crd_installed].
  intros [] [[] | e]; cbn -[resolve_capi_machine_version leader_election run_controller check_crd_installed]; [| done].
  intros [[] | e]; cbn -[resolve_capi_machine_version leader_election run_controller check_crd_installed]; [| done].
  intros []. unfold or_exit at 1. apply mon_bind, mon_version; [intros v slept Hs | done].
  unfold or_exit. apply mon_bind, mon_leader; [intros standby lease Hl | intros e standby; split; [cbn; lia |]; done].
  cbn. rewrite Hl. intros [[] | e]; cbn; [| split; [cbn; lia |]; done].
  rewrite bool_decide_true by done. cbn. intros [] [] []. cbn. intros [] [] []. rewrite Hl, !bool_decide_true by done. cbn. intros [].
  split; [done |]. done.
Qed.

(** ** The store behind the Node mappers *)

(** The reflector ends with the first error of its stream, which the watcher
    would have recovered from: the store is what the items before it made, and
    nothing after it is seen, so the mappers of Node events answer from that
    snapshot for the rest of the process. *)
Theorem machine_reflector_frozen {store : Type} (apply : watcher_event DynamicObject -> store -> store) items s e :
  snd (machine_reflector apply items s) = Some e <->
  exists events rest, items = map Ok events ++ Err e :: rest /\
    forall rest', machine_reflector apply (map Ok events ++ Err e :: rest') s = (fold_left (λ s ev, apply ev s) events s, Some e).
Proof.
  split.
  - revert s. induction items as [| [ev | e'] items IH]; intros s; cbn; [done | |].
    + intros (events & rest & -> & Hr)%IH. by exists (ev :: events), rest.
    + intros [= ->]. by exists [], items.
  - intros (events & rest & -> & Hr). by rewrite Hr.
Qed.

(** A Machine created after one error of the watch wakes nobody: its node's
    events map to no machine, while a store that had gone on maps them to its
    owner. *)
Definition machine_on (name node : string) : DynamicObject := {|
  d_name := Some name; d_namespace := Some "team"; d_labels := Some {[LABEL_SCHEDULED_MACHINE := name]};
  d_data := JObj [("status", JObj [("nodeRef", JObj [("name", JStr node)])])] |}.
Definition keep_applied (event : watcher_event DynamicObject) (store : list DynamicObject) : list DynamicObject :=
  match event with Apply o | InitApply o => o :: store | _ => store end.

Example frozen_store_wakes_nobody :
  let node := {| n_name := Some "worker-1"; n_labels := None; n_annotations := None; n_spec_taints := None;
    n_status_conditions := None; n_machine_id := None |} in
  let before := [Ok Init; Ok InitDone] in
  let after := [Ok (Apply (machine_on "sm" "worker-1"))] in
  node_watch_mapper (machine_reflector keep_applied (before ++ after) []).1 node <> [] /\
  node_watch_mapper (machine_reflector keep_applied (before ++ Err "too old resource version" :: after) []).1 node = [].
Proof. split; vm_compute; [discriminate | reflexivity]. Qed.

(** A watch that reconnects lists what exists between [Init] and [InitDone], and
    does not report what was deleted meanwhile.  The reflector of ScheduledMachines
    skips both marks, so a machine deleted while the watch was down stays in the
    index, and the watcher of its provider's kind runs on. *)
Definition spot_reflector (items : list (result (watcher_event ScheduledMachine) string)) (m : Manager) : Manager :=
  fold_left (λ m item, spot_reflector_event item m) items m.

Theorem relist_keeps_deleted sm key :
  provider_key_for sm = Some key ->
  let m := spot_reflector [Ok (Apply sm); Err "connection reset"; Ok Init; Ok InitDone] new_manager in
  lookup_refs key (index m) = [from_obj sm] /\ gvk key ∈ watchers m.
Proof.
  intros Hk m. assert (Hm : m = replay_events [Observed sm]) by done. rewrite Hm. split.
  - cbn [replay_events foldr handle_event]. unfold observe_scheduled_machine, resync. rewrite Hk. cbn [index].
    unfold lookup_refs, register. cbn -[elements union]. rewrite lookup_insert_eq. cbn -[elements union].
    rewrite !lookup_empty. cbn -[elements union]. by rewrite (right_id_L ∅ (∪)), elements_singleton.
  - apply watchers_referenced. exists (from_obj sm), key. split; [| done]. cbn [current_key event_ref]. by rewrite bool_decide_true.
Qed.
