(* ===== verification/AgentLoop.v ===== *)
(** The reclaim agent's process: its start-up, its configuration watcher and
    its two detection loops ([src/bin/reclaim_agent.rs]).

    A loop is its body, from a state to the next or to the result, and a number
    of iterations; [None] is a loop that has not ended yet. *)

From S2P Require Import Prelude RustStr Effects Constants Json Crd Externals KubeApi Emergency Provision.
From S2P Require Import ReclaimAgent Netlink.

Inductive DetectorFlag : Type := FlagAuto | FlagNetlink | FlagPoll.
Inductive Detector : Type := DNetlink | DPoll.
(** [linux]: [cfg!(target_os = "linux")]. *)
Definition resolve_detector (linux : bool) (f : DetectorFlag) : Detector :=
  match f with
  | FlagNetlink => DNetlink
  | FlagPoll => DPoll
  | FlagAuto => if linux then DNetlink else DPoll
  end.

Definition IDLE_WAKEUP_SECS : Z := 30.
Definition DEFAULT_PROC_ROOT : string := "/proc".
Definition DEFAULT_MACHINE_ID_PATH : string := "/etc/machine-id".

Record AgentCli : Type := {
  proc_root : string;
  node_name : string;
  oneshot : bool;
  machine_id_path : string;
  detector : DetectorFlag;
  skip_host_id_check : bool;
}.

(** The watcher task: the value of the configuration channel after a stream of
    watch events, errors skipped. *)
Fixpoint run_config_watcher `{TomlConfig} (stream : list (result cm_event string)) (current : option Config) : option Config :=
  match stream with
  | [] => current
  | Ok event :: stream => run_config_watcher stream (apply_event event current)
  | Err _ :: stream => run_config_watcher stream current
  end.

(** ** What the agent talks to *)

(** The outcome of a [select!] on the configuration channel. *)
Inductive wake : Type := Changed | ChannelClosed | Elapsed.
(** The outcome of the [select!] between the receive loop and the channel: one
    datagram at a time, or the failure of [recv]. *)
Inductive delivery : Type :=
| Datagram (bytes : list ascii)
| RecvFailed (e : string)
| RxChanged
| RxClosed.
(** The branch [select!] takes when the receive loop has ended with a match:
    the channel may be ready as well. *)
Inductive branch : Type := TakeMatch | TakeChanged | TakeClosed.
Inductive subscribe_error : Type := Unsupported | SubscribeFailed (e : string).

Inductive agent_call : Type :=
| Kube (c : call_t)
| NewClient
| ReadMachineId (path : string)
| SpawnWatcher (configmap : string)
| CurrentConfig
| AwaitConfig (secs : Z)
| SleepMillis (n : Z)
| ScanProc (root : string)
| ReadProcess (root : string) (pid : Z)
| Subscribe
| NextDelivery
| SelectMatch
| StopWatcher.
Definition agent_reply (c : agent_call) : Type :=
  match c with
  | Kube c => reply c
  | NewClient => result unit string
  | ReadMachineId _ => result string string
  | CurrentConfig => option Config
  | AwaitConfig _ => wake
  | SelectMatch => branch
  | ScanProc _ => result (list (option string)) string * (Z -> proc_files)
  | ReadProcess _ _ => proc_files
  | Subscribe => result unit subscribe_error
  | NextDelivery => delivery
  | SpawnWatcher _ | SleepMillis _ | StopWatcher => unit
  end%type.
#[local] Notation P := (prog agent_reply).

Definition kube {A} (p : M A) : P A := embed (λ c, call (Kube c)) p.
Definition new_client : P (result unit string) := call NewClient.
Definition read_machine_id f : P (result string string) := call (ReadMachineId f).
Definition current_config : P (option Config) := call CurrentConfig.
Definition await_config : P wake := call (AwaitConfig IDLE_WAKEUP_SECS).
Definition scan root : P (result (list (option string)) string * (Z -> proc_files)) := call (ScanProc root).
Definition read_process root pid : P proc_files := call (ReadProcess root pid).
Definition subscribe : P (result unit subscribe_error) := call Subscribe.
Definition next_delivery : P delivery := call NextDelivery.
Definition select_match : P branch := call SelectMatch.
Definition sleep_millis n : P unit := call (SleepMillis n).
Definition spawn_watcher n : P unit := call (SpawnWatcher n).
Definition stop_watcher : P unit := call StopWatcher.

Inductive agent_failure : Type :=
| Annotate (e : AgentError)
| Scan (e : string)
| Recv (e : string)
| OpenSubscriber (e : subscribe_error)
| Oneshot (e : string)
| ClientFailed (e : string)
| HostId (e : HostIdentityError)
| FetchFailed (e : kube_error)
(** A panic of the receive task. *)
| TaskPanicked.
#[local] Notation outcome := (result unit agent_failure).

Section agent.
Context `{Externals} (cli : AgentCli) (host : option string).

(** [annotate_node(..).await?; return Ok(())]. *)
Definition annotate_and_exit {S} (m : Match) : P (S + outcome) :=
  r <- kube (annotate_node (node_name cli) m host) ;;
  Ret (inr (map_err Annotate r)).

(** Without a configuration: the common arm of the two loops. *)
Definition await_arming {S} (s : S) : P (S + outcome) :=
  if oneshot cli then Ret (inr (Err (Oneshot "no configmap observed during oneshot run")))
  else
    w <- await_config ;;
    match w with
    | ChannelClosed => Ret (inr (Ok tt))
    | Changed | Elapsed => Ret (inl s)
    end.

(** ** The poll detector *)

Definition poll_tick (_ : unit) : P (unit + outcome) :=
  cfg <- current_config ;;
  match cfg with
  | None => await_arming tt
  | Some cfg =>
      proc <- scan (proc_root cli) ;;
      match scan_proc proc.1 proc.2 cfg with
      | Ok (Some m) => annotate_and_exit m
      | Ok None =>
          if oneshot cli then Ret (inr (Err (Oneshot "no match on single scan")))
          else sleep_millis (poll_interval_ms cfg) ;;; Ret (inl tt)
      | Err e => Ret (inr (Err (Scan e)))
      end
  end.
Definition run_scanner (n : nat) : P (option outcome) := iterate n poll_tick tt.

(** ** The netlink detector *)

(** The channel's branch of the [select!]. *)
Definition rearm : P (option Config + outcome) :=
  if oneshot cli then Ret (inr (Err (Oneshot "config cleared during oneshot run"))) else Ret (inl None).

(** One datagram of the receive loop. *)
Definition recv_tick (cfg : Config) : P (option Config + outcome) :=
  d <- next_delivery ;;
  match d with
  | RecvFailed e => Ret (inr (Err (Recv e)))
  | RxChanged => rearm
  | RxClosed => Ret (inr (Ok tt))
  | Datagram bytes =>
      match next_event bytes with
      | Some (Some (Exec pid _)) =>
          files <- read_process (proc_root cli) pid ;;
          match match_pid (λ _, files) pid cfg with
          | Some m =>
              b <- select_match ;;
              match b with
              | TakeMatch => annotate_and_exit m
              | TakeChanged => rearm
              | TakeClosed => Ret (inr (Ok tt))
              end
          | None => Ret (inl (Some cfg))
          end
      | Some (Some (Netlink.Other _)) | Some None => Ret (inl (Some cfg))
      | None => Ret (inr (Err TaskPanicked))
      end
  end.

(** The state: the configuration the receive loop was started with. *)
Definition netlink_tick (receiving : option Config) : P (option Config + outcome) :=
  match receiving with
  | Some cfg => recv_tick cfg
  | None =>
      cfg <- current_config ;;
      match cfg with
      | None => await_arming None
      | Some cfg =>
          sub <- subscribe ;;
          match sub with
          | Err e => Ret (inr (Err (OpenSubscriber e)))
          | Ok _ => Ret (inl (Some cfg))
          end
      end
  end.
Definition run_netlink_scanner (n : nat) : P (option outcome) := iterate n netlink_tick None.
End agent.

(** ** The process *)

Section process.
Context `{Externals} (cli : AgentCli) (linux : bool).

Definition is_already_requested : P (result bool agent_failure) :=
  r <- kube (get_node MgmtClient (node_name cli)) ;;
  Ret match r with
      | Err e => Err (FetchFailed e)
      | Ok node => Ok (already_requested (default ∅ (n_annotations node)))
      end.

(** The host's machine id, unless the check is off. *)
Definition host_machine_id : P (result (option string) agent_failure) :=
  if skip_host_id_check cli then Ret (Ok None)
  else
    contents <- read_machine_id (machine_id_path cli) ;;
    Ret match read_host_machine_id (machine_id_path cli) contents with
        | Ok id => Ok (Some id)
        | Err e => Err (HostId e)
        end.

Definition agent_main (n : nat) : P (option outcome) :=
  client <- new_client ;;
  match client with
  | Err e => Ret (Some (Err (ClientFailed e)))
  | Ok _ =>
      host <- host_machine_id ;;
      match host with
      | Err e => Ret (Some (Err e))
      | Ok host =>
          requested <- is_already_requested ;;
          match requested with
          | Err e => Ret (Some (Err e))
          | Ok true => Ret (Some (Ok tt))
          | Ok false =>
              spawn_watcher (RECLAIM_AGENT_CONFIGMAP_PREFIX +:+ node_name cli) ;;;
              scanner_result <- match resolve_detector linux (detector cli) with
                                | DPoll => run_scanner cli host n
                                | DNetlink => run_netlink_scanner cli host n
                                end ;;
              stop_watcher ;;;
              Ret scanner_result
          end
      end
  end.
End process.

(** ** The evidence for a reclaim *)

Record agent_state : Type := {
  a_host : option string;     (** the host's machine id, as read *)
  a_node : option Node;       (** the node, as last read *)
  a_watching : bool;
  a_cfg : option Config;      (** the configuration last taken from the channel *)
  a_exec : option Z;          (** the process of the last exec event *)
  a_found : option Match;
  a_now : option Z;
  a_written : bool;
}.
Definition agent_start : agent_state := {|
  a_host := None; a_node := None; a_watching := false; a_cfg := None; a_exec := None; a_found := None; a_now := None;
  a_written := false |}.

(** What one event tells. *)
Definition learns (cli : AgentCli) (s : agent_state) (e : event agent_reply) (s' : agent_state) : Prop :=
  let '{| a_host := host; a_node := node; a_watching := w; a_cfg := cfg; a_exec := exec; a_found := found; a_now := now;
          a_written := written |} := s in
  s' = match e with
       | Ev (ReadMachineId p) r =>
           Build_agent_state (match read_host_machine_id p r with Ok id => Some id | Err _ => None end) node w cfg exec found now written
       | Ev (Kube (GetNode _ _)) r =>
           Build_agent_state host (match r with Ok n => Some n | Err _ => None end) w cfg exec found now written
       | Ev (Kube UtcNow) t => Build_agent_state host node w cfg exec found (Some t) written
       | Ev (Kube (PatchNode _ _ _)) _ => Build_agent_state host node w cfg exec found now true
       | Ev (SpawnWatcher _) _ => Build_agent_state host node true cfg exec found now written
       | Ev CurrentConfig c => Build_agent_state host node w c None None now written
       | Ev (ScanProc _) r =>
           Build_agent_state host node w cfg exec
             (c ← cfg; match scan_proc r.1 r.2 c with Ok m => m | Err _ => None end) now written
       | Ev NextDelivery d =>
           Build_agent_state host node w cfg
             (match d with Datagram b => match next_event b with Some (Some (Exec pid _)) => Some pid | _ => None end | _ => None end)
             None now written
       | Ev (ReadProcess _ pid) files => Build_agent_state host node w cfg exec (c ← cfg; match_pid (λ _, files) pid c) now written
       | Ev SelectMatch b =>
           Build_agent_state host node w cfg exec (match b with TakeMatch => found | _ => None end) now written
       | _ => s
       end.

(** When a call may be made. *)
Definition warranted `{Externals} (cli : AgentCli) (s : agent_state) (c : agent_call) : Prop :=
  (a_written s = true -> c = StopWatcher) /\
  match c with
  | Kube (GetNode c n) => c = MgmtClient /\ n = node_name cli
  | Kube UtcNow => is_Some (a_found s)
  | Kube (PatchNode c n p) =>
      c = MgmtClient /\ n = node_name cli /\ a_watching s = true /\
      (exists m now, a_found s = Some m /\ a_now s = Some now /\
         p = ForcedMergePatch AGENT_FIELD_MANAGER (build_patch_body m (to_rfc3339 now))) /\
      (skip_host_id_check cli = false -> exists node id, a_node s = Some node /\ a_host s = Some id /\ reports_machine_id node id)
  | Kube _ => False
  | SpawnWatcher n =>
      n = RECLAIM_AGENT_CONFIGMAP_PREFIX +:+ node_name cli /\
      exists node, a_node s = Some node /\ already_requested (default ∅ (n_annotations node)) = false
  | ReadMachineId p => p = machine_id_path cli /\ skip_host_id_check cli = false
  | ScanProc root => root = proc_root cli /\ is_Some (a_cfg s)
  | ReadProcess root pid => root = proc_root cli /\ a_exec s = Some pid /\ is_Some (a_cfg s)
  | Subscribe | NextDelivery => is_Some (a_cfg s)
  | _ => True
  end.

(** How the agent ends: a match it has taken is written, or the write is refused
    or fails, and then the agent exits. *)
Definition agent_end (s : agent_state) (r : option outcome) : Prop :=
  (a_written s = true -> is_Some (a_found s)) /\
  (is_Some (a_found s) -> r = Some (Ok tt) /\ a_written s = true \/ exists e, r = Some (Err (Annotate e))).

Section evidence.
Context `{Externals} (cli : AgentCli).
Notation triple := (hoare (learns cli) (warranted cli)).

(** The agent knows its host, unless the check is off. *)
Definition vetted (host : option string) (s : agent_state) : Prop :=
  match host with Some id => a_host s = Some id | None => skip_host_id_check cli = true end.
(** Between two iterations. *)
Definition idle (host : option string) (s : agent_state) : Prop :=
  a_watching s = true /\ a_written s = false /\ a_found s = None /\ vetted host s.

Definition loop_end {S} (Inv : S -> agent_state -> Prop) (s : agent_state) (r : S + outcome) : Prop :=
  match r with inl st => Inv st s | inr o => agent_end s (Some o) end.

Lemma quiet_end s r : a_written s = false -> a_found s = None -> agent_end s r.
Proof. intros Hw Hf. unfold agent_end. rewrite Hw, Hf. split; [done | by intros []]. Qed.

Lemma triple_annotate {S} host m s (Inv : S -> agent_state -> Prop) :
  a_watching s = true -> a_written s = false -> a_found s = Some m -> vetted host s ->
  triple s (annotate_and_exit cli host m) (loop_end Inv).
Proof.
  destruct s as [hid node w cfg exec found now written]. cbn. intros -> -> -> Hv.
  assert (Hend : forall node now wr r, (wr = true -> r = Ok tt) -> (wr = false -> is_ok r = false) ->
            loop_end Inv (Build_agent_state hid node true cfg exec (Some m) now wr) (inr (map_err Annotate r))).
  { intros nd nw wr r H1 H2. split; cbn; [done |]. intros _. destruct wr; [rewrite H1 by done; by left |].
    destruct r as [u | e]; [by specialize (H2 eq_refl) | right; by exists e]. }
  assert (Hfail : forall node now wr e,
            loop_end Inv (Build_agent_state hid node true cfg exec (Some m) now wr) (inr (Err (Annotate e)))).
  { intros nd nw wr e. split; cbn; [done |]. intros _. right. by exists e. }
  assert (Hpatch : forall node, (skip_host_id_check cli = false -> exists nd id, node = Some nd /\ hid = Some id /\ reports_machine_id nd id) ->
            triple (Build_agent_state hid node true cfg exec (Some m) now false)
              (bind (kube (now <- utc_now ;;
                 p <- patch_node MgmtClient (node_name cli) (ForcedMergePatch AGENT_FIELD_MANAGER (build_patch_body m (to_rfc3339 now))) ;;
                 Ret (map_err PatchFailed p))) (λ r, Ret (inr (map_err Annotate r)))) (loop_end Inv)).
  { intros nd Hid. cbn -[build_patch_body]. split; [by split; [| by eexists] |]. intros t s' ->. split.
    - split; [done |]. split_and!; try done. exists m, t. done.
    - intros [[] | e] s' ->; [by apply (Hend nd (Some t) true (Ok tt)) | by apply Hfail]. }
  unfold annotate_and_exit, annotate_node. destruct host as [id |]; cbn in Hv.
  - subst hid. cbn -[build_patch_body]. split; [done |]. intros [nd | e] s' ->; [| apply Hfail].
    destruct (compare_machine_ids_spec nd (node_name cli) id) as [[-> Hr] | [[e ->] Hr]]; [| apply Hfail].
    apply (Hpatch (Some nd)). intros _. by exists nd, id.
  - apply (Hpatch node). congruence.
Qed.

Lemma triple_await {S} host s (st : S) (Inv : S -> agent_state -> Prop) :
  idle host s -> Inv st s -> triple s (await_arming cli st) (loop_end Inv).
Proof.
  intros (Hw & Hn & Hf & Hv) Hi. unfold await_arming. destruct (oneshot cli); cbn; [by apply quiet_end |].
  split; [split; [congruence | done] |]. intros r s' Hs.
  assert (s' = s) as -> by (by destruct s). destruct r; cbn; [done | by apply quiet_end | done].
Qed.

Lemma triple_poll_tick host st s :
  idle host s -> triple s (poll_tick cli host st) (loop_end (λ _ s', idle host s')).
Proof.
  intros Hi. pose proof Hi as (Hw & Hn & Hf & Hv). destruct s as [hid node w cfg exec found now written]. cbn in Hw, Hn, Hf. subst.
  unfold poll_tick. cbn -[await_arming scan_proc annotate_and_exit]. split; [done |]. intros c s' ->.
  destruct c as [c |]; [| by apply (triple_await host)]. cbn -[scan_proc annotate_and_exit].
  split; [by split |]. intros [listing files] s' ->. cbn [fst snd]. change (Some c ≫= ?f) with (f c). cbv beta.
  destruct (scan_proc listing files c) as [[m |] | e].
  - by apply triple_annotate.
  - destruct (oneshot cli); cbn; [by apply quiet_end |]. split; [done |]. intros [] s' ->. done.
  - by apply quiet_end.
Qed.

(** Between two datagrams, the configuration is the one last taken. *)
Definition receiving_ok host (st : option Config) (s : agent_state) : Prop :=
  idle host s /\ (is_Some st -> a_cfg s = st).

Lemma triple_rearm host s : idle host s -> triple s (rearm cli) (loop_end (receiving_ok host)).
Proof.
  intros Hi. unfold rearm. destruct Hi as (Hw & Hn & Hf & Hv). destruct (oneshot cli); cbn; [by apply quiet_end |].
  split; [done | by intros []].
Qed.

Lemma triple_recv_tick host cfg s :
  receiving_ok host (Some cfg) s -> triple s (recv_tick cli host cfg) (loop_end (receiving_ok host)).
Proof.
  intros [(Hw & Hn & Hf & Hv) Hc]. specialize (Hc ltac:(by eexists)).
  destruct s as [hid node w c exec found now written]. cbn in Hw, Hn, Hf, Hc. subst.
  assert (Hgo : forall ex nw, receiving_ok host (Some cfg) (Build_agent_state hid node true (Some cfg) ex None nw false)) by done.
  unfold recv_tick. cbn -[next_event match_pid rearm annotate_and_exit]. split; [done |]. intros d s' ->.
  destruct d as [bytes | e | |]; [| by apply quiet_end | by apply triple_rearm | by apply quiet_end].
  destruct (next_event bytes) as [[[pid tgid | what] |] |]; cbn -[match_pid rearm annotate_and_exit];
    [| apply Hgo | apply Hgo | by apply quiet_end].
  split; [by split_and! |]. intros files s' ->. change (Some cfg ≫= ?f) with (f cfg). cbv beta.
  destruct (match_pid (λ _, files) pid cfg) as [m |]; [| apply Hgo]. cbn -[rearm annotate_and_exit]. split; [done |].
  intros [] s' ->; cbn -[rearm annotate_and_exit]; [by apply triple_annotate | by apply triple_rearm | by apply quiet_end].
Qed.

Lemma triple_netlink_tick host st s :
  receiving_ok host st s -> triple s (netlink_tick cli host st) (loop_end (receiving_ok host)).
Proof.
  intros Hi. destruct st as [cfg |]; [by apply triple_recv_tick |]. destruct Hi as [(Hw & Hn & Hf & Hv) _].
  destruct s as [hid node w c exec found now written]. cbn in Hw, Hn, Hf. subst.
  unfold netlink_tick. cbn -[await_arming]. split; [done |]. intros c' s' ->. destruct c' as [cfg |]; [| by apply (triple_await host)].
  cbn. split; [by split |]. intros [[] | e] s' ->; cbn; [done | by apply quiet_end].
Qed.

Lemma triple_scanner linux host n s :
  idle host s ->
  triple s (match resolve_detector linux (detector cli) with
            | DPoll => run_scanner cli host n
            | DNetlink => run_netlink_scanner cli host n
            end) agent_end.
Proof.
  intros Hi. destruct (resolve_detector linux (detector cli)).
  - apply (hoare_iterate _ _ _ (receiving_ok host)); [| intros st s' [(Hw & Hn & Hf & Hv) _]; by apply quiet_end | split; [done | by intros []]].
    intros st s' Hs. eapply hoare_mono; [done | | by apply triple_netlink_tick]. by intros s'' [].
  - apply (hoare_iterate _ _ _ (λ _, idle host)); [| intros st s' (Hw & Hn & Hf & Hv); by apply quiet_end | done].
    intros st s' Hs. eapply hoare_mono; [done | | by apply triple_poll_tick]. by intros s'' [].
Qed.

(** C17: a reclaim needs evidence: whatever the node, the kernel and the
    configuration answer, and for either detector, the agent writes to the
    cluster at most once and then only stops; the write is the request for its
    own node, for a match it found in the configuration last taken from the
    channel, on a node that carried no request when it started and, unless the
    check is off, that it has just read and whose machine id is its host's;
    without a configuration it looks at no process.  A match it has taken is
    written, or the refusal or failure of the write ends it with that error. *)
Theorem agent_reclaims_on_evidence linux n :
  triple agent_start (agent_main cli linux n) agent_end.
Proof.
  unfold agent_main. cbn -[run_scanner run_netlink_scanner host_machine_id is_already_requested].
  split; [done |]. intros [[] | e] s ->; cbn -[run_scanner run_netlink_scanner host_machine_id is_already_requested]; [| by apply quiet_end].
  assert (Hrest : forall host s, a_written s = false -> a_found s = None -> vetted host s ->
    triple s (requested <- is_already_requested cli ;;
      match requested with
      | Err e => Ret (Some (Err e))
      | Ok true => Ret (Some (Ok tt))
      | Ok false =>
          spawn_watcher (RECLAIM_AGENT_CONFIGMAP_PREFIX +:+ node_name cli) ;;;
          scanner_result <- match resolve_detector linux (detector cli) with
                            | DPoll => run_scanner cli host n
                            | DNetlink => run_netlink_scanner cli host n
                            end ;;
          stop_watcher ;;; Ret scanner_result
      end) agent_end).
  { intros host [hid node w cfg exec found now written] Hn Hf Hv. cbn in Hn, Hf. subst.
    cbn -[run_scanner run_netlink_scanner already_requested String.append]. split; [by split |]. intros [nd | e] s' ->; [| by apply quiet_end].
    cbn -[run_scanner run_netlink_scanner already_requested String.append].
    destruct (already_requested (default ∅ (n_annotations nd))) eqn:Ha; [by apply quiet_end |].
    cbn -[run_scanner run_netlink_scanner already_requested String.append]. split; [split; [done |]; split; [done |]; by exists nd |].
    intros [] s' ->. apply hoare_bind. eapply hoare_mono; [done | | by apply triple_scanner]. cbn beta.
    intros s' r Hend. cbn. split; [done |]. intros [] s'' Hs. assert (s'' = s') as -> by (by destruct s'). done. }
  unfold host_machine_id. destruct (skip_host_id_check cli) eqn:Hsk; [by apply Hrest |].
  cbn -[run_scanner run_netlink_scanner is_already_requested read_host_machine_id]. split; [done |]. intros contents s ->.
  destruct (read_host_machine_id (machine_id_path cli) contents) as [id | e]; [by apply Hrest | by apply quiet_end].
Qed.
End evidence.

(** ** The configuration after a gap of the watch *)

(** A watch that reconnects lists what exists between [Init] and [InitDone], and
    reports no deletion that happened meanwhile: a ConfigMap removed while the
    watch was down leaves the agent armed with it. *)
Theorem relist_keeps_armed `{TomlConfig} data cfg e :
  configmap_to_config data = Ok (Some cfg) ->
  run_config_watcher [Ok (Apply data); Err e; Ok Init; Ok InitDone] None = Some cfg /\
  run_config_watcher [Ok (Apply data); Ok Delete] None = None.
Proof. intros Hc. cbn. unfold push_parsed. by rewrite Hc. Qed.

(** ** What the netlink detector does not look at *)

(** The two detectors exclude each other: the netlink one never lists the
    processes, so a process that was running before its socket was open is not
    found, and no poll makes up for an event it misses. *)
Theorem netlink_never_scans `{Externals} cli host n :
  calls (λ c, forall root, c <> ScanProc root) (run_netlink_scanner cli host n).
Proof.
  assert (Hk : forall A (p : M A), calls (λ c, forall root, c <> ScanProc root) (kube p)).
  { intros A p. induction p as [a | c k IH]; cbn; [done |]. split; [done |]. intros r. apply IH. }
  assert (Hr : calls (λ c, forall root, c <> ScanProc root) (rearm cli)) by (unfold rearm; by destruct (oneshot cli)).
  unfold run_netlink_scanner. generalize (@None Config). induction n as [| n IH]; intros st; [done |]. cbn [iterate].
  apply calls_bind; [| intros [st' | o]; [apply IH | done]]. destruct st as [cfg |]; cbn [netlink_tick].
  - unfold recv_tick. apply calls_bind; [by apply calls_call |]. intros [bytes | e | |]; [| done | exact Hr | done].
    destruct (next_event bytes) as [[[pid tgid | what] |] |]; [| done ..].
    apply calls_bind; [by apply calls_call |]. intros files. destruct (match_pid _ _ _) as [m |]; [| done].
    apply calls_bind; [by apply calls_call |]. intros []; [| exact Hr | done]. apply calls_bind; [apply Hk | done].
  - apply calls_bind; [by apply calls_call |]. intros [cfg |].
    + apply calls_bind; [by apply calls_call |]. by intros [[] | e].
    + unfold await_arming. destruct (oneshot cli); [done |]. apply calls_bind; [by apply calls_call |]. by intros [].
Qed.
