(* ===== verification/AgentThreads.v ===== *)
(** The netlink detector as the concurrent program it is: the task that waits
    for a match or for a new configuration, and the blocking threads it starts
    ([run_netlink_scanner] of [src/bin/reclaim_agent.rs]).

    A thread that is abandoned when the configuration changes keeps its socket
    and its configuration and goes on receiving; nothing reads its result.
    [AgentLoop.run_netlink_scanner] is the sequential reading of this program,
    and [receive_threads_refine] shows that the cluster cannot tell them apart. *)

From S2P Require Import Prelude RustStr Effects Json Crd Externals KubeApi Emergency ReclaimAgent Netlink AgentLoop.

(** How the closure given to [spawn_blocking] ends: its result, or a panic. *)
Inductive joined : Type :=
| JoinedMatch (m : Match)
| JoinedErr (e : string)
| JoinError.

(** A receive thread: in [sub.next_event()], in [match_pid], or returned. *)
Inductive recv_thread : Type :=
| Receiving (cfg : Config)
| Matching (cfg : Config) (pid : Z)
| Returned (cfg : Config) (r : joined).

(** [recv] returned in the thread. *)
Definition thread_event (cfg : Config) (d : result (list ascii) string) : recv_thread :=
  match d with
  | Err e => Returned cfg (JoinedErr e)
  | Ok bytes =>
      match next_event bytes with
      | Some (Some (Exec pid _)) => Matching cfg pid
      | Some (Some (Netlink.Other _)) | Some None => Receiving cfg
      | None => Returned cfg JoinError
      end
  end.
(** [match_pid] read the files of the process. *)
Definition thread_files (cfg : Config) (pid : Z) (files : proc_files) : recv_thread :=
  match match_pid (λ _, files) pid cfg with
  | Some m => Returned cfg (JoinedMatch m)
  | None => Receiving cfg
  end.

Inductive thread_step : recv_thread -> recv_thread -> Prop :=
| step_event cfg d : thread_step (Receiving cfg) (thread_event cfg d)
| step_files cfg pid files : thread_step (Matching cfg pid) (thread_files cfg pid files).

#[local] Notation outcome := (result unit agent_failure).
#[local] Notation body := (prog agent_reply (option Config + outcome)).

(** The task: between two calls, in the [select!] over a thread's handle and the
    channel, or returned. *)
Inductive task : Type :=
| At (p : body)
| Selecting (t : recv_thread)
| Ended (o : outcome).

Record process : Type := { p_task : task; p_abandoned : list recv_thread }.

Section threads.
Context `{Externals} (cli : AgentCli) (host : option string).

(** After the [select!]: [match outcome]. *)
Definition settle (r : joined) : body :=
  match r with
  | JoinedMatch m => annotate_and_exit cli host m
  | JoinedErr e => Ret (inr (Err (Recv e)))
  | JoinError => Ret (inr (Err TaskPanicked))
  end.

(** A step, with the call of the task if it is one. *)
Inductive step : process -> option (event agent_reply) -> process -> Prop :=
| step_call c k r ab : step (Build_process (At (Vis c k)) ab) (Some (Ev c r)) (Build_process (At (k r)) ab)
| step_continue ab : step (Build_process (At (Ret (inl None))) ab) None (Build_process (At (netlink_tick cli host None)) ab)
| step_spawn cfg ab : step (Build_process (At (Ret (inl (Some cfg)))) ab) None (Build_process (Selecting (Receiving cfg)) ab)
| step_return o ab : step (Build_process (At (Ret (inr o))) ab) None (Build_process (Ended o) ab)
| step_thread t t' ab : thread_step t t' -> step (Build_process (Selecting t) ab) None (Build_process (Selecting t') ab)
| step_joined cfg r ab : step (Build_process (Selecting (Returned cfg r)) ab) None (Build_process (At (settle r)) ab)
| step_changed t ab : step (Build_process (Selecting t) ab) None (Build_process (At (rearm cli)) (t :: ab))
| step_closed t ab : step (Build_process (Selecting t) ab) None (Build_process (At (Ret (inr (Ok tt)))) (t :: ab))
| step_abandoned tk l t t' l' : thread_step t t' ->
    step (Build_process tk (l ++ t :: l')) None (Build_process tk (l ++ t' :: l')).

Inductive runs : process -> list (event agent_reply) -> process -> Prop :=
| runs_refl w : runs w [] w
| runs_step w1 t1 w2 e w3 : runs w1 t1 w2 -> step w2 e w3 -> runs w1 (t1 ++ option_list e) w3.

Definition launched : process := {| p_task := At (netlink_tick cli host None); p_abandoned := [] |}.
End threads.

(** ** The task sees the sequential program *)

(** The calls that are not the receive loop's. *)
Definition outer_call (c : agent_call) : bool :=
  match c with NextDelivery | ReadProcess _ _ | SelectMatch => false | _ => true end.
Definition outer (e : event agent_reply) : bool := outer_call (ev_call e).

(** What is known of a thread from the datagrams it received, and of the task. *)
Definition thread_ok (t : recv_thread) : Prop :=
  match t with
  | Matching _ pid => exists bytes tgid, next_event bytes = Some (Some (Exec pid tgid))
  | Returned _ JoinError => exists bytes, next_event bytes = None
  | _ => True
  end.
Definition task_ok (tk : task) : Prop :=
  match tk with
  | At p => calls (λ c, outer_call c = true) p
  | Selecting t => thread_ok t
  | Ended _ => True
  end.

Lemma thread_step_ok t t' : thread_step t t' -> thread_ok t'.
Proof.
  destruct 1 as [cfg [bytes | e] | cfg pid files]; cbn; [| done | unfold thread_files; by case_match].
  destruct (next_event bytes) as [[[pid tgid | what] |] |] eqn:Hn; cbn; eauto.
Qed.

Section refinement.
Context `{Externals} (cli : AgentCli) (host : option string).
Notation is_outer := (calls (λ c, outer_call c = true)).

Lemma outer_embed {A} (p : M A) : is_outer (kube p).
Proof. induction p as [a | c k IH]; cbn; [done |]. split; [done |]. intros r. apply IH. Qed.
Lemma outer_annotate {S} m : is_outer (annotate_and_exit (S:=S) cli host m).
Proof. apply calls_bind; [apply outer_embed | done]. Qed.
Lemma outer_tick : is_outer (netlink_tick cli host None).
Proof.
  cbn. split; [done |]. intros [cfg |]; [| unfold await_arming; destruct (oneshot cli); [done |]; cbn; split; [done |]; by intros []].
  cbn. split; [done |]. by intros [[] | e].
Qed.
Lemma outer_rearm : is_outer (rearm cli).
Proof. unfold rearm. by destruct (oneshot cli). Qed.
Lemma outer_settle r : is_outer (settle cli host r).
Proof. destruct r; [apply outer_annotate | done | done]. Qed.

Lemma step_ok w e w' : step cli host w e w' -> task_ok (p_task w) -> task_ok (p_task w').
Proof.
  destruct 1; cbn; intros Hok; try done.
  - by apply Hok.
  - apply outer_tick.
  - by eapply thread_step_ok.
  - apply outer_settle.
  - apply outer_rearm.
Qed.

(** The rest of the sequential run, with [m] iterations left. *)
Definition resume (m : nat) (p : body) : prog agent_reply (option outcome) :=
  bind p (λ r, match r with inl s => iterate m (netlink_tick cli host) s | inr a => Ret (Some a) end).
Definition after_match (m : Match) : body :=
  b <- select_match ;;
  match b with
  | TakeMatch => annotate_and_exit cli host m
  | TakeChanged => rearm cli
  | TakeClosed => Ret (inr (Ok tt))
  end.
Definition sequential (m : nat) (tk : task) : prog agent_reply (option outcome) :=
  match tk with
  | At p => resume m p
  | Selecting (Returned _ (JoinedMatch mt)) => resume m (after_match mt)
  | Selecting (Receiving cfg | Matching cfg _ | Returned cfg _) => iterate m (netlink_tick cli host) (Some cfg)
  | Ended o => Ret (Some o)
  end.

(** [p] can go on as [q], with the calls [e] besides the receive loop's. *)
Definition sees {A} (p : prog agent_reply A) (e : list (event agent_reply)) (q : prog agent_reply A) : Prop :=
  exists t, leads p t q /\ filter outer t = e.

Lemma sees_refl {A} (p : prog agent_reply A) : sees p [] p.
Proof. by exists []. Qed.
Lemma sees_trans {A} (p q q' : prog agent_reply A) e e' : sees p e q -> sees q e' q' -> sees p (e ++ e') q'.
Proof. intros (t & Hp & <-) (t' & Hq & <-). exists (t ++ t'). split; [by eapply leads_trans | by rewrite filter_app]. Qed.
Lemma sees_call {A} c r (k : agent_reply c -> prog agent_reply A) : sees (Vis c k) (filter outer [Ev c r]) (k r).
Proof. exists [Ev c r]. split; [by exists r | done]. Qed.

(** A call of the loop that the cluster does not see. *)
Lemma sees_inner {A} c r (k : agent_reply c -> prog agent_reply A) q :
  outer_call c = false -> sees (k r) [] q -> sees (Vis c k) [] q.
Proof. intros Hc. apply (sees_trans _ (k r) _ []). pose proof (sees_call c r k) as Hs. cbn in Hs. unfold outer in Hs. cbn in Hs. by rewrite Hc in Hs. Qed.

(** The awaited thread, in one iteration of the loop. *)
Lemma thread_refines t t' : thread_step t t' -> thread_ok t ->
  forall m, exists n, sees (sequential n (Selecting t)) [] (sequential m (Selecting t')).
Proof.
  destruct 1 as [cfg [bytes | e] | cfg pid files]; intros Hok m; cbn [thread_event].
  - destruct (next_event bytes) as [[[pid tgid | what] |] |] eqn:Hn.
    + exists m. apply sees_refl.
    + exists (S m). apply (sees_inner NextDelivery (Datagram bytes)); [done |]. cbn. rewrite Hn. apply sees_refl.
    + exists (S m). apply (sees_inner NextDelivery (Datagram bytes)); [done |]. cbn. rewrite Hn. apply sees_refl.
    + exists m. apply sees_refl.
  - exists m. apply sees_refl.
  - destruct Hok as (bytes & tgid & Hn). exists (S m). apply (sees_inner NextDelivery (Datagram bytes)); [done |]. cbn. rewrite Hn.
    apply (sees_inner (ReadProcess (proc_root cli) pid) files); [done |]. unfold thread_files.
    destruct (match_pid (λ _, files) pid cfg); apply sees_refl.
Qed.

(** The end of the [select!]. *)
Lemma select_refines t d p : thread_ok t ->
  (d = RxChanged /\ p = rearm cli) \/ (d = RxClosed /\ p = Ret (inr (Ok tt))) ->
  forall m, exists n, sees (sequential n (Selecting t)) [] (resume m p).
Proof.
  intros Hok Hd m.
  destruct t as [cfg | cfg pid | cfg [mt | e |]];
    try (exists (S m); apply (sees_inner NextDelivery d); [done |]; destruct Hd as [[-> ->] | [-> ->]]; apply sees_refl).
  exists m. destruct Hd as [[-> ->] | [-> ->]].
  - apply (sees_inner SelectMatch TakeChanged); [done |]. apply sees_refl.
  - apply (sees_inner SelectMatch TakeClosed); [done |]. apply sees_refl.
Qed.

Lemma joined_refines cfg r : thread_ok (Returned cfg r) ->
  forall m, exists n, sees (sequential n (Selecting (Returned cfg r))) [] (resume m (settle cli host r)).
Proof.
  intros Hok m. destruct r as [mt | e |].
  - exists m. apply (sees_inner SelectMatch TakeMatch); [done |]. apply sees_refl.
  - exists (S m). apply (sees_inner NextDelivery (RecvFailed e)); [done |]. apply sees_refl.
  - destruct Hok as [bytes Hn]. exists (S m). apply (sees_inner NextDelivery (Datagram bytes)); [done |]. cbn. rewrite Hn. apply sees_refl.
Qed.

Lemma step_refines w e w' : step cli host w e w' -> task_ok (p_task w) ->
  forall m, exists n, sees (sequential n (p_task w)) (option_list e) (sequential m (p_task w')).
Proof.
  destruct 1 as [c k r ab | ab | cfg ab | o ab | t t' ab Ht | cfg r ab | t ab | t ab | tk l t t' l' Ht]; cbn [p_task]; intros Hok m.
  - exists m. pose proof (sees_call c r (λ r, resume m (k r))) as Hs. cbn in Hs. unfold outer in Hs. cbn in Hs.
    destruct Hok as [Hc _]. by rewrite Hc in Hs.
  - exists (S m). apply sees_refl.
  - exists m. apply sees_refl.
  - exists m. apply sees_refl.
  - by apply thread_refines.
  - by apply joined_refines.
  - apply (select_refines t RxChanged); [done | by left].
  - apply (select_refines t RxClosed (Ret (inr (Ok tt)))); [done | by right].
  - exists m. apply sees_refl.
Qed.

Lemma runs_refine w t w' : runs cli host w t w' -> task_ok (p_task w) ->
  task_ok (p_task w') /\ forall m, exists n, sees (sequential n (p_task w)) t (sequential m (p_task w')).
Proof.
  induction 1 as [w | w1 t1 w2 e w3 _ IH Hs]; intros Hok; [split; [done |]; intros m; exists m; apply sees_refl |].
  destruct (IH Hok) as [Hok2 Hr]. split; [by eapply step_ok |]. intros m.
  destruct (step_refines _ _ _ Hs Hok2 m) as [n Hn]. destruct (Hr n) as [n' Hn']. exists n'. by eapply sees_trans.
Qed.

(** However the task, the thread it waits for and the threads it has abandoned
    interleave, what the node API, the configuration channel and the kernel's
    socket calls see is a run of the sequential loop, with the same result: an
    abandoned thread has no effect. *)
Theorem receive_threads_refine t w :
  runs cli host (launched cli host) t w ->
  exists n p, sees (run_netlink_scanner cli host n) t p /\ (forall o, p_task w = Ended o -> p = Ret (Some o)).
Proof.
  intros Hr. destruct (runs_refine _ _ _ Hr (outer_tick)) as [_ Hn]. destruct (Hn 0) as [n Hs].
  exists (S n), (sequential 0 (p_task w)). split; [exact Hs |]. by intros o ->.
Qed.
End refinement.

(** ** What a change of configuration leaves behind *)

Lemma runs_trans `{Externals} cli host w1 t1 w2 t2 w3 :
  runs cli host w1 t1 w2 -> runs cli host w2 t2 w3 -> runs cli host w1 (t1 ++ t2) w3.
Proof.
  intros H1 H2. induction H2 as [w | w t w' e w'' _ IH Hs]; [by rewrite app_nil_r |].
  rewrite app_assoc. eapply runs_step; [by apply IH | done].
Qed.
Lemma runs_one `{Externals} cli host w e w' : step cli host w e w' -> runs cli host w (option_list e) w'.
Proof. intros Hs. apply (runs_step _ _ w [] w e w'); [constructor | done]. Qed.
Lemma runs_inner `{Externals} cli host w w' w'' t :
  step cli host w None w' -> runs cli host w' t w'' -> runs cli host w t w''.
Proof. intros Hs. apply (runs_trans _ _ w [] w'). apply (runs_one _ _ _ None _ Hs). Qed.
Lemma runs_call `{Externals} cli host c r k ab t w :
  runs cli host (Build_process (At (k r)) ab) t w -> runs cli host (Build_process (At (Vis c k)) ab) (Ev c r :: t) w.
Proof. apply (runs_trans _ _ _ [Ev c r]), (runs_one _ _ _ (Some (Ev c r))). constructor. Qed.

(** The number of threads abandoned only grows, and only by a change of
    configuration; no step of the task ends one or changes what it looks for. *)
Definition looks_for (t : recv_thread) : Config :=
  match t with Receiving cfg | Matching cfg _ | Returned cfg _ => cfg end.

Lemma thread_looks_for t t' : thread_step t t' -> looks_for t' = looks_for t.
Proof.
  destruct 1 as [cfg [bytes | e] | cfg pid files]; cbn; [| done | unfold thread_files; by case_match].
  by destruct (next_event bytes) as [[[] |] |].
Qed.

Lemma abandoned_grows `{Externals} cli host w t w' :
  runs cli host w t w' -> exists l, map looks_for (p_abandoned w') = l ++ map looks_for (p_abandoned w).
Proof.
  induction 1 as [w | w1 t1 w2 e w3 _ [l IH] Hs]; [by exists [] |].
  destruct Hs as [| | | | | | t ab | t ab | tk a b b' c Hb]; cbn in *; try by exists l.
  - exists (looks_for t :: l). by rewrite IH.
  - exists (looks_for t :: l). by rewrite IH.
  - exists l. rewrite <- IH, !map_app. cbn. by rewrite (thread_looks_for _ _ Hb).
Qed.

(** The code calls the change of configuration the cancellation of the receive
    loop.  It is not: with the old thread still receiving for the old
    configuration, the agent arms a new one, writes the request for its match
    and returns; the thread is left, and no step but the next datagram it
    receives changes anything.  (The runtime waits for the blocking threads it
    started, so the process is not gone before that.) *)
Theorem abandoned_thread_survives `{Externals} cli cfg cfg' bytes pid tgid files m :
  oneshot cli = false -> next_event bytes = Some (Some (Exec pid tgid)) -> match_pid (λ _, files) pid cfg' = Some m ->
  let left := Build_process (Ended (Ok tt)) [Receiving cfg] in
  (exists t, runs cli None (launched cli None) t left) /\
  (forall e w, step cli None left e w -> exists d, w = Build_process (Ended (Ok tt)) [thread_event cfg d]).
Proof.
  intros Ho Hn Hm left. split.
  - eexists. apply (runs_call _ _ CurrentConfig (Some cfg)), (runs_call _ _ Subscribe (Ok tt)).
    eapply runs_inner; [apply step_spawn |]. eapply runs_inner; [apply step_changed |]. unfold rearm. rewrite Ho.
    eapply runs_inner; [apply step_continue |].
    apply (runs_call _ _ CurrentConfig (Some cfg')), (runs_call _ _ Subscribe (Ok tt)).
    eapply runs_inner; [apply step_spawn |].
    eapply runs_inner; [apply step_thread, (step_event cfg' (Ok bytes)) |]. cbn [thread_event]. rewrite Hn.
    eapply runs_inner; [apply step_thread, (step_files cfg' pid files) |]. unfold thread_files. rewrite Hm.
    eapply runs_inner; [apply step_joined |].
    apply (runs_call _ _ (Kube UtcNow) 0%Z), (runs_call _ _ (Kube (PatchNode _ _ _)) (Ok tt)).
    eapply runs_inner; [apply step_return |]. constructor.
  - intros e w Hs. inversion Hs as [| | | | | | | | tk l t t' l' Ht Hl]; subst.
    destruct l as [| ? [|]]; simplify_eq/=. inversion Ht as [? d |]; subst. by exists d.
Qed.
