(* ===== verification/Schemas.v ===== *)
(** The admission schemas of the custom resources ([src/crd.rs], the
    [*_schema] functions), and what they guarantee to the reconciler.

    The schemas are the JSON documents the code builds.  [admits] is the
    documented meaning of their keywords; the regular expressions and the CEL
    rules inside them are the API server's, so they are parameters, with the
    documented meaning of regular expressions as a law. *)

From S2P Require Import Prelude RustStr Effects Constants Json Crd Externals KubeApi Samples Validation.
From S2P Require Import ChildClient Reconcile.

(** ** Regular expressions *)

Inductive class_item : Type := Range (a b : ascii) | Char (a : ascii) | Escaped (a : ascii).
Inductive re : Type :=
| Class (l : list class_item)
| Lit (s : string)
| Dot                       (** an escaped dot *)
| Seq (r1 r2 : re)
| Star (r : re)
| Plus (r : re)
| Opt (r : re)
| Repeat (r : re) (n : nat)
| Group (r : re).

Definition print_item (i : class_item) : string :=
  match i with
  | Range a b => String a (String "-" (String b ""))
  | Char a => String a ""
  | Escaped a => String "\" (String a "")
  end.
Fixpoint print_re (r : re) : string :=
  match r with
  | Class l => "[" +:+ foldr (λ i acc, print_item i +:+ acc) "" l +:+ "]"
  | Lit s => s
  | Dot => "\."
  | Seq r1 r2 => print_re r1 +:+ print_re r2
  | Star r => print_re r +:+ "*"
  | Plus r => print_re r +:+ "+"
  | Opt r => print_re r +:+ "?"
  | Repeat r n => print_re r +:+ "{" +:+ pretty n +:+ "}"
  | Group r => "(" +:+ print_re r +:+ ")"
  end.
Definition anchored (r : re) : string := "^" +:+ print_re r +:+ "$".

Definition in_class (l : list class_item) (c : ascii) : bool :=
  existsb (λ i, match i with
                | Range a b => in_range (byte_of a) (byte_of b) c
                | Char a | Escaped a => bool_decide (c = a)
                end) l.

(** The strings of an expression. *)
Inductive lang : re -> string -> Prop :=
| lang_class l c : in_class l c = true -> lang (Class l) (String c "")
| lang_lit s : lang (Lit s) s
| lang_dot : lang Dot "."
| lang_seq r1 r2 s1 s2 : lang r1 s1 -> lang r2 s2 -> lang (Seq r1 r2) (s1 +:+ s2)
| lang_star_nil r : lang (Star r) ""
| lang_star_cons r s1 s2 : lang r s1 -> lang (Star r) s2 -> lang (Star r) (s1 +:+ s2)
| lang_plus r s1 s2 : lang r s1 -> lang (Star r) s2 -> lang (Plus r) (s1 +:+ s2)
| lang_opt_none r : lang (Opt r) ""
| lang_opt_some r s : lang r s -> lang (Opt r) s
| lang_repeat_0 r : lang (Repeat r 0) ""
| lang_repeat_S r n s1 s2 : lang r s1 -> lang (Repeat r n) s2 -> lang (Repeat r (S n)) (s1 +:+ s2)
| lang_group r s : lang r s -> lang (Group r) s.

Definition lower_digit : re := Class [Range "a" "z"; Range "0" "9"].
Definition label_tail : re := Opt (Group (Seq (Star (Class [Char "-"; Range "a" "z"; Range "0" "9"])) lower_digit)).
Definition dns_label : re := Seq lower_digit label_tail.
Definition re_timezone : re :=
  Seq (Class [Range "A" "Z"; Range "a" "z"])
    (Star (Class [Range "A" "Z"; Range "a" "z"; Range "0" "9"; Char "_"; Char "+"; Escaped "-"; Char "/"])).
Definition re_cluster_name : re :=
  Seq (Class [Range "A" "Z"; Range "a" "z"; Range "0" "9"])
      (Star (Class [Range "A" "Z"; Range "a" "z"; Range "0" "9"; Char "."; Char "_"; Char "-"])).
Definition re_api_version : re :=
  Seq (Lit "spotschedules") (Seq Dot (Seq (Lit "5spot") (Seq Dot (Seq (Lit "finos") (Seq Dot (Seq (Lit "org/")
    (Seq (Class [Range "A" "Z"; Range "a" "z"; Range "0" "9"])
         (Star (Class [Range "A" "Z"; Range "a" "z"; Range "0" "9"; Char "."; Char "-"]))))))))).
Definition re_kind : re :=
  Seq (Class [Range "A" "Z"]) (Star (Class [Range "A" "Z"; Range "a" "z"; Range "0" "9"])).
Definition re_dns_subdomain : re := Seq dns_label (Star (Group (Seq Dot dns_label))).
Definition re_data_key : re := Plus (Class [Range "A" "Z"; Range "a" "z"; Range "0" "9"; Char "."; Char "_"; Char "-"]).
Definition re_service : re :=
  Seq (Plus (Class [Range "A" "Z"; Range "a" "z"; Range "0" "9"; Char "@"; Char "."; Char "_"; Char "-"])) (Seq Dot (Lit "service")).
Definition re_iso_date : re :=
  let digit := Class [Range "0" "9"] in
  Seq (Repeat digit 4) (Seq (Lit "-") (Seq (Repeat digit 2) (Seq (Lit "-") (Repeat digit 2)))).

(** ** The schemas *)

Definition timezone_schema : json :=
  JObj [("type", JStr "string"); ("maxLength", JInt 64); ("pattern", JStr "^[A-Za-z][A-Za-z0-9_+\-/]*$")].
Definition cluster_name_schema : json :=
  JObj [("type", JStr "string"); ("minLength", JInt 1); ("maxLength", JInt 63); ("pattern", JStr "^[A-Za-z0-9][A-Za-z0-9._-]*$")].
Definition kill_if_commands_schema : json :=
  JObj [("type", JStr "array"); ("maxItems", JInt 100);
        ("items", JObj [("type", JStr "string"); ("minLength", JInt 1); ("maxLength", JInt 256)])].
Definition spot_schedule_api_version_schema : json :=
  JObj [("type", JStr "string"); ("minLength", JInt 1); ("maxLength", JInt 253);
        ("pattern", JStr "^spotschedules\.5spot\.finos\.org/[A-Za-z0-9][A-Za-z0-9.-]*$");
        ("x-kubernetes-validations", JArr [JObj [
           ("rule", JStr "self.startsWith('spotschedules.5spot.finos.org/')");
           ("message", JStr "spec.schedule.apiVersion group must be spotschedules.5spot.finos.org")]])].
Definition spot_schedule_kind_schema : json :=
  JObj [("type", JStr "string"); ("minLength", JInt 1); ("maxLength", JInt 63); ("pattern", JStr "^[A-Z][A-Za-z0-9]*$")].
Definition spot_schedule_name_schema : json :=
  JObj [("type", JStr "string"); ("minLength", JInt 1); ("maxLength", JInt 253);
        ("pattern", JStr "^[a-z0-9]([-a-z0-9]*[a-z0-9])?(\.[a-z0-9]([-a-z0-9]*[a-z0-9])?)*$")].
Definition kubeconfig_secret_name_schema : json :=
  JObj [("type", JStr "string"); ("minLength", JInt 1); ("maxLength", JInt 253);
        ("pattern", JStr "^[a-z0-9]([-a-z0-9]*[a-z0-9])?(\.[a-z0-9]([-a-z0-9]*[a-z0-9])?)*$")].
Definition kubeconfig_secret_key_schema : json :=
  JObj [("type", JStr "string"); ("minLength", JInt 1); ("maxLength", JInt 253); ("pattern", JStr "^[A-Za-z0-9._-]+$")].
Definition kata_config_name_schema : json :=
  JObj [("type", JStr "string"); ("minLength", JInt 1); ("maxLength", JInt 253);
        ("pattern", JStr "^[a-z0-9]([-a-z0-9]*[a-z0-9])?(\.[a-z0-9]([-a-z0-9]*[a-z0-9])?)*$")].
Definition kata_config_key_schema : json :=
  JObj [("type", JStr "string"); ("minLength", JInt 1); ("maxLength", JInt 253); ("pattern", JStr "^[A-Za-z0-9._-]+$")].
Definition kata_config_restart_service_schema : json :=
  JObj [("type", JStr "string"); ("minLength", JInt 1); ("maxLength", JInt 255); ("pattern", JStr "^[A-Za-z0-9@._-]+\.service$")].
Definition kata_config_namespace_schema : json :=
  JObj [("type", JStr "string"); ("minLength", JInt 1); ("maxLength", JInt 63); ("pattern", JStr "^[a-z0-9]([-a-z0-9]*[a-z0-9])?$")].
Definition string_map_schema (description : string) : json :=
  JObj [("type", JStr "object"); ("additionalProperties", JObj [("type", JStr "string")]); ("description", JStr description)].
Definition embedded_resource_schema : json :=
  JObj [
    ("type", JStr "object");
    ("required", JArr [JStr "apiVersion"; JStr "kind"; JStr "spec"]);
    ("properties", JObj [
       ("apiVersion", JObj [("type", JStr "string");
          ("description", JStr "API version of the resource (e.g., 'bootstrap.cluster.x-k8s.io/v1beta1')")]);
       ("kind", JObj [("type", JStr "string"); ("description", JStr "Kind of the resource (e.g., 'K0sWorkerConfig', 'RemoteMachine')")]);
       ("metadata", JObj [
          ("type", JStr "object");
          ("x-kubernetes-preserve-unknown-fields", JBool true);
          ("description", JStr "Optional labels/annotations to stamp on the created resource. Only 'labels' and 'annotations' are honoured; 'name' and 'namespace' are controller-owned and rejected at admission.");
          ("properties", JObj [
             ("labels", string_map_schema "Labels merged onto the created resource (reserved prefixes are rejected)");
             ("annotations", string_map_schema "Annotations merged onto the created resource (reserved prefixes are rejected)")])]);
       ("spec", JObj [("type", JStr "object"); ("x-kubernetes-preserve-unknown-fields", JBool true);
          ("description", JStr "Provider-specific configuration")])]);
    ("additionalProperties", JBool false)].
Definition condition_status_schema : json :=
  JObj [("type", JStr "string"); ("enum", JArr [JStr "True"; JStr "False"; JStr "Unknown"])].
Definition hour_of_day_schema : json :=
  JObj [("type", JStr "integer"); ("minimum", JInt 0); ("maximum", JInt 23)].
Definition iso_date_schema : json :=
  JObj [("type", JStr "string"); ("pattern", JStr "^[0-9]{4}-[0-9]{2}-[0-9]{2}$")].
Definition iso_date_list_schema : json :=
  JObj [("type", JStr "array"); ("maxItems", JInt 366);
        ("items", JObj [("type", JStr "string"); ("pattern", JStr "^[0-9]{4}-[0-9]{2}-[0-9]{2}$")])].

(** The expressions of the patterns. *)
Definition crd_patterns : list re :=
  [re_timezone; re_cluster_name; re_api_version; re_kind; re_dns_subdomain; dns_label; re_data_key; re_service; re_iso_date].

Lemma patterns_printed :
  anchored <$> crd_patterns =
    ["^[A-Za-z][A-Za-z0-9_+\-/]*$"; "^[A-Za-z0-9][A-Za-z0-9._-]*$";
     "^spotschedules\.5spot\.finos\.org/[A-Za-z0-9][A-Za-z0-9.-]*$"; "^[A-Z][A-Za-z0-9]*$";
     "^[a-z0-9]([-a-z0-9]*[a-z0-9])?(\.[a-z0-9]([-a-z0-9]*[a-z0-9])?)*$"; "^[a-z0-9]([-a-z0-9]*[a-z0-9])?$";
     "^[A-Za-z0-9._-]+$"; "^[A-Za-z0-9@._-]+\.service$"; "^[0-9]{4}-[0-9]{2}-[0-9]{2}$"].
Proof. vm_compute. reflexivity. Qed.

(** ** What the API server admits *)

(** Characters of a UTF-8 string. *)
Fixpoint char_count (s : string) : nat :=
  match s with
  | EmptyString => 0
  | String b s => (if continuation b then 0 else 1) + char_count s
  end.

Section admits.
Context (pattern_ok : string -> string -> Prop) (cel_ok : json -> json -> Prop).

(** The keywords without subschemas. *)
Definition keyword_ok (k : string) (a v : json) : Prop :=
  if decide (k = "type") then
    match a with
    | JStr t =>
        if decide (t = "string") then exists s, v = JStr s
        else if decide (t = "integer") then exists z, v = JInt z
        else if decide (t = "array") then exists l, v = JArr l
        else if decide (t = "object") then exists o, v = JObj o
        else False
    | _ => False
    end
  else if decide (k = "enum") then match a with JArr l => v ∈ l | _ => False end
  else if decide (k = "x-kubernetes-validations") then match a with JArr l => Forall (λ rule, cel_ok rule v) l | _ => False end
  else
    match a, v with
    | JInt n, JStr s =>
        (k = "minLength" -> (n <= Z.of_nat (char_count s))%Z) /\ (k = "maxLength" -> (Z.of_nat (char_count s) <= n)%Z)
    | JStr p, JStr s => k = "pattern" -> pattern_ok p s
    | JInt n, JArr l => k = "maxItems" -> (Z.of_nat (List.length l) <= n)%Z
    | JInt n, JInt z => (k = "minimum" -> (n <= z)%Z) /\ (k = "maximum" -> (z <= n)%Z)
    | JArr names, JObj o => k = "required" -> Forall (λ n, exists f x, n = JStr f /\ obj_get f o = Some x) names
    | _, _ => True
    end.

Definition declared (kws : list (string * json)) : list string :=
  match obj_get "properties" kws with Some (JObj ps) => ps.*1 | _ => [] end.

(** [admits schema value]: every keyword of the schema accepts the value. *)
Fixpoint admits (s v : json) : Prop :=
  match s with
  | JObj kws =>
      (fix all l : Prop :=
         match l with
         | [] => True
         | (k, a) :: l =>
             (if decide (k = "items") then match v with JArr xs => Forall (admits a) xs | _ => True end
              else if decide (k = "properties") then
                match v, a with
                | JObj o, JObj ps =>
                    (fix each ps : Prop :=
                       match ps with
                       | [] => True
                       | (f, sf) :: ps => match obj_get f o with Some x => admits sf x | None => True end /\ each ps
                       end) ps
                | _, _ => True
                end
              else if decide (k = "additionalProperties") then
                match v with
                | JObj o =>
                    match a with
                    | JBool b => b = false -> Forall (λ f, f.1 ∈ declared kws) o
                    | _ => Forall (λ f, f.1 ∈ declared kws \/ admits a f.2) o
                    end
                | _ => True
                end
              else keyword_ok k a v) /\ all l
         end) kws
  | _ => True
  end.
End admits.

(** The documented meaning of the patterns of the schemas: a pattern is matched
    by the strings of its expression. *)
Class PatternLaws (pattern_ok : string -> string -> Prop) : Prop :=
  pattern_means : forall r s, r ∈ crd_patterns -> (pattern_ok (anchored r) s <-> lang r s).

(** ** Facts *)

Lemma char_count_le s : char_count s <= String.length s.
Proof. induction s as [| b s IH]; cbn; [lia |]. destruct (continuation b); lia. Qed.
Lemma char_count_ascii s : is_ascii s = true -> char_count s = String.length s.
Proof.
  unfold is_ascii. induction s as [| b s IH]; [done |]. cbn. intros [Hb Hs]%andb_prop. rewrite IH by done.
  unfold continuation, in_range in *. rewrite bool_decide_eq_true in Hb. by rewrite bool_decide_false by lia.
Qed.

(** A property of the characters of the classes is one of the strings. *)
Fixpoint classes_ok (p : ascii -> bool) (r : re) : Prop :=
  match r with
  | Class l => forall c, in_class l c = true -> p c = true
  | Lit s => str_all p s = true
  | Dot => p "."%char = true
  | Seq r1 r2 => classes_ok p r1 /\ classes_ok p r2
  | Star r | Plus r | Opt r | Repeat r _ | Group r => classes_ok p r
  end.
Lemma lang_all p r s : lang r s -> classes_ok p r -> str_all p s = true.
Proof.
  induction 1; cbn; intros Hp; rewrite ?str_all_app, ?IHlang1, ?IHlang2; cbn; rewrite ?andb_true_r; auto; try tauto.
Qed.

(** One keyword of a schema. *)
Lemma admits_string pattern_ok cel kws v :
  admits pattern_ok cel (JObj kws) v ->
  forall k a, (k, a) ∈ kws -> k <> "items" -> k <> "properties" -> k <> "additionalProperties" -> keyword_ok pattern_ok cel k a v.
Proof.
  cbn [admits]. generalize (declared kws). intros dk. induction kws as [| [k' a'] kws IH]; intros Ha k a Hin H1 H2 H3;
    [by apply elem_of_nil in Hin |].
  destruct Ha as [Hk Ha]. apply elem_of_cons in Hin as [[= -> ->] | Hin]; [| by apply IH].
  by repeat case_decide.
Qed.

Section facts.
Context {pattern_ok : string -> string -> Prop} `{!PatternLaws pattern_ok} (cel : json -> json -> Prop).
Notation admits := (admits pattern_ok cel).

Lemma admits_pattern kws r s :
  admits (JObj kws) (JStr s) -> ("pattern", JStr (anchored r)) ∈ kws -> r ∈ crd_patterns -> lang r s.
Proof.
  intros Ha Hin Hr. apply pattern_means; [done |]. by apply (admits_string _ _ _ _ Ha _ _ Hin).
Qed.
Lemma admits_length kws s n :
  admits (JObj kws) (JStr s) ->
  (("minLength", JInt n) ∈ kws -> (n <= Z.of_nat (char_count s))%Z) /\ (("maxLength", JInt n) ∈ kws -> (Z.of_nat (char_count s) <= n)%Z).
Proof. intros Ha. split; intros Hin; by apply (admits_string _ _ _ _ Ha _ _ Hin). Qed.

Lemma classes_cluster_name : classes_ok cluster_name_byte re_cluster_name.
Proof. cbn. split; intros c; destruct c as [[] [] [] [] [] [] [] []]; by vm_compute. Qed.

Lemma admitted_cluster_name `{Externals} n :
  admits cluster_name_schema (JStr n) -> is_ok (validate_cluster_name n) = true.
Proof.
  intros Ha. assert (Hall : str_all cluster_name_byte n = true).
  { eapply lang_all; [| apply classes_cluster_name]. eapply (admits_pattern _ _ _ Ha); [cbn; set_solver | unfold crd_patterns; set_solver]. }
  destruct (admits_length _ _ 1 Ha) as [H1 _]. destruct (admits_length _ _ 63 Ha) as [_ H2].
  specialize (H1 ltac:(set_solver)). specialize (H2 ltac:(set_solver)).
  assert (Hlen : char_count n = String.length n).
  { apply char_count_ascii. unfold is_ascii. clear -Hall. induction n as [| c n IH]; [done |]. cbn in *. apply andb_prop in Hall as [Hc Hn].
    rewrite IH by done. rewrite andb_true_r. revert Hc. destruct c as [[] [] [] [] [] [] [] []]; by vm_compute. }
  apply validate_cluster_name_spec. split; [lia |]. by apply str_all_spec.
Qed.

Lemma admitted_schedule_ref `{Externals} r :
  admits spot_schedule_api_version_schema (JStr (ssr_api_version r)) -> is_ok (validate_schedule_ref r) = true.
Proof.
  intros Ha. apply validate_schedule_ref_spec.
  assert (Hl : lang re_api_version (ssr_api_version r)).
  { eapply (admits_pattern _ _ _ Ha); [cbn; set_solver | unfold crd_patterns; set_solver]. }
  unfold SpotScheduleRef.group. revert Hl. generalize (ssr_api_version r). intros s Hl. unfold re_api_version in Hl.
  repeat match goal with
  | H : lang (Seq _ _) _ |- _ => inversion H; clear H; subst
  | H : lang (Lit _) _ |- _ => inversion H; clear H; subst
  | H : lang Dot _ |- _ => inversion H; clear H; subst
  end.
  reflexivity.
Qed.

Lemma admitted_commands `{Externals} l :
  admits kill_if_commands_schema (JArr (JStr <$> l)) ->
  is_ok (validate_kill_if_commands (Some l)) = true <-> Forall (λ c, String.length c <= 256) l.
Proof.
  intros Ha. rewrite validate_kill_if_commands_spec.
  assert (Hlen : List.length l <= 100).
  { pose proof (admits_string _ _ _ _ Ha "maxItems" (JInt 100) ltac:(set_solver) ltac:(done) ltac:(done) ltac:(done)) as Hm.
    cbn in Hm. specialize (Hm eq_refl). rewrite length_fmap in Hm. lia. }
  assert (Hmin : Forall (λ c, 1 <= String.length c) l).
  { destruct Ha as (_ & _ & Hi & _).
    change (Forall (admits (JObj [("type", JStr "string"); ("minLength", JInt 1); ("maxLength", JInt 256)])) (JStr <$> l)) in Hi.
    rewrite Forall_fmap in Hi. eapply Forall_impl; [exact Hi |]. cbn beta.
    intros c Hc. destruct (admits_length _ _ 1 Hc) as [H1 _]. specialize (H1 ltac:(set_solver)). pose proof (char_count_le c). lia. }
  split.
  - intros Hl. destruct (Hl l eq_refl) as [_ Hc]. eapply Forall_impl; [exact Hc |]. unfold command_allowed. lia.
  - intros Hc l' [= <-]. split; [done |]. unfold command_allowed. rewrite !Forall_forall in *. naive_solver.
Qed.

(** An object of the schema of embedded resources. *)
Lemma admitted_embedded e :
  admits embedded_resource_schema (inner e) ->
  is_Some (EmbeddedResource.api_version e) /\ is_Some (EmbeddedResource.kind e) /\ is_Some (EmbeddedResource.spec e) /\
  forall field labels k v, field = "labels" \/ field = "annotations" ->
    jpath ["metadata"; field] (inner e) = Some (JObj labels) -> (k, v) ∈ labels -> exists s, v = JStr s.
Proof.
  destruct e as [v]. cbn [inner]. intros Ha.
  pose proof (admits_string _ _ _ _ Ha "type" (JStr "object") ltac:(left) ltac:(done) ltac:(done) ltac:(done)) as [o ->].
  pose proof (admits_string _ _ _ _ Ha "required" _ ltac:(right; left) ltac:(done) ltac:(done) ltac:(done)) as Hr.
  specialize (Hr eq_refl). rewrite !Forall_cons in Hr.
  destruct Hr as ((? & av & [= <-] & Hav) & (? & kd & [= <-] & Hkd) & (? & sp & [= <-] & Hsp) & _).
  destruct Ha as (_ & _ & (Pav & Pkd & Pmd & _ & _) & _ & _).
  unfold EmbeddedResource.api_version, EmbeddedResource.kind, EmbeddedResource.spec. cbn [inner jget].
  rewrite Hav in Pav |- *. rewrite Hkd in Pkd |- *. rewrite Hsp.
  destruct Pav as [[sa ->] _], Pkd as [[sk ->] _]. split_and!; [by eexists.. |].
  intros field labels k w Hf Hp Hin. cbn [jpath jget] in Hp.
  destruct (obj_get "metadata" o) as [md |]; [| done]. destruct Pmd as ([m ->] & _ & _ & (Pl & Pan & _) & _).
  cbn [jget] in Hp. destruct Hf as [-> | ->].
  - destruct (obj_get "labels" m) as [x |]; [| done]. injection Hp as ->. destruct Pl as (_ & Pq & _).
    change (Forall (λ f, f.1 ∈ [] \/ admits (JObj [("type", JStr "string")]) f.2) labels) in Pq.
    rewrite Forall_forall in Pq. destruct (Pq _ Hin) as [Hn | [Hs _]]; [by apply elem_of_nil in Hn | exact Hs].
  - destruct (obj_get "annotations" m) as [x |]; [| done]. injection Hp as ->. destruct Pan as (_ & Pq & _).
    change (Forall (λ f, f.1 ∈ [] \/ admits (JObj [("type", JStr "string")]) f.2) labels) in Pq.
    rewrite Forall_forall in Pq. destruct (Pq _ Hin) as [Hn | [Hs _]]; [by apply elem_of_nil in Hn | exact Hs].
Qed.
End facts.

(** ** Admission and the runtime checks *)

(** The API server admitted these fields of the spec. *)
Definition spec_admitted (pattern_ok : string -> string -> Prop) (cel : json -> json -> Prop) (s : ScheduledMachineSpec) : Prop :=
  admits pattern_ok cel cluster_name_schema (JStr (cluster_name s)) /\
  admits pattern_ok cel spot_schedule_api_version_schema (JStr (ssr_api_version (schedule s))) /\
  (forall l, kill_if_commands s = Some l -> admits pattern_ok cel kill_if_commands_schema (JArr (JStr <$> l))) /\
  admits pattern_ok cel embedded_resource_schema (inner (bootstrap_spec s)) /\
  admits pattern_ok cel embedded_resource_schema (inner (infrastructure_spec s)).

(** C27: admission covers the runtime checks, but for one: for a spec that the
    schemas admit, the reconciler's validation accepts the spec exactly when no
    kill command is longer than 256 bytes (the schema counts characters); and
    the two provider resources have the [apiVersion], [kind] and [spec] their
    creation requires, and only strings among their labels and annotations, so
    none is dropped when they are read. *)
Theorem admitted_spec_is_valid `{Externals} (pattern_ok : string -> string -> Prop) (cel : json -> json -> Prop) sm :
  PatternLaws pattern_ok -> spec_admitted pattern_ok cel (spec sm) ->
  (is_ok (validate_spec sm) = true <-> Forall (λ c, String.length c <= 256) (default [] (kill_if_commands (spec sm)))) /\
  forall e, e ∈ [bootstrap_spec (spec sm); infrastructure_spec (spec sm)] ->
    is_Some (EmbeddedResource.api_version e) /\ is_Some (EmbeddedResource.kind e) /\ is_Some (EmbeddedResource.spec e) /\
    forall field labels k v, field = "labels" \/ field = "annotations" ->
      jpath ["metadata"; field] (inner e) = Some (JObj labels) -> (k, v) ∈ labels -> exists s, v = JStr s.
Proof.
  intros Hl (Hn & Hs & Hc & Hb & Hi). split.
  - unfold validate_spec. apply (admitted_cluster_name cel) in Hn. destruct (validate_cluster_name _); [| done]. cbn [result_bind].
    apply (admitted_schedule_ref cel) in Hs. destruct (kill_if_commands (spec sm)) as [l |]; cbn [default].
    + specialize (Hc l eq_refl). apply (admitted_commands cel) in Hc. rewrite <- Hc. destruct (validate_kill_if_commands _); [| done].
      cbn [result_bind is_ok]. by rewrite Hs.
    + cbn. rewrite Hs. split; [by constructor | done].
  - intros e He. rewrite !elem_of_cons, elem_of_nil in He. destruct He as [-> | [-> | []]]; by eapply admitted_embedded.
Qed.

(** The patterns of the schemas, matched as their expressions. *)
Definition expression_match (p s : string) : Prop := exists r, r ∈ crd_patterns /\ p = anchored r /\ lang r s.
#[export] Instance expression_match_laws : PatternLaws expression_match.
Proof.
  intros r s Hr. split; [| by exists r]. intros (r' & Hr' & Hp & Hs).
  assert (Hnd : NoDup (anchored <$> crd_patterns)) by (rewrite patterns_printed; by apply (bool_decide_unpack _); vm_compute).
  assert (r = r') as ->; [| done]. revert Hnd Hr Hr' Hp. generalize crd_patterns. intros l. induction l as [| x l IH]; [set_solver |].
  rewrite fmap_cons, NoDup_cons. intros [Hx Hl] Hr Hr' Hp. rewrite !elem_of_cons in *.
  destruct Hr as [-> | Hr], Hr' as [-> | Hr']; [done | | | by apply IH]; destruct Hx; apply list_elem_of_fmap; eauto.
Qed.

Lemma star_class l s : str_all (in_class l) s = true -> lang (Star (Class l)) s.
Proof.
  induction s as [| c s IH]; cbn; [constructor |]. intros [Hc Hs]%andb_prop.
  apply (lang_star_cons _ (String c "") s); [by constructor | by apply IH].
Qed.

(** Two hundred accented letters: 200 characters, 400 bytes. *)
Definition long_command : string := Nat.iter 200 (λ s, bytes [195; 169] +:+ s) "".
Definition admitted_sm : ScheduledMachine := {|
  metadata := metadata sample_sm; status := None;
  spec := {| schedule := schedule (spec sample_sm); enabled := true; cluster_name := "prod";
     bootstrap_spec := bootstrap_spec (spec sample_sm); infrastructure_spec := infrastructure_spec (spec sample_sm);
     machine_template := None; priority := 50; graceful_shutdown_timeout := "5m"; node_drain_timeout := "5m";
     kill_switch := false; node_taints := []; kill_if_commands := Some [long_command]; kubeconfig_secret_ref := None; kata := None |} |}.

Lemma sample_embedded_admitted g k : admits expression_match (λ _ _, True) embedded_resource_schema (inner (sample_embedded g k)).
Proof.
  split; [by eexists |]. split.
  { intros _. repeat (constructor; [eexists _, _; by split |]). constructor. }
  split; [| split; [| done]].
  - split; [split; [by eexists | by split] |]. split; [split; [by eexists | by split] |]. split; [done |].
    split; [| done]. split; [by eexists |]. by split.
  - intros _. apply (bool_decide_unpack _). by vm_compute.
Qed.

Lemma admitted_spec_is_valid_witness :
  spec_admitted expression_match (λ _ _, True) (spec admitted_sm) /\ is_ok (validate_spec (H := toy_externals) admitted_sm) = false.
Proof.
  assert (Ha : spec_admitted expression_match (λ _ _, True) (spec admitted_sm)).
  { split; [| split; [| split]].
    - split; [by eexists |]. split; [split; [intros _; by vm_compute | done] |]. split; [split; [done | intros _; by vm_compute] |]. split; [| done].
      intros _. exists re_cluster_name. split; [unfold crd_patterns; set_solver |]. split; [by vm_compute |].
      apply (lang_seq _ _ "p" "rod"); [by constructor | by apply star_class].
    - split; [by eexists |]. split; [split; [intros _; by vm_compute | done] |]. split; [split; [done | intros _; by vm_compute] |]. split; [| by repeat constructor].
      intros _. exists re_api_version. split; [unfold crd_patterns; set_solver |]. split; [by vm_compute |].
      apply (lang_seq _ _ "spotschedules" _); [constructor |]. apply (lang_seq _ _ "." _); [constructor |].
      apply (lang_seq _ _ "5spot" _); [constructor |]. apply (lang_seq _ _ "." _); [constructor |].
      apply (lang_seq _ _ "finos" _); [constructor |]. apply (lang_seq _ _ "." _); [constructor |].
      apply (lang_seq _ _ "org/" _); [constructor |]. apply (lang_seq _ _ "v" "1alpha1"); [by constructor | by apply star_class].
    - intros l [= <-]. split; [by eexists |]. split; [intros _; by vm_compute |]. split; [| done].
      constructor; [| constructor]. split; [by eexists |]. split; [split; [intros _; by vm_compute | done] |].
      split; [split; [done | intros _; by vm_compute] | done].
    - split; apply sample_embedded_admitted. }
  split; [exact Ha |].
  destruct (proj1 (admitted_spec_is_valid (H := toy_externals) expression_match (λ _ _, True) admitted_sm expression_match_laws Ha)) as [Hv _].
  destruct (is_ok (validate_spec (H := toy_externals) admitted_sm)); [| reflexivity]. specialize (Hv eq_refl).
  cbn [kill_if_commands spec admitted_sm default] in Hv. apply Forall_cons in Hv as [Hv _]. exfalso. revert Hv. vm_compute. lia.
Defined.
